(* ===== verification/_CoqProject ===== *)
-Q . S2P
Prelude.v
GoLib.v
Model.v
Po.v
Env.v
Logic.v
Mem.v
Keys.v
Router.v
Cache.v
Calls.v
CacheRules.v
CacheCodec.v
CacheStats.v
LocalCache.v
Event.v
Quota.v
StrategyRepo.v
Demo.v
Armory.v
RuleTree.v
TreeTypes.v
RuleChain.v
Raffle.v
Activity.v
PartakeData.v
Frames.v
PartakeLedger.v
QuotaData.v
StockFacts.v
Recharge.v
Assemble.v
ActivityWiring.v
StrategyData.v
AwardStock.v
StrategyTables.v
StrategyPools.v
StrategyWiring.v
Award.v
Rebate.v
Tasks.v
Outbox.v
Consumers.v
OutboxSafety.v
Deliveries.v
Metrics.v
Asynq.v
Broker.v
Connections.v
Service.v
ServiceWiring.v
Crypto.v
Auth.v
AuthFacts.v
Dcc.v
Servers.v
Wire.v
Cdc.v
CdcMirror.v
CdcRun.v
