(* ===== verification/Prelude.v ===== *)
(** * lucky-market: a verification development

    The repository is the back end of a lottery: a user takes part in an activity against
    a quota, draws an award under the rules of a strategy, and is sent the award later.
    This library models its Go code -- the use cases of [internal/biz], the repositories
    of [internal/data], the services, jobs, listeners and middlewares around them, the
    servers of RabbitMQ, asynq and HTTP they run in, the connections and the metrics, the
    dynamic configuration, the table synchroniser and the caches of [pkg/cache] -- as
    executable definitions, and proves what the parts promise each other.

    ** How the code is represented

    A Go function is a computation [M S A := S -> res A * S] over a state ([Prelude]): it
    returns a value, fails with an [error] (a [gerr], whose constructors are the kinds of
    error the code tells apart) or panics; a pointer that may be nil is an [option].
    Integers are [Z], with the wrap-around of 64-bit arithmetic written out where the
    code computes ([wrap64]); strings are byte strings, [float64] is IEEE binary64.
    What is not in the repository is a type class of operations with a second class of
    laws, the documented behaviour the code relies on ([Env]): Redis as atomic commands
    on a keyspace with expiry, MySQL through gorm as tables with unique keys and
    transactions that may lose the answer of a commit, and the process environment
    (clock, randomness, message channels).  A repository runs on the product of the
    three; any operation of theirs may fail at any time.  [Mem] is a concrete state for
    each, which shows the laws consistent and on which the witnesses run the code.
    [Logic] gives weakest preconditions, [CacheRules] those of the cache, [Frames] the
    computations that leave the database or all stores alone.

    ** The files, and the code they model

    - [GoLib], [Crypto]: the standard library as far as it is used (strings, numbers,
      dates, floats, hashes, encodings).
    - [Model], [Po]: entities, constants and errors of [biz/*/model.go], [error.go];
      rows and conversions of [data/po].
    - [Keys], [Router], [Cache], [Event]: [data/keys.go], the database router of
      [data/data.go], [pkg/cache/cache.go], [pkg/rabbitmq/event.go] with
      [data/rabbitmq_publisher.go].  [CacheCodec] is the cache's default encoding,
      [CacheStats] its hit counters, [LocalCache] is [pkg/cache/local.go].
    - Drawing: [StrategyRepo] (the interface of [biz/strategy/repo.go], rule parsers),
      [Armory] (pools of [raffle_support.go]), [RuleTree] and [TreeTypes]
      ([rule_tree.go]), [RuleChain] ([rule_chain.go], with the chain's objects on a
      heap), [Raffle] ([strategy_usecase.go]); [StrategyData], [AwardStock],
      [StrategyTables], [StrategyPools], [StrategyWiring] ([data/strategy.go]).
      [Demo] is an in-memory repository for the witnesses.
    - Taking part: [Activity] ([biz/activity]); [Quota], [PartakeData], [PartakeLedger]
      ([data/activity_partake.go]); [QuotaData], [StockFacts], [Recharge], [Assemble]
      ([data/activity_quota.go]); [ActivityWiring] puts the two layers together.
    - Sending: [Award] ([biz/award], [data/award.go]), [Rebate] ([biz/rebate],
      [data/rebate.go]), [Tasks], [Outbox] and [OutboxSafety] ([biz/task],
      [data/task.go], [job/send_award_message.go]), [Consumers] and
      [Deliveries] (the other jobs, the listeners and the verdict on a delivery).
    - Servers: [Broker] ([server/rabbitmq_server.go] and the channel of the publisher, on
      a broker of exchanges and queues), [Asynq] ([server/asynq.go]), [Metrics]
      ([internal/metrics] and the three wrappers that measure a call), [Connections] (the
      rest of [data/data.go]), [Servers] ([server/http.go], [grpc.go], [mertrics.go],
      [pkg/logger], [cmd/big-market-kratos/main.go]).
    - [Service], [ServiceWiring]: the handlers of [internal/service], and the draw run on
      the real repositories.  [Wire]: the constructors, and the application that
      [cmd/big-market-kratos/wire_gen.go] builds of all the parts.
    - [Auth], [AuthFacts]: [server/middleware/auth.go].
    - [Dcc]: [internal/dcc], [server/middleware/degrade.go] and [middleware.go].
    - [Cdc], [CdcMirror], [CdcRun]: [internal/cdc] and [cmd/cdc-sync].

    A definition has the name of the Go function, with the receiver's or package's name
    before it where two share one ([Usecase_SaveUserAwardRecord], [data_SendMessage]);
    record fields carry a prefix of their struct.  Loops and transactions whose body the
    code writes inline are definitions of their own.

    ** The interfaces

    [StrategyRepo], [ActivityRepo], [AwardRepo], [RebateRepo] and [TaskRepo] are the
    repository interfaces of the use cases; [NewStrategyRepository] and its siblings are
    the instances.  The use cases are proved against the interface, with contracts as
    classes ([PoolLaws] of [Armory]), and the wiring files discharge them for the real
    repositories.  [Codec] is the marshalling of one type, [ElasticLaws] Elasticsearch,
    [JWTLibrary], [CanalLibrary] and [ConfigSource] the other libraries; [AmqpLaws] is the
    AMQP protocol, [PromLaws] the Prometheus client, [LfuLaws] and [ClockLaws] the local
    cache's library and the clock, [PackerLaws] msgpack and s2, [MySQLDriverLaws] gorm's
    driver; [OrderRecorder] is what the outbox job is promised of the orders it saves,
    [PublishLog] and [AsynqClientLaws] what the broker and the task queue hold.
    [ProcessEnvOps] of [Broker] interprets the publisher's part of the
    environment on a broker, [tiny_local_cache] of [LocalCache] and [hooked_redis] of
    [Metrics] are the program's instances of the interfaces of [Env]; the last obeys
    [RedisLaws] again, so the repositories may run on it.

    ** What is shown

    - Quotas and stocks under any interleaving: [Quota] (the scripts refine an abstract
      account and never oversell it), [Assemble], [StockFacts], [AwardStock] (the lock of
      a unit makes up for a counter put back), [StrategyTables].
    - Transactions: taking part, the ledger, recharges, award records and rebates are
      all-or-nothing on every outcome, lost answers included, and idempotent where they
      are redelivered ([PartakeData], [PartakeLedger], [Recharge], [Award], [Rebate],
      [Consumers]); the ledger moves once for any number of deliveries of an order
      ([Deliveries]).
    - The draw: pools give every award its share, the chain of objects refines the list
      of rules, the tree terminates when it is acyclic and never panics when it is well
      typed, and what is drawn is configured ([Armory], [RuleChain], [RuleTree],
      [TreeTypes], [StrategyWiring]).
    - End to end: in any history of the application that was wired, a draw that was
      answered has its order, record and task in the shard of its user ([Wire],
      [ServiceWiring], [ActivityWiring]); the job completes a task only after it was
      served ([OutboxSafety]) and drains the outbox while the services answer, both
      under any schedule of its goroutines ([Outbox]).
    - Messages and tasks: consumers lose no message in any interleaving, a successful
      start binds exactly the registered topics, what is published on another topic is in
      no queue ([Broker]); the debits of both stocks are enqueued where the server never
      takes them ([Asynq]).
    - The cache returns what the loader returns and its loop ends ([Cache]); its encoding
      is inverted ([CacheCodec]); the local cache answers the last write within its time
      to live ([LocalCache]); every key is routed to a database that was opened
      ([Connections]); weight rules survive printing and parsing ([StrategyRepo]).
    - The HTTP server answers as its handlers do, and asks for no identity ([Servers]);
      measuring changes no result ([Metrics]).
    - The middleware lets exactly signed and fresh requests through, under the identity
      that was signed ([AuthFacts]); the configuration's snapshot survives failing
      calls, concurrent saves and crashes ([Dcc]); the synchroniser's documents are the
      rows, provided that tables do not share an index ([CdcMirror]).

    Examples next to the theorems show behaviour that is not meant: colliding documents
    of shards, a stale snapshot, a [null] claim read as a user, a stock-zero message that
    is never acknowledged.

    ** Fuel and bounds

    [Once] retries after deleting an entry that does not decode: two rounds are enough
    ([Once_terminates]).  The loop of the rule tree takes fuel above the rank of the root
    in an acyclic tree ([process_terminates]); the heap of chain objects takes fuel for
    the length of the chain.  A goroutine of the outbox job makes at most three calls, so
    [wait] gives each three turns.  Everything else is structural.

    ** What is not modelled, and why

    The calls of the logger and of the metrics inside the use cases and repositories, and
    the cancellation of contexts, are left out there: they do not change what the code
    computes ([Metrics] shows it for the wrappers).  Generated code is left out,
    but for the output of the dependency injection; the routes protoc generates are
    arguments of [wireApp].  [singleflight] runs one caller at a
    time, and [Cache] leaves the hit counters to [CacheStats].  [TrimSpace] and [ToLower]
    are those of ASCII, and a format has no verbs but [%s] where [Connections] fills one.
    kratos, the JWT, AMQP, asynq, Prometheus, zap and canal libraries, the HTTP client,
    Redis, MySQL and Elasticsearch are parameters.  The
    routing of one outbox task is one step of its goroutine; the prefetch count of a
    consumer bounds what is outstanding and is not observed in [Broker]. *)
From Stdlib Require Import ZArith NArith Lia List Ascii String Permutation.
From stdpp Require Import base gmap strings list numbers.
Open Scope Z_scope.

(** ** Errors

    A Go [error] value.  [EKratos] is an [*errors.Error] of kratos: its code and
    reason are what [errors.Is] compares, [WithCause] and [WithMetadata] fill the
    last two fields.  [EWrap] is [fmt.Errorf] with a [%w] verb, [ENew] an error
    with only a text; the other constructors are the sentinel values the code
    compares with, and [EMySQL] and [EExt] are errors of the drivers. *)
Inductive gerr : Type :=
| ENew (text : string)
| EWrap (prefix : string) (inner : gerr)
| EKratos (code : Z) (reason message : string)
    (metadata : list (string * string)) (cause : option gerr)
| ERecordNotFound
| EDuplicatedKey
| ERedisNil
| ECacheMiss
| ERedisLocalCacheNil
| ECtxCanceled
| ECtxDeadlineExceeded
| ESkipRetry
| EMySQL (number : Z) (message : string)
| EExt (text : string).

(** [errors.Is(e, target)] for a target recognised by [same]: the chain of
    [Unwrap] is searched. *)
Fixpoint errors_is (same : gerr -> bool) (e : gerr) : bool :=
  same e ||
  match e with
  | EWrap _ i => errors_is same i
  | EKratos _ _ _ _ (Some c) => errors_is same c
  | _ => false
  end.

(** The [Is] method of a kratos error compares code and reason. *)
Definition is_kratos (code : Z) (reason : string) (e : gerr) : bool :=
  match e with
  | EKratos c r _ _ _ => (c =? code) && String.eqb r reason
  | _ => false
  end.

Definition same_kratos (target e : gerr) : bool :=
  match target with
  | EKratos c r _ _ _ => is_kratos c r e
  | _ => false
  end.

Definition is_not_found (e : gerr) : bool :=
  match e with ERecordNotFound => true | _ => false end.
Definition is_duplicated_key (e : gerr) : bool :=
  match e with EDuplicatedKey => true | _ => false end.
Definition is_ctx_canceled (e : gerr) : bool :=
  match e with ECtxCanceled => true | _ => false end.
Definition is_ctx_deadline (e : gerr) : bool :=
  match e with ECtxDeadlineExceeded => true | _ => false end.
Definition is_skip_retry (e : gerr) : bool :=
  match e with ESkipRetry => true | _ => false end.
Definition is_redis_nil (e : gerr) : bool :=
  match e with ERedisNil => true | _ => false end.

(** The constructors of kratos errors the code uses. *)
Definition BadRequest (reason msg : string) : gerr := EKratos 400 reason msg [] None.
Definition Unauthorized (reason msg : string) : gerr := EKratos 401 reason msg [] None.
Definition Forbidden (reason msg : string) : gerr := EKratos 403 reason msg [] None.
Definition NotFound (reason msg : string) : gerr := EKratos 404 reason msg [] None.
Definition InternalServer (reason msg : string) : gerr := EKratos 500 reason msg [] None.
Definition ServiceUnavailable (reason msg : string) : gerr := EKratos 503 reason msg [] None.

Definition WithCause (e cause : gerr) : gerr :=
  match e with
  | EKratos c r m md _ => EKratos c r m md (Some cause)
  | _ => e
  end.
Definition WithMetadata (e : gerr) (md : list (string * string)) : gerr :=
  match e with
  | EKratos c r m _ k => EKratos c r m md k
  | _ => e
  end.

(** ** Computations

    A Go function that may fail, panic and change a state [S].  A function that
    returns [(T, error)] either returns a value ([Ret]) or an error ([Fail]);
    functions whose callers use both results return a pair instead. *)
Inductive res (A : Type) : Type :=
| Ret (a : A)
| Fail (e : gerr)
| Panic (msg : string).
Arguments Ret {A} a.
Arguments Fail {A} e.
Arguments Panic {A} msg.

Definition M (S A : Type) : Type := S -> res A * S.

Definition ret {S A} (a : A) : M S A := fun s => (Ret a, s).
Definition fail {S A} (e : gerr) : M S A := fun s => (Fail e, s).
Definition panic {S A} (msg : string) : M S A := fun s => (Panic msg, s).
Definition bind {S A B} (m : M S A) (k : A -> M S B) : M S B := fun s =>
  match m s with
  | (Ret a, s') => k a s'
  | (Fail e, s') => (Fail e, s')
  | (Panic p, s') => (Panic p, s')
  end.

(** [x, err := m()] when the code goes on with the error in hand. *)
Definition attempt {S A} (m : M S A) : M S (A + gerr) := fun s =>
  match m s with
  | (Ret a, s') => (Ret (inl a), s')
  | (Fail e, s') => (Ret (inr e), s')
  | (Panic p, s') => (Panic p, s')
  end.

(** [if err := m(); err != nil { return wrap(err) }] *)
Definition with_err {S A} (wrap : gerr -> gerr) (m : M S A) : M S A := fun s =>
  match m s with
  | (Fail e, s') => (Fail (wrap e), s')
  | r => r
  end.

(** A pure function that may fail or panic, run without touching the state. *)
Definition lift_res {S A} (r : res A) : M S A := fun s => (r, s).

(** Run-time panics of the language. *)
Definition nil_deref : string :=
  "runtime error: invalid memory address or nil pointer dereference".
Definition index_out_of_range : string := "runtime error: index out of range".

(** Dereferencing a pointer. *)
Definition deref {S A} (p : option A) : M S A :=
  match p with Some a => ret a | None => panic nil_deref end.

Definition rbind {A B} (m : res A) (k : A -> res B) : res B :=
  match m with
  | Ret a => k a
  | Fail e => Fail e
  | Panic p => Panic p
  end.

Declare Scope go_scope.
Delimit Scope go_scope with go.
Notation "'let!' x ':=' m 'in' k" := (bind m (fun x => k))
  (at level 10, x binder, m at level 100, k at level 200) : go_scope.
Notation "'let?' x ':=' m 'in' k" := (rbind m (fun x => k))
  (at level 10, x binder, m at level 100, k at level 200) : go_scope.
Notation "m ;;; k" := (bind m (fun _ => k))
  (at level 199, right associativity) : go_scope.
Open Scope go_scope.

(** A [for] loop over a slice whose body may return early with an error. *)
Fixpoint for_each {S A} (l : list A) (body : A -> M S unit) : M S unit :=
  match l with
  | [] => ret tt
  | x :: l' => body x ;;; for_each l' body
  end.

(** ** Laws and inversion of the monad *)
Section MonadLaws.
Context {S : Type}.

Lemma bind_ret_l {A B} (a : A) (k : A -> M S B) (s : S) : bind (ret a) k s = k a s.
Proof. reflexivity. Qed.

Lemma bind_deref {A B} (a : A) (k : A -> M S B) (s : S) : bind (deref (Some a)) k s = k a s.
Proof. reflexivity. Qed.

Lemma bind_eq {A B} (m : M S A) (k : A -> M S B) s a s' :
  m s = (Ret a, s') -> bind m k s = k a s'.
Proof. intros E. unfold bind. by rewrite E. Qed.

Lemma bind_fail {A B} (m : M S A) (k : A -> M S B) s e s' :
  m s = (Fail e, s') -> bind m k s = (Fail e, s').
Proof. intros E. unfold bind. by rewrite E. Qed.

Lemma bind_panic {A B} (m : M S A) (k : A -> M S B) s p s' :
  m s = (Panic p, s') -> bind m k s = (Panic p, s').
Proof. intros E. unfold bind. by rewrite E. Qed.

Lemma bind_assoc {A B C} (m : M S A) (f : A -> M S B) (g : B -> M S C) s :
  bind (bind m f) g s = bind m (fun a => bind (f a) g) s.
Proof. unfold bind. by destruct (m s) as [[] ]. Qed.

Lemma bind_inv_ret {A B} (m : M S A) (k : A -> M S B) s b s2 :
  bind m k s = (Ret b, s2) -> exists a s1, m s = (Ret a, s1) /\ k a s1 = (Ret b, s2).
Proof. unfold bind. destruct (m s) as [[a|e|p] s1]; intros; [eauto | congruence..]. Qed.

Lemma bind_inv_fail {A B} (m : M S A) (k : A -> M S B) s e s2 :
  bind m k s = (Fail e, s2) ->
  m s = (Fail e, s2) \/ exists a s1, m s = (Ret a, s1) /\ k a s1 = (Fail e, s2).
Proof.
  unfold bind. destruct (m s) as [[a|e'|p] s1]; intros; [eauto | left; congruence | congruence].
Qed.

Lemma bind_ext {A B} (m : M S A) (k k' : A -> M S B) s :
  (forall a s', k a s' = k' a s') -> bind m k s = bind m k' s.
Proof. intros E. unfold bind. destruct (m s) as [[] ]; auto. Qed.

Lemma for_each_app {A} (l1 l2 : list A) (body : A -> M S unit) s :
  for_each (l1 ++ l2) body s = bind (for_each l1 body) (fun _ => for_each l2 body) s.
Proof.
  revert s. induction l1 as [|x l1 IH]; intros s; [done|]. simpl.
  rewrite bind_assoc. apply bind_ext. intros _ s'. apply IH.
Qed.

(** An invariant of the body is an invariant of the loop. *)
Lemma for_each_inv {A} (I : S -> Prop) (l : list A) (body : A -> M S unit) :
  (forall x s r s', I s -> body x s = (r, s') -> I s') ->
  forall s r s', I s -> for_each l body s = (r, s') -> I s'.
Proof.
  intros Hb. induction l as [|x l IH]; simpl; intros s r s' HI E.
  { unfold ret in E. congruence. }
  unfold bind in E. destruct (body x s) as [[u|e|p] s1] eqn:Ex.
  - exact (IH _ _ _ (Hb _ _ _ _ HI Ex) E).
  - injection E as <- <-. exact (Hb _ _ _ _ HI Ex).
  - injection E as <- <-. exact (Hb _ _ _ _ HI Ex).
Qed.
End MonadLaws.

(** [inv_bind H] splits a successful [bind] in [H] into its two steps. *)
Ltac inv_bind H :=
  let a := fresh "a" in let s1 := fresh "s" in let H1 := fresh "Hm" in
  apply bind_inv_ret in H as (a & s1 & H1 & H).

(** [go_case H] destructs the scrutinee a computation in [H] is stuck on. *)
Ltac go_case H :=
  match type of H with
  | context [match ?x with _ => _ end] => destruct x eqn:?
  end.

(** A result cannot be another kind of result. *)
Ltac go_discr :=
  unfold ret, fail, panic, deref, bind, attempt in *; simpl in *;
  first [ discriminate | let H := fresh in intros H; discriminate H
        | let H := fresh in intros H; inversion H ].

(** Finish goals in which two results of one computation disagree. *)
Ltac go_done := unfold ret, fail, panic in *; simplify_eq/=; try done; eauto.

Create HintDb golib.
#[export] Hint Rewrite @bind_ret_l @bind_deref : golib.

(** ** Machine integers

    Go's [int] and [int64] on the 64-bit platforms the program is built for. *)
Definition int64_min : Z := - 2 ^ 63.
Definition int64_max : Z := 2 ^ 63 - 1.
Definition wrap64 (z : Z) : Z := (z + 2 ^ 63) mod 2 ^ 64 - 2 ^ 63.
Definition in_int64 (z : Z) : Prop := int64_min <= z <= int64_max.
Definition wrap32 (z : Z) : Z := (z + 2 ^ 31) mod 2 ^ 32 - 2 ^ 31.

Lemma wrap64_id z : in_int64 z -> wrap64 z = z.
Proof.
  unfold in_int64, int64_min, int64_max, wrap64. intros.
  rewrite Z.mod_small; lia.
Qed.

Lemma wrap64_range z : in_int64 (wrap64 z).
Proof.
  unfold in_int64, int64_min, int64_max, wrap64.
  pose proof (Z.mod_pos_bound (z + 2 ^ 63) (2 ^ 64) ltac:(lia)). lia.
Qed.

(** ** Generic list lemmas *)
Section Lists.
Context {A B : Type}.

Lemma find_app (p : A -> bool) l1 l2 :
  List.find p (l1 ++ l2) =
  match List.find p l1 with Some x => Some x | None => List.find p l2 end.
Proof. induction l1 as [|x l1 IH]; simpl; [done|]. by destruct (p x). Qed.

Lemma filter_length_le (p : A -> bool) (l : list A) :
  (length (List.filter p l) <= length l)%nat.
Proof. induction l as [|x l IH]; simpl; [lia|]. destruct (p x); simpl; lia. Qed.

Lemma firstn_In_subset n (l : list A) x : In x (firstn n l) -> In x l.
Proof. intros H. rewrite <- (firstn_skipn n l). apply in_or_app. by left. Qed.

Lemma filter_map_all (p : A -> bool) (l : list A) :
  (forall x, In x l -> p x = true) -> List.filter p l = l.
Proof.
  induction l as [|x l IH]; simpl; intros H; [done|].
  rewrite (H x) by auto. f_equal. auto.
Qed.

Lemma filter_none (p : A -> bool) (l : list A) :
  (forall x, In x l -> p x = false) -> List.filter p l = [].
Proof.
  induction l as [|x l IH]; simpl; intros H; [done|].
  rewrite (H x) by auto. auto.
Qed.
End Lists.
