(* ===== verification/GoLib.v ===== *)
(** * GoLib: the parts of Go's standard library the program uses

    [strings], [strconv], [time] and [math] as far as the source calls them, on
    byte strings and 64-bit integers. *)
From Stdlib Require Import ZArith NArith Lia List Ascii String Decimal DecimalFacts DecimalString DecimalZ DecimalN DecimalPos SpecFloat.
From stdpp Require Import base gmap strings list numbers.
From S2P Require Import Prelude.
Open Scope Z_scope.

(** ** Strings *)

(** [strings.Split(s, sep)] for a one-byte separator. *)
Fixpoint Split (s : string) (sep : ascii) : list string :=
  match s with
  | EmptyString => [EmptyString]
  | String c s' =>
      if Ascii.eqb c sep then EmptyString :: Split s' sep
      else match Split s' sep with
           | [] => [String c EmptyString]
           | w :: ws => String c w :: ws
           end
  end.

(** [strings.Join(l, sep)] *)
Fixpoint Join (l : list string) (sep : string) : string :=
  match l with
  | [] => EmptyString
  | [x] => x
  | x :: l' => (x ++ sep ++ Join l' sep)%string
  end.

Fixpoint no_char (c : ascii) (s : string) : bool :=
  match s with
  | EmptyString => true
  | String d s' => negb (Ascii.eqb d c) && no_char c s'
  end.

Fixpoint all_chars (p : ascii -> bool) (s : string) : bool :=
  match s with
  | EmptyString => true
  | String d s' => p d && all_chars p s'
  end.

(** [strings.TrimRightFunc] with a test of ASCII characters. *)
Fixpoint TrimRightFunc (p : ascii -> bool) (s : string) : string :=
  match s with
  | EmptyString => EmptyString
  | String c s' =>
      match TrimRightFunc p s' with
      | EmptyString => if p c then EmptyString else String c EmptyString
      | t => String c t
      end
  end.

(** [unicode.IsSpace] on the UTF-8 encodings of one, two and three bytes: the ASCII
    spaces, U+0085 and U+00A0, and the category Z. *)
Definition is_space (c : ascii) : bool :=
  let n := Z.of_N (N_of_ascii c) in ((9 <=? n) && (n <=? 13)) || (n =? 32).

Definition is_space2 (c d : ascii) : bool :=
  let n := Z.of_N (N_of_ascii c) in let k := Z.of_N (N_of_ascii d) in
  (n =? 194) && ((k =? 133) || (k =? 160)).

Definition is_space3 (c d e : ascii) : bool :=
  let n := Z.of_N (N_of_ascii c) in let k := Z.of_N (N_of_ascii d) in
  let j := Z.of_N (N_of_ascii e) in
  ((n =? 225) && (k =? 154) && (j =? 128)) ||
  ((n =? 226) && (k =? 128) &&
     (((128 <=? j) && (j <=? 138)) || (j =? 168) || (j =? 169) || (j =? 175))) ||
  ((n =? 226) && (k =? 129) && (j =? 159)) ||
  ((n =? 227) && (k =? 128) && (j =? 128)).

Fixpoint TrimLeftSpace (s : string) : string :=
  match s with
  | String c s1 =>
      if is_space c then TrimLeftSpace s1 else
      match s1 with
      | String d s2 =>
          if is_space2 c d then TrimLeftSpace s2 else
          match s2 with
          | String e s3 => if is_space3 c d e then TrimLeftSpace s3 else s
          | EmptyString => s
          end
      | EmptyString => s
      end
  | EmptyString => s
  end.

(** Cut at the first place from which there are only spaces: encodings do not overlap,
    so this is where [DecodeLastRune] stops. *)
Fixpoint TrimRightSpace (s : string) : string :=
  match s with
  | EmptyString => EmptyString
  | String c s' =>
      if String.eqb (TrimLeftSpace s) EmptyString then EmptyString
      else String c (TrimRightSpace s')
  end.

(** [strings.TrimSpace] *)
Definition TrimSpace (s : string) : string := TrimRightSpace (TrimLeftSpace s).

(** [strings.ToLower] on ASCII text *)
Definition lower_ascii (c : ascii) : ascii :=
  let n := N_of_ascii c in
  if ((65 <=? n) && (n <=? 90))%N then ascii_of_N (n + 32) else c.

Fixpoint ToLower (s : string) : string :=
  match s with
  | EmptyString => EmptyString
  | String c s' => String (lower_ascii c) (ToLower s')
  end.

Definition HasPrefix (s prefix : string) : bool := String.prefix prefix s.

(** [s[n:]] for [n <= len(s)] *)
Fixpoint drop_str (n : nat) (s : string) : string :=
  match n, s with
  | O, _ => s
  | S n', String _ s' => drop_str n' s'
  | S _, EmptyString => EmptyString
  end.

(** [strings.Contains(s, sub)] *)
Fixpoint Contains (s sub : string) : bool :=
  String.prefix sub s ||
  match s with
  | EmptyString => false
  | String _ s' => Contains s' sub
  end.

Lemma no_char_app c s t : no_char c (s ++ t)%string = no_char c s && no_char c t.
Proof. induction s as [|d s IH]; simpl; [done|]. by rewrite IH, andb_assoc. Qed.

Lemma all_chars_app p s t : all_chars p (s ++ t)%string = all_chars p s && all_chars p t.
Proof. induction s as [|d s IH]; simpl; [done|]. by rewrite IH, andb_assoc. Qed.

Lemma all_chars_no_char p c s :
  all_chars p s = true -> p c = false -> no_char c s = true.
Proof.
  induction s as [|d s IH]; simpl; [done|]. intros [Hd Hs]%andb_prop Hc.
  rewrite IH by done. destruct (Ascii.eqb_spec d c); [congruence|done].
Qed.

Lemma str_app_cons (c : ascii) (s t : string) : (String c s ++ t)%string = String c (s ++ t)%string.
Proof. reflexivity. Qed.

(** What a trim leaves is a piece of the string. *)
Lemma TrimLeftSpace_suffix : forall s, exists p, s = (p ++ TrimLeftSpace s)%string.
Proof.
  fix IH 1. intros [|c s1]; [by exists ""%string|]. cbn [TrimLeftSpace].
  destruct (is_space c); [destruct (IH s1) as [p Hp]; exists (String c p); by rewrite !str_app_cons, <- Hp|].
  destruct s1 as [|d s2]; [by exists ""%string|].
  destruct (is_space2 c d); [destruct (IH s2) as [p Hp]; exists (String c (String d p)); by rewrite !str_app_cons, <- Hp|].
  destruct s2 as [|e s3]; [by exists ""%string|].
  destruct (is_space3 c d e); [|by exists ""%string].
  destruct (IH s3) as [p Hp]. exists (String c (String d (String e p))). by rewrite !str_app_cons, <- Hp.
Qed.

Lemma TrimRightSpace_prefix s : exists p, s = (TrimRightSpace s ++ p)%string.
Proof.
  induction s as [|c s IH]; [by exists ""%string|]. cbn [TrimRightSpace].
  destruct (String.eqb _ _); [by exists (String c s)|].
  destruct IH as [p Hp]. exists p. rewrite str_app_cons. by rewrite <- Hp.
Qed.

Lemma TrimSpace_no_char c s : no_char c s = true -> no_char c (TrimSpace s) = true.
Proof.
  destruct (TrimLeftSpace_suffix s) as [p Hp]. destruct (TrimRightSpace_prefix (TrimLeftSpace s)) as [q Hq].
  unfold TrimSpace. intros H. rewrite Hp, no_char_app in H. apply andb_true_iff in H as [_ H].
  rewrite Hq, no_char_app in H. by apply andb_true_iff in H as [H _].
Qed.

(** U+00A0 before and U+3000 after a word that holds a cut character. *)
Example TrimSpace_wide :
  TrimSpace (String "194" (String "160" (String " " ("a b" ++
    String "133" (String "227" (String "128" (String "128" EmptyString)))))))%string =
  ("a b" ++ String "133" EmptyString)%string.
Proof. reflexivity. Qed.

Lemma Split_not_nil s sep : Split s sep <> [].
Proof.
  induction s as [|c s IH]; simpl; [done|].
  destruct (Ascii.eqb c sep); [done|]. by destruct (Split s sep).
Qed.

Lemma Split_no_sep s sep : no_char sep s = true -> Split s sep = [s].
Proof.
  induction s as [|c s IH]; simpl; [done|]. intros [Hc Hs]%andb_prop.
  destruct (Ascii.eqb c sep); [done|]. by rewrite IH.
Qed.

Lemma Split_app_sep a b sep :
  no_char sep a = true -> Split (a ++ String sep b)%string sep = a :: Split b sep.
Proof.
  induction a as [|c a IH]; simpl.
  - by rewrite Ascii.eqb_refl.
  - intros [Hc Ha]%andb_prop. destruct (Ascii.eqb c sep); [done|]. by rewrite IH.
Qed.

(** Joining the parts gives back the string. *)
Lemma Join_Split s sep : Join (Split s sep) (String sep EmptyString) = s.
Proof.
  induction s as [|c s IH]; simpl; [done|].
  destruct (Ascii.eqb_spec c sep) as [->|].
  - pose proof (Split_not_nil s sep). destruct (Split s sep); [done|]. simpl in *. by rewrite IH.
  - destruct (Split s sep) as [|w [|w' ws]] eqn:E; [by destruct (Split_not_nil s sep)|..];
      cbn [Join] in *; by rewrite <- IH.
Qed.

Lemma str_app_assoc (a b c : string) : ((a ++ b) ++ c = a ++ (b ++ c))%string.
Proof. induction a as [|x a IH]; [done|]. by rewrite !str_app_cons, IH. Qed.

Lemma str_app_nil_r (a : string) : (a ++ EmptyString)%string = a.
Proof. induction a as [|x a IH]; [done|]. by rewrite !str_app_cons, IH. Qed.

Lemma str_app_inj_l (a b c : string) : (a ++ b = a ++ c)%string -> b = c.
Proof. induction a as [|x a IH]; [done|]. rewrite !str_app_cons. intros [= H]. auto. Qed.

Lemma no_char_Join c sep l :
  Forall (fun s => no_char c s = true) l -> no_char c sep = true ->
  no_char c (Join l sep) = true.
Proof.
  intros Hl Hs. induction Hl as [|x l Hx Hl IH]; [done|]. simpl. destruct l; [done|].
  rewrite !no_char_app, Hx, Hs. exact IH.
Qed.

Lemma Split_Join sep l :
  l <> [] -> Forall (fun s => no_char sep s = true) l ->
  Split (Join l (String sep EmptyString)) sep = l.
Proof.
  intros Hne Hl. induction Hl as [|x l Hx Hl IH]; [done|]. simpl. destruct l as [|y l].
  - by apply Split_no_sep.
  - change (String sep "" ++ ?z)%string with (String sep z).
    rewrite Split_app_sep by done. f_equal. by apply IH.
Qed.

Lemma prefix_app (p s : string) : String.prefix p (p ++ s)%string = true.
Proof.
  induction p as [|c p IH]; [by destruct s|]. rewrite str_app_cons. simpl.
  destruct (ascii_dec c c); done.
Qed.

Lemma prefix_split (p s : string) :
  String.prefix p s = true <-> exists t, s = (p ++ t)%string.
Proof.
  split.
  - revert s. induction p as [|c p IH]; intros s H; simpl in *; [by exists s|].
    destruct s as [|d s]; [done|]. simpl in H. destruct (ascii_dec c d) as [->|]; [|discriminate H].
    destruct (IH _ H) as [t ->]. exists t. reflexivity.
  - intros [t ->]. apply prefix_app.
Qed.

(** ** strconv *)
Definition FormatInt (z : Z) : string := NilZero.string_of_int (Z.to_int z).
Notation Itoa := FormatInt (only parsing).


(** [strconv.Quote]: the control characters of ASCII, quotes and backslashes are escaped,
    and the other bytes of a valid text are kept. *)
Definition quote_char (c : ascii) : string :=
  let n := N_of_ascii c in
  if (n =? 34)%N || (n =? 92)%N then String "\" (String c EmptyString)
  else if (n =? 7)%N then "\a" else if (n =? 8)%N then "\b"
  else if (n =? 9)%N then "\t" else if (n =? 10)%N then "\n"
  else if (n =? 11)%N then "\v" else if (n =? 12)%N then "\f"
  else if (n =? 13)%N then "\r"
  else if (n <? 32)%N || (n =? 127)%N then
    let hex k := ascii_of_N (if (k <? 10)%N then 48 + k else 87 + k) in
    String "\" (String "x" (String (hex (n / 16)%N) (String (hex (n mod 16)%N) EmptyString)))
  else String c EmptyString.

Fixpoint quote_chars (s : string) : string :=
  match s with
  | EmptyString => EmptyString
  | String c s' => (quote_char c ++ quote_chars s')%string
  end.

Definition Quote (s : string) : string :=
  (String "034" (quote_chars s) ++ String "034" EmptyString)%string.

(** [( *NumError).Error] *)
Definition num_error (fn s : string) : gerr :=
  ENew ("strconv." ++ fn ++ ": parsing " ++ Quote s ++ ": invalid syntax").
Definition range_error (fn s : string) : gerr :=
  ENew ("strconv." ++ fn ++ ": parsing " ++ Quote s ++ ": value out of range").

Definition parse_uint (s : string) : option Z :=
  option_map (fun d => Z.of_N (N.of_uint d)) (NilZero.uint_of_string s).

Definition in_int64b (z : Z) : bool := (int64_min <=? z) && (z <=? int64_max).

(** [strconv.ParseInt(s, 10, 64)], and [strconv.Atoi] with a 64-bit [int]. *)
Definition parse_int (fn s : string) : res Z :=
  let v :=
    match s with
    | EmptyString => None
    | String c s' =>
        if Ascii.eqb c "-" then option_map Z.opp (parse_uint s')
        else if Ascii.eqb c "+" then parse_uint s'
        else parse_uint s
    end in
  match v with
  | None => Fail (num_error fn s)
  | Some z => if in_int64b z then Ret z else Fail (range_error fn s)
  end.

Definition ParseInt (s : string) : res Z := parse_int "ParseInt" s.
Definition Atoi (s : string) : res Z := parse_int "Atoi" s.

Definition is_digit (c : ascii) : bool :=
  let n := Z.of_N (N_of_ascii c) in (48 <=? n) && (n <=? 57).

Lemma in_int64b_spec z : in_int64b z = true <-> in_int64 z.
Proof. unfold in_int64b, in_int64. rewrite andb_true_iff, !Z.leb_le. lia. Qed.

Lemma string_of_uint_digits d : all_chars is_digit (NilEmpty.string_of_uint d) = true.
Proof. induction d; simpl; auto. Qed.

Lemma string_of_uint_digits' d : all_chars is_digit (NilZero.string_of_uint d) = true.
Proof. destruct d; try done; apply string_of_uint_digits. Qed.

Lemma parse_uint_string d : parse_uint (NilZero.string_of_uint d) = Some (Z.of_N (N.of_uint d)).
Proof.
  unfold parse_uint. destruct d; try done; rewrite NilZero.usu by done; done.
Qed.

Lemma string_of_uint_head d : exists c s,
  NilZero.string_of_uint d = String c s /\ is_digit c = true.
Proof. destruct d; simpl; eexists _, _; split; reflexivity. Qed.

Lemma to_uint_nonneg z : 0 <= z -> Z.to_int z = Decimal.Pos (N.to_uint (Z.to_N z)).
Proof. intros. destruct z; try done. Qed.

Lemma of_uint_to_uint n : N.of_uint (N.to_uint n) = n.
Proof. apply DecimalN.Unsigned.of_to. Qed.

(** Printing an integer and parsing it gives it back, when it is an [int64]. *)
Lemma parse_int_printed fn z :
  parse_int fn (FormatInt z) = if in_int64b z then Ret z else Fail (range_error fn (FormatInt z)).
Proof.
  unfold parse_int, FormatInt. destruct (Z.le_gt_cases 0 z) as [H0|H0].
  - rewrite to_uint_nonneg by done. simpl.
    destruct (string_of_uint_head (N.to_uint (Z.to_N z))) as (c & s & E & Hc).
    pose proof (parse_uint_string (N.to_uint (Z.to_N z))) as Hp. rewrite E in Hp |- *.
    rewrite of_uint_to_uint, Z2N.id in Hp by done.
    destruct (Ascii.eqb_spec c "-") as [->|]; [done|].
    destruct (Ascii.eqb_spec c "+") as [->|]; [done|]. by rewrite Hp.
  - destruct z as [|p|p]; try lia. simpl.
    pose proof (parse_uint_string (N.to_uint (N.pos p))) as Hp.
    rewrite of_uint_to_uint in Hp. simpl in Hp. rewrite Hp. done.
Qed.

Lemma parse_int_no_panic fn s p : parse_int fn s <> Panic p.
Proof. unfold parse_int. repeat case_match; done. Qed.

Lemma ParseInt_no_panic s p : ParseInt s <> Panic p.
Proof. apply parse_int_no_panic. Qed.

Lemma Atoi_no_panic s p : Atoi s <> Panic p.
Proof. apply parse_int_no_panic. Qed.

Lemma parse_int_range fn s z : parse_int fn s = Ret z -> in_int64 z.
Proof.
  unfold parse_int. repeat case_match; try done; intros [= <-]; by apply in_int64b_spec.
Qed.

Lemma ParseInt_printed z :
  ParseInt (FormatInt z) = if in_int64b z then Ret z else Fail (range_error "ParseInt" (FormatInt z)).
Proof. apply parse_int_printed. Qed.

Lemma ParseInt_FormatInt z : in_int64 z -> ParseInt (FormatInt z) = Ret z.
Proof. intros Hz%in_int64b_spec. by rewrite ParseInt_printed, Hz. Qed.

Lemma Atoi_FormatInt z : in_int64 z -> Atoi (FormatInt z) = Ret z.
Proof. intros Hz%in_int64b_spec. unfold Atoi. by rewrite parse_int_printed, Hz. Qed.

Lemma FormatInt_inj x y : FormatInt x = FormatInt y -> x = y.
Proof.
  unfold FormatInt. intros H.
  assert (Hn : forall z, Z.to_int z <> Decimal.Pos Decimal.Nil /\ Z.to_int z <> Decimal.Neg Decimal.Nil).
  { intros [|p|p]; split; try done; simpl; intros [= E]; revert E;
      apply DecimalPos.Unsigned.to_uint_nonnil. }
  pose proof (NilZero.isi (Z.to_int x) (proj1 (Hn x)) (proj2 (Hn x))) as H1.
  pose proof (NilZero.isi (Z.to_int y) (proj1 (Hn y)) (proj2 (Hn y))) as H2.
  rewrite H in H1. apply DecimalZ.to_int_inj. congruence.
Qed.

(** The integer a string prints. *)
Definition printed (s : string) : option Z :=
  match NilZero.int_of_string s with
  | Some d => if String.eqb (FormatInt (Z.of_int d)) s then Some (Z.of_int d) else None
  | None => None
  end.

Lemma printed_FormatInt z : printed (FormatInt z) = Some z.
Proof.
  unfold printed. unfold FormatInt at 1. rewrite NilZero.isi.
  - rewrite DecimalZ.of_to, String.eqb_refl. done.
  - destruct z as [|p|p]; try done. simpl. intros [= E]. revert E. apply DecimalPos.Unsigned.to_uint_nonnil.
  - destruct z as [|p|p]; try done. simpl. intros [= E]. revert E. apply DecimalPos.Unsigned.to_uint_nonnil.
Qed.

Lemma printed_spec s z : printed s = Some z <-> s = FormatInt z.
Proof.
  split; [|intros ->; apply printed_FormatInt]. unfold printed.
  destruct (NilZero.int_of_string s); [|done].
  destruct (String.eqb_spec (FormatInt (Z.of_int s0)) s) as [<-|]; [|done]. by intros [= ->].
Qed.

Definition int_char (c : ascii) : bool := is_digit c || Ascii.eqb c "-".

Lemma FormatInt_chars z : all_chars int_char (FormatInt z) = true.
Proof.
  assert (H : forall s, all_chars is_digit s = true -> all_chars int_char s = true).
  { induction s as [|c s IH]; simpl; [done|]. intros [Hc Hs]%andb_prop.
    rewrite IH by done. unfold int_char. by rewrite Hc. }
  unfold FormatInt. destruct (Z.to_int z); simpl; apply H, string_of_uint_digits'.
Qed.

Lemma FormatInt_no_char c z : int_char c = false -> no_char c (FormatInt z) = true.
Proof. intros H. eapply all_chars_no_char; [apply FormatInt_chars | done]. Qed.

Lemma FormatInt_not_empty z : FormatInt z <> EmptyString.
Proof.
  unfold FormatInt. destruct (Z.to_int z) as [d|d]; simpl; [|done].
  destruct (string_of_uint_head d) as (? & ? & -> & _). done.
Qed.

#[export] Hint Resolve FormatInt_no_char FormatInt_not_empty Split_not_nil : golib.

(** [fmt.Sprintf("%0<w>d", z)] for [z >= 0] *)
Fixpoint zeros (n : nat) : string :=
  match n with O => EmptyString | S n' => String "0" (zeros n') end.
Definition fmt_0d (w : nat) (z : Z) : string :=
  let s := FormatInt z in (zeros (w - String.length s) ++ s)%string.

(** ** How many digits *)
Lemma of_uint_acc_ge d acc :
  (Z.pos acc * 10 ^ Z.of_nat (nb_digits d) <= Z.pos (Pos.of_uint_acc d acc)).
Proof.
  revert acc. induction d as [|d IH|d IH|d IH|d IH|d IH|d IH|d IH|d IH|d IH|d IH]; intros acc;
    cbn [nb_digits Pos.of_uint_acc]; [change (10 ^ Z.of_nat 0) with 1; lia|..];
    (etransitivity; [|apply IH]); rewrite Nat2Z.inj_succ, Z.pow_succ_r by lia;
    rewrite ?Pos2Z.inj_add, ?Pos2Z.inj_mul;
    generalize (Z.pow_pos_nonneg 10 (Z.of_nat (nb_digits d)) ltac:(lia) ltac:(lia)); nia.
Qed.

Lemma of_uint_ge d : unorm d = d -> d <> zero ->
  10 ^ Z.of_nat (pred (nb_digits d)) <= Z.of_N (N.of_uint d).
Proof.
  intros Hn Hz. destruct d as [|d|d|d|d|d|d|d|d|d|d].
  1: discriminate Hn.
  1: { exfalso. pose proof (nb_digits_nzhead d) as Hl. unfold unorm in Hn. simpl in Hn.
       destruct (nzhead d) eqn:E; try discriminate Hn.
       - injection Hn as <-. done.
       - injection Hn as ->. simpl in Hl. lia. }
  all: simpl pred; unfold N.of_uint; cbn [Pos.of_uint Z.of_N];
    (etransitivity; [|apply of_uint_acc_ge]);
    generalize (Z.pow_pos_nonneg 10 (Z.of_nat (nb_digits d)) ltac:(lia) ltac:(lia)); lia.
Qed.

Lemma unorm_to_uint n : unorm (N.to_uint n) = N.to_uint n.
Proof. rewrite <- DecimalN.Unsigned.to_of. by rewrite of_uint_to_uint. Qed.

Lemma string_of_uint_length d : d <> Nil -> String.length (NilZero.string_of_uint d) = nb_digits d.
Proof.
  assert (H : forall d, String.length (NilEmpty.string_of_uint d) = nb_digits d)
    by (clear; intros d; induction d; simpl; congruence).
  intros Hd. destruct d; [done|..]; simpl; by rewrite H.
Qed.

(** A number below [10 ^ w] has at most [w] digits. *)
Lemma FormatInt_length z (w : nat) :
  0 <= z < 10 ^ Z.of_nat w -> (0 < w)%nat -> (String.length (FormatInt z) <= w)%nat.
Proof.
  intros [H0 Hw] Hp. unfold FormatInt. rewrite to_uint_nonneg by done. simpl.
  assert (Hne : N.to_uint (Z.to_N z) <> Nil).
  { intros E. pose proof (unorm_to_uint (Z.to_N z)) as Hu. rewrite E in Hu. discriminate Hu. }
  rewrite string_of_uint_length by done.
  destruct (Decimal.uint_eq_dec (N.to_uint (Z.to_N z)) zero) as [->|Hz]; [simpl; lia|].
  pose proof (of_uint_ge _ (unorm_to_uint _) Hz) as Hge. rewrite of_uint_to_uint, Z2N.id in Hge by done.
  destruct (le_lt_dec (nb_digits (N.to_uint (Z.to_N z))) w) as [|Hlt]; [done|].
  exfalso. assert (10 ^ Z.of_nat w <= 10 ^ Z.of_nat (pred (nb_digits (N.to_uint (Z.to_N z))))); [|lia].
  apply Z.pow_le_mono_r; lia.
Qed.

Lemma zeros_length n : String.length (zeros n) = n.
Proof. induction n; simpl; congruence. Qed.

Lemma str_length_app (a b : string) : String.length (a ++ b) = (String.length a + String.length b)%nat.
Proof. induction a as [|x a IH]; [done|]. rewrite str_app_cons. simpl. by rewrite IH. Qed.

(** Zero padding makes the width exact. *)
Lemma fmt_0d_length (w : nat) z :
  0 <= z < 10 ^ Z.of_nat w -> (0 < w)%nat -> String.length (fmt_0d w z) = w.
Proof.
  intros Hz Hw. unfold fmt_0d. rewrite str_length_app, zeros_length.
  pose proof (FormatInt_length z w Hz Hw). lia.
Qed.

(** ** time

    An instant is a number of nanoseconds since the Unix epoch; formatting in a
    location needs the offset of the location at that instant. *)
Notation time := Z (only parsing).
Definition zero_time : time := -62135596800 * 1000000000.
Definition IsZero (t : time) : bool := t =? zero_time.
Definition Before (t u : time) : bool := t <? u.
Definition After (t u : time) : bool := u <? t.
Definition Second : Z := 1000000000.
Definition Minute : Z := 60 * Second.
Definition Hour : Z := 60 * Minute.
Definition Unix (t : time) : Z := t / Second.
Definition time_Unix (sec : Z) : time := sec * Second.

(** Days since 1970-01-01 to year, month, day of the proleptic Gregorian calendar. *)
Definition civil_of_days (days : Z) : Z * Z * Z :=
  let z := days + 719468 in
  let era := z / 146097 in
  let doe := z mod 146097 in
  let yoe := (doe - doe / 1460 + doe / 36524 - doe / 146096) / 365 in
  let doy := doe - (365 * yoe + yoe / 4 - yoe / 100) in
  let mp := (5 * doy + 2) / 153 in
  let d := doy - (153 * mp + 2) / 5 + 1 in
  let m := if mp <? 10 then mp + 3 else mp - 9 in
  let y := yoe + era * 400 + (if m <=? 2 then 1 else 0) in
  (y, m, d).

Definition local_days (offset : Z) (t : time) : Z := (Unix t + offset) / 86400.

(** [t.Format("2006-01")], [t.Format("2006-01-02")], [t.Format("20060102")] *)
Definition format_month (offset : Z) (t : time) : string :=
  let '(y, m, _) := civil_of_days (local_days offset t) in
  (fmt_0d 4 y ++ "-" ++ fmt_0d 2 m)%string.
Definition format_day (offset : Z) (t : time) : string :=
  let '(y, m, d) := civil_of_days (local_days offset t) in
  (fmt_0d 4 y ++ "-" ++ fmt_0d 2 m ++ "-" ++ fmt_0d 2 d)%string.
Definition format_compact (offset : Z) (t : time) : string :=
  let '(y, m, d) := civil_of_days (local_days offset t) in
  (fmt_0d 4 y ++ fmt_0d 2 m ++ fmt_0d 2 d)%string.

(** The day string extends the month string. *)
Lemma format_day_month offset t :
  exists d, format_day offset t = (format_month offset t ++ "-" ++ fmt_0d 2 d)%string.
Proof.
  unfold format_day, format_month.
  destruct (civil_of_days (local_days offset t)) as [[y m] d]. exists d.
  by rewrite !str_app_assoc.
Qed.

Example format_day_epoch : format_day 0 0 = "1970-01-01".
Proof. vm_compute. reflexivity. Qed.
Example format_day_leap : format_day 28800 (1709193599 * Second) = "2024-02-29".
Proof. vm_compute. reflexivity. Qed.

(** ** float64

    IEEE 754 binary64 as Stdlib's [SpecFloat]. *)
Definition float64 := spec_float.
Definition prec : Z := 53.
Definition emax : Z := 1024.
Definition fadd := SFadd prec emax.
Definition fmul := SFmul prec emax.
Definition fdiv := SFdiv prec emax.
Definition float_of_Z (z : Z) : float64 := binary_normalize prec emax z 0 false.

(** The float64 nearest to [p / 10^d] (what a decimal literal denotes). *)
Definition float_of_decimal (p : Z) (d : nat) : float64 :=
  match p with
  | Zpos m =>
      let '(mz, ez, lz) := SFdiv_core_binary prec emax (Zpos m) 0 (10 ^ Z.of_nat d) 0 in
      binary_round_aux prec emax false mz ez lz
  | Zneg m =>
      let '(mz, ez, lz) := SFdiv_core_binary prec emax (Zpos m) 0 (10 ^ Z.of_nat d) 0 in
      binary_round_aux prec emax true mz ez lz
  | Z0 => S754_zero false
  end.

(** [floor(m * 2^e * 10^d)] *)
Definition scaled_floor (m : positive) (e : Z) (d : nat) : Z :=
  let n := Zpos m * 10 ^ Z.of_nat d in
  if 0 <=? e then n * 2 ^ e else n / 2 ^ (- e).

Definition float_eqb (x y : float64) : bool :=
  match x, y with
  | S754_finite s m e, S754_finite s' m' e' => Bool.eqb s s' && Pos.eqb m m' && (e =? e')
  | _, _ => false
  end.

(** The decimal with [d] decimals that reads back as [x > 0], if there is one. *)
Definition decimal_at (m : positive) (e : Z) (d : nat) : option Z :=
  let lo := scaled_floor m e d in
  let x := S754_finite false m e in
  let lo_ok := float_eqb (float_of_decimal lo d) x in
  let hi_ok := float_eqb (float_of_decimal (lo + 1) d) x in
  if lo_ok && hi_ok then
    (* both read back: the nearer one *)
    if scaled_floor m (e + 1) d - 2 * lo <=? 0 then Some lo else Some (lo + 1)
  else if lo_ok then Some lo
  else if hi_ok then Some (lo + 1)
  else None.

Fixpoint shortest_decimal (fuel d : nat) (m : positive) (e : Z) : Z * nat :=
  match decimal_at m e d, fuel with
  | Some p, _ => (p, d)
  | None, S fuel' => shortest_decimal fuel' (S d) m e
  | None, O => (scaled_floor m e d, d)
  end.

(** A finite float64 is a multiple of [2^-1074], so 1074 decimals are enough. *)
Definition shortest (m : positive) (e : Z) : Z * nat := shortest_decimal 1074 0 m e.

(** [strconv.FormatFloat(x, 'f', -1, 64)] *)
Definition FormatFloat (x : float64) : string :=
  match x with
  | S754_nan => "NaN"
  | S754_infinity s => if s then "-Inf" else "+Inf"
  | S754_zero s => if s then "-0" else "0"
  | S754_finite s m e =>
      let '(p, d) := shortest m e in
      let q := 10 ^ Z.of_nat d in
      ((if s then "-" else "") ++ FormatInt (p / q) ++
       (match d with O => "" | _ => "." ++ fmt_0d d (p mod q) end))%string
  end.

(** [math.Pow(10, k)] for the exponents the program forms: the nearest float64
    (exact up to [k = 22]). *)
Definition Pow10 (k : Z) : float64 := float_of_Z (10 ^ k).

(** [int(x)], and [int(math.Round(x))] (half away from zero).  A value that has no
    [int] gives the amd64 result. *)
Definition float_to_int (x : float64) : Z :=
  match x with
  | S754_zero _ => 0
  | S754_finite s m e =>
      let a := if 0 <=? e then Zpos m * 2 ^ e else Zpos m / 2 ^ (- e) in
      let v := if s then - a else a in
      if in_int64b v then v else int64_min
  | _ => int64_min
  end.
Definition round_to_int (x : float64) : Z :=
  match x with
  | S754_zero _ => 0
  | S754_finite s m e =>
      let a := if 0 <=? e then Zpos m * 2 ^ e else (2 * Zpos m + 2 ^ (- e)) / (2 * 2 ^ (- e)) in
      let v := if s then - a else a in
      if in_int64b v then v else int64_min
  | _ => int64_min
  end.

Example format_float_1 : FormatFloat (float_of_decimal 3 1) = "0.3".
Proof. vm_compute. reflexivity. Qed.
Example format_float_2 : FormatFloat (float_of_decimal 100125 4) = "10.0125".
Proof. vm_compute. reflexivity. Qed.
Example format_float_3 : FormatFloat (fadd (float_of_decimal 1 1) (float_of_decimal 2 1))
  = "0.30000000000000004".
Proof. vm_compute. reflexivity. Qed.
Example format_float_4 : FormatFloat (float_of_Z 80) = "80".
Proof. vm_compute. reflexivity. Qed.
Example round_half : round_to_int (float_of_decimal 25 1) = 3.
Proof. vm_compute. reflexivity. Qed.

(** ** The runes of a string

    [for _, c := range s]: UTF-8, with U+FFFD for each byte that starts no valid
    encoding. *)
Definition byte_val (c : ascii) : Z := Z.of_N (N_of_ascii c).
Definition between (lo hi b : Z) : bool := (lo <=? b) && (b <=? hi).

Fixpoint runes (s : string) : list Z :=
  match s with
  | EmptyString => []
  | String c1 s1 =>
      let b1 := byte_val c1 in
      let bad (_ : unit) := 65533 :: runes s1 in
      if b1 <? 128 then b1 :: runes s1
      else match s1 with
      | String c2 s2 =>
          let b2 := byte_val c2 in
          if between 194 223 b1 && between 128 191 b2
          then ((b1 - 192) * 64 + (b2 - 128)) :: runes s2
          else match s2 with
          | String c3 s3 =>
              let b3 := byte_val c3 in
              let lo := if b1 =? 224 then 160 else 128 in
              let hi := if b1 =? 237 then 159 else 191 in
              if between 224 239 b1 && between lo hi b2 && between 128 191 b3
              then ((b1 - 224) * 4096 + (b2 - 128) * 64 + (b3 - 128)) :: runes s3
              else match s3 with
              | String c4 s4 =>
                  let b4 := byte_val c4 in
                  let lo := if b1 =? 240 then 144 else 128 in
                  let hi := if b1 =? 244 then 143 else 191 in
                  if between 240 244 b1 && between lo hi b2 && between 128 191 b3 && between 128 191 b4
                  then ((b1 - 240) * 262144 + (b2 - 128) * 4096 + (b3 - 128) * 64 + (b4 - 128)) :: runes s4
                  else bad tt
              | EmptyString => bad tt
              end
          | EmptyString => bad tt
          end
      | EmptyString => bad tt
      end
  end.

Example runes_ex : runes "a库é" = [97; 24211; 233].
Proof. vm_compute. reflexivity. Qed.

Lemma between_spec lo hi b : between lo hi b = true <-> lo <= b <= hi.
Proof. unfold between. rewrite andb_true_iff, !Z.leb_le. done. Qed.

Lemma byte_val_range c : 0 <= byte_val c < 256.
Proof.
  unfold byte_val. pose proof (N_ascii_bounded c). lia.
Qed.

(** ** Error texts

    [err.Error()] of the errors the code searches for a substring. *)
Fixpoint error_text (e : gerr) : string :=
  match e with
  | ENew t => t
  | EWrap p i => (p ++ error_text i)%string
  | EKratos code reason message _ cause =>
      ("error: code = " ++ FormatInt code ++ " reason = " ++ reason ++ " message = " ++ message ++
       " metadata = map[] cause = " ++
       match cause with Some c => error_text c | None => "<nil>" end)%string
  | ERecordNotFound => "record not found"
  | EDuplicatedKey => "duplicated key not allowed"
  | ERedisNil => "redis: nil"
  | ECacheMiss => "cache: key is missing"
  | ERedisLocalCacheNil => "cache: both Redis and LocalCache are nil"
  | ECtxCanceled => "context canceled"
  | ECtxDeadlineExceeded => "context deadline exceeded"
  | ESkipRetry => "skip retry for the task"
  | EMySQL n msg => ("Error " ++ FormatInt n ++ ": " ++ msg)%string
  | EExt t => t
  end.

(** [errors.Is(err, gorm.ErrDuplicatedKey) || strings.Contains(err.Error(), "Duplicate entry")] *)
Definition is_duplicate_entry (e : gerr) : bool :=
  errors_is is_duplicated_key e || Contains (error_text e) "Duplicate entry".

Lemma Contains_app_r (a b sub : string) : Contains b sub = true -> Contains (a ++ b)%string sub = true.
Proof.
  intros H. induction a as [|c a IH]; [done|]. rewrite str_app_cons.
  change (String.prefix sub (String c (a ++ b)) || Contains (a ++ b)%string sub = true).
  rewrite IH. apply orb_true_r.
Qed.

Lemma is_duplicate_entry_mysql n msg :
  Contains msg "Duplicate entry" = true -> is_duplicate_entry (EMySQL n msg) = true.
Proof.
  intros H. unfold is_duplicate_entry. cbn [error_text]. apply orb_true_iff. right.
  rewrite <- !str_app_assoc. by apply Contains_app_r.
Qed.

(** [hex.EncodeToString] *)
Definition hex_digit (n : Z) : ascii :=
  ascii_of_N (Z.to_N (if n <? 10 then 48 + n else 87 + n)).
Fixpoint hex_encode (bytes : list Z) : string :=
  match bytes with
  | [] => EmptyString
  | b :: rest => String (hex_digit (b / 16)) (String (hex_digit (b mod 16)) (hex_encode rest))
  end.

(** [t.Format("0601021504")] *)
Definition format_short (offset : Z) (t : time) : string :=
  let '(y, m, d) := civil_of_days (local_days offset t) in
  let sec := (Unix t + offset) mod 86400 in
  (fmt_0d 2 (y mod 100) ++ fmt_0d 2 m ++ fmt_0d 2 d ++
   fmt_0d 2 (sec / 3600) ++ fmt_0d 2 (sec / 60 mod 60))%string.

Example format_short_ex : format_short 28800 (1709193599 * Second) = "2402291559".
Proof. vm_compute. reflexivity. Qed.
Example hex_ex : hex_encode [0; 255; 26] = "00ff1a"%string.
Proof. vm_compute. reflexivity. Qed.
