(* ===== verification/Model.v ===== *)
(** * Model: the entities, constants and errors of the business packages

    [internal/biz/*/model.go] and [error.go], and [pkg/common].  A Go struct is a
    record whose fields carry a prefix of the struct's name; a pointer that the
    code tests against [nil] is an [option]. *)
From Stdlib Require Import ZArith List Ascii String.
From stdpp Require Import base gmap strings list numbers.
From S2P Require Import Prelude GoLib.
Open Scope Z_scope.
#[local] Open Scope string_scope.

(** ** pkg/common *)
Definition SPLIT : ascii := ",".
Definition SPACE : ascii := " ".
Definition COLON : ascii := ":".
Definition UNDERLINE : string := "_".

(** ** internal/biz/strategy *)
Notation RuleTreeName := string (only parsing).
Notation RuleChainName := string (only parsing).
Definition RuleBlacklist : RuleChainName := "rule_blacklist".
Definition RuleWeight : RuleChainName := "rule_weight".
Definition RuleDefault : RuleChainName := "rule_default".
Definition RuleLock : RuleTreeName := "rule_lock".
Definition RuleLuckAward : RuleTreeName := "rule_luck_award".
Definition RuleStock : RuleTreeName := "rule_stock".

Inductive RuleLimitType := EQUAL | GT | LT | GE | LE.
Inductive RuleLogicCheckType := RuleCheckAllow | RuleCheckTakeOver.

#[export] Instance RuleLimitType_eq_dec : EqDecision RuleLimitType.
Proof. solve_decision. Defined.
#[export] Instance RuleLogicCheckType_eq_dec : EqDecision RuleLogicCheckType.
Proof. solve_decision. Defined.

Record Strategy := mkStrategy {
  st_StrategyID : Z;
  st_StrategyDesc : string;
  st_RuleModels : string }.

Record StrategyRule := mkStrategyRule {
  sr_StrategyID : Z;
  sr_AwardID : Z;
  sr_RuleType : Z;
  sr_RuleModel : string;
  sr_RuleValue : string;
  sr_RuleDesc : string }.

Record StrategyAward := mkStrategyAward {
  sa_StrategyID : Z;
  sa_AwardID : Z;
  sa_AwardTitle : string;
  sa_AwardSubtitle : string;
  sa_AwardCount : Z;
  sa_AwardCountSurplus : Z;
  sa_AwardRate : float64;
  sa_Sort : Z;
  sa_RuleModels : string }.

Record RaffleAward := mkRaffleAward {
  ra_AwardID : Z;
  ra_AwardTitle : string;
  ra_Sort : Z }.

Record RuleTreeNodeLine := mkRuleTreeNodeLine {
  rl_TreeID : string;
  rl_RuleNodeFrom : string;
  rl_RuleNodeTo : string;
  rl_RuleLimitType : RuleLimitType;
  rl_RuleLimitValue : RuleLogicCheckType }.

Record RuleTreeNode := mkRuleTreeNode {
  rn_TreeID : string;
  rn_RuleKey : RuleTreeName;
  rn_RuleDesc : string;
  rn_RuleValue : string;
  rn_TreeNodeLine : list RuleTreeNodeLine }.

Record RuleTree := mkRuleTree {
  rt_TreeID : string;
  rt_TreeName : string;
  rt_TreeDesc : string;
  rt_TreeRootRuleNode : RuleTreeName;
  rt_NodeMap : gmap string RuleTreeNode }.

Record Award := mkAward { aw_AwardId : Z; aw_AwardTitle : string }.

Record WeightBucket := mkWeightBucket {
  wb_RuleValue : string;
  wb_Weight : Z;
  wb_AwardIds : list Z;
  wb_AwardList : list Award }.

Record RaffleFactor := mkRaffleFactor {
  rf_ActivityID : Z;
  rf_UserID : string;
  rf_StrategyID : Z }.

(** A queue message: [strategy.AwardStockConsumeMessage] and
    [task.AwardStockConsumeMessage] have the same fields. *)
Record AwardStockConsumeMessage := mkAwardStockConsumeMessage {
  ac_StrategyID : Z;
  ac_AwardID : Z }.

Definition ErrRuleTreeInvalid := BadRequest "RULE_TREE_INVALID" "规则树配置异常".
Definition ErrBlackListUser := Forbidden "USER_IN_BLACKLIST" "抱歉，您暂无抽奖权限".
Definition ErrStrategyRateRangeFailed :=
  InternalServer "STRATEGY_RATE_RANGE_FAILED" "获取抽奖概率范围失败".
Definition ErrStrategyRateRangeInvalid :=
  InternalServer "STRATEGY_RATE_RANGE_INVALID" "抽奖概率范围无效".
Definition ErrStrategyRandomValGenFailed :=
  InternalServer "STRATEGY_RANDOM_VAL_GEN_FAILED" "生成随机抽奖值失败".
Definition ErrStrategyAwardAssembleFailed :=
  InternalServer "STRATEGY_AWARD_ASSEMBLE_FAILED" "获取奖品装配信息失败".
Definition ErrBlackListConfigInvalid :=
  InternalServer "BLACK_LIST_CONFIG_INVALID" "黑名单规则配置无效".
Definition ErrBlackListConfigParseFailed :=
  InternalServer "BLACK_LIST_CONFIG_PARSE_FAILED" "解析黑名单配置失败".
Definition ErrRuleWeightConfigInvalid :=
  InternalServer "RULE_WEIGHT_CONFIG_INVALID" "权重规则配置无效".
Definition ErrRuleWeightValueInvalidFormat :=
  InternalServer "RULE_WEIGHT_VALUE_INVALID_FORMAT" "权重规则值格式无效".

(** ** internal/biz/activity *)
Definition TaskTypeActivitySkuStockConsume := "activity:sku_stock_consume".
Definition TaskTypeActivityStateSync := "activity:state_sync".
Definition ActivitySkuStockZeroTopic := "activity_sku_stock_zero_topic".
Definition ActivityAwardSendTopic := "activity_award_send_topic".
Definition SaveOrderRecordTopic := "save_order_record".
Definition QueueNameSkuStock := "queue:activity_sku_stock".

Record ActivityCount := mkActivityCount {
  cnt_ActivityCountID : Z;
  cnt_TotalCount : Z;
  cnt_DayCount : Z;
  cnt_MonthCount : Z }.

Record ActivityAccount := mkActivityAccount {
  acc_UserID : string;
  acc_ActivityID : Z;
  acc_TotalCount : Z;
  acc_TotalCountSurplus : Z;
  acc_DayCount : Z;
  acc_DayCountSurplus : Z;
  acc_MonthCount : Z;
  acc_MonthCountSurplus : Z }.

Record ActivityAccountMonth := mkActivityAccountMonth {
  am_UserID : string;
  am_ActivityID : Z;
  am_Month : string;
  am_MonthCount : Z;
  am_MonthCountSurplus : Z }.

Record ActivityAccountDay := mkActivityAccountDay {
  ad_UserID : string;
  ad_ActivityID : Z;
  ad_Day : string;
  ad_DayCount : Z;
  ad_DayCountSurplus : Z }.

Record ActivityOrder := mkActivityOrder {
  ao_UserID : string;
  ao_Sku : Z;
  ao_ActivityID : Z;
  ao_ActivityName : string;
  ao_StrategyID : Z;
  ao_OrderID : string;
  ao_OrderTime : time;
  ao_TotalCount : Z;
  ao_DayCount : Z;
  ao_MonthCount : Z;
  ao_State : string;
  ao_OutBusinessNo : string }.

Record PartakeRaffleActivity := mkPartakeRaffleActivity {
  pra_UserID : string;
  pra_ActivityID : Z }.

Notation UserRaffleOrderState := string (only parsing).
Definition UserRaffleOrderStateCreate : UserRaffleOrderState := "create".
Definition UserRaffleOrderStateUsed : UserRaffleOrderState := "used".
Definition UserRaffleOrderStateCancel : UserRaffleOrderState := "cancel".

Record UserRaffleOrder := mkUserRaffleOrder {
  uo_UserID : string;
  uo_ActivityID : Z;
  uo_ActivityName : string;
  uo_StrategyID : Z;
  uo_OrderID : string;
  uo_OrderTime : time;
  uo_OrderState : UserRaffleOrderState }.

Record ActivitySku := mkActivitySku {
  sku_Sku : Z;
  sku_ActivityID : Z;
  sku_ActivityCountID : Z;
  sku_StockCount : Z;
  sku_StockCountSurplus : Z }.

Notation ActivityState := string (only parsing).
Definition ActivityStateCreate : ActivityState := "create".
Definition ActivityStateOpen : ActivityState := "open".
Definition ActivityStateClose : ActivityState := "close".

Record Activity := mkActivity {
  act_ActivityID : Z;
  act_ActivityName : string;
  act_ActivityDesc : string;
  act_BeginDateTime : time;
  act_EndDateTime : time;
  act_StrategyID : Z;
  act_State : ActivityState }.

Record CreateQuotaOrder := mkCreateQuotaOrder {
  qo_UserID : string;
  qo_ActivityID : Z;
  qo_TotalCount : Z;
  qo_DayCount : Z;
  qo_MonthCount : Z;
  qo_ActivityOrder : ActivityOrder }.

Record CreatePartakeOrder := mkCreatePartakeOrder {
  po_UserID : string;
  po_ActivityID : Z;
  po_ActivityAccount : option ActivityAccount;
  po_IsExistAccountMonth : bool;
  po_ActivityAccountMonth : option ActivityAccountMonth;
  po_IsExistAccountDay : bool;
  po_ActivityAccountDay : option ActivityAccountDay;
  po_UserRaffleOrder : option UserRaffleOrder }.

Record SaveOrderTaskMessage := mkSaveOrderTaskMessage {
  som_UserID : string;
  som_OrderID : string }.

Definition ToCreatePartakeOrder (m : SaveOrderTaskMessage) : CreatePartakeOrder :=
  {| po_UserID := som_UserID m;
     po_ActivityID := 0;
     po_ActivityAccount := None;
     po_IsExistAccountMonth := false;
     po_ActivityAccountMonth := None;
     po_IsExistAccountDay := false;
     po_ActivityAccountDay := None;
     po_UserRaffleOrder :=
       Some {| uo_UserID := som_UserID m; uo_ActivityID := 0; uo_ActivityName := "";
               uo_StrategyID := 0; uo_OrderID := som_OrderID m; uo_OrderTime := zero_time;
               uo_OrderState := "" |} |}.

Record SkuRecharge := mkSkuRecharge {
  rc_UserID : string;
  rc_Sku : Z;
  rc_OutBusinessNo : string }.

Record ActivitySkuStockKey := mkActivitySkuStockKey {
  sk_Sku : Z;
  sk_ActivityID : Z }.

Definition ActivityState_Desc (s : ActivityState) : string :=
  if String.eqb s ActivityStateCreate then "创建"
  else if String.eqb s ActivityStateOpen then "开启"
  else if String.eqb s ActivityStateClose then "关闭"
  else "未知".

Definition UserRaffleOrderState_Desc (s : UserRaffleOrderState) : string :=
  if String.eqb s UserRaffleOrderStateCreate then "创建"
  else if String.eqb s UserRaffleOrderStateUsed then "已使用"
  else if String.eqb s UserRaffleOrderStateCancel then "已作废"
  else "未知".

Definition AccountSyncStateCreate := "create".
Definition AccountSyncStateCompleted := "completed".
Definition AccountSyncStateFail := "fail".
Definition ActivityOrderStateCompleted := "completed".

Record ActivityResult := mkActivityResult {
  ar_UserID : string;
  ar_Status : Z;
  ar_Result : string;
  ar_Timestamp : Z }.

Definition ActivityResultStatusSuccess : Z := 1.
Definition ActivityResultStatusCredit : Z := 2.
Definition ActivityResultPointsPrefix := "POINTS".

Definition ErrActivityStateError := BadRequest "ACTIVITY_STATE_ERROR" "活动状态非开启".
Definition ErrActivityTimeError := BadRequest "ACTIVITY_TIME_ERROR" "活动时间未开始或已结束".
Definition ErrActivityQuotaError := BadRequest "ACTIVITY_QUOTA_ERROR" "活动账户额度不足".
Definition ErrActivityAccountDayCountSurplusNotEnough :=
  BadRequest "ACTIVITY_ACCOUNT_DAY_QUOTA_ERROR" "今日活动账户额度不足".
Definition ErrActivityAccountMonthCountSurplusNotEnough :=
  BadRequest "ACTIVITY_ACCOUNT_MONTH_QUOTA_ERROR" "本月活动账户额度不足".
Definition ErrActivityStockError := BadRequest "ACTIVITY_STOCK_ERROR" "活动库存不足".
Definition ErrActivitySkuStockError :=
  BadRequest "ACTIVITY_SKU_STOCK_ERROR" "活动商品库存不足".
Definition ErrInvalidParams := BadRequest "INVALID_PARAMS" "非法参数".
Definition ErrDBRouterError := BadRequest "DB_ROUTER_ERROR" "数据库路由错误".
Definition ErrDBIndexDuplicate := BadRequest "DB_INDEX_DUPLICATE" "数据库索引重复".
Definition ErrRecordNotFound := NotFound "RECORD_NOT_FOUND" "记录不存在".
Definition ErrClearActivitySkuStockError :=
  BadRequest "CLEAR_ACTIVITY_SKU_STOCK_ERROR" "清除活动商品库存失败".
Definition ErrActivitySkuStockKeyUnmarshal :=
  BadRequest "ACTIVITY_SKU_STOCK_KEY_UNMARSHAL_ERROR" "活动商品库存队列消息解析失败".

(** ** internal/biz/award *)
Definition SendAwardTopic := "send_award".

Record SendAwardMessage := mkSendAwardMessage {
  sm_UserID : string;
  sm_AwardID : Z;
  sm_AwardTitle : string }.

Notation AwardState := string (only parsing).
Definition AwardStateCreate : AwardState := "create".
Definition AwardStateComplete : AwardState := "complete".
Definition AwardStateFail : AwardState := "fail".

Definition AwardState_Desc (s : AwardState) : string :=
  if String.eqb s AwardStateCreate then "创建"
  else if String.eqb s AwardStateComplete then "发奖完成"
  else if String.eqb s AwardStateFail then "发奖失败"
  else "未知".

Notation TaskState := string (only parsing).
Definition TaskStateCreate : TaskState := "create".
Definition TaskStateComplete : TaskState := "complete".
Definition TaskStateFail : TaskState := "fail".

Definition TaskState_Desc (s : TaskState) : string :=
  if String.eqb s TaskStateCreate then "创建"
  else if String.eqb s TaskStateComplete then "发送完成"
  else if String.eqb s TaskStateFail then "发送失败"
  else "未知".

Record UserAwardRecord := mkUserAwardRecord {
  ua_UserID : string;
  ua_ActivityID : Z;
  ua_StrategyID : Z;
  ua_OrderID : string;
  ua_AwardID : Z;
  ua_AwardTitle : string;
  ua_AwardTime : time;
  ua_AwardState : AwardState }.

Record AwardTask := mkAwardTask {
  at_UserID : string;
  at_Topic : string;
  at_MessageID : string;
  at_Message : SendAwardMessage;
  at_State : TaskState }.

Record UserAwardTaskInfo := mkUserAwardTaskInfo {
  ut_UserAwardRecord : UserAwardRecord;
  ut_Task : AwardTask }.

Definition ErrorTaskPayloadMarshal :=
  InternalServer "TASK_PAYLOAD_MARSHAL_ERROR" "任务负载序列化失败".

(** ** internal/biz/rebate *)
Notation BehaviorType := string (only parsing).
Definition Sign : BehaviorType := "sign".
Definition OpenAiPay : BehaviorType := "openai_pay".
Notation RebateType := string (only parsing).
Definition RebateTypeSku : RebateType := "sku".
Definition RebateTypeIntegral : RebateType := "integral".

Record Behavior := mkBehavior {
  bh_UserID : string;
  bh_BehaviorType : BehaviorType;
  bh_OutBusinessNo : string }.

Record BehaviorRebateOrder := mkBehaviorRebateOrder {
  bo_UserID : string;
  bo_OrderID : string;
  bo_BehaviorType : string;
  bo_RebateDesc : string;
  bo_RebateType : string;
  bo_OutBusinessNo : string;
  bo_RebateConfig : string;
  bo_BizID : string }.

Record BehaviorRebate := mkBehaviorRebate {
  br_UserID : string;
  br_Behavior : Behavior;
  br_BehaviorRebateOrders : list BehaviorRebateOrder }.

Record DailyBehaviorRebate := mkDailyBehaviorRebate {
  db_BehaviorType : string;
  db_RebateDesc : string;
  db_RebateType : string;
  db_RebateConfig : string }.

Record RebateMessage := mkRebateMessage {
  rm_UserID : string;
  rm_RebateDesc : string;
  rm_RebateType : string;
  rm_RebateConfig : string;
  rm_BizID : string }.

Definition ErrDBRouterNotFound : gerr := ENew "db router not found".

(** ** internal/biz/task *)
Definition TaskTypeStrategyAwardStockConsume := "strategy:award_stock_consume".

Record Task := mkTask {
  tk_ID : Z;
  tk_UserID : string;
  tk_Topic : string;
  tk_MessageID : string;
  tk_Message : string;
  tk_State : string;
  tk_CreateTime : time;
  tk_UpdateTime : time }.
