(* ===== verification/Po.v ===== *)
(** * Po: the persistent objects and the tables

    [internal/data/po]: one record per gorm model, its table name and its
    conversion to the entity of the business layer.  [tbl] enumerates the tables
    the repositories name (sharded tables with their suffix) and [row] gives the
    model stored in each. *)
From Stdlib Require Import ZArith List Ascii String.
From stdpp Require Import base gmap strings list numbers.
From S2P Require Import Prelude GoLib Model.
Open Scope Z_scope.
#[local] Open Scope string_scope.

Record RaffleActivityPO := mkRaffleActivityPO {
  rap_ID : Z;
  rap_ActivityID : Z;
  rap_ActivityName : string;
  rap_ActivityDesc : string;
  rap_BeginDateTime : time;
  rap_EndDateTime : time;
  rap_StrategyID : Z;
  rap_State : string;
  rap_CreateTime : time;
  rap_UpdateTime : time }.

Record RaffleActivityCountPO := mkRaffleActivityCountPO {
  rcp_ID : Z;
  rcp_ActivityCountID : Z;
  rcp_TotalCount : Z;
  rcp_DayCount : Z;
  rcp_MonthCount : Z;
  rcp_CreateTime : time;
  rcp_UpdateTime : time }.

Record RaffleActivitySkuPO := mkRaffleActivitySkuPO {
  rsp_ID : Z;
  rsp_Sku : Z;
  rsp_ActivityID : Z;
  rsp_ActivityCountID : Z;
  rsp_StockCount : Z;
  rsp_StockCountSurplus : Z;
  rsp_CreateTime : time;
  rsp_UpdateTime : time }.

Record RaffleActivityAccountPO := mkRaffleActivityAccountPO {
  aap_ID : Z;
  aap_UserID : string;
  aap_ActivityID : Z;
  aap_TotalCount : Z;
  aap_TotalCountSurplus : Z;
  aap_DayCount : Z;
  aap_DayCountSurplus : Z;
  aap_MonthCount : Z;
  aap_MonthCountSurplus : Z;
  aap_CreateTime : time;
  aap_UpdateTime : time }.

Record RaffleActivityOrderPO := mkRaffleActivityOrderPO {
  rop_ID : Z;
  rop_UserID : string;
  rop_Sku : Z;
  rop_ActivityID : Z;
  rop_ActivityName : string;
  rop_StrategyID : Z;
  rop_OrderID : string;
  rop_OrderTime : time;
  rop_TotalCount : Z;
  rop_DayCount : Z;
  rop_MonthCount : Z;
  rop_State : string;
  rop_OutBusinessNo : string;
  rop_CreateTime : time;
  rop_UpdateTime : time }.

Record RaffleActivityAccountDayPO := mkRaffleActivityAccountDayPO {
  adp_ID : Z;
  adp_UserID : string;
  adp_ActivityID : Z;
  adp_Day : string;
  adp_DayCount : Z;
  adp_DayCountSurplus : Z;
  adp_CreateTime : time;
  adp_UpdateTime : time }.

Record RaffleActivityAccountMonthPO := mkRaffleActivityAccountMonthPO {
  amp_ID : Z;
  amp_UserID : string;
  amp_ActivityID : Z;
  amp_Month : string;
  amp_MonthCount : Z;
  amp_MonthCountSurplus : Z;
  amp_CreateTime : time;
  amp_UpdateTime : time }.

Record UserRaffleOrderPO := mkUserRaffleOrderPO {
  uop_ID : Z;
  uop_UserID : string;
  uop_ActivityID : Z;
  uop_ActivityName : string;
  uop_StrategyID : Z;
  uop_OrderID : string;
  uop_OrderTime : time;
  uop_OrderState : string;
  uop_AccountSyncState : string;
  uop_CreateTime : time;
  uop_UpdateTime : time }.

Record UserAwardRecordPO := mkUserAwardRecordPO {
  uap_ID : Z;
  uap_UserID : string;
  uap_ActivityID : Z;
  uap_StrategyID : Z;
  uap_OrderID : string;
  uap_AwardID : Z;
  uap_AwardTitle : string;
  uap_AwardTime : time;
  uap_AwardState : string;
  uap_CreateTime : time;
  uap_UpdateTime : time }.

Record DailyBehaviorRebatePO := mkDailyBehaviorRebatePO {
  dbp_ID : Z;
  dbp_BehaviorType : string;
  dbp_RebateDesc : string;
  dbp_RebateType : string;
  dbp_RebateConfig : string;
  dbp_State : string;
  dbp_CreateTime : time;
  dbp_UpdateTime : time }.

Record UserBehaviorRebateOrderPO := mkUserBehaviorRebateOrderPO {
  ubp_ID : Z;
  ubp_UserID : string;
  ubp_OrderID : string;
  ubp_BehaviorType : string;
  ubp_OutBusinessNo : string;
  ubp_RebateDesc : string;
  ubp_RebateType : string;
  ubp_RebateConfig : string;
  ubp_BizID : string;
  ubp_CreateTime : time;
  ubp_UpdateTime : time }.

Record StrategyPO := mkStrategyPO {
  stp_ID : Z;
  stp_StrategyID : Z;
  stp_StrategyDesc : string;
  stp_RuleModels : string;
  stp_CreateTime : time;
  stp_UpdateTime : time }.

Record StrategyAwardPO := mkStrategyAwardPO {
  sap_ID : Z;
  sap_StrategyID : Z;
  sap_AwardID : Z;
  sap_AwardTitle : string;
  sap_AwardSubtitle : string;
  sap_AwardCount : Z;
  sap_AwardCountSurplus : Z;
  sap_AwardRate : float64;
  sap_RuleModels : string;
  sap_Sort : Z;
  sap_CreateTime : time;
  sap_UpdateTime : time }.

Record StrategyRulePO := mkStrategyRulePO {
  srp_ID : Z;
  srp_StrategyID : Z;
  srp_AwardID : Z;
  srp_RuleType : Z;
  srp_RuleModel : string;
  srp_RuleValue : string;
  srp_RuleDesc : string;
  srp_CreateTime : time;
  srp_UpdateTime : time }.

Record RuleTreePO := mkRuleTreePO {
  rtp_ID : Z;
  rtp_TreeID : string;
  rtp_TreeName : string;
  rtp_TreeDesc : string;
  rtp_TreeNodeRuleKey : string;
  rtp_CreateTime : time;
  rtp_UpdateTime : time }.

Record RuleTreeNodePO := mkRuleTreeNodePO {
  rnp_ID : Z;
  rnp_TreeID : string;
  rnp_RuleKey : string;
  rnp_RuleDesc : string;
  rnp_RuleValue : string;
  rnp_CreateTime : time;
  rnp_UpdateTime : time }.

Record RuleTreeNodeLinePO := mkRuleTreeNodeLinePO {
  rlp_ID : Z;
  rlp_TreeID : string;
  rlp_RuleNodeFrom : string;
  rlp_RuleNodeTo : string;
  rlp_RuleLimitType : string;
  rlp_RuleLimitValue : string;
  rlp_CreateTime : time;
  rlp_UpdateTime : time }.

Record TaskPO := mkTaskPO {
  tkp_ID : Z;
  tkp_UserID : string;
  tkp_Topic : string;
  tkp_MessageID : string;
  tkp_Message : string;
  tkp_State : string;
  tkp_CreateTime : time;
  tkp_UpdateTime : time }.

(** ** Conversions to entities *)
Definition RaffleActivity_ToEntity (p : RaffleActivityPO) : Activity :=
  {| act_ActivityID := rap_ActivityID p; act_ActivityName := rap_ActivityName p;
     act_ActivityDesc := rap_ActivityDesc p; act_BeginDateTime := rap_BeginDateTime p;
     act_EndDateTime := rap_EndDateTime p; act_StrategyID := rap_StrategyID p;
     act_State := rap_State p |}.

Definition RaffleActivityCount_ToEntity (p : RaffleActivityCountPO) : ActivityCount :=
  {| cnt_ActivityCountID := rcp_ActivityCountID p; cnt_TotalCount := rcp_TotalCount p;
     cnt_DayCount := rcp_DayCount p; cnt_MonthCount := rcp_MonthCount p |}.

Definition RaffleActivitySku_ToEntity (p : RaffleActivitySkuPO) : ActivitySku :=
  {| sku_Sku := rsp_Sku p; sku_ActivityID := rsp_ActivityID p;
     sku_ActivityCountID := rsp_ActivityCountID p; sku_StockCount := rsp_StockCount p;
     sku_StockCountSurplus := rsp_StockCountSurplus p |}.

Definition RaffleActivityAccount_ToEntity (p : RaffleActivityAccountPO) : ActivityAccount :=
  {| acc_UserID := aap_UserID p; acc_ActivityID := aap_ActivityID p;
     acc_TotalCount := aap_TotalCount p; acc_TotalCountSurplus := aap_TotalCountSurplus p;
     acc_DayCount := aap_DayCount p; acc_DayCountSurplus := aap_DayCountSurplus p;
     acc_MonthCount := aap_MonthCount p; acc_MonthCountSurplus := aap_MonthCountSurplus p |}.

Definition RaffleActivityOrder_ToEntity (p : RaffleActivityOrderPO) : ActivityOrder :=
  {| ao_UserID := rop_UserID p; ao_Sku := rop_Sku p; ao_ActivityID := rop_ActivityID p;
     ao_ActivityName := rop_ActivityName p; ao_StrategyID := rop_StrategyID p;
     ao_OrderID := rop_OrderID p; ao_OrderTime := rop_OrderTime p;
     ao_TotalCount := rop_TotalCount p; ao_DayCount := rop_DayCount p;
     ao_MonthCount := rop_MonthCount p; ao_State := rop_State p;
     ao_OutBusinessNo := rop_OutBusinessNo p |}.

Definition RaffleActivityAccountDay_ToEntity (p : RaffleActivityAccountDayPO) : ActivityAccountDay :=
  {| ad_UserID := adp_UserID p; ad_ActivityID := adp_ActivityID p; ad_Day := adp_Day p;
     ad_DayCount := adp_DayCount p; ad_DayCountSurplus := adp_DayCountSurplus p |}.

Definition RaffleActivityAccountMonth_ToEntity (p : RaffleActivityAccountMonthPO) : ActivityAccountMonth :=
  {| am_UserID := amp_UserID p; am_ActivityID := amp_ActivityID p; am_Month := amp_Month p;
     am_MonthCount := amp_MonthCount p; am_MonthCountSurplus := amp_MonthCountSurplus p |}.

Definition UserRaffleOrder_ToEntity (p : UserRaffleOrderPO) : UserRaffleOrder :=
  {| uo_UserID := uop_UserID p; uo_ActivityID := uop_ActivityID p;
     uo_ActivityName := uop_ActivityName p; uo_StrategyID := uop_StrategyID p;
     uo_OrderID := uop_OrderID p; uo_OrderTime := uop_OrderTime p;
     uo_OrderState := uop_OrderState p |}.

Definition UserAwardRecord_ToEntity (p : UserAwardRecordPO) : UserAwardRecord :=
  {| ua_UserID := uap_UserID p; ua_ActivityID := uap_ActivityID p;
     ua_StrategyID := uap_StrategyID p; ua_OrderID := uap_OrderID p;
     ua_AwardID := uap_AwardID p; ua_AwardTitle := uap_AwardTitle p;
     ua_AwardTime := uap_AwardTime p; ua_AwardState := uap_AwardState p |}.

Definition DailyBehaviorRebate_ToEntity (p : DailyBehaviorRebatePO) : DailyBehaviorRebate :=
  {| db_BehaviorType := dbp_BehaviorType p; db_RebateDesc := dbp_RebateDesc p;
     db_RebateType := dbp_RebateType p; db_RebateConfig := dbp_RebateConfig p |}.

Definition UserBehaviorRebateOrder_ToEntity (p : UserBehaviorRebateOrderPO) : BehaviorRebateOrder :=
  {| bo_UserID := ubp_UserID p; bo_OrderID := ubp_OrderID p;
     bo_BehaviorType := ubp_BehaviorType p; bo_RebateDesc := ubp_RebateDesc p;
     bo_RebateType := ubp_RebateType p; bo_OutBusinessNo := ubp_OutBusinessNo p;
     bo_RebateConfig := ubp_RebateConfig p; bo_BizID := ubp_BizID p |}.

Definition Strategy_ToEntity (p : StrategyPO) : Strategy :=
  {| st_StrategyID := stp_StrategyID p; st_StrategyDesc := stp_StrategyDesc p;
     st_RuleModels := stp_RuleModels p |}.

Definition StrategyAward_ToEntity (p : StrategyAwardPO) : StrategyAward :=
  {| sa_StrategyID := sap_StrategyID p; sa_AwardID := sap_AwardID p;
     sa_AwardTitle := sap_AwardTitle p; sa_AwardSubtitle := sap_AwardSubtitle p;
     sa_AwardCount := sap_AwardCount p; sa_AwardCountSurplus := sap_AwardCountSurplus p;
     sa_AwardRate := sap_AwardRate p; sa_Sort := sap_Sort p; sa_RuleModels := sap_RuleModels p |}.

Definition StrategyRule_ToEntity (p : StrategyRulePO) : StrategyRule :=
  {| sr_StrategyID := srp_StrategyID p; sr_AwardID := srp_AwardID p; sr_RuleType := srp_RuleType p;
     sr_RuleModel := srp_RuleModel p; sr_RuleValue := srp_RuleValue p; sr_RuleDesc := srp_RuleDesc p |}.

(** [NodeMap] is left [nil] here; the repository fills it. *)
Definition RuleTree_ToEntity (p : RuleTreePO) : RuleTree :=
  {| rt_TreeID := rtp_TreeID p; rt_TreeName := rtp_TreeName p; rt_TreeDesc := rtp_TreeDesc p;
     rt_TreeRootRuleNode := rtp_TreeNodeRuleKey p; rt_NodeMap := ∅ |}.

Definition RuleTreeNode_ToEntity (p : RuleTreeNodePO) : RuleTreeNode :=
  {| rn_TreeID := rnp_TreeID p; rn_RuleKey := rnp_RuleKey p; rn_RuleDesc := rnp_RuleDesc p;
     rn_RuleValue := rnp_RuleValue p; rn_TreeNodeLine := [] |}.

Definition parseRuleLimitType (value : string) : RuleLimitType :=
  if existsb (String.eqb value) ["EQUAL"; "equal"; "="] then EQUAL
  else if existsb (String.eqb value) ["GT"; "gt"; ">"] then GT
  else if existsb (String.eqb value) ["LT"; "lt"; "<"] then LT
  else if existsb (String.eqb value) ["GE"; "ge"; ">="] then GE
  else if existsb (String.eqb value) ["LE"; "le"; "<="] then LE
  else EQUAL.

Definition parseRuleLogicCheckType (value : string) : RuleLogicCheckType :=
  if existsb (String.eqb value) ["allow"; "ALLOW"] then RuleCheckAllow
  else if existsb (String.eqb value) ["take_over"; "TAKE_OVER"] then RuleCheckTakeOver
  else RuleCheckAllow.

Definition RuleTreeNodeLine_ToEntity (p : RuleTreeNodeLinePO) : RuleTreeNodeLine :=
  {| rl_TreeID := rlp_TreeID p; rl_RuleNodeFrom := rlp_RuleNodeFrom p;
     rl_RuleNodeTo := rlp_RuleNodeTo p;
     rl_RuleLimitType := parseRuleLimitType (rlp_RuleLimitType p);
     rl_RuleLimitValue := parseRuleLogicCheckType (rlp_RuleLimitValue p) |}.

Definition Task_ToEntity (p : TaskPO) : Task :=
  {| tk_ID := tkp_ID p; tk_UserID := tkp_UserID p; tk_Topic := tkp_Topic p;
     tk_MessageID := tkp_MessageID p; tk_Message := tkp_Message p; tk_State := tkp_State p;
     tk_CreateTime := tkp_CreateTime p; tk_UpdateTime := tkp_UpdateTime p |}.

(** ** Tables *)

(** The columns [ClearActivitySkuStock] names of [raffle_activity_sku_stock]; no
    gorm model describes that table. *)
Record SkuStockRow := mkSkuStockRow { ssr_Sku : Z; ssr_StockCountSurplus : Z }.

Inductive tbl :=
| Traffle_activity
| Traffle_activity_count
| Traffle_activity_sku
| Traffle_activity_sku_stock
| Traffle_activity_account
| Traffle_activity_account_day
| Traffle_activity_account_month
| Traffle_activity_order (suffix : string)
| Tuser_raffle_order (suffix : string)
| Tuser_award_record (suffix : string)
| Tuser_behavior_rebate_order (suffix : string)
| Tdaily_behavior_rebate
| Tstrategy
| Tstrategy_award
| Tstrategy_rule
| Trule_tree
| Trule_tree_node
| Trule_tree_node_line
| Ttask.

#[export] Instance tbl_eq_dec : EqDecision tbl.
Proof. solve_decision. Defined.

(** The name of the table, as [TableName] and the calls of [Table] give it. *)
Definition TableName (t : tbl) : string :=
  match t with
  | Traffle_activity => "raffle_activity"
  | Traffle_activity_count => "raffle_activity_count"
  | Traffle_activity_sku => "raffle_activity_sku"
  | Traffle_activity_sku_stock => "raffle_activity_sku_stock"
  | Traffle_activity_account => "raffle_activity_account"
  | Traffle_activity_account_day => "raffle_activity_account_day"
  | Traffle_activity_account_month => "raffle_activity_account_month"
  | Traffle_activity_order s => "raffle_activity_order_" ++ s
  | Tuser_raffle_order s => "user_raffle_order_" ++ s
  | Tuser_award_record s => "user_award_record_" ++ s
  | Tuser_behavior_rebate_order s => "user_behavior_rebate_order_" ++ s
  | Tdaily_behavior_rebate => "daily_behavior_rebate"
  | Tstrategy => "strategy"
  | Tstrategy_award => "strategy_award"
  | Tstrategy_rule => "strategy_rule"
  | Trule_tree => "rule_tree"
  | Trule_tree_node => "rule_tree_node"
  | Trule_tree_node_line => "rule_tree_node_line"
  | Ttask => "task"
  end.

Definition row (t : tbl) : Type :=
  match t with
  | Traffle_activity => RaffleActivityPO
  | Traffle_activity_count => RaffleActivityCountPO
  | Traffle_activity_sku => RaffleActivitySkuPO
  | Traffle_activity_sku_stock => SkuStockRow
  | Traffle_activity_account => RaffleActivityAccountPO
  | Traffle_activity_account_day => RaffleActivityAccountDayPO
  | Traffle_activity_account_month => RaffleActivityAccountMonthPO
  | Traffle_activity_order _ => RaffleActivityOrderPO
  | Tuser_raffle_order _ => UserRaffleOrderPO
  | Tuser_award_record _ => UserAwardRecordPO
  | Tuser_behavior_rebate_order _ => UserBehaviorRebateOrderPO
  | Tdaily_behavior_rebate => DailyBehaviorRebatePO
  | Tstrategy => StrategyPO
  | Tstrategy_award => StrategyAwardPO
  | Tstrategy_rule => StrategyRulePO
  | Trule_tree => RuleTreePO
  | Trule_tree_node => RuleTreeNodePO
  | Trule_tree_node_line => RuleTreeNodeLinePO
  | Ttask => TaskPO
  end.

(** What a [datetime] column keeps of an instant: whole seconds, rounded. *)
Definition datetime (t : time) : time := (t + Second / 2) / Second * Second.

Lemma datetime_idemp t : datetime (datetime t) = datetime t.
Proof.
  unfold datetime, Second. f_equal. rewrite Z.div_add_l by lia.
  change (1000000000 / 2 / 1000000000) with 0. lia.
Qed.

(** What a table holds of a record: the record without the columns gorm and the server
    fill in ([autoCreateTime], [autoUpdateTime]), its instants as the columns keep them;
    [setid] sets the auto-increment key. *)
Definition payload_rap (r : RaffleActivityPO) : RaffleActivityPO :=
  {| rap_ID := rap_ID r; rap_ActivityID := rap_ActivityID r; rap_ActivityName :=
     rap_ActivityName r; rap_ActivityDesc := rap_ActivityDesc r; rap_BeginDateTime :=
     datetime (rap_BeginDateTime r); rap_EndDateTime := datetime (rap_EndDateTime r); rap_StrategyID :=
     rap_StrategyID r; rap_State := rap_State r; rap_CreateTime := zero_time;
     rap_UpdateTime := zero_time |}.

Definition payload_rcp (r : RaffleActivityCountPO) : RaffleActivityCountPO :=
  {| rcp_ID := rcp_ID r; rcp_ActivityCountID := rcp_ActivityCountID r; rcp_TotalCount :=
     rcp_TotalCount r; rcp_DayCount := rcp_DayCount r; rcp_MonthCount := rcp_MonthCount
     r; rcp_CreateTime := zero_time; rcp_UpdateTime := zero_time |}.

Definition payload_rsp (r : RaffleActivitySkuPO) : RaffleActivitySkuPO :=
  {| rsp_ID := rsp_ID r; rsp_Sku := rsp_Sku r; rsp_ActivityID := rsp_ActivityID r;
     rsp_ActivityCountID := rsp_ActivityCountID r; rsp_StockCount := rsp_StockCount r;
     rsp_StockCountSurplus := rsp_StockCountSurplus r; rsp_CreateTime := zero_time;
     rsp_UpdateTime := zero_time |}.

Definition payload_aap (r : RaffleActivityAccountPO) : RaffleActivityAccountPO :=
  {| aap_ID := aap_ID r; aap_UserID := aap_UserID r; aap_ActivityID := aap_ActivityID r;
     aap_TotalCount := aap_TotalCount r; aap_TotalCountSurplus := aap_TotalCountSurplus
     r; aap_DayCount := aap_DayCount r; aap_DayCountSurplus := aap_DayCountSurplus r;
     aap_MonthCount := aap_MonthCount r; aap_MonthCountSurplus := aap_MonthCountSurplus
     r; aap_CreateTime := zero_time; aap_UpdateTime := zero_time |}.

Definition payload_rop (r : RaffleActivityOrderPO) : RaffleActivityOrderPO :=
  {| rop_ID := rop_ID r; rop_UserID := rop_UserID r; rop_Sku := rop_Sku r;
     rop_ActivityID := rop_ActivityID r; rop_ActivityName := rop_ActivityName r;
     rop_StrategyID := rop_StrategyID r; rop_OrderID := rop_OrderID r; rop_OrderTime :=
     datetime (rop_OrderTime r); rop_TotalCount := rop_TotalCount r; rop_DayCount := rop_DayCount
     r; rop_MonthCount := rop_MonthCount r; rop_State := rop_State r; rop_OutBusinessNo
     := rop_OutBusinessNo r; rop_CreateTime := zero_time; rop_UpdateTime := zero_time
     |}.

Definition payload_adp (r : RaffleActivityAccountDayPO) : RaffleActivityAccountDayPO :=
  {| adp_ID := adp_ID r; adp_UserID := adp_UserID r; adp_ActivityID := adp_ActivityID r;
     adp_Day := adp_Day r; adp_DayCount := adp_DayCount r; adp_DayCountSurplus :=
     adp_DayCountSurplus r; adp_CreateTime := zero_time; adp_UpdateTime := zero_time |}.

Definition payload_amp (r : RaffleActivityAccountMonthPO) : RaffleActivityAccountMonthPO :=
  {| amp_ID := amp_ID r; amp_UserID := amp_UserID r; amp_ActivityID := amp_ActivityID r;
     amp_Month := amp_Month r; amp_MonthCount := amp_MonthCount r; amp_MonthCountSurplus
     := amp_MonthCountSurplus r; amp_CreateTime := zero_time; amp_UpdateTime :=
     zero_time |}.

Definition payload_uop (r : UserRaffleOrderPO) : UserRaffleOrderPO :=
  {| uop_ID := uop_ID r; uop_UserID := uop_UserID r; uop_ActivityID := uop_ActivityID r;
     uop_ActivityName := uop_ActivityName r; uop_StrategyID := uop_StrategyID r;
     uop_OrderID := uop_OrderID r; uop_OrderTime := datetime (uop_OrderTime r); uop_OrderState :=
     uop_OrderState r; uop_AccountSyncState := uop_AccountSyncState r; uop_CreateTime :=
     zero_time; uop_UpdateTime := zero_time |}.

Definition payload_uap (r : UserAwardRecordPO) : UserAwardRecordPO :=
  {| uap_ID := uap_ID r; uap_UserID := uap_UserID r; uap_ActivityID := uap_ActivityID r;
     uap_StrategyID := uap_StrategyID r; uap_OrderID := uap_OrderID r; uap_AwardID :=
     uap_AwardID r; uap_AwardTitle := uap_AwardTitle r; uap_AwardTime :=
     datetime (uap_AwardTime r); uap_AwardState := uap_AwardState r; uap_CreateTime := zero_time; uap_UpdateTime
     := zero_time |}.

Definition payload_dbp (r : DailyBehaviorRebatePO) : DailyBehaviorRebatePO :=
  {| dbp_ID := dbp_ID r; dbp_BehaviorType := dbp_BehaviorType r; dbp_RebateDesc :=
     dbp_RebateDesc r; dbp_RebateType := dbp_RebateType r; dbp_RebateConfig :=
     dbp_RebateConfig r; dbp_State := dbp_State r; dbp_CreateTime := zero_time;
     dbp_UpdateTime := zero_time |}.

Definition payload_ubp (r : UserBehaviorRebateOrderPO) : UserBehaviorRebateOrderPO :=
  {| ubp_ID := ubp_ID r; ubp_UserID := ubp_UserID r; ubp_OrderID := ubp_OrderID r;
     ubp_BehaviorType := ubp_BehaviorType r; ubp_OutBusinessNo := ubp_OutBusinessNo r;
     ubp_RebateDesc := ubp_RebateDesc r; ubp_RebateType := ubp_RebateType r;
     ubp_RebateConfig := ubp_RebateConfig r; ubp_BizID := ubp_BizID r; ubp_CreateTime :=
     zero_time; ubp_UpdateTime := zero_time |}.

Definition payload_stp (r : StrategyPO) : StrategyPO :=
  {| stp_ID := stp_ID r; stp_StrategyID := stp_StrategyID r; stp_StrategyDesc :=
     stp_StrategyDesc r; stp_RuleModels := stp_RuleModels r; stp_CreateTime :=
     zero_time; stp_UpdateTime := zero_time |}.

Definition payload_sap (r : StrategyAwardPO) : StrategyAwardPO :=
  {| sap_ID := sap_ID r; sap_StrategyID := sap_StrategyID r; sap_AwardID := sap_AwardID
     r; sap_AwardTitle := sap_AwardTitle r; sap_AwardSubtitle := sap_AwardSubtitle r;
     sap_AwardCount := sap_AwardCount r; sap_AwardCountSurplus := sap_AwardCountSurplus
     r; sap_AwardRate := sap_AwardRate r; sap_RuleModels := sap_RuleModels r; sap_Sort
     := sap_Sort r; sap_CreateTime := zero_time; sap_UpdateTime := zero_time |}.

Definition payload_srp (r : StrategyRulePO) : StrategyRulePO :=
  {| srp_ID := srp_ID r; srp_StrategyID := srp_StrategyID r; srp_AwardID := srp_AwardID
     r; srp_RuleType := srp_RuleType r; srp_RuleModel := srp_RuleModel r; srp_RuleValue
     := srp_RuleValue r; srp_RuleDesc := srp_RuleDesc r; srp_CreateTime := zero_time;
     srp_UpdateTime := zero_time |}.

Definition payload_rtp (r : RuleTreePO) : RuleTreePO :=
  {| rtp_ID := rtp_ID r; rtp_TreeID := rtp_TreeID r; rtp_TreeName := rtp_TreeName r;
     rtp_TreeDesc := rtp_TreeDesc r; rtp_TreeNodeRuleKey := rtp_TreeNodeRuleKey r;
     rtp_CreateTime := zero_time; rtp_UpdateTime := zero_time |}.

Definition payload_rnp (r : RuleTreeNodePO) : RuleTreeNodePO :=
  {| rnp_ID := rnp_ID r; rnp_TreeID := rnp_TreeID r; rnp_RuleKey := rnp_RuleKey r;
     rnp_RuleDesc := rnp_RuleDesc r; rnp_RuleValue := rnp_RuleValue r; rnp_CreateTime :=
     zero_time; rnp_UpdateTime := zero_time |}.

Definition payload_rlp (r : RuleTreeNodeLinePO) : RuleTreeNodeLinePO :=
  {| rlp_ID := rlp_ID r; rlp_TreeID := rlp_TreeID r; rlp_RuleNodeFrom :=
     rlp_RuleNodeFrom r; rlp_RuleNodeTo := rlp_RuleNodeTo r; rlp_RuleLimitType :=
     rlp_RuleLimitType r; rlp_RuleLimitValue := rlp_RuleLimitValue r; rlp_CreateTime :=
     zero_time; rlp_UpdateTime := zero_time |}.

Definition payload_tkp (r : TaskPO) : TaskPO :=
  {| tkp_ID := tkp_ID r; tkp_UserID := tkp_UserID r; tkp_Topic := tkp_Topic r;
     tkp_MessageID := tkp_MessageID r; tkp_Message := tkp_Message r; tkp_State :=
     tkp_State r; tkp_CreateTime := zero_time; tkp_UpdateTime := zero_time |}.

Definition setid_rap (id : Z) (r : RaffleActivityPO) : RaffleActivityPO :=
  {| rap_ID := id; rap_ActivityID := rap_ActivityID r; rap_ActivityName :=
     rap_ActivityName r; rap_ActivityDesc := rap_ActivityDesc r; rap_BeginDateTime :=
     rap_BeginDateTime r; rap_EndDateTime := rap_EndDateTime r; rap_StrategyID :=
     rap_StrategyID r; rap_State := rap_State r; rap_CreateTime := rap_CreateTime r;
     rap_UpdateTime := rap_UpdateTime r |}.

Definition setid_rcp (id : Z) (r : RaffleActivityCountPO) : RaffleActivityCountPO :=
  {| rcp_ID := id; rcp_ActivityCountID := rcp_ActivityCountID r; rcp_TotalCount :=
     rcp_TotalCount r; rcp_DayCount := rcp_DayCount r; rcp_MonthCount := rcp_MonthCount
     r; rcp_CreateTime := rcp_CreateTime r; rcp_UpdateTime := rcp_UpdateTime r |}.

Definition setid_rsp (id : Z) (r : RaffleActivitySkuPO) : RaffleActivitySkuPO :=
  {| rsp_ID := id; rsp_Sku := rsp_Sku r; rsp_ActivityID := rsp_ActivityID r;
     rsp_ActivityCountID := rsp_ActivityCountID r; rsp_StockCount := rsp_StockCount r;
     rsp_StockCountSurplus := rsp_StockCountSurplus r; rsp_CreateTime := rsp_CreateTime
     r; rsp_UpdateTime := rsp_UpdateTime r |}.

Definition setid_aap (id : Z) (r : RaffleActivityAccountPO) : RaffleActivityAccountPO :=
  {| aap_ID := id; aap_UserID := aap_UserID r; aap_ActivityID := aap_ActivityID r;
     aap_TotalCount := aap_TotalCount r; aap_TotalCountSurplus := aap_TotalCountSurplus
     r; aap_DayCount := aap_DayCount r; aap_DayCountSurplus := aap_DayCountSurplus r;
     aap_MonthCount := aap_MonthCount r; aap_MonthCountSurplus := aap_MonthCountSurplus
     r; aap_CreateTime := aap_CreateTime r; aap_UpdateTime := aap_UpdateTime r |}.

Definition setid_rop (id : Z) (r : RaffleActivityOrderPO) : RaffleActivityOrderPO :=
  {| rop_ID := id; rop_UserID := rop_UserID r; rop_Sku := rop_Sku r; rop_ActivityID :=
     rop_ActivityID r; rop_ActivityName := rop_ActivityName r; rop_StrategyID :=
     rop_StrategyID r; rop_OrderID := rop_OrderID r; rop_OrderTime := rop_OrderTime r;
     rop_TotalCount := rop_TotalCount r; rop_DayCount := rop_DayCount r; rop_MonthCount
     := rop_MonthCount r; rop_State := rop_State r; rop_OutBusinessNo :=
     rop_OutBusinessNo r; rop_CreateTime := rop_CreateTime r; rop_UpdateTime :=
     rop_UpdateTime r |}.

Definition setid_adp (id : Z) (r : RaffleActivityAccountDayPO) : RaffleActivityAccountDayPO :=
  {| adp_ID := id; adp_UserID := adp_UserID r; adp_ActivityID := adp_ActivityID r;
     adp_Day := adp_Day r; adp_DayCount := adp_DayCount r; adp_DayCountSurplus :=
     adp_DayCountSurplus r; adp_CreateTime := adp_CreateTime r; adp_UpdateTime :=
     adp_UpdateTime r |}.

Definition setid_amp (id : Z) (r : RaffleActivityAccountMonthPO) : RaffleActivityAccountMonthPO :=
  {| amp_ID := id; amp_UserID := amp_UserID r; amp_ActivityID := amp_ActivityID r;
     amp_Month := amp_Month r; amp_MonthCount := amp_MonthCount r; amp_MonthCountSurplus
     := amp_MonthCountSurplus r; amp_CreateTime := amp_CreateTime r; amp_UpdateTime :=
     amp_UpdateTime r |}.

Definition setid_uop (id : Z) (r : UserRaffleOrderPO) : UserRaffleOrderPO :=
  {| uop_ID := id; uop_UserID := uop_UserID r; uop_ActivityID := uop_ActivityID r;
     uop_ActivityName := uop_ActivityName r; uop_StrategyID := uop_StrategyID r;
     uop_OrderID := uop_OrderID r; uop_OrderTime := uop_OrderTime r; uop_OrderState :=
     uop_OrderState r; uop_AccountSyncState := uop_AccountSyncState r; uop_CreateTime :=
     uop_CreateTime r; uop_UpdateTime := uop_UpdateTime r |}.

Definition setid_uap (id : Z) (r : UserAwardRecordPO) : UserAwardRecordPO :=
  {| uap_ID := id; uap_UserID := uap_UserID r; uap_ActivityID := uap_ActivityID r;
     uap_StrategyID := uap_StrategyID r; uap_OrderID := uap_OrderID r; uap_AwardID :=
     uap_AwardID r; uap_AwardTitle := uap_AwardTitle r; uap_AwardTime := uap_AwardTime
     r; uap_AwardState := uap_AwardState r; uap_CreateTime := uap_CreateTime r;
     uap_UpdateTime := uap_UpdateTime r |}.

Definition setid_dbp (id : Z) (r : DailyBehaviorRebatePO) : DailyBehaviorRebatePO :=
  {| dbp_ID := id; dbp_BehaviorType := dbp_BehaviorType r; dbp_RebateDesc :=
     dbp_RebateDesc r; dbp_RebateType := dbp_RebateType r; dbp_RebateConfig :=
     dbp_RebateConfig r; dbp_State := dbp_State r; dbp_CreateTime := dbp_CreateTime r;
     dbp_UpdateTime := dbp_UpdateTime r |}.

Definition setid_ubp (id : Z) (r : UserBehaviorRebateOrderPO) : UserBehaviorRebateOrderPO :=
  {| ubp_ID := id; ubp_UserID := ubp_UserID r; ubp_OrderID := ubp_OrderID r;
     ubp_BehaviorType := ubp_BehaviorType r; ubp_OutBusinessNo := ubp_OutBusinessNo r;
     ubp_RebateDesc := ubp_RebateDesc r; ubp_RebateType := ubp_RebateType r;
     ubp_RebateConfig := ubp_RebateConfig r; ubp_BizID := ubp_BizID r; ubp_CreateTime :=
     ubp_CreateTime r; ubp_UpdateTime := ubp_UpdateTime r |}.

Definition setid_stp (id : Z) (r : StrategyPO) : StrategyPO :=
  {| stp_ID := id; stp_StrategyID := stp_StrategyID r; stp_StrategyDesc :=
     stp_StrategyDesc r; stp_RuleModels := stp_RuleModels r; stp_CreateTime :=
     stp_CreateTime r; stp_UpdateTime := stp_UpdateTime r |}.

Definition setid_sap (id : Z) (r : StrategyAwardPO) : StrategyAwardPO :=
  {| sap_ID := id; sap_StrategyID := sap_StrategyID r; sap_AwardID := sap_AwardID r;
     sap_AwardTitle := sap_AwardTitle r; sap_AwardSubtitle := sap_AwardSubtitle r;
     sap_AwardCount := sap_AwardCount r; sap_AwardCountSurplus := sap_AwardCountSurplus
     r; sap_AwardRate := sap_AwardRate r; sap_RuleModels := sap_RuleModels r; sap_Sort
     := sap_Sort r; sap_CreateTime := sap_CreateTime r; sap_UpdateTime := sap_UpdateTime
     r |}.

Definition setid_srp (id : Z) (r : StrategyRulePO) : StrategyRulePO :=
  {| srp_ID := id; srp_StrategyID := srp_StrategyID r; srp_AwardID := srp_AwardID r;
     srp_RuleType := srp_RuleType r; srp_RuleModel := srp_RuleModel r; srp_RuleValue :=
     srp_RuleValue r; srp_RuleDesc := srp_RuleDesc r; srp_CreateTime := srp_CreateTime
     r; srp_UpdateTime := srp_UpdateTime r |}.

Definition setid_rtp (id : Z) (r : RuleTreePO) : RuleTreePO :=
  {| rtp_ID := id; rtp_TreeID := rtp_TreeID r; rtp_TreeName := rtp_TreeName r;
     rtp_TreeDesc := rtp_TreeDesc r; rtp_TreeNodeRuleKey := rtp_TreeNodeRuleKey r;
     rtp_CreateTime := rtp_CreateTime r; rtp_UpdateTime := rtp_UpdateTime r |}.

Definition setid_rnp (id : Z) (r : RuleTreeNodePO) : RuleTreeNodePO :=
  {| rnp_ID := id; rnp_TreeID := rnp_TreeID r; rnp_RuleKey := rnp_RuleKey r;
     rnp_RuleDesc := rnp_RuleDesc r; rnp_RuleValue := rnp_RuleValue r; rnp_CreateTime :=
     rnp_CreateTime r; rnp_UpdateTime := rnp_UpdateTime r |}.

Definition setid_rlp (id : Z) (r : RuleTreeNodeLinePO) : RuleTreeNodeLinePO :=
  {| rlp_ID := id; rlp_TreeID := rlp_TreeID r; rlp_RuleNodeFrom := rlp_RuleNodeFrom r;
     rlp_RuleNodeTo := rlp_RuleNodeTo r; rlp_RuleLimitType := rlp_RuleLimitType r;
     rlp_RuleLimitValue := rlp_RuleLimitValue r; rlp_CreateTime := rlp_CreateTime r;
     rlp_UpdateTime := rlp_UpdateTime r |}.

Definition setid_tkp (id : Z) (r : TaskPO) : TaskPO :=
  {| tkp_ID := id; tkp_UserID := tkp_UserID r; tkp_Topic := tkp_Topic r; tkp_MessageID
     := tkp_MessageID r; tkp_Message := tkp_Message r; tkp_State := tkp_State r;
     tkp_CreateTime := tkp_CreateTime r; tkp_UpdateTime := tkp_UpdateTime r |}.

Definition payload (t : tbl) : row t -> row t :=
  match t with
  | Traffle_activity => payload_rap
  | Traffle_activity_count => payload_rcp
  | Traffle_activity_sku => payload_rsp
  | Traffle_activity_sku_stock => fun r => r
  | Traffle_activity_account => payload_aap
  | Traffle_activity_account_day => payload_adp
  | Traffle_activity_account_month => payload_amp
  | Traffle_activity_order _ => payload_rop
  | Tuser_raffle_order _ => payload_uop
  | Tuser_award_record _ => payload_uap
  | Tuser_behavior_rebate_order _ => payload_ubp
  | Tdaily_behavior_rebate => payload_dbp
  | Tstrategy => payload_stp
  | Tstrategy_award => payload_sap
  | Tstrategy_rule => payload_srp
  | Trule_tree => payload_rtp
  | Trule_tree_node => payload_rnp
  | Trule_tree_node_line => payload_rlp
  | Ttask => payload_tkp
  end.

Definition setid (t : tbl) : Z -> row t -> row t :=
  match t with
  | Traffle_activity => setid_rap
  | Traffle_activity_count => setid_rcp
  | Traffle_activity_sku => setid_rsp
  | Traffle_activity_sku_stock => fun _ r => r
  | Traffle_activity_account => setid_aap
  | Traffle_activity_account_day => setid_adp
  | Traffle_activity_account_month => setid_amp
  | Traffle_activity_order _ => setid_rop
  | Tuser_raffle_order _ => setid_uop
  | Tuser_award_record _ => setid_uap
  | Tuser_behavior_rebate_order _ => setid_ubp
  | Tdaily_behavior_rebate => setid_dbp
  | Tstrategy => setid_stp
  | Tstrategy_award => setid_sap
  | Tstrategy_rule => setid_srp
  | Trule_tree => setid_rtp
  | Trule_tree_node => setid_rnp
  | Trule_tree_node_line => setid_rlp
  | Ttask => setid_tkp
  end.

Definition row_id (t : tbl) : row t -> Z :=
  match t with
  | Traffle_activity => rap_ID
  | Traffle_activity_count => rcp_ID
  | Traffle_activity_sku => rsp_ID
  | Traffle_activity_sku_stock => fun _ => 1
  | Traffle_activity_account => aap_ID
  | Traffle_activity_account_day => adp_ID
  | Traffle_activity_account_month => amp_ID
  | Traffle_activity_order _ => rop_ID
  | Tuser_raffle_order _ => uop_ID
  | Tuser_award_record _ => uap_ID
  | Tuser_behavior_rebate_order _ => ubp_ID
  | Tdaily_behavior_rebate => dbp_ID
  | Tstrategy => stp_ID
  | Tstrategy_award => sap_ID
  | Tstrategy_rule => srp_ID
  | Trule_tree => rtp_ID
  | Trule_tree_node => rnp_ID
  | Trule_tree_node_line => rlp_ID
  | Ttask => tkp_ID
  end.

(** The record gives a value to every column with a default in its gorm tag; [Create]
    leaves a zero value out there, so that the row would hold the default instead. *)
Definition sets_defaults (t : tbl) : row t -> Prop :=
  match t with
  | Traffle_activity => fun r => rap_State r <> ""
  | Traffle_activity_order _ => fun r => rop_State r <> ""
  | Tuser_raffle_order _ => fun r => uop_OrderState r <> "" /\ uop_AccountSyncState r <> ""
  | Tuser_award_record _ => fun r => uap_AwardState r <> ""
  | Tstrategy_rule => fun r => srp_AwardID r <> 0
  | Ttask => fun r => tkp_State r <> ""
  | _ => fun _ => True
  end.
