(* ===== verification/Env.v ===== *)
(** * Env: the services the program talks to, as interfaces

    Redis, MySQL through gorm, and the process environment (clock, randomness,
    RabbitMQ, asynq) are not part of the repository: each is a type class of
    operations over an abstract state, with a second class that states the
    documented behaviour the code relies on.  [Mem.v] gives one concrete state for
    each.  A repository runs on the product [W R D E] of the three states. *)
From Stdlib Require Import ZArith List Ascii String Permutation Sorted.
From stdpp Require Import base gmap strings list numbers.
From S2P Require Import Prelude GoLib Model Po.
Open Scope Z_scope.

(** ** Redis *)
Inductive rval : Type :=
| RStr (s : string)
| RHash (h : gmap string string)
| RList (l : list string).

(** The commands the program sends; a time to live is in nanoseconds. *)
Inductive rcmd : Type -> Type :=
| GET (k : string) : rcmd (option string)
| SET (k v : string) (ttl : Z) : rcmd unit
| SETXX (k v : string) (ttl : Z) : rcmd bool
| SETNX (k v : string) (ttl : Z) : rcmd bool
| DEL (k : string) : rcmd Z
| INCR (k : string) : rcmd Z
| DECR (k : string) : rcmd Z
| HSET (k : string) (fvs : list (string * string)) : rcmd Z
| HGET (k f : string) : rcmd (option string)
| HMGET (k : string) (fs : list string) : rcmd (list (option string))
| RPUSH (k : string) (vs : list string) : rcmd Z
| EXPIRE (k : string) (ttl : Z) : rcmd bool.

(** A string Redis accepts as an integer: the canonical decimal of an int64. *)
Definition redis_int (s : string) : option Z :=
  match ParseInt s with
  | Ret z => if String.eqb (FormatInt z) s then Some z else None
  | _ => None
  end.

Section CommandSpec.
Notation rstore := (gmap string rval).

Definition spec_incrby (k : string) (n : Z) (m : rstore) : option (Z * rstore) :=
  match m !! k with
  | None => Some (n, <[k := RStr (FormatInt n)]> m)
  | Some (RStr s) =>
      match redis_int s with
      | Some z => if in_int64b (z + n) then Some (z + n, <[k := RStr (FormatInt (z + n))]> m)
                  else None
      | None => None
      end
  | Some _ => None
  end.

Definition get_hash (k : string) (m : rstore) : option (gmap string string) :=
  match m !! k with
  | None => Some ∅
  | Some (RHash h) => Some h
  | Some _ => None
  end.

(** What a command replies and does to the keyspace, as the Redis documentation
    gives it; [None] is an error reply, which changes nothing. *)
Definition cmd_spec {A} (c : rcmd A) : rstore -> option (A * rstore) :=
  match c in rcmd A return rstore -> option (A * rstore) with
  | GET k => fun m =>
      match m !! k with
      | None => Some (None, m)
      | Some (RStr s) => Some (Some s, m)
      | Some _ => None
      end
  | SET k v _ => fun m => Some (tt, <[k := RStr v]> m)
  | SETXX k v _ => fun m =>
      match m !! k with
      | None => Some (false, m)
      | Some _ => Some (true, <[k := RStr v]> m)
      end
  | SETNX k v _ => fun m =>
      match m !! k with
      | None => Some (true, <[k := RStr v]> m)
      | Some _ => Some (false, m)
      end
  | DEL k => fun m =>
      match m !! k with
      | None => Some (0, m)
      | Some _ => Some (1, delete k m)
      end
  | INCR k => spec_incrby k 1
  | DECR k => spec_incrby k (-1)
  | HSET k fvs => fun m =>
      match fvs with
      | [] => None
      | _ =>
          match get_hash k m with
          | Some h =>
              let h' := foldl (fun acc fv => <[fv.1 := fv.2]> acc) h fvs in
              Some (Z.of_nat (size h') - Z.of_nat (size h), <[k := RHash h']> m)
          | None => None
          end
      end
  | HGET k f => fun m =>
      match get_hash k m with
      | Some h => Some (h !! f, m)
      | None => None
      end
  | HMGET k fs => fun m =>
      match get_hash k m with
      | Some h => Some (map (fun f => h !! f) fs, m)
      | None => None
      end
  | RPUSH k vs => fun m =>
      match m !! k with
      | None => Some (Z.of_nat (length vs), <[k := RList vs]> m)
      | Some (RList l) => Some (Z.of_nat (length (l ++ vs)), <[k := RList (l ++ vs)]> m)
      | Some _ => None
      end
  | EXPIRE k _ => fun m =>
      match m !! k with None => Some (false, m) | Some _ => Some (true, m) end
  end.
End CommandSpec.

(** The commands of a pipeline, one after another. *)
Fixpoint pipe_all (l : list {A : Type & rcmd A}) (m : gmap string rval) : option (gmap string rval) :=
  match l with
  | [] => Some m
  | existT _ c :: l' =>
      match cmd_spec c m with
      | Some (_, m') => pipe_all l' m'
      | None => None
      end
  end.

(** The same when some of them were lost. *)
Fixpoint pipe_some (l : list {A : Type & rcmd A}) (m m' : gmap string rval) : Prop :=
  match l with
  | [] => m' = m
  | existT _ c :: l' =>
      pipe_some l' m m' \/ exists a m1, cmd_spec c m = Some (a, m1) /\ pipe_some l' m1 m'
  end.

(** [rd_do] sends a command over the connection, [rd_call] is [redis.call] inside a
    Lua script, [rd_eval] runs a script on the server, [rd_pipeline] a pipeline.
    [lua_le0 s] is [tonumber(s) <= 0], [None] when the comparison raises. *)
Class RedisOps (R : Type) := {
  rd_do : forall {A}, rcmd A -> M R A;
  rd_call : forall {A}, rcmd A -> M R A;
  rd_eval : forall {A}, M R A -> M R A;
  rd_pipeline : list {A : Type & rcmd A} -> M R unit;
  lua_le0 : string -> option bool }.

Class RedisLaws (R : Type) `{RedisOps R} := {
  rd_view : R -> gmap string rval;
  (** A reply reports the effect; a lost connection may or may not have run it. *)
  rd_do_law : forall A (c : rcmd A) r,
    match rd_do c r with
    | (Ret a, r') => cmd_spec c (rd_view r) = Some (a, rd_view r')
    | (Fail _, r') => rd_view r' = rd_view r \/
        exists a, cmd_spec c (rd_view r) = Some (a, rd_view r')
    | (Panic _, _) => False
    end;
  (** An absent value is a reply of its own, [rd_do] does not report it as an error. *)
  rd_do_not_nil : forall A (c : rcmd A) r e r', rd_do c r = (Fail e, r') -> is_redis_nil e = false;
  (** Inside a script a command fails only with its error reply. *)
  rd_call_law : forall A (c : rcmd A) r,
    match cmd_spec c (rd_view r) with
    | Some (a, m') => exists r', rd_call c r = (Ret a, r') /\ rd_view r' = m'
    | None => exists e r', rd_call c r = (Fail e, r') /\ rd_view r' = rd_view r
    end;
  rd_eval_law : forall A (m : M R A) r,
    match rd_eval m r with
    | (Ret a, r') => exists r1, m r = (Ret a, r1) /\ rd_view r' = rd_view r1
    | (Fail _, r') => rd_view r' = rd_view r \/ rd_view r' = rd_view (m r).2
    | (Panic _, _) => False
    end;
  (** A pipeline succeeds when every command did; otherwise any of them may have run. *)
  rd_pipeline_law : forall l r,
    match rd_pipeline l r with
    | (Ret _, r') => pipe_all l (rd_view r) = Some (rd_view r')
    | (Fail _, r') => pipe_some l (rd_view r) (rd_view r')
    | (Panic _, _) => False
    end;
  lua_le0_law : forall z, Z.abs z <= 2 ^ 53 -> lua_le0 (FormatInt z) = Some (z <=? 0) }.

(** ** MySQL through gorm

    A handle names a database; a condition is a predicate on rows and an update a
    function on rows. *)
Notation dbh := string (only parsing).

Class SqlOps (D : Type) := {
  sq_find : dbh -> forall t, (row t -> bool) -> M D (list (row t));
  sq_find_ordered : dbh -> forall t, (row t -> bool) -> (row t -> row t -> bool) -> nat ->
    M D (list (row t));
  sq_first : dbh -> forall t, (row t -> bool) -> M D (row t);
  sq_scan : forall {A}, dbh -> forall t, (row t -> bool) -> (row t -> A) -> M D (option A);
  sq_create : dbh -> forall t, row t -> M D (row t);
  sq_update : dbh -> forall t, (row t -> bool) -> (row t -> row t) -> M D Z;
  sq_transaction : forall {X A}, dbh -> M (X * D) A -> M (X * D) A;
  sql_like : string -> string -> bool }.

Class SqlLaws (D : Type) `{SqlOps D} := {
  sq_rows : D -> dbh -> forall t, list (row t);
  (** the unique indexes of the schema *)
  sq_conflict : forall t, row t -> row t -> bool;
  sq_find_law : forall db t p d,
    match sq_find db t p d with
    | (Ret l, d') => l = List.filter p (sq_rows d db t) /\ sq_rows d' = sq_rows d
    | (Fail _, d') => sq_rows d' = sq_rows d
    | (Panic _, _) => False
    end;
  sq_find_ordered_law : forall db t p le n d,
    (forall x y, le x y = true \/ le y x = true) ->
    match sq_find_ordered db t p le n d with
    | (Ret l, d') => sq_rows d' = sq_rows d /\
        exists s, Permutation s (List.filter p (sq_rows d db t)) /\
          Sorted (fun x y => le x y = true) s /\ l = firstn n s
    | (Fail _, d') => sq_rows d' = sq_rows d
    | (Panic _, _) => False
    end;
  sq_first_law : forall db t p d,
    match sq_first db t p d with
    | (Ret r, d') => List.find p (sq_rows d db t) = Some r /\ sq_rows d' = sq_rows d
    | (Fail e, d') => (errors_is is_not_found e = true -> List.find p (sq_rows d db t) = None) /\
        sq_rows d' = sq_rows d
    | (Panic _, _) => False
    end;
  sq_scan_law : forall A db t p (col : row t -> A) d,
    match sq_scan db t p col d with
    | (Ret None, d') => List.filter p (sq_rows d db t) = [] /\ sq_rows d' = sq_rows d
    | (Ret (Some v), d') =>
        (exists r, In r (List.filter p (sq_rows d db t)) /\ v = col r) /\ sq_rows d' = sq_rows d
    | (Fail _, d') => sq_rows d' = sq_rows d
    | (Panic _, _) => False
    end;
  (** The server is in strict mode: a statement fails when a column cannot hold its
      value. *)
  sq_create_law : forall db t r d,
    sets_defaults t r ->
    match sq_create db t r d with
    | (Ret r', d') =>
        existsb (sq_conflict t r) (sq_rows d db t) = false /\
        payload t (setid t 0 r') = payload t (setid t 0 r) /\ 0 < row_id t r' /\
        sq_rows d' db t = sq_rows d db t ++ [r'] /\
        (forall db' t', (db', t') <> (db, t) -> sq_rows d' db' t' = sq_rows d db' t')
    | (Fail e, d') =>
        (is_duplicate_entry e = true -> existsb (sq_conflict t r) (sq_rows d db t) = true) /\
        (sq_rows d' = sq_rows d \/
         exists r', payload t (setid t 0 r') = payload t (setid t 0 r) /\
           sq_rows d' db t = sq_rows d db t ++ [r'] /\
           (forall db' t', (db', t') <> (db, t) -> sq_rows d' db' t' = sq_rows d db' t'))
    | (Panic _, _) => False
    end;
  (** A duplicate is reported only when there is one, and nothing is written. *)
  sq_create_duplicate : forall db t r d e d',
    sq_create db t r d = (Fail e, d') ->
    errors_is is_duplicated_key e || is_duplicate_entry e = true ->
    existsb (sq_conflict t r) (sq_rows d db t) = true /\ sq_rows d' = sq_rows d;
  (** MySQL counts the rows an [UPDATE] changes. *)
  sq_update_law : forall db t p f d,
    match sq_update db t p f d with
    | (Ret n, d') =>
        Forall2 (fun r r' => if p r then payload t r' = payload t (f r) else r' = r)
          (sq_rows d db t) (sq_rows d' db t) /\
        0 <= n <= Z.of_nat (length (List.filter p (sq_rows d db t))) /\
        (n = 0 -> forall r, In r (sq_rows d db t) -> p r = true ->
          payload t (f r) = payload t r) /\
        (forall db' t', (db', t') <> (db, t) -> sq_rows d' db' t' = sq_rows d db' t')
    | (Fail _, d') =>
        sq_rows d' = sq_rows d \/
        (Forall2 (fun r r' => if p r then payload t r' = payload t (f r) else r' = r)
           (sq_rows d db t) (sq_rows d' db t) /\
         (forall db' t', (db', t') <> (db, t) -> sq_rows d' db' t' = sq_rows d db' t'))
    | (Panic _, _) => False
    end;
  (** [db.Transaction(fc)]: an error or a panic of [fc] rolls back; a failed commit
      leaves either nothing or the whole.  Unique indexes are checked by the statements,
      so [BEGIN] and [COMMIT] do not fail with a duplicate. *)
  sq_transaction_law : forall X A db (m : M (X * D) A) x d,
    match sq_transaction db m (x, d) with
    | (Ret a, (x', d')) => exists d0 d1,
        sq_rows d0 = sq_rows d /\ m (x, d0) = (Ret a, (x', d1)) /\ sq_rows d' = sq_rows d1
    | (Fail e, (x', d')) =>
        (x' = x /\ sq_rows d' = sq_rows d /\ is_duplicate_entry e = false) \/
        (exists d0 d1, sq_rows d0 = sq_rows d /\ m (x, d0) = (Fail e, (x', d1)) /\
           sq_rows d' = sq_rows d) \/
        (exists d0 d1 a, sq_rows d0 = sq_rows d /\ m (x, d0) = (Ret a, (x', d1)) /\
           (sq_rows d' = sq_rows d \/ sq_rows d' = sq_rows d1) /\ is_duplicate_entry e = false)
    | (Panic p, (x', d')) => exists d0 d1,
        sq_rows d0 = sq_rows d /\ m (x, d0) = (Panic p, (x', d1)) /\ sq_rows d' = sq_rows d
    end;
  (** a pattern without wildcards but a final [%] matches the strings it prefixes *)
  sql_like_law : forall p s,
    no_char "%" p = true -> no_char "_" p = true -> no_char "\" p = true ->
    sql_like s (p ++ "%")%string = String.prefix p s }.

(** ** The process environment *)
Class EnvOps (E : Type) := {
  ev_now : M E time;
  (** the offset of [time.Local] from UTC, in seconds, at an instant *)
  ev_offset : time -> Z;
  ev_int63n : Z -> M E Z;
  ev_shuffle : forall {A}, list A -> M E (list A);
  ev_crypto_int : Z -> M E Z;
  ev_crypto_read : nat -> M E (list Z);
  ev_exchange_declare : string -> M E unit;
  ev_amqp_publish : string -> string -> M E unit;
  ev_enqueue : string -> string -> string -> Z -> M E unit;
  ev_delete_queue : string -> M E unit }.

Class EnvLaws (E : Type) `{EnvOps E} := {
  ev_now_law : forall e, exists t e', ev_now e = (Ret t, e');
  ev_int63n_law : forall n e, 0 < n -> exists z e', ev_int63n n e = (Ret z, e') /\ 0 <= z < n;
  ev_shuffle_law : forall A (l : list A) e, exists l' e',
    ev_shuffle l e = (Ret l', e') /\ Permutation l l';
  ev_crypto_int_law : forall n e, 0 < n ->
    match ev_crypto_int n e with
    | (Ret z, _) => 0 <= z < n
    | (Fail e, _) => is_redis_nil e = false
    | (Panic _, _) => False
    end;
  ev_crypto_read_law : forall n e p e', ev_crypto_read n e <> (Panic p, e') }.

(** ** The local cache of the process *)
Class LocalCacheOps (E : Type) := {
  lc_set : string -> string -> M E unit;
  lc_get : string -> M E (option string);
  lc_del : string -> M E unit }.

(** ** The world of the repositories *)
Definition W (R D E : Type) : Type := ((R * E) * D)%type.

Section Lift.
Context {R D E : Type}.

Definition in_redis {A} (m : M R A) : M (W R D E) A := fun w =>
  let '((r, e), d) := w in
  let '(a, r') := m r in (a, ((r', e), d)).
Definition in_env {A} (m : M E A) : M (W R D E) A := fun w =>
  let '((r, e), d) := w in
  let '(a, e') := m e in (a, ((r, e'), d)).
Definition in_sql {A} (m : M D A) : M (W R D E) A := fun w =>
  let '(x, d) := w in
  let '(a, d') := m d in (a, (x, d')).

Definition w_redis (w : W R D E) : R := w.1.1.
Definition w_env (w : W R D E) : E := w.1.2.
Definition w_sql (w : W R D E) : D := w.2.

Lemma in_redis_eq {A} (m : M R A) r e d a r' :
  m r = (a, r') -> in_redis m ((r, e), d) = (a, ((r', e), d)).
Proof. intros H. unfold in_redis. by rewrite H. Qed.
Lemma in_env_eq {A} (m : M E A) r e d a e' :
  m e = (a, e') -> in_env m ((r, e), d) = (a, ((r, e'), d)).
Proof. intros H. unfold in_env. by rewrite H. Qed.
Lemma in_sql_eq {A} (m : M D A) x d a d' :
  m d = (a, d') -> in_sql m (x, d) = (a, (x, d')).
Proof. intros H. unfold in_sql. by rewrite H. Qed.
End Lift.

(** The environment of the whole world, for the business layer. *)
#[export] Instance WorldEnvOps {R D E} `{EnvOps E} : EnvOps (W R D E) := {
  ev_now := in_env ev_now;
  ev_offset := ev_offset (E := E);
  ev_int63n := fun n => in_env (ev_int63n n);
  ev_shuffle := fun A l => in_env (ev_shuffle l);
  ev_crypto_int := fun n => in_env (ev_crypto_int n);
  ev_crypto_read := fun n => in_env (ev_crypto_read n);
  ev_exchange_declare := fun t => in_env (ev_exchange_declare t);
  ev_amqp_publish := fun t b => in_env (ev_amqp_publish t b);
  ev_enqueue := fun ty pl q d => in_env (ev_enqueue ty pl q d);
  ev_delete_queue := fun q => in_env (ev_delete_queue q) }.

#[export] Instance WorldEnvLaws {R D E} `{EnvLaws E} : EnvLaws (W R D E).
Proof.
  constructor.
  - intros [[r e] d]. destruct (ev_now_law e) as (t & e' & Ht). simpl. rewrite Ht. eauto.
  - intros n [[r e] d] Hn. destruct (ev_int63n_law n e Hn) as (z & e' & Hz & Hr).
    simpl. rewrite Hz. eauto.
  - intros A l [[r e] d]. destruct (ev_shuffle_law A l e) as (l' & e' & Hl & Hp).
    simpl. rewrite Hl. eauto.
  - intros n [[r e] d] Hn. simpl. pose proof (ev_crypto_int_law n e Hn) as Hl.
    by destruct (ev_crypto_int n e) as [a e'].
  - intros n [[r e] d] p w'. simpl. destruct (ev_crypto_read n e) as [x e'] eqn:Ex.
    intros [= -> _]. by apply (ev_crypto_read_law n e p e').
Qed.

(** The entries a [for k, v := range m] loop visits: Go leaves the order open, so it
    is drawn from the environment. *)
Definition range_map {E A} `{EnvOps E} (m : gmap string A) : M E (list (string * A)) :=
  ev_shuffle (map_to_list m).

(** [xrand.GetSecureRandomInt]: [crypto/rand.Int] panics on a bound that is not
    positive. *)
Definition GetSecureRandomInt {E} `{EnvOps E} (max : Z) : M E Z :=
  if max <=? 0 then panic "crypto/rand: argument to Int is <= 0"
  else ev_crypto_int max.

(** [xrand.RandomNumeric]: the error of [rand.Int] is dropped, which leaves a nil
    number to dereference. *)
Fixpoint RandomNumeric {E} `{EnvOps E} (n : nat) : M E string :=
  match n with
  | O => ret EmptyString
  | S n' =>
      let! r := attempt (ev_crypto_int 10) in
      match r with
      | inl num =>
          let! s := RandomNumeric n' in
          ret (String (ascii_of_N (48 + Z.to_N num)) s)
      | inr _ => panic "runtime error: invalid memory address or nil pointer dereference"
      end
  end.
