(* ===== verification/Logic.v ===== *)
(** * Logic: weakest preconditions

    Reasoning forwards about the computations of the repositories: [wp m Q s] says
    that running [m] from [s] ends in a result and a state that satisfy [Q].  The
    rules for the operations of [Env] turn their laws into steps a proof applies one
    after another. *)
From Stdlib Require Import ZArith Lia List Ascii String.
From stdpp Require Import base gmap strings list numbers.
From S2P Require Import Prelude GoLib Model Po Env.
Open Scope Z_scope.

Definition wp {S A} (m : M S A) (Q : res A -> S -> Prop) (s : S) : Prop :=
  Q (m s).1 (m s).2.

(** What comes after a step: the rest on a value, the postcondition otherwise. *)
Definition then_ {S A B} (k : A -> M S B) (Q : res B -> S -> Prop) : res A -> S -> Prop :=
  fun r s => match r with
             | Ret a => wp (k a) Q s
             | Fail e => Q (Fail e) s
             | Panic p => Q (Panic p) s
             end.

Section Wp.
Context {S : Type}.

Lemma wp_run {A} (m : M S A) Q s r s' : wp m Q s -> m s = (r, s') -> Q r s'.
Proof. unfold wp. intros HQ E. by rewrite E in HQ. Qed.

Lemma wp_intro {A} (m : M S A) Q s : (forall r s', m s = (r, s') -> Q r s') -> wp m Q s.
Proof. unfold wp. intros HQ. apply HQ. by destruct (m s). Qed.

Lemma wp_mono {A} (m : M S A) (Q Q' : res A -> S -> Prop) s :
  wp m Q s -> (forall r s', Q r s' -> Q' r s') -> wp m Q' s.
Proof. unfold wp. auto. Qed.

Lemma wp_ret {A} (a : A) Q (s : S) : Q (Ret a) s -> wp (ret a) Q s.
Proof. done. Qed.

Lemma wp_fail {A} (e : gerr) Q (s : S) : Q (Fail e) s -> wp (A := A) (fail e) Q s.
Proof. done. Qed.

Lemma wp_bind {A B} (m : M S A) (k : A -> M S B) Q s :
  wp m (then_ k Q) s -> wp (bind m k) Q s.
Proof. unfold wp, then_, bind. by destruct (m s) as [[] s1]. Qed.

Lemma wp_deref {A B} (o : option A) (k : A -> M S B) Q s :
  (forall a, o = Some a -> wp (k a) Q s) -> (o = None -> Q (Panic nil_deref) s) ->
  wp (bind (deref o) k) Q s.
Proof. intros H1 H2. destruct o as [a|]; [by apply H1|by apply H2]. Qed.

Lemma wp_attempt {A B} (m : M S A) (k : A + gerr -> M S B) Q s :
  wp m (fun r s' => match r with
                    | Ret a => wp (k (inl a)) Q s'
                    | Fail e => wp (k (inr e)) Q s'
                    | Panic p => Q (Panic p) s'
                    end) s ->
  wp (bind (attempt m) k) Q s.
Proof. unfold wp, attempt, bind. by destruct (m s) as [[] s1]. Qed.

Lemma wp_with_err {A} (f : gerr -> gerr) (m : M S A) Q s :
  wp m (fun r s' => match r with Fail e => Q (Fail (f e)) s' | _ => Q r s' end) s ->
  wp (with_err f m) Q s.
Proof. unfold wp, with_err. by destruct (m s) as [[] s1]. Qed.

Lemma wp_lift {A B} (x : res A) (k : A -> M S B) Q s :
  then_ k Q x s -> wp (bind (lift_res x) k) Q s.
Proof. by destruct x. Qed.
End Wp.

(** ** Database operations *)
Section SqlRules.
Context {R D E : Type} `{SqlLaws D}.
Notation World := (W R D E).

Definition rows (w : World) : dbh -> forall t, list (row t) := sq_rows (w_sql w).

(** Redis and the environment are untouched. *)
Definition same_rest (w w' : World) : Prop := w'.1 = w.1.

(** Only one table differs. *)
Definition other_tables (db : dbh) (t : tbl) (f f' : dbh -> forall t, list (row t)) : Prop :=
  forall db' t', (db', t') <> (db, t) -> f' db' t' = f db' t'.

(** An update of the rows that satisfy [p]; the two times of a row are not observed. *)
Definition updated {t} (p : row t -> bool) (f : row t -> row t) (l l' : list (row t)) : Prop :=
  Forall2 (fun r r' => if p r then payload t r' = payload t (f r) else r' = r) l l'.

(** [r] was added with a fresh identifier. *)
Definition added {t} (r : row t) (l l' : list (row t)) : Prop :=
  exists r', payload t (setid t 0 r') = payload t (setid t 0 r) /\ l' = l ++ [r'].

Lemma wp_first db t p Q w :
  (forall w', same_rest w w' -> rows w' = rows w ->
     (forall r, List.find p (rows w db t) = Some r -> Q (Ret r) w') /\
     (forall e, (errors_is is_not_found e = true -> List.find p (rows w db t) = None) ->
        Q (Fail e) w')) ->
  wp (in_sql (sq_first db t p)) Q w.
Proof.
  intros HQ. unfold wp, in_sql. destruct w as [x d].
  pose proof (sq_first_law db t p d) as Hl. destruct (sq_first db t p d) as [r d'].
  specialize (HQ (x, d') eq_refl). cbn [fst snd] in *.
  destruct r as [r|e|q]; [| |done]; destruct Hl as [Hf Hr];
    destruct (HQ Hr) as [H1 H2]; [by apply H1|by apply H2].
Qed.

Lemma wp_find db t p Q w :
  (forall w', same_rest w w' -> rows w' = rows w ->
     Q (Ret (List.filter p (rows w db t))) w' /\ (forall e, Q (Fail e) w')) ->
  wp (in_sql (sq_find db t p)) Q w.
Proof.
  intros HQ. unfold wp, in_sql. destruct w as [x d].
  pose proof (sq_find_law db t p d) as Hl. destruct (sq_find db t p d) as [r d'].
  specialize (HQ (x, d') eq_refl). cbn [fst snd] in *.
  destruct r as [l|e|q]; [| |done].
  - destruct Hl as [-> Hr]. by apply HQ.
  - by apply HQ.
Qed.

Lemma wp_find_ordered db t p le n Q w :
  (forall x y, le x y = true \/ le y x = true) ->
  (forall w' s, same_rest w w' -> rows w' = rows w -> Permutation s (List.filter p (rows w db t)) ->
     Q (Ret (firstn n s)) w') ->
  (forall w' e, sq_find_ordered db t p le n (w_sql w) = (Fail e, w_sql w') -> same_rest w w' ->
     rows w' = rows w -> Q (Fail e) w') ->
  wp (in_sql (sq_find_ordered db t p le n)) Q w.
Proof.
  intros Htot Hok Hfail. unfold wp, in_sql. destruct w as [x d].
  pose proof (sq_find_ordered_law db t p le n d Htot) as Hl. cbn [w_sql snd] in Hfail.
  destruct (sq_find_ordered db t p le n d) as [r d'] eqn:Ef.
  specialize (Hok (x, d')). specialize (Hfail (x, d')). cbn [fst snd w_sql] in *.
  destruct r as [l|e|q]; [| |done].
  - destruct Hl as (Hr & s & Hp & _ & ->). by apply Hok.
  - by apply Hfail.
Qed.

(** An update, with what a lost answer leaves. *)
Lemma wp_update_lost db t p f Q w :
  (forall w' n, same_rest w w' -> updated p f (rows w db t) (rows w' db t) ->
     other_tables db t (rows w) (rows w') ->
     0 <= n <= Z.of_nat (length (List.filter p (rows w db t))) ->
     (n = 0 -> forall r, In r (rows w db t) -> p r = true -> payload t (f r) = payload t r) ->
     Q (Ret n) w') ->
  (forall w' e, same_rest w w' ->
     rows w' = rows w \/ (updated p f (rows w db t) (rows w' db t) /\
                          other_tables db t (rows w) (rows w')) -> Q (Fail e) w') ->
  wp (in_sql (sq_update db t p f)) Q w.
Proof.
  intros Hok Hfail. unfold wp, in_sql. destruct w as [x d].
  pose proof (sq_update_law db t p f d) as Hl. destruct (sq_update db t p f d) as [r d'].
  specialize (Hok (x, d')). specialize (Hfail (x, d')). cbn [fst snd] in *.
  destruct r as [n|e|q]; [destruct Hl as (Hu & Hb & Hn & Ho)| |done].
  - by apply Hok.
  - by apply Hfail.
Qed.

Lemma wp_update db t p f Q w :
  (forall w' n, same_rest w w' -> updated p f (rows w db t) (rows w' db t) ->
     other_tables db t (rows w) (rows w') ->
     0 <= n <= Z.of_nat (length (List.filter p (rows w db t))) ->
     (n = 0 -> forall r, In r (rows w db t) -> p r = true -> payload t (f r) = payload t r) ->
     Q (Ret n) w') ->
  (forall w' e, same_rest w w' -> Q (Fail e) w') ->
  wp (in_sql (sq_update db t p f)) Q w.
Proof. intros Hok Hfail. apply wp_update_lost; [done|]. intros w' e Hs _. by apply Hfail. Qed.

Lemma wp_create db t r Q w :
  sets_defaults t r ->
  (forall w' r', same_rest w w' -> existsb (sq_conflict t r) (rows w db t) = false ->
     payload t (setid t 0 r') = payload t (setid t 0 r) ->
     rows w' db t = rows w db t ++ [r'] ->
     other_tables db t (rows w) (rows w') -> Q (Ret r') w') ->
  (forall w' e, same_rest w w' ->
     (is_duplicate_entry e = true -> existsb (sq_conflict t r) (rows w db t) = true) ->
     Q (Fail e) w') ->
  wp (in_sql (sq_create db t r)) Q w.
Proof.
  intros Hst Hok Hfail. unfold wp, in_sql. destruct w as [x d].
  pose proof (sq_create_law db t r d Hst) as Hl. destruct (sq_create db t r d) as [r0 d'].
  specialize (Hok (x, d')). specialize (Hfail (x, d')). cbn [fst snd] in *.
  destruct r0 as [r'|e|q]; [| |done].
  - destruct Hl as (Hc & Hp & _ & Hr & Ho). by apply (Hok r').
  - destruct Hl as (Hd & _). by apply Hfail.
Qed.

(** The same, when the caller looks for a duplicate. *)
Lemma wp_create_duplicate db t r Q w :
  sets_defaults t r ->
  (forall w' r', same_rest w w' -> existsb (sq_conflict t r) (rows w db t) = false ->
     payload t (setid t 0 r') = payload t (setid t 0 r) ->
     rows w' db t = rows w db t ++ [r'] ->
     other_tables db t (rows w) (rows w') -> Q (Ret r') w') ->
  (forall w' e, same_rest w w' -> sq_create db t r (w_sql w) = (Fail e, w_sql w') ->
     (errors_is is_duplicated_key e || is_duplicate_entry e = true ->
        existsb (sq_conflict t r) (rows w db t) = true /\ rows w' = rows w) ->
     Q (Fail e) w') ->
  wp (in_sql (sq_create db t r)) Q w.
Proof.
  intros Hst Hok Hfail. apply wp_intro. intros rr w' Er. destruct w as [x d].
  unfold in_sql in Er. destruct (sq_create db t r d) as [r0 d'] eqn:Ec. injection Er as <- <-.
  pose proof (sq_create_law db t r d Hst) as Hl. rewrite Ec in Hl.
  destruct r0 as [r'|e|q]; [| |done].
  - destruct Hl as (Hc & Hp & _ & Hr & Ho). by apply (Hok (x, d') r').
  - apply (Hfail (x, d')); [done|exact Ec|]. intros Hdup. exact (sq_create_duplicate _ _ _ _ _ _ Ec Hdup).
Qed.

(** A transaction: the body's effect on success, nothing on an error of the body; a
    failed commit, or one whose answer was lost, fails with either. *)
Lemma wp_transaction {A} db (m : M World A) Q (w : World) :
  (forall w0, rows w0 = rows w -> same_rest w w0 ->
     wp m (fun r w1 => match r with
       | Ret a => (forall w2, same_rest w1 w2 -> rows w2 = rows w1 -> Q (Ret a) w2) /\
                  (forall w2 e, same_rest w1 w2 -> rows w2 = rows w \/ rows w2 = rows w1 ->
                     is_duplicate_entry e = false -> Q (Fail e) w2)
       | Fail e => forall w2, same_rest w1 w2 -> rows w2 = rows w -> Q (Fail e) w2
       | Panic p => forall w2, same_rest w1 w2 -> rows w2 = rows w -> Q (Panic p) w2
       end) w0) ->
  (forall w2 e, same_rest w w2 -> rows w2 = rows w -> is_duplicate_entry e = false ->
     Q (Fail e) w2) ->
  wp (sq_transaction (X := R * E) db m) Q w.
Proof.
  intros Hm Hno. destruct w as [x d]. unfold wp.
  pose proof (sq_transaction_law (R * E)%type A db m x d) as Hl.
  destruct (sq_transaction db m (x, d)) as [r [x' d'] ]. cbn [fst snd].
  assert (Hrun : forall d0 r1 w1, sq_rows d0 = sq_rows d -> m (x, d0) = (r1, w1) ->
    match r1 with
    | Ret a => (forall w2, same_rest w1 w2 -> rows w2 = rows w1 -> Q (Ret a) w2) /\
               (forall w2 e, same_rest w1 w2 -> rows w2 = rows (x, d) \/ rows w2 = rows w1 ->
                  is_duplicate_entry e = false -> Q (Fail e) w2)
    | Fail e => forall w2, same_rest w1 w2 -> rows w2 = rows (x, d) -> Q (Fail e) w2
    | Panic p => forall w2, same_rest w1 w2 -> rows w2 = rows (x, d) -> Q (Panic p) w2
    end).
  { intros d0 r1 w1 Hd E1. exact (wp_run _ _ _ _ _ (Hm (x, d0) Hd eq_refl) E1). }
  destruct r as [a|e|p].
  - destruct Hl as (d0 & d1 & Hd & E1 & Hr). destruct (Hrun _ _ _ Hd E1) as [HQ _].
    by apply (HQ (x', d')).
  - destruct Hl as [(-> & Hr & Hdup)|[(d0 & d1 & Hd & E1 & Hr)|(d0 & d1 & a & Hd & E1 & Hr & Hdup)]].
    + by apply (Hno (x, d')).
    + by apply (Hrun _ _ _ Hd E1 (x', d')).
    + destruct (Hrun _ _ _ Hd E1) as [_ HQ]. by apply (HQ (x', d')).
  - destruct Hl as (d0 & d1 & Hd & E1 & Hr). by apply (Hrun _ _ _ Hd E1 (x', d')).
Qed.
End SqlRules.

(** ** The environment *)
Section InEnv.
Context {R D E : Type}.

Lemma wp_env {A} (m : M E A) Q (w : W R D E) :
  (forall r w', w_redis w' = w_redis w -> w_sql w' = w_sql w -> Q r w') -> wp (in_env m) Q w.
Proof.
  intros HQ. destruct w as [[r e] d]. unfold wp, in_env.
  destruct (m e) as [a e']. by apply HQ.
Qed.
End InEnv.

Section EnvRules.
Context {R D E : Type} `{EnvLaws E}.
Notation World := (W R D E).

(** The clock, with its reading. *)
Lemma wp_clock Q w :
  (forall t w', ev_now (w_env w) = (Ret t, w_env w') ->
     w_redis w' = w_redis w -> w_sql w' = w_sql w -> Q (Ret t) w') ->
  wp (in_env (R := R) (D := D) ev_now) Q w.
Proof.
  intros HQ. destruct w as [[r e] d]. unfold wp, in_env.
  destruct (ev_now_law e) as (t & e' & Et). rewrite Et. by apply HQ.
Qed.

Lemma wp_now Q w :
  (forall t w', w_redis w' = w_redis w -> w_sql w' = w_sql w -> Q (Ret t) w') ->
  wp (in_env (R := R) (D := D) ev_now) Q w.
Proof.
  intros HQ. destruct w as [[r e] d]. unfold wp, in_env.
  destruct (ev_now_law e) as (t & e' & ->). by apply HQ.
Qed.
End EnvRules.

(** ** Updates *)
Lemma updated_app {t} (p : row t -> bool) f l1 l2 l1' l2' :
  updated p f l1 l1' -> updated p f l2 l2' -> updated p f (l1 ++ l2) (l1' ++ l2').
Proof. intros H1 H2. by apply Forall2_app. Qed.

Lemma updated_length {t} (p : row t -> bool) f l l' : updated p f l l' -> length l = length l'.
Proof. intros Hu. by eapply Forall2_length. Qed.

(** A fresh row has the content it was created with. *)
Lemma added_intro {t} (r r' : row t) l l' :
  payload t (setid t 0 r') = payload t (setid t 0 r) -> l' = l ++ [r'] -> added r l l'.
Proof. intros Hp ->. by exists r'. Qed.

(** An update that matches nothing changes nothing. *)
Lemma updated_none {t} (p : row t -> bool) f l l' :
  List.find p l = None -> updated p f l l' -> l' = l.
Proof.
  intros Hn Hu. induction Hu as [|x y l l' Hxy Hu IH]; [done|]. simpl in Hn.
  destruct (p x); [done|]. by rewrite Hxy, IH.
Qed.

(** A property of the fields the update leaves alone selects the same rows. *)
Lemma updated_find {t} (p q : row t -> bool) f l l' r :
  updated p f l l' ->
  (forall r1 r2, payload t r1 = payload t r2 -> q r1 = q r2) ->
  (forall r1, p r1 = true -> q (f r1) = q r1) ->
  List.find q l = Some r ->
  exists r', List.find q l' = Some r' /\
    (if p r then payload t r' = payload t (f r) else r' = r).
Proof.
  intros Hu Hq Hf. induction Hu as [|x y l l' Hxy Hu IH]; [done|]. simpl.
  assert (Exy : q y = q x).
  { destruct (p x) eqn:Ep; [|by subst]. by rewrite (Hq _ _ Hxy), Hf. }
  rewrite Exy. destruct (q x); [|exact IH]. intros [= <-]. by exists y.
Qed.
