(* ===== verification/Mem.v ===== *)
(** * Mem: an in-memory state for each interface of [Env]

    A keyspace, a family of tables with given unique indexes, and an environment
    driven by a clock and a list of random numbers.  They satisfy the laws, so the
    laws are consistent, and the witnesses run the code on them. *)
From Stdlib Require Import ZArith List Ascii String Permutation Sorted.
From stdpp Require Import base gmap strings list numbers.
From S2P Require Import Prelude GoLib Model Po Env.
Open Scope Z_scope.

(** ** Redis *)
Definition MemRedis := gmap string rval.

Definition mem_run {A} (c : rcmd A) : M MemRedis A := fun m =>
  match cmd_spec c m with
  | Some (a, m') => (Ret a, m')
  | None => (Fail (EExt "ERR"), m)
  end.

Definition mem_eval {A} (m : M MemRedis A) : M MemRedis A := fun s =>
  match m s with
  | (Panic _, _) => (Fail (EExt "ERR script"), s)
  | r => r
  end.

Definition mem_le0 (s : string) : option bool :=
  match ParseInt s with Ret z => Some (z <=? 0) | _ => None end.

(** Every command is tried; the first error is reported. *)
Fixpoint mem_pipeline (l : list {A : Type & rcmd A}) : M MemRedis unit := fun m =>
  match l with
  | [] => (Ret tt, m)
  | existT _ c :: l' =>
      match cmd_spec c m with
      | Some (_, m') => mem_pipeline l' m'
      | None => (Fail (EExt "ERR"), (mem_pipeline l' m).2)
      end
  end.

Lemma mem_pipeline_law l m :
  match mem_pipeline l m with
  | (Ret _, m') => pipe_all l m = Some m'
  | (Fail _, m') => pipe_some l m m'
  | (Panic _, _) => False
  end /\ pipe_some l m (mem_pipeline l m).2.
Proof.
  revert m. induction l as [|[A c] l IH]; intros m; simpl; [done|].
  destruct (cmd_spec c m) as [[a m1]|] eqn:Ec.
  - destruct (IH m1) as [H1 H2]. split; [|right; eauto].
    destruct (mem_pipeline l m1) as [[u|e|p] m']; [done|right; eauto|done].
  - destruct (IH m) as [_ H2]. split; by left.
Qed.

#[export] Instance MemRedisOps : RedisOps MemRedis := {
  rd_do := @mem_run;
  rd_call := @mem_run;
  rd_eval := @mem_eval;
  rd_pipeline := mem_pipeline;
  lua_le0 := mem_le0 }.

#[export] Instance MemRedisLaws : RedisLaws MemRedis.
Proof.
  refine {| rd_view := fun r => r |}.
  - intros A c r. simpl. unfold mem_run. destruct (cmd_spec c r) as [[a m']|]; auto.
  - intros A c r e r'. simpl. unfold mem_run. destruct (cmd_spec c r) as [[a m']|]; [done|].
    by intros [= <- <-].
  - intros A c r. simpl. unfold mem_run. destruct (cmd_spec c r) as [[a m']|]; eauto.
  - intros A m r. simpl. unfold mem_eval. destruct (m r) as [[a|e|p] r'] eqn:E; simpl; eauto.
  - intros l r. exact (proj1 (mem_pipeline_law l r)).
  - intros z Hz. simpl. unfold mem_le0. rewrite ParseInt_FormatInt; [done|].
    unfold in_int64, int64_min, int64_max. lia.
Defined.

(** ** MySQL *)
Definition MemSql := dbh -> forall t, list (row t).

Definition mem_set (db : dbh) (t : tbl) (l : list (row t)) (d : MemSql) : MemSql :=
  fun db' t' =>
    if decide (db = db') then
      match decide (t = t') with
      | left E => eq_rect t (fun t => list (row t)) l t' E
      | right _ => d db' t'
      end
    else d db' t'.

Lemma mem_set_eq db t l d : mem_set db t l d db t = l.
Proof.
  unfold mem_set. rewrite decide_True by done.
  destruct (decide (t = t)) as [E|]; [|done].
  by rewrite <- (Eqdep_dec.eq_rect_eq_dec tbl_eq_dec).
Qed.

Lemma mem_set_ne db t l d db' t' :
  (db', t') <> (db, t) -> mem_set db t l d db' t' = d db' t'.
Proof.
  intros H. unfold mem_set. case_decide as E1; [|done].
  destruct (decide (t = t')); [congruence|done].
Qed.

Fixpoint strip_percent (s : string) : option string :=
  match s with
  | EmptyString => None
  | String c EmptyString => if Ascii.eqb c "%" then Some EmptyString else None
  | String c s' => option_map (String c) (strip_percent s')
  end.

Definition mem_like (s pat : string) : bool :=
  match strip_percent pat with
  | Some p => String.prefix p s
  | None => String.eqb s pat
  end.

Lemma strip_percent_app p : strip_percent (p ++ "%")%string = Some p.
Proof.
  induction p as [|c p IH]; [done|]. rewrite str_app_cons.
  change (strip_percent (String c (p ++ "%"))) with
    (match (p ++ "%")%string with
     | EmptyString => if Ascii.eqb c "%" then Some EmptyString else None
     | _ => option_map (String c) (strip_percent (p ++ "%"))
     end).
  destruct (p ++ "%")%string eqn:E; [by destruct p|]. by rewrite IH.
Qed.

Section Sorting.
Context {A : Type} (le : A -> A -> bool) (Htot : forall x y, le x y = true \/ le y x = true).

Fixpoint insert_by (x : A) (l : list A) : list A :=
  match l with
  | [] => [x]
  | y :: l' => if le x y then x :: y :: l' else y :: insert_by x l'
  end.
Fixpoint sort_by (l : list A) : list A :=
  match l with [] => [] | x :: l' => insert_by x (sort_by l') end.

Lemma insert_by_perm x l : Permutation (insert_by x l) (x :: l).
Proof.
  induction l as [|y l IH]; simpl; [done|]. destruct (le x y); [done|].
  rewrite IH. apply perm_swap.
Qed.

Lemma sort_by_perm l : Permutation (sort_by l) l.
Proof. induction l as [|x l IH]; simpl; [done|]. by rewrite insert_by_perm, IH. Qed.

Lemma insert_by_sorted x l :
  Sorted (fun x y => le x y = true) l -> Sorted (fun x y => le x y = true) (insert_by x l).
Proof using Htot.
  induction 1 as [|y l Hl IH Hy]; simpl; [by repeat constructor|].
  destruct (le x y) eqn:E; [by repeat constructor|].
  assert (Hyx : le y x = true) by (destruct (Htot x y); congruence).
  constructor; [exact IH|]. destruct l as [|z l]; simpl in *; [by constructor|].
  destruct (le x z); constructor; [done|]. by inversion Hy.
Qed.

Lemma sort_by_sorted l : Sorted (fun x y => le x y = true) (sort_by l).
Proof using Htot. induction l; simpl; [constructor|]. by apply insert_by_sorted. Qed.
End Sorting.

Section MemSql.
(** the unique indexes *)
Variable uniq : forall t, row t -> row t -> bool.

Definition next_id {t} (l : list (row t)) : Z := 1 + foldr Z.max 0 (map (row_id t) l).

Lemma next_id_pos {t} (l : list (row t)) : 0 < next_id l.
Proof.
  unfold next_id. assert (0 <= foldr Z.max 0 (map (row_id t) l)); [|lia].
  induction l; simpl; lia.
Qed.

Lemma row_id_setid t id r : 0 < id -> 0 < row_id t (setid t id r).
Proof. destruct t; simpl; lia. Qed.

Lemma setid_setid t i j r : setid t i (setid t j r) = setid t i r.
Proof. by destruct t. Qed.

Definition mem_create (db : dbh) (t : tbl) (r : row t) : M MemSql (row t) := fun d =>
  if existsb (uniq t r) (d db t) then (Fail (EMySQL 1062 "Duplicate entry"), d)
  else let r' := setid t (next_id (d db t)) r in (Ret r', mem_set db t (d db t ++ [r']) d).

Definition mem_update (db : dbh) (t : tbl) (p : row t -> bool) (f : row t -> row t)
    : M MemSql Z := fun d =>
  (Ret (Z.of_nat (length (List.filter p (d db t)))),
   mem_set db t (map (fun r => if p r then f r else r) (d db t)) d).

Definition mem_transaction {X A} (db : dbh) (m : M (X * MemSql) A) : M (X * MemSql) A :=
  fun s => match m s with
           | (Ret a, s') => (Ret a, s')
           | (Fail e, s') => (Fail e, (s'.1, s.2))
           | (Panic p, s') => (Panic p, (s'.1, s.2))
           end.

Definition MemSqlOps : SqlOps MemSql := {|
  sq_find := fun db t p d => (Ret (List.filter p (d db t)), d);
  sq_find_ordered := fun db t p le n d =>
    (Ret (firstn n (sort_by le (List.filter p (d db t)))), d);
  sq_first := fun db t p d =>
    match List.find p (d db t) with
    | Some r => (Ret r, d)
    | None => (Fail ERecordNotFound, d)
    end;
  sq_scan := fun A db t p col d =>
    (Ret (match List.filter p (d db t) with [] => None | r :: _ => Some (col r) end), d);
  sq_create := mem_create;
  sq_update := mem_update;
  sq_transaction := @mem_transaction;
  sql_like := mem_like |}.

Lemma MemSqlLaws : @SqlLaws MemSql MemSqlOps.
Proof.
  refine {| sq_rows := fun d : MemSql => d; sq_conflict := uniq |}.
  - intros. simpl. done.
  - intros db t p le n d Htot. simpl. split; [done|].
    exists (sort_by le (List.filter p (d db t))).
    split_and!; [apply sort_by_perm | by apply sort_by_sorted | done].
  - intros. simpl. by destruct (List.find p (d db t)).
  - intros. simpl. destruct (List.filter p (d db t)) eqn:E; simpl; eauto.
  - intros db t r d _. simpl. unfold mem_create.
    destruct (existsb (uniq t r) (d db t)) eqn:E; [by auto|].
    rewrite setid_setid, mem_set_eq. split_and!; auto.
    + apply row_id_setid, next_id_pos.
    + intros. by apply mem_set_ne.
  - intros db t r d e d'. simpl. unfold mem_create.
    destruct (existsb (uniq t r) (d db t)) eqn:Eu; [|done]. by intros [= _ <-].
  - intros db t p f d. simpl. unfold mem_update. rewrite mem_set_eq. split_and!.
    + induction (d db t) as [|r l IH]; simpl; constructor; auto. by destruct (p r).
    + lia.
    + lia.
    + intros H0 r Hr Hp.
      assert (Hf : In r (List.filter p (d db t))) by (by apply filter_In).
      destruct (List.filter p (d db t)); [done|]. simpl in H0. lia.
    + intros. by apply mem_set_ne.
  - intros X A db m x d. simpl. unfold mem_transaction.
    destruct (m (x, d)) as [[a|e|p] [x' d']] eqn:E; simpl.
    + eauto.
    + right. left. eauto 10.
    + eauto.
  - intros p s _ _ _. simpl. unfold mem_like. by rewrite strip_percent_app.
Defined.
End MemSql.

(** ** The environment *)
Record MemEnv := mkMemEnv {
  me_clock : time;
  me_random : list Z;
  me_exchanges : list string;
  me_published : list (string * string);
  me_queue : list (string * string * string) }.

Definition me_draw (n : Z) (e : MemEnv) : Z * MemEnv :=
  match me_random e with
  | [] => (0, e)
  | z :: zs => (z mod n, {| me_clock := me_clock e; me_random := zs;
                           me_exchanges := me_exchanges e;
                           me_published := me_published e; me_queue := me_queue e |})
  end.

#[export] Instance MemEnvOps : EnvOps MemEnv := {
  ev_now := fun e => (Ret (me_clock e), e);
  ev_offset := fun _ => 28800;
  ev_int63n := fun n e => let '(z, e') := me_draw n e in (Ret z, e');
  ev_shuffle := fun A l e => (Ret l, e);
  ev_crypto_int := fun n e => let '(z, e') := me_draw n e in (Ret z, e');
  ev_crypto_read := fun n e => (Ret (repeat 0 n), e);
  ev_exchange_declare := fun t e =>
    (Ret tt, {| me_clock := me_clock e; me_random := me_random e;
                me_exchanges := me_exchanges e ++ [t];
                me_published := me_published e; me_queue := me_queue e |});
  ev_amqp_publish := fun t b e =>
    (Ret tt, {| me_clock := me_clock e; me_random := me_random e;
                me_exchanges := me_exchanges e;
                me_published := me_published e ++ [(t, b)]; me_queue := me_queue e |});
  ev_enqueue := fun ty pl q _ e =>
    (Ret tt, {| me_clock := me_clock e; me_random := me_random e;
                me_exchanges := me_exchanges e;
                me_published := me_published e; me_queue := me_queue e ++ [(ty, pl, q)] |});
  ev_delete_queue := fun q e =>
    (Ret tt, {| me_clock := me_clock e; me_random := me_random e;
                me_exchanges := me_exchanges e; me_published := me_published e;
                me_queue := List.filter (fun x => negb (String.eqb x.2 q)) (me_queue e) |}) }.

Lemma me_draw_range n e z e' : 0 < n -> me_draw n e = (z, e') -> 0 <= z < n.
Proof.
  unfold me_draw. destruct (me_random e); intros Hn [= <- <-]; [lia|].
  by apply Z.mod_pos_bound.
Qed.

#[export] Instance MemEnvLaws : EnvLaws MemEnv.
Proof.
  constructor.
  - intros e. simpl. eauto.
  - intros n e Hn. simpl. destruct (me_draw n e) as [z e'] eqn:E.
    eauto using me_draw_range.
  - intros A l e. simpl. eauto.
  - intros n e Hn. simpl. destruct (me_draw n e) as [z' e1] eqn:E.
    eauto using me_draw_range.
  - intros n e p e'. discriminate.
Defined.

(** A local cache that keeps nothing. *)
#[export] Instance MemLocalCache : LocalCacheOps MemEnv := {
  lc_set := fun _ _ e => (Ret tt, e);
  lc_get := fun _ e => (Ret None, e);
  lc_del := fun _ e => (Ret tt, e) }.

Definition MemWorld : Type := W MemRedis MemSql MemEnv.
Definition mem_world (r : MemRedis) (d : MemSql) (now : time) (rnd : list Z) : MemWorld :=
  ((r, mkMemEnv now rnd [] [] []), d).
Definition mem_no_rows : MemSql := fun _ _ => [].
