(* ===== verification/Keys.v ===== *)
(** * Keys: the names of the Redis keys

    [internal/data/keys.go] and the keys the repositories format in place, with the
    facts that keep different objects apart. *)
From Stdlib Require Import ZArith Lia List Ascii String.
From stdpp Require Import base gmap strings list numbers.
From S2P Require Import Prelude GoLib Model.
Open Scope Z_scope.
#[local] Open Scope string_scope.

(** ** Strategy keys *)
Definition GetStrategyKey (strategyID : Z) : string := "big_market_strategy_" ++ FormatInt strategyID.
Definition GetStrategyAwardKey (strategyID : Z) : string :=
  "big_market_strategy_award_key_" ++ FormatInt strategyID.
Definition GetStrategyRateTableKey (strategyID : string) : string :=
  "big_market_strategy_rate_table_key_" ++ strategyID.
Definition GetStrategyRateRangeKey (strategyID : string) : string :=
  "big_market_strategy_rate_range_key_" ++ strategyID.
Definition GetStrategyAwardCountKey (strategyID awardID : Z) : string :=
  "big_market_strategy_award_count_key_" ++ FormatInt strategyID ++ "_" ++ FormatInt awardID.
Definition GetStrategyRuleModelKey (strategyID awardID : Z) : string :=
  "big_market_strategy_rule_model_" ++ FormatInt strategyID ++ "_" ++ FormatInt awardID.
Definition GetStrategyRuleValueKey (strategyID : Z) (ruleModel : string) : string :=
  "big_market_strategy_rule_value_key_" ++ FormatInt strategyID ++ "_" ++ ruleModel.
Definition GetRuleTreeKey (treeID : string) : string := "big_market_rule_tree_" ++ treeID.
Definition GetStrategyRuleWeightKey (strategyID : Z) : string :=
  "big_market_strategy_rule_weight_key_" ++ FormatInt strategyID.

(** ** Activity keys *)
Definition ActivitySkuCountQueryKey : string := "activity_sku_count_query_key".
Definition GetActivitySkuKey (sku : Z) : string := "big_market_activity_sku_" ++ FormatInt sku.
Definition GetActivityKey (activityID : Z) : string := "big_market_activity_" ++ FormatInt activityID.
Definition GetActivityCountKey (activityCountID : Z) : string :=
  "big_market_activity_count_" ++ FormatInt activityCountID.
Definition GetActivityAccountKey (activityID : Z) (userID : string) : string :=
  "activity_account_key_" ++ FormatInt activityID ++ "_" ++ userID.
Definition GetActivityAccountTotalSurplusKey (activityID : Z) (userID : string) : string :=
  "activity_account_total_surplus_" ++ FormatInt activityID ++ "_" ++ userID.
Definition GetActivityAccountMonthSurplusKey (activityID : Z) (userID month : string) : string :=
  "activity_account_month_surplus_" ++ FormatInt activityID ++ "_" ++ userID ++ "_" ++ month.
Definition GetActivityAccountDaySurplusKey (activityID : Z) (userID day : string) : string :=
  "activity_account_day_surplus_" ++ FormatInt activityID ++ "_" ++ userID ++ "_" ++ day.
Definition GetPendingRaffleOrderKey (activityID : Z) (userID : string) : string :=
  "pending_raffle_order_" ++ FormatInt activityID ++ "_" ++ userID.
Definition GetActivityResultHashKey (activityID shard : Z) : string :=
  "activity_result_hash_" ++ FormatInt activityID ++ "_" ++ FormatInt shard.
Definition GetActivitySkuStockCountKey (skuID : Z) : string :=
  "activity_sku_stock_count_key_" ++ FormatInt skuID.

(** ** Keys formatted in place *)
Definition strategyIdByActivityKey (activityID : Z) : string :=
  "strategy_id_by_activity_" ++ FormatInt activityID.
Definition activityByStrategyKey (strategyID : Z) : string :=
  "activity_by_strategy_" ++ FormatInt strategyID.
Definition strategyAwardOneKey (strategyID awardID : Z) : string :=
  GetStrategyAwardKey strategyID ++ ":" ++ FormatInt awardID.
Definition noUsedRaffleOrderKey (activityID : Z) (userID : string) : string :=
  "no_used_raffle_order_" ++ FormatInt activityID ++ "_" ++ userID.
Definition stockLockKey (cacheKey : string) (surplus : Z) : string :=
  cacheKey ++ "_" ++ FormatInt surplus.

(** ** Facts *)

Lemma no_char_prefix_split (c : ascii) (a a' b b' : string) :
  no_char c a = true -> no_char c a' = true ->
  a ++ String c b = a' ++ String c b' -> a = a' /\ b = b'.
Proof.
  revert a'. induction a as [|x a IH]; intros a' Ha Ha' E.
  - destruct a' as [|y a']; [by injection E|]. rewrite str_app_cons in E. injection E as <- _.
    simpl in Ha'. rewrite Ascii.eqb_refl in Ha'. done.
  - destruct a' as [|y a']; rewrite !str_app_cons in E.
    + injection E as -> _. simpl in Ha. rewrite Ascii.eqb_refl in Ha. done.
    + injection E as -> E. simpl in Ha, Ha'. apply andb_prop in Ha as [_ Ha].
      apply andb_prop in Ha' as [_ Ha']. destruct (IH a' Ha Ha' E) as [-> ->]. done.
Qed.

(** An integer followed by [_] can be read back. *)
Lemma FormatInt_underscore_inj (x y : Z) (a b : string) :
  FormatInt x ++ "_" ++ a = FormatInt y ++ "_" ++ b -> x = y /\ a = b.
Proof.
  change ("_" ++ a) with (String "_" a). change ("_" ++ b) with (String "_" b).
  intros E. apply no_char_prefix_split in E as [E1 E2]; [|by apply FormatInt_no_char..].
  split; [by apply FormatInt_inj|done].
Qed.

(** Suffixes of one length can be cut off. *)
Lemma str_app_suffix_inj (a a' b b' : string) :
  String.length b = String.length b' -> a ++ b = a' ++ b' -> a = a' /\ b = b'.
Proof.
  revert a'. induction a as [|x a IH]; intros a' Hl E.
  - destruct a' as [|y a']; [done|]. exfalso. apply (f_equal String.length) in E.
    rewrite !str_length_app in E. simpl in E. lia.
  - destruct a' as [|y a'].
    + exfalso. apply (f_equal String.length) in E. rewrite !str_length_app in E. simpl in E. lia.
    + rewrite !str_app_cons in E. injection E as -> E. destruct (IH a' Hl E) as [-> ->]. done.
Qed.

(** Two keys with different literal prefixes. *)
Ltac key_ne :=
  let E := fresh in
  intros E; cbv beta iota zeta delta
    [GetActivityAccountTotalSurplusKey GetActivityAccountDaySurplusKey
     GetActivityAccountMonthSurplusKey GetPendingRaffleOrderKey GetActivityAccountKey
     GetStrategyRateTableKey GetStrategyRateRangeKey String.append] in E;
  discriminate E.

(** The quota and pending keys of one account on one day. *)
Definition account_keys (activityID : Z) (userID day month : string) : list string :=
  [GetActivityAccountTotalSurplusKey activityID userID;
   GetActivityAccountDaySurplusKey activityID userID day;
   GetActivityAccountMonthSurplusKey activityID userID month;
   GetPendingRaffleOrderKey activityID userID].

Lemma account_keys_NoDup activityID userID day month :
  NoDup (account_keys activityID userID day month).
Proof.
  unfold account_keys. repeat constructor; rewrite ?not_elem_of_cons; split_and?;
    try apply not_elem_of_nil; key_ne.
Qed.

(** Accounts of different users do not share keys on days of one length. *)
Lemma account_keys_disjoint activityID activityID' userID userID' day day' month month' k :
  (activityID, userID) <> (activityID', userID') ->
  String.length day = String.length day' -> String.length month = String.length month' ->
  k ∈ account_keys activityID userID day month ->
  k ∉ account_keys activityID' userID' day' month'.
Proof.
  intros Hne Hd Hm Hk Hk'. unfold account_keys in *.
  rewrite !elem_of_cons, elem_of_nil in Hk, Hk'.
  assert (Huser : forall p, p ++ FormatInt activityID ++ "_" ++ userID
                    = p ++ FormatInt activityID' ++ "_" ++ userID' -> False).
  { intros p E. apply str_app_inj_l, FormatInt_underscore_inj in E as [-> ->]. done. }
  assert (Hdated : forall p x y, String.length x = String.length y ->
            p ++ FormatInt activityID ++ "_" ++ userID ++ "_" ++ x
            = p ++ FormatInt activityID' ++ "_" ++ userID' ++ "_" ++ y -> False).
  { intros p x y Hl E. apply str_app_inj_l, FormatInt_underscore_inj in E as [-> E].
    rewrite <- !(str_app_assoc _ "_") in E.
    apply str_app_suffix_inj in E as [E _]; [|done].
    apply str_app_suffix_inj in E as [-> _]; done. }
  destruct Hk as [->|[->|[->|[->|[] ]]]], Hk' as [E|[E|[E|[E|[] ]]]]; revert E;
    first [ by apply Huser | by apply Hdated | key_ne ].
Qed.
