(* ===== verification/Router.v ===== *)
(** * Router: the choice of a database and of a table suffix

    [DBRouter] of [internal/data/data.go]: a shard key is hashed with CRC-32 and the
    hash selects one of [dbCount * tbCount] shards. *)
From Stdlib Require Import ZArith NArith Lia List Ascii String DecimalString.
From stdpp Require Import base gmap strings list numbers.
From S2P Require Import Prelude GoLib.
Open Scope Z_scope.

(** ** [hash/crc32] with the IEEE polynomial *)
Fixpoint crc_bits (n : nat) (crc : Z) : Z :=
  match n with
  | O => crc
  | S n' =>
      let shifted := Z.shiftr crc 1 in
      crc_bits n' (if Z.testbit crc 0 then Z.lxor shifted 0xEDB88320 else shifted)
  end.

Fixpoint crc_bytes (s : string) (crc : Z) : Z :=
  match s with
  | EmptyString => crc
  | String c s' => crc_bytes s' (crc_bits 8 (Z.lxor crc (Z.of_N (N_of_ascii c))))
  end.

Definition crc32_Checksum (s : string) : Z := Z.lxor (crc_bytes s 0xFFFFFFFF) 0xFFFFFFFF.

Example crc32_check : crc32_Checksum "123456789" = 0xCBF43926.
Proof. vm_compute. reflexivity. Qed.

(** ** The router *)
Record DBRouter := mkDBRouter {
  dr_dbMap : gmap string string;
  dr_dbCount : Z;
  dr_tbCount : Z }.

(** [openMySQLDB] gives a handle, named here by its data source; [dsn] is the
    configured pattern applied to the database suffix. *)
Fixpoint router_dbs (dsn : string -> string) (i : Z) (n : nat) (m : gmap string string)
    : gmap string string :=
  match n with
  | O => m
  | S n' =>
      let dbName := ("_" ++ fmt_0d 2 i)%string in
      router_dbs dsn (i + 1) n' (<[fmt_0d 2 i := dsn dbName]> m)
  end.

Definition NewDBRouter (dsn : string -> string) (dbCount tbCount : Z) : DBRouter :=
  {| dr_dbMap := router_dbs dsn 1 (Z.to_nat dbCount) ∅;
     dr_dbCount := dbCount; dr_tbCount := tbCount |}.

Definition DBStrategy (r : DBRouter) (shardKey : string) : res (option string * string) :=
  let hashVal := crc32_Checksum shardKey in
  let size := wrap64 (dr_dbCount r * dr_tbCount r) in
  if size =? 0 then Panic "runtime error: integer divide by zero"
  else
    let idx := Z.rem hashVal size in
    if dr_tbCount r =? 0 then Panic "runtime error: integer divide by zero"
    else
      let dbIdx := Z.quot idx (dr_tbCount r) + 1 in
      match dr_dbMap r !! fmt_0d 2 dbIdx with
      | None => Ret (None, ""%string)
      | Some db => Ret (Some db, fmt_0d 3 idx)
      end.

Definition GetDB (r : DBRouter) (dbIdx : Z) : option string := dr_dbMap r !! fmt_0d 2 dbIdx.
Definition GetDBCount (r : DBRouter) : Z := dr_dbCount r.

(** ** Properties *)

Lemma lxor_range a b : 0 <= a < 2 ^ 32 -> 0 <= b < 2 ^ 32 -> 0 <= Z.lxor a b < 2 ^ 32.
Proof.
  intros Ha Hb. assert (Hn : 0 <= Z.lxor a b) by (apply Z.lxor_nonneg; lia). split; [done|].
  destruct (Z.eq_dec (Z.lxor a b) 0) as [->|Hne]; [lia|].
  assert (Hlog : forall x, 0 <= x < 2 ^ 32 -> Z.log2 x < 32).
  { intros x Hx. destruct (Z.eq_dec x 0) as [->|]; [done|]. apply Z.log2_lt_pow2; lia. }
  apply Z.log2_lt_pow2; [lia|]. pose proof (Z.log2_lxor a b ltac:(lia) ltac:(lia)).
  specialize (Hlog a Ha) as H1. specialize (Hlog b Hb) as H2. lia.
Qed.

Lemma crc_bits_range n crc : 0 <= crc < 2 ^ 32 -> 0 <= crc_bits n crc < 2 ^ 32.
Proof.
  revert crc. induction n as [|n IH]; intros crc Hc; [done|]. cbn [crc_bits]. apply IH.
  assert (Hs : 0 <= Z.shiftr crc 1 < 2 ^ 32).
  { rewrite Z.shiftr_div_pow2 by lia. change (2 ^ 1) with 2.
    split; [apply Z.div_pos; lia|]. apply Z.div_lt_upper_bound; lia. }
  destruct (Z.testbit crc 0); [|done]. by apply lxor_range.
Qed.

Lemma crc_bytes_range s crc : 0 <= crc < 2 ^ 32 -> 0 <= crc_bytes s crc < 2 ^ 32.
Proof.
  revert crc. induction s as [|c s IH]; intros crc Hc; [done|]. cbn [crc_bytes].
  apply IH, crc_bits_range, lxor_range; [done|].
  pose proof (N_ascii_bounded c). split; [lia|]. change (2 ^ 32) with 4294967296. lia.
Qed.

Lemma crc32_range s : 0 <= crc32_Checksum s < 2 ^ 32.
Proof. unfold crc32_Checksum. apply lxor_range; [|done]. by apply crc_bytes_range. Qed.

Lemma parse_uint_zeros n s z : parse_uint s = Some z -> parse_uint (zeros n ++ s)%string = Some z.
Proof.
  intros Hs. induction n as [|n IH]; [done|]. simpl zeros. rewrite str_app_cons.
  revert IH. unfold parse_uint. simpl.
  destruct (zeros n ++ s)%string as [|c t] eqn:E.
  { destruct n as [|n]; [|simpl zeros in E; by rewrite str_app_cons in E].
    change (s = EmptyString) in E. subst s. discriminate Hs. }
  change (NilZero.uint_of_string (String "0" (String c t)))
    with (option_map Decimal.D0 (NilEmpty.uint_of_string (String c t))).
  change (NilZero.uint_of_string (String c t)) with (NilEmpty.uint_of_string (String c t)).
  destruct (NilEmpty.uint_of_string (String c t)); [|done]. simpl. intros [= <-]. done.
Qed.

Lemma parse_uint_fmt w z : 0 <= z -> parse_uint (fmt_0d w z) = Some z.
Proof.
  intros Hz. unfold fmt_0d. apply parse_uint_zeros. unfold FormatInt.
  rewrite to_uint_nonneg by done. simpl. rewrite parse_uint_string, of_uint_to_uint.
  by rewrite Z2N.id.
Qed.

Lemma fmt_0d_inj w x y : 0 <= x -> 0 <= y -> fmt_0d w x = fmt_0d w y -> x = y.
Proof.
  intros Hx Hy E. pose proof (parse_uint_fmt w x Hx) as H1. rewrite E, parse_uint_fmt in H1 by done.
  by injection H1.
Qed.

Lemma router_dbs_lookup dsn n : forall i m j,
  0 <= i -> 0 <= j ->
  router_dbs dsn i n m !! fmt_0d 2 j =
  if (i <=? j) && (j <? i + Z.of_nat n) then Some (dsn ("_" ++ fmt_0d 2 j)%string)
  else m !! fmt_0d 2 j.
Proof.
  induction n as [|n IH]; intros i m j Hi Hj; cbn [router_dbs].
  - destruct (Z.leb_spec i j), (Z.ltb_spec j (i + Z.of_nat 0)); simpl; done || lia.
  - rewrite IH by lia. destruct (Z.eq_dec i j) as [->|Hne].
    + rewrite lookup_insert_eq.
      destruct (Z.leb_spec (j + 1) j), (Z.leb_spec j j), (Z.ltb_spec j (j + Z.of_nat (S n)));
        simpl; done || lia.
    + rewrite lookup_insert_ne by (intros E%fmt_0d_inj; lia).
      destruct (Z.leb_spec (i + 1) j), (Z.leb_spec i j), (Z.ltb_spec j (i + 1 + Z.of_nat n)),
        (Z.ltb_spec j (i + Z.of_nat (S n))); simpl; done || lia.
Qed.

(** With at least one database and one table per database (and a product that fits
    an int), every shard key is routed: the database exists, its number is the one the
    table index belongs to, and the suffix is the index printed with three digits. *)
Lemma DBStrategy_routes (dsn : string -> string) (dbCount tbCount : Z) (shardKey : string)
    (Hdb : 1 <= dbCount) (Htb : 1 <= tbCount) (Hsize : dbCount * tbCount <= int64_max) :
  exists idx i,
    0 <= idx < dbCount * tbCount /\ i = idx / tbCount + 1 /\ 1 <= i <= dbCount /\
    idx = crc32_Checksum shardKey mod (dbCount * tbCount) /\
    DBStrategy (NewDBRouter dsn dbCount tbCount) shardKey
      = Ret (Some (dsn ("_" ++ fmt_0d 2 i)%string), fmt_0d 3 idx).
Proof.
  pose proof (crc32_range shardKey) as Hc.
  assert (Hpos : 1 <= dbCount * tbCount) by nia.
  exists (crc32_Checksum shardKey mod (dbCount * tbCount)),
    ((crc32_Checksum shardKey mod (dbCount * tbCount)) / tbCount + 1).
  pose proof (Z.mod_pos_bound (crc32_Checksum shardKey) (dbCount * tbCount) ltac:(lia)) as Hm.
  set (idx := crc32_Checksum shardKey mod (dbCount * tbCount)) in *.
  assert (Hq : 0 <= idx / tbCount < dbCount).
  { split; [apply Z.div_pos; lia|]. apply Z.div_lt_upper_bound; nia. }
  split_and!; try lia; try done.
  unfold DBStrategy, NewDBRouter. cbn [dr_dbCount dr_tbCount dr_dbMap].
  rewrite wrap64_id by (unfold in_int64, int64_min; lia).
  destruct (Z.eqb_spec (dbCount * tbCount) 0); [lia|].
  destruct (Z.eqb_spec tbCount 0); [lia|].
  rewrite Z.rem_mod_nonneg by lia. fold idx. rewrite Z.quot_div_nonneg by lia.
  rewrite router_dbs_lookup by lia. rewrite Z2Nat.id by lia.
  destruct (Z.leb_spec 1 (idx / tbCount + 1)), (Z.ltb_spec (idx / tbCount + 1) (1 + dbCount));
    simpl; done || lia.
Qed.
