(* ===== verification/Cache.v ===== *)
(** * Cache: the read-through cache

    [pkg/cache/cache.go] over Redis and an optional local cache.  [Codec] is the pair
    of [Marshal] and [Unmarshal] functions the cache is built with, for one type of
    values; [NewRedisClient] passes [encoding/json] and no local cache
    ([redis_only]). *)
From Stdlib Require Import ZArith Lia List Ascii String.
From stdpp Require Import base gmap strings list numbers.
From S2P Require Import Prelude GoLib Model Po Env Mem.
Open Scope Z_scope.

(** ** Values

    [marshal None] encodes a nil interface; [unmarshal] decodes into a zero value. *)
Class Codec (A : Type) := {
  marshal : option A -> res string;
  unmarshal : string -> res A;
  zero_value : A;
  encodable : A -> Prop }.

(** What the code relies on: values survive the round trip, an encoding is not empty,
    and [nil] is encoded and decodes to the zero value. *)
Class CodecLaws (A : Type) `{Codec A} := {
  marshal_some : forall a, encodable a ->
    exists s, marshal (Some a) = Ret s /\ s <> EmptyString /\ unmarshal s = Ret a;
  marshal_none : exists s, marshal None = Ret s /\ s <> EmptyString /\ unmarshal s = Ret zero_value;
  codec_no_panic : forall (o : option A) (s p : string), marshal o <> Panic p /\ unmarshal s <> Panic p }.

(** A JSON integer: [null] leaves the zero value, a canonical decimal is read. *)
#[export] Instance IntCodec : Codec Z := {
  marshal := fun o => Ret (match o with Some z => FormatInt z | None => "null"%string end);
  unmarshal := fun s =>
    if String.eqb s "null" then Ret 0
    else match redis_int s with
         | Some z => Ret z
         | None => Fail (EExt ("json: cannot unmarshal " ++ s))
         end;
  zero_value := 0;
  encodable := in_int64 }.

Lemma redis_int_FormatInt z : in_int64 z -> redis_int (FormatInt z) = Some z.
Proof. intros Hz. unfold redis_int. by rewrite ParseInt_FormatInt, String.eqb_refl. Qed.

Lemma FormatInt_not_null z : FormatInt z <> "null"%string.
Proof.
  intros E. pose proof (FormatInt_no_char "n" z eq_refl) as H. rewrite E in H. discriminate H.
Qed.

#[export] Instance IntCodecLaws : CodecLaws Z.
Proof.
  constructor.
  - intros z Hz. exists (FormatInt z). split; [done|]. split; [apply FormatInt_not_empty|].
    simpl. destruct (String.eqb_spec (FormatInt z) "null") as [E|_]; [by destruct (FormatInt_not_null z)|].
    by rewrite redis_int_FormatInt.
  - exists "null"%string. done.
  - intros o s p. split; [done|]. simpl. destruct (String.eqb s "null"); [done|].
    by destruct (redis_int s).
Qed.

(** [Options]: whether [Redis] and [LocalCache] are set. *)
Record Options := mkOptions {
  opt_Redis : bool;
  opt_LocalCache : bool }.

Definition redis_only : Options := mkOptions true false.

Definition hour10days : Z := 10 * 24 * Hour.

Section Cache.
Context {R D E : Type} `{RedisOps R} `{LocalCacheOps E}.
Notation World := (W R D E).
Variable opt : Options.

(** [Item]; [it_Do] is [None] when the item only has a value, and [nil] results and
    values are [None]. *)
Record Item (A : Type) := mkItem {
  it_Key : string;
  it_Value : option A;
  it_TTL : Z;
  it_Do : option (M World (option A));
  it_SetXX : bool;
  it_SetNX : bool;
  it_SkipLocalCache : bool }.
Arguments mkItem {A}.
Arguments it_Key {A}.
Arguments it_Value {A}.
Arguments it_TTL {A}.
Arguments it_Do {A}.
Arguments it_SetXX {A}.
Arguments it_SetNX {A}.
Arguments it_SkipLocalCache {A}.

Definition redis_cmd {A} (c : rcmd A) : M World A := in_redis (rd_do c).

Definition item_value {A} (item : Item A) : M World (option A) :=
  match it_Do item with
  | Some do => do
  | None => ret (it_Value item)
  end.

Definition ttl (item_TTL : Z) : Z :=
  let defaultTTL := Hour in
  if item_TTL <? 0 then 0
  else if negb (item_TTL =? 0) then
    (if item_TTL <? Second then defaultTTL else item_TTL)
  else defaultTTL.

(** The triple [([]byte, bool, error)]: the bytes are there exactly when the flag is
    true. *)
Definition set {A} `{Codec A} (item : Item A) : M World (option string * option gerr) :=
  let! r := attempt (item_value item) in
  match r with
  | inr err => ret (None, Some err)
  | inl value =>
      let! rb := attempt (lift_res (marshal value)) in
      match rb with
      | inr err => ret (None, Some err)
      | inl b =>
          (if opt_LocalCache opt && negb (it_SkipLocalCache item)
           then in_env (lc_set (it_Key item) b) else ret tt) ;;;
          if negb (opt_Redis opt) then
            ret (Some b, if negb (opt_LocalCache opt) then Some ERedisLocalCacheNil else None)
          else
            let t := ttl (it_TTL item) in
            if t =? 0 then ret (Some b, None)
            else
              let! e :=
                (if it_SetXX item then
                   let! x := attempt (redis_cmd (SETXX (it_Key item) b t)) in
                   ret (match x with inl _ => None | inr e => Some e end)
                 else if it_SetNX item then
                   let! x := attempt (redis_cmd (SETNX (it_Key item) b t)) in
                   ret (match x with inl _ => None | inr e => Some e end)
                 else
                   let! x := attempt (redis_cmd (SET (it_Key item) b t)) in
                   ret (match x with inl _ => None | inr e => Some e end)) in
              ret (Some b, e)
      end
  end.

Definition Set_ {A} `{Codec A} (item : Item A) : M World unit :=
  let! r := set item in
  match r.2 with
  | Some err => fail err
  | None => ret tt
  end.

Definition getBytes (key : string) (skipLocalCache : bool) : M World string :=
  let! local :=
    (if negb skipLocalCache && opt_LocalCache opt then in_env (lc_get key) else ret None) in
  match local with
  | Some b => ret b
  | None =>
      if negb (opt_Redis opt) then
        (if negb (opt_LocalCache opt) then fail ERedisLocalCacheNil else fail ECacheMiss)
      else
        let! ob := redis_cmd (GET key) in
        match ob with
        | None => fail ECacheMiss
        | Some b =>
            (if negb skipLocalCache && opt_LocalCache opt then in_env (lc_set key b) else ret tt) ;;;
            ret b
        end
  end.

Definition get {A} `{Codec A} (key : string) (skipLocalCache : bool) : M World A :=
  let! b := getBytes key skipLocalCache in lift_res (unmarshal b).

Definition Get {A} `{Codec A} (key : string) : M World A := get key false.
Definition GetSkippingLocalCache {A} `{Codec A} (key : string) : M World A := get key true.

Definition Exists (key : string) : M World bool :=
  let! r := attempt (getBytes key false) in
  ret (match r with inl _ => true | inr _ => false end).

Definition Delete (key : string) : M World unit :=
  (if opt_LocalCache opt then in_env (lc_del key) else ret tt) ;;;
  if negb (opt_Redis opt) then
    (if negb (opt_LocalCache opt) then fail ERedisLocalCacheNil else ret tt)
  else redis_cmd (DEL key) ;;; ret tt.

Definition DeleteFromLocalCache (key : string) : M World unit :=
  if opt_LocalCache opt then in_env (lc_del key) else ret tt.

(** The bytes and whether they were cached.  [group.Do] runs its function once for
    callers of one key that overlap; a call on its own runs it. *)
Definition getSetItemBytesOnce {A} `{Codec A} (item : Item A) : M World (string * bool) :=
  let! local := (if opt_LocalCache opt then in_env (lc_get (it_Key item)) else ret None) in
  match local with
  | Some b => ret (b, true)
  | None =>
      let! r := attempt (getBytes (it_Key item) (it_SkipLocalCache item)) in
      match r with
      | inl b => ret (b, true)
      | inr err =>
          if errors_is is_ctx_canceled err || errors_is is_ctx_deadline err then fail err
          else
            let! s := set item in
            match s with
            | (Some b, _) => ret (b, false)
            | (None, Some err') => fail err'
            | (None, None) => panic "interface conversion: interface {} is nil, not []uint8"
            end
      end
  end.

(** [Once]; the result is what the pointer [item.Value] holds afterwards, which held
    [v0] before.  An entry that does not decode is deleted and the call starts again. *)
Fixpoint Once {A} `{Codec A} (fuel : nat) (item : Item A) (v0 : A) : M World A :=
  match fuel with
  | O => panic "model: out of fuel"
  | S fuel' =>
      let! bc := getSetItemBytesOnce item in
      let '(b, cached) := bc in
      if String.eqb b "" then ret v0
      else
        let! u := attempt (lift_res (unmarshal b)) in
        match u with
        | inl a => ret a
        | inr err =>
            if (cached : bool) then
              let! _ := attempt (Delete (it_Key item)) in Once fuel' item v0
            else fail err
        end
  end.

(** ** The commands passed through *)
Definition Decr (key : string) : M World Z :=
  if negb (opt_Redis opt) then fail ERedisLocalCacheNil else redis_cmd (DECR key).
Definition Incr (key : string) : M World Z :=
  if negb (opt_Redis opt) then fail ERedisLocalCacheNil else redis_cmd (INCR key).

(** [SetNX] of a string; other values are marshalled first. *)
Definition SetNX (key value : string) (expiration : Z) : M World bool :=
  if negb (opt_Redis opt) then fail ERedisLocalCacheNil else redis_cmd (SETNX key value expiration).

Definition RPush (key : string) (values : list string) : M World Z :=
  if negb (opt_Redis opt) then fail ERedisLocalCacheNil else redis_cmd (RPUSH key values).

Definition HSetWithTTL (key : string) (values : gmap string string) (t : Z) : M World unit :=
  if negb (opt_Redis opt) then fail ECacheMiss
  else
    in_redis (rd_pipeline (
      existT _ (HSET key (map_to_list values)) ::
      (if 0 <? t then [existT _ (EXPIRE key t)] else []))).

Definition HGet (key field : string) : M World string :=
  if negb (opt_Redis opt) then fail ECacheMiss
  else
    let! o := redis_cmd (HGET key field) in
    match o with
    | Some v => ret v
    | None => fail ERedisNil
    end.

Definition Expire (key : string) (expiration : Z) : M World bool := redis_cmd (EXPIRE key expiration).

(** [Eval]: a script is given as the computation it runs on the server. *)
Definition Eval {A} (script : M R A) : M World A := in_redis (rd_eval script).
End Cache.

Arguments mkItem {R D E A}.

(** ** Properties *)

(** The value a nil or non-nil result decodes to. *)
Definition value_of {A} `{Codec A} (o : option A) : A :=
  match o with Some a => a | None => zero_value end.

(** A positive time to live is at least a second, zero means no store. *)
Lemma ttl_bounds t : ttl t = 0 /\ t < 0 \/ 0 <= t /\ Second <= ttl t.
Proof.
  unfold ttl. destruct (Z.ltb_spec t 0); [by left|]. right. split; [done|].
  destruct (negb (t =? 0)); [|unfold Hour, Minute, Second; lia].
  destruct (Z.ltb_spec t Second); [unfold Hour, Minute, Second; lia|done].
Qed.

Section CacheFacts.
Context {R D E A : Type} `{RedisLaws R} `{LocalCacheOps E} `{CodecLaws A}.
Notation World := (W R D E).

Definition view (w : World) : gmap string rval := rd_view (w_redis w).

(** The entry at [key] is missing or decodes to [a]. *)
Definition coherent (w : World) (key : string) (a : A) : Prop :=
  match view w !! key with
  | None => True
  | Some (RStr s) => s <> EmptyString /\ unmarshal s = Ret a
  | Some _ => False
  end.

(** Nothing but [key] differs. *)
Definition only_key (key : string) (w w' : World) : Prop :=
  forall k, k <> key -> view w' !! k = view w !! k.

Lemma redis_cmd_spec {B} (c : rcmd B) (w : World) r w' :
  redis_cmd c w = (r, w') ->
  w_sql w' = w_sql w /\ w_env w' = w_env w /\
  match r with
  | Ret a => cmd_spec c (view w) = Some (a, view w')
  | Fail _ => view w' = view w \/ exists a, cmd_spec c (view w) = Some (a, view w')
  | Panic _ => False
  end.
Proof.
  destruct w as [[r0 e0] d0]. unfold redis_cmd, in_redis.
  pose proof (rd_do_law _ c r0) as Hl. destruct (rd_do c r0) as [x r1].
  intros [= -> <-]. done.
Qed.

Lemma get_spec (key : string) (w : World) r w' :
  redis_cmd (GET key) w = (r, w') ->
  w_sql w' = w_sql w /\ w_env w' = w_env w /\ view w' = view w /\
  match r with
  | Ret None => view w !! key = None
  | Ret (Some s) => view w !! key = Some (RStr s)
  | Fail _ => True
  | Panic _ => False
  end.
Proof.
  intros Hr. apply redis_cmd_spec in Hr as (Hd & He & Hs). split_and!; try done.
  - destruct r as [o|e|p]; simpl in Hs; [|destruct Hs as [?|[a Hs] ]; [done|]|done];
      destruct (view w !! key) as [[]|]; congruence.
  - destruct r as [o|e|p]; simpl in Hs; try done.
    destruct (view w !! key) as [[]|]; try done; by injection Hs as <- _.
Qed.

(** Storing an encoding at [key] with any of the three commands. *)
Lemma set_store_spec (item : Item (R := R) (D := D) (E := E) A) b t (w : World) oe w' :
  (if it_SetXX _ item then
     let! x := attempt (redis_cmd (SETXX (it_Key _ item) b t)) in
     ret (match x with inl _ => None | inr e => Some e end)
   else if it_SetNX _ item then
     let! x := attempt (redis_cmd (SETNX (it_Key _ item) b t)) in
     ret (match x with inl _ => None | inr e => Some e end)
   else
     let! x := attempt (redis_cmd (SET (it_Key _ item) b t)) in
     ret (match x with inl _ => None | inr e => Some e end)) w = (oe, w') ->
  w_sql w' = w_sql w /\ w_env w' = w_env w /\ (exists e, oe = Ret e) /\
  (view w' = view w \/ view w' = <[it_Key _ item := RStr b]> (view w)).
Proof.
  assert (Hc : forall B (c : rcmd B) (w1 : World) r1 w2, redis_cmd c w1 = (r1, w2) ->
    (forall a m', cmd_spec c (view w1) = Some (a, m') ->
       m' = view w1 \/ m' = <[it_Key _ item := RStr b]> (view w1)) ->
    (let! x := attempt (redis_cmd c) in
     ret (match x with inl _ => None | inr e => Some e end)) w1
      = (Ret (match r1 with Fail e => Some e | _ => None end), w2) /\
    w_sql w2 = w_sql w1 /\ w_env w2 = w_env w1 /\
    (view w2 = view w1 \/ view w2 = <[it_Key _ item := RStr b]> (view w1))).
  { intros B c w1 r1 w2 Hr Hm. pose proof (redis_cmd_spec _ _ _ _ Hr) as (Hd & He & Hs).
    unfold bind, attempt, ret. rewrite Hr. destruct r1 as [a|e|p]; [| |done]; split_and!; try done.
    - by eapply Hm.
    - destruct Hs as [?|[a Hs] ]; [by left|by eapply Hm]. }
  destruct (it_SetXX _ item); [|destruct (it_SetNX _ item)].
  - destruct (redis_cmd (SETXX (it_Key _ item) b t) w) as [r1 w1] eqn:Er.
    destruct (Hc _ _ _ _ _ Er) as (-> & ? & ? & ?); [|intros [= <- <-]; eauto 6].
    simpl. intros a m'. destruct (view w !! _); intros [= _ <-]; auto.
  - destruct (redis_cmd (SETNX (it_Key _ item) b t) w) as [r1 w1] eqn:Er.
    destruct (Hc _ _ _ _ _ Er) as (-> & ? & ? & ?); [|intros [= <- <-]; eauto 6].
    simpl. intros a m'. destruct (view w !! _); intros [= _ <-]; auto.
  - destruct (redis_cmd (SET (it_Key _ item) b t) w) as [r1 w1] eqn:Er.
    destruct (Hc _ _ _ _ _ Er) as (-> & ? & ? & ?); [|intros [= <- <-]; eauto 6].
    simpl. intros a m' [= _ <-]. auto.
Qed.

(** [set] on the Redis-only cache, when the loader answers [o]. *)
Lemma set_spec (item : Item (R := R) (D := D) (E := E) A) o (w w1 w' : World) r :
  item_value item w = (Ret o, w1) -> (forall a, o = Some a -> encodable a) ->
  set redis_only item w = (r, w') ->
  exists b oe, r = Ret (Some b, oe) /\ b <> EmptyString /\ unmarshal b = Ret (value_of o) /\
    marshal o = Ret b /\
    w_sql w' = w_sql w1 /\ w_env w' = w_env w1 /\
    (view w' = view w1 \/ view w' = <[it_Key _ item := RStr b]> (view w1)).
Proof.
  intros Hv Henc. unfold set, bind at 1, attempt at 1. rewrite Hv.
  assert (Hm : exists b, marshal o = Ret b /\ b <> EmptyString /\ unmarshal b = Ret (value_of o)).
  { destruct o as [a|]; [apply marshal_some; by apply Henc|apply marshal_none]. }
  destruct Hm as (b & Hb & Hne & Hu). rewrite Hb. unfold bind at 1. simpl.
  unfold bind at 1. simpl.
  destruct (ttl (it_TTL _ item) =? 0).
  - intros [= <- <-]. exists b, None. split_and!; auto.
  - intros Hst. unfold bind at 1 in Hst.
    match type of Hst with context [match ?m ?w0 with _ => _ end] =>
      destruct (m w0) as [re w2] eqn:Es end.
    apply set_store_spec in Es as (Hd & He & [oe ->] & Hs).
    injection Hst as <- <-. exists b, oe. split_and!; auto.
Qed.

Lemma getBytes_eq key skip (w : World) :
  getBytes redis_only key skip w =
  match redis_cmd (GET key) w with
  | (Ret (Some s), w1) => (Ret s, w1)
  | (Ret None, w1) => (Fail ECacheMiss, w1)
  | (Fail e, w1) => (Fail e, w1)
  | (Panic p, w1) => (Panic p, w1)
  end.
Proof.
  unfold getBytes. destruct skip; simpl; rewrite bind_ret_l; unfold bind;
    by destruct (redis_cmd (GET key) w) as [[[s|]|e|p] w1].
Qed.

Definition loader_returns (item : Item (R := R) (D := D) (E := E) A) (o : option A)
    (P : D -> Prop) : Prop :=
  forall w1, P (w_sql w1) ->
    exists w2, item_value item w1 = (Ret o, w2) /\ view w2 = view w1 /\ P (w_sql w2).

(** Loading after a miss or an error of Redis. *)
Lemma set_miss_spec (item : Item (R := R) (D := D) (E := E) A) o P (w1 ws : World) rs :
  loader_returns item o P -> (forall a, o = Some a -> encodable a) ->
  P (w_sql w1) -> coherent w1 (it_Key _ item) (value_of o) ->
  set redis_only item w1 = (rs, ws) ->
  exists b oe, rs = Ret (Some b, oe) /\ b <> EmptyString /\ unmarshal b = Ret (value_of o) /\
    P (w_sql ws) /\ coherent ws (it_Key _ item) (value_of o) /\ only_key (it_Key _ item) w1 ws.
Proof.
  intros Hload Henc HP Hcoh Es. destruct (Hload w1 HP) as (w2 & El & Hv2 & HP2).
  destruct (set_spec _ _ _ _ _ _ El Henc Es) as (b & oe & -> & Hne & Hu & _ & Hds & _ & Hs).
  exists b, oe. split_and!; try done; [by rewrite Hds|..].
  - unfold coherent in *. destruct Hs as [->| ->]; [by rewrite Hv2|]. by rewrite lookup_insert_eq.
  - intros k Hk. destruct Hs as [->| ->]; [by rewrite Hv2|]. by rewrite lookup_insert_ne, Hv2.
Qed.

Lemma bytes_once_spec (item : Item (R := R) (D := D) (E := E) A) o P (w w' : World) r :
  loader_returns item o P -> (forall a, o = Some a -> encodable a) ->
  P (w_sql w) -> coherent w (it_Key _ item) (value_of o) ->
  getSetItemBytesOnce redis_only item w = (r, w') ->
  P (w_sql w') /\ coherent w' (it_Key _ item) (value_of o) /\ only_key (it_Key _ item) w w' /\
  match r with
  | Ret (b, _) => b <> EmptyString /\ unmarshal b = Ret (value_of o)
  | Fail e => errors_is is_ctx_canceled e = true \/ errors_is is_ctx_deadline e = true
  | Panic _ => False
  end.
Proof.
  intros Hload Henc HP Hcoh Hrun. unfold getSetItemBytesOnce in Hrun. simpl opt_LocalCache in Hrun.
  cbv iota in Hrun. rewrite bind_ret_l in Hrun. unfold bind at 1, attempt at 1 in Hrun.
  rewrite getBytes_eq in Hrun.
  destruct (redis_cmd (GET (it_Key _ item)) w) as [rg w1] eqn:Eg.
  apply get_spec in Eg as (Hd1 & He1 & Hv1 & Hg).
  assert (HP1 : P (w_sql w1)) by by rewrite Hd1.
  assert (Hc1 : coherent w1 (it_Key _ item) (value_of o)) by (unfold coherent; by rewrite Hv1).
  assert (Ho1 : only_key (it_Key _ item) w w1) by (intros k _; by rewrite Hv1).
  assert (Hmiss : forall r2 w2,
    (let! s := set redis_only item in
     match s with
     | (Some b, _) => ret (b, false)
     | (None, Some err') => fail err'
     | (None, None) => panic "interface conversion: interface {} is nil, not []uint8"
     end) w1 = (r2, w2) ->
    exists b, r2 = Ret (b, false) /\ b <> EmptyString /\ unmarshal b = Ret (value_of o) /\
      P (w_sql w2) /\ coherent w2 (it_Key _ item) (value_of o) /\ only_key (it_Key _ item) w w2).
  { intros r2 w2. unfold bind. destruct (set redis_only item w1) as [rs ws] eqn:Es.
    destruct (set_miss_spec _ _ _ _ _ _ Hload Henc HP1 Hc1 Es) as (b & oe & -> & Hne & Hu & HPs & Hcs & Hos).
    intros [= <- <-]. exists b. split_and!; try done. intros k Hk. by rewrite Hos, Hv1. }
  destruct rg as [[s|]|e|p]; [| | |done].
  - injection Hrun as <- <-. unfold coherent in Hcoh. rewrite Hg in Hcoh. destruct Hcoh. by split_and!.
  - simpl in Hrun. destruct (Hmiss _ _ Hrun) as (b & -> & ?). by destruct_and!.
  - destruct (errors_is is_ctx_canceled e || errors_is is_ctx_deadline e) eqn:Ec.
    + injection Hrun as <- <-. split_and!; try done. by apply orb_prop.
    + destruct (Hmiss _ _ Hrun) as (b & -> & ?). by destruct_and!.
Qed.

(** C32. The cache is transparent: when the entry at the key is missing or coherent with
    what the loader returns ([o], nil included), [Once] returns the loader's value
    whatever Redis does, fails only with the error of a canceled or expired context,
    leaves a coherent entry and touches no other key; and a nil result is stored like
    any other. *)
Theorem Once_read_through (item : Item (R := R) (D := D) (E := E) A) (fuel : nat) (v0 : A)
    (o : option A) (P : D -> Prop) (w : World) r w'
    (Hload : loader_returns item o P)
    (Henc : forall a, o = Some a -> encodable a)
    (HP : P (w_sql w))
    (Hcoh : coherent w (it_Key _ item) (value_of o))
    (Hrun : Once redis_only (S fuel) item v0 w = (r, w')) :
  P (w_sql w') /\ coherent w' (it_Key _ item) (value_of o) /\ only_key (it_Key _ item) w w' /\
  match r with
  | Ret a => a = value_of o
  | Fail e => errors_is is_ctx_canceled e = true \/ errors_is is_ctx_deadline e = true
  | Panic _ => False
  end.
Proof.
  cbn [Once] in Hrun. unfold bind at 1 in Hrun.
  destruct (getSetItemBytesOnce redis_only item w) as [rb wb] eqn:Eb.
  destruct (bytes_once_spec _ _ _ _ _ _ Hload Henc HP Hcoh Eb) as (HPb & Hcb & Hob & Hr).
  destruct rb as [[b cached]|e|p]; [|by injection Hrun as <- <-|done].
  destruct Hr as [Hne Hu]. destruct (String.eqb_spec b ""); [done|].
  unfold bind, attempt, lift_res in Hrun. rewrite Hu in Hrun. by injection Hrun as <- <-.
Qed.

(** An entry that is not in Redis is not served from it. *)
Lemma bytes_once_uncached (item : Item (R := R) (D := D) (E := E) A) (w w' : World) b c :
  view w !! it_Key _ item = None ->
  getSetItemBytesOnce redis_only item w = (Ret (b, c), w') -> c = false.
Proof.
  intros Hk Hrun. unfold getSetItemBytesOnce in Hrun. simpl opt_LocalCache in Hrun.
  cbv iota in Hrun. rewrite bind_ret_l in Hrun. unfold bind at 1, attempt at 1 in Hrun.
  rewrite getBytes_eq in Hrun.
  destruct (redis_cmd (GET (it_Key _ item)) w) as [rg w1] eqn:Eg.
  apply get_spec in Eg as (_ & _ & _ & Hg).
  destruct rg as [[s|]|e|p]; [by rewrite Hk in Hg|..|done].
  - simpl in Hrun. apply bind_inv_ret in Hrun as ([[b'|] [e'|]] & w2 & _ & Hrun); by injection Hrun.
  - destruct (errors_is _ e || _); [done|].
    apply bind_inv_ret in Hrun as ([[b'|] [e'|]] & w2 & _ & Hrun); by injection Hrun.
Qed.

(** The bytes of a call never panic unless the loader does. *)
Lemma bytes_once_no_panic (item : Item (R := R) (D := D) (E := E) A) (w w' : World) p :
  (forall w1 w2 q, item_value item w1 <> (Panic q, w2)) ->
  getSetItemBytesOnce redis_only item w <> (Panic p, w').
Proof.
  intros Hload Hrun. unfold getSetItemBytesOnce in Hrun. simpl opt_LocalCache in Hrun.
  cbv iota in Hrun. rewrite bind_ret_l in Hrun. unfold bind at 1, attempt at 1 in Hrun.
  rewrite getBytes_eq in Hrun.
  assert (Hset : forall w1,
    (let! s := set redis_only item in
     match s with
     | (Some b, _) => ret (b, false)
     | (None, Some err') => fail err'
     | (None, None) => panic "interface conversion: interface {} is nil, not []uint8"
     end) w1 <> (Panic p, w')).
  { intros w1. unfold set. rewrite bind_assoc. unfold bind at 1, attempt at 1.
    destruct (item_value item w1) as [[o|e|q] w2] eqn:El; [|done|by destruct (Hload w1 w2 q)].
    rewrite bind_assoc. unfold bind at 1, attempt at 1, lift_res.
    destruct (marshal o) as [b|e|q] eqn:Em; [|done|by destruct (codec_no_panic o EmptyString q)].
    rewrite bind_assoc. simpl. rewrite bind_ret_l.
    destruct (ttl _ =? 0); [done|]. rewrite bind_assoc. unfold bind at 1.
    match goal with |- context [match ?m ?w0 with _ => _ end] =>
      destruct (m w0) as [re w3] eqn:Es end.
    by apply set_store_spec in Es as (_ & _ & [oe ->] & _). }
  destruct (redis_cmd (GET (it_Key _ item)) w) as [rg w1] eqn:Eg.
  apply get_spec in Eg as (_ & _ & _ & Hg).
  destruct rg as [[s|]|e|q]; [done|..|done].
  - by apply (Hset w1).
  - destruct (errors_is _ e || _); [done|]. by apply (Hset w1).
Qed.

Lemma Once_fresh (item : Item (R := R) (D := D) (E := E) A) v0 (w : World) fuel :
  view w !! it_Key _ item = None ->
  Once redis_only (S fuel) item v0 w = Once redis_only 1 item v0 w /\
  ((forall w1 w2 q, item_value item w1 <> (Panic q, w2)) ->
   forall p w', Once redis_only (S fuel) item v0 w <> (Panic p, w')).
Proof.
  intros Hk. cbn [Once]. unfold bind.
  destruct (getSetItemBytesOnce redis_only item w) as [[[b c]|e|q] w1] eqn:Eb.
  - rewrite (bytes_once_uncached _ _ _ _ _ Hk Eb).
    destruct (String.eqb b ""); [done|]. unfold attempt, lift_res.
    destruct (unmarshal b) as [a|e|q] eqn:Eu; [done|done|by destruct (codec_no_panic None b q)].
  - done.
  - split; [done|]. intros Hload. by destruct (bytes_once_no_panic _ _ _ _ Hload Eb).
Qed.

Lemma Once_step (item : Item (R := R) (D := D) (E := E) A) v0 (w : World) fuel :
  Once redis_only (S fuel) item v0 w =
  match getSetItemBytesOnce redis_only item w with
  | (Ret (b, c), w1) =>
      if String.eqb b "" then (Ret v0, w1)
      else match unmarshal b with
           | Ret a => (Ret a, w1)
           | Fail e =>
               if (c : bool) then
                 bind (attempt (Delete redis_only (it_Key _ item)))
                   (fun _ => Once redis_only fuel item v0) w1
               else (Fail e, w1)
           | Panic p => (Panic p, w1)
           end
  | (Fail e, w1) => (Fail e, w1)
  | (Panic p, w1) => (Panic p, w1)
  end.
Proof.
  cbn [Once]. unfold bind at 1.
  destruct (getSetItemBytesOnce redis_only item w) as [[[b c]|e|q] w1]; [|done..].
  destruct (String.eqb b ""); [done|]. unfold bind at 1, attempt at 1, lift_res.
  destruct (unmarshal b) as [a|e|q]; [done| |done]. by destruct c.
Qed.

(** A [DEL] that was answered leaves no entry. *)
Lemma delete_answered key (w w2 : World) :
  Delete redis_only key w = (Ret tt, w2) -> view w2 !! key = None.
Proof.
  unfold Delete. cbn [opt_LocalCache opt_Redis redis_only negb]. rewrite bind_ret_l. unfold bind.
  destruct (redis_cmd (DEL key) w) as [rd w1] eqn:Ed.
  apply redis_cmd_spec in Ed as (_ & _ & Hv). cbn [cmd_spec] in Hv.
  destruct rd as [n|e|q]; [|discriminate..]. intros [= <-].
  destruct (view w !! key) eqn:Ek; injection Hv as _ <-; [apply lookup_delete_eq|exact Ek].
Qed.

Lemma delete_no_panic key (w w2 : World) q : Delete redis_only key w <> (Panic q, w2).
Proof.
  unfold Delete. cbn [opt_LocalCache opt_Redis redis_only negb]. rewrite bind_ret_l. unfold bind.
  destruct (redis_cmd (DEL key) w) as [rd w1] eqn:Ed.
  apply redis_cmd_spec in Ed as (_ & _ & Hv). by destruct rd.
Qed.

(** A round that has to be repeated: the entry it was given does not decode, and the
    [DEL] of the entry failed. *)
Definition stuck (item : Item (R := R) (D := D) (E := E) A) (w w2 : World) : Prop :=
  exists b w1 err e,
    getSetItemBytesOnce redis_only item w = (Ret (b, true), w1) /\ b <> EmptyString /\
    unmarshal (A := A) b = Fail err /\ Delete redis_only (it_Key _ item) w1 = (Fail e, w2).

Lemma Once_stuck (item : Item (R := R) (D := D) (E := E) A) v0 (w w2 : World) fuel :
  stuck item w w2 -> Once redis_only (S fuel) item v0 w = Once redis_only fuel item v0 w2.
Proof.
  intros (b & w1 & err & e & Eb & Hb & Eu & Ed). rewrite Once_step, Eb.
  destruct (String.eqb_spec b ""); [done|]. rewrite Eu. unfold bind, attempt. by rewrite Ed.
Qed.

(** The end of a call: more fuel changes nothing, and nothing panics. *)
Definition ends_in (rounds : nat) (item : Item (R := R) (D := D) (E := E) A) (v0 : A) (w : World) : Prop :=
  forall fuel, Once redis_only (rounds + fuel) item v0 w = Once redis_only rounds item v0 w /\
    forall p w', Once redis_only (rounds + fuel) item v0 w <> (Panic p, w').

Lemma Once_round (item : Item (R := R) (D := D) (E := E) A) (v0 : A) (w : World) :
  (forall w1 w2 q, item_value item w1 <> (Panic q, w2)) ->
  (exists w2, stuck item w w2) \/ ends_in 2 item v0 w.
Proof.
  intros Hload. unfold ends_in. cbn [Nat.add].
  destruct (getSetItemBytesOnce redis_only item w) as [[[b c]|e|q] w1] eqn:Eb.
  3: by destruct (bytes_once_no_panic _ _ _ _ Hload Eb).
  2: { right. intros fuel. rewrite !Once_step, Eb. done. }
  destruct (String.eqb_spec b "") as [->|Hb].
  { right. intros fuel. rewrite !Once_step, Eb. done. }
  destruct (unmarshal (A := A) b) as [a|err|q] eqn:Eu; [| |by destruct (codec_no_panic None b q)].
  { right. intros fuel. rewrite !Once_step, Eb, Eu. destruct (String.eqb_spec b ""); done. }
  destruct c.
  2: { right. intros fuel. rewrite !Once_step, Eb, Eu. destruct (String.eqb_spec b ""); done. }
  destruct (Delete redis_only (it_Key _ item) w1) as [[[]|e|q] w2] eqn:Ed.
  - right. intros fuel. rewrite !(Once_step item v0 w), Eb, Eu. destruct (String.eqb_spec b ""); [done|].
    unfold bind, attempt. rewrite Ed. destruct (Once_fresh item v0 w2 fuel (delete_answered _ _ _ Ed)) as [E1 E2].
    split; [exact E1|by apply E2].
  - left. exists w2, b, w1, err, e. done.
  - by destruct (delete_no_panic _ _ _ _ Ed).
Qed.

End CacheFacts.

(** ** Witnesses *)

(** A codec that knows one value. *)
Definition one_value_codec {A} (x zero : A) : Codec A := {|
  marshal := fun o => Ret match o with Some _ => "x"%string | None => "null"%string end;
  unmarshal := fun s => Ret (if String.eqb s "null" then zero else x);
  zero_value := zero;
  encodable := fun a => a = x |}.

Lemma one_value_laws {A} (x zero : A) : @CodecLaws A (one_value_codec x zero).
Proof.
  constructor; simpl.
  - intros a ->. by exists "x"%string.
  - by exists "null"%string.
  - done.
Qed.

Definition demo_item (key : string) (v : option Z) : Item (R := MemRedis) (D := MemSql) (E := MemEnv) Z :=
  mkItem key None hour10days (Some (ret v)) false false false.

(** A nil result is stored as [null], and served from the cache afterwards. *)
Lemma Once_read_through_witness :
  let w := mem_world (∅ : MemRedis) mem_no_rows 0 [] in
  let w' := (Once redis_only 2 (demo_item "k" None) 0 w).2 in
  w_redis w' = <["k" := RStr "null"]> ∅ /\
  (Once redis_only 2 (demo_item "k" (Some 7)) 0 w').1 = Ret 0 /\
  coherent w' "k" 0.
Proof.
  split; [reflexivity|]. split; [reflexivity|].
  refine (proj1 (proj2 (Once_read_through (demo_item "k" None) 1 0 None (fun _ => True)
    (mem_world (∅ : MemRedis) mem_no_rows 0 []) (Ret 0) _ _ _ I I eq_refl))).
  - intros w1 _. exists w1. done.
  - done.
Defined.

