(* ===== verification/Calls.v ===== *)
(** * Calls: a function as the tree of its round trips to Redis

    What a function does between two commands only depends on the replies it has got, so
    a function that talks to Redis alone is a tree: a result, or a command and what to do
    with each reply.  [exec] runs the tree without interruption; a step relation may
    instead take one command at a time and interleave those of many callers. *)
From Stdlib Require Import ZArith Lia List Ascii String.
From stdpp Require Import base gmap strings list numbers.
From S2P Require Import Prelude GoLib Model Po Env Keys Router Cache.
Open Scope Z_scope.

Inductive prog (A : Type) : Type :=
| Done (r : res A)
| Call (B : Type) (c : rcmd B) (k : res B -> prog A).
Arguments Done {A} r.
Arguments Call {A B} c k.

Fixpoint pbind {A B} (p : prog A) (f : A -> prog B) : prog B :=
  match p with
  | Done (Ret a) => f a
  | Done (Fail e) => Done (Fail e)
  | Done (Panic q) => Done (Panic q)
  | Call c k => Call c (fun reply => pbind (k reply) f)
  end.

(** [x, err := c.Do(..); if err != nil { return err }] *)
Definition send {A} (c : rcmd A) : prog A := Call c (fun reply => Done reply).

Notation "'call!' x ':=' p 'in' k" := (pbind p (fun x => k))
  (at level 10, x binder, p at level 100, k at level 200) : go_scope.

Section Exec.
Context {R D E : Type} `{RedisOps R}.
Notation World := (W R D E).

Fixpoint exec {A} (p : prog A) : M World A := fun w =>
  match p with
  | Done r => (r, w)
  | Call c k => let '(reply, w1) := redis_cmd c w in exec (k reply) w1
  end.

(** Running a sequence runs its parts. *)
Lemma exec_pbind {A B} (p : prog A) (f : A -> prog B) (w : World) :
  exec (pbind p f) w = bind (exec p) (fun a => exec (f a)) w.
Proof.
  revert w. induction p as [ [a|e|q]|C c k IH]; intros w; [done..|]. unfold bind. cbn [pbind exec].
  destruct (redis_cmd c w) as [reply w1]. rewrite IH. unfold bind. done.
Qed.

Lemma exec_send {A} (c : rcmd A) (w : World) : exec (send c) w = redis_cmd c w.
Proof. unfold send. cbn [exec]. by destruct (redis_cmd c w). Qed.
End Exec.
