(* ===== verification/CacheRules.v ===== *)
(** * CacheRules: weakest preconditions of the cache

    The rules of [Logic] for a Redis command sent through the cache and for storing a
    value that is at hand. *)
From Stdlib Require Import ZArith Lia List Ascii String.
From stdpp Require Import base gmap strings list numbers.
From S2P Require Import Prelude GoLib Model Po Env Logic Mem Cache.
Open Scope Z_scope.

Section CacheRules.
Context {R D E : Type} `{RedisLaws R} `{LocalCacheOps E}.
Notation World := (W R D E).

(** A command: its reply and effect, or an error with or without the effect. *)
Lemma wp_redis {A} (c : rcmd A) Q (w : World) :
  (forall a w', cmd_spec c (view w) = Some (a, view w') -> w_sql w' = w_sql w -> w_env w' = w_env w ->
     Q (Ret a) w') ->
  (forall e w', (view w' = view w \/ exists a, cmd_spec c (view w) = Some (a, view w')) ->
     w_sql w' = w_sql w -> w_env w' = w_env w -> is_redis_nil e = false -> Q (Fail e) w') ->
  wp (redis_cmd c) Q w.
Proof.
  intros Hok Hfail. apply wp_intro. intros r w' Er.
  pose proof (redis_cmd_spec _ _ _ _ Er) as (Hd & He & Hs).
  destruct r as [a|e|p]; [by apply Hok| |done]. apply Hfail; try done.
  destruct w as [[r0 e0] d0]. unfold redis_cmd, in_redis in Er.
  destruct (rd_do c r0) as [x r1] eqn:Ec. injection Er as -> _. by eapply rd_do_not_nil.
Qed.

(** Storing a value. *)
Lemma wp_set_item {A} `{Codec A} (item : Item (R := R) (D := D) (E := E) A) v b Q (w : World) :
  it_Do _ item = None -> it_Value _ item = Some v -> it_SetXX _ item = false ->
  it_SetNX _ item = false -> ttl (it_TTL _ item) <> 0 -> marshal (Some v) = Ret b ->
  (forall w', view w' = <[it_Key _ item := RStr b]> (view w) -> w_sql w' = w_sql w ->
     w_env w' = w_env w -> Q (Ret tt) w') ->
  (forall e w', view w' = view w \/ view w' = <[it_Key _ item := RStr b]> (view w) ->
     w_sql w' = w_sql w -> w_env w' = w_env w -> Q (Fail e) w') ->
  wp (Set_ redis_only item) Q w.
Proof.
  intros Hdo Hv Hxx Hnx Ht Hm Hok Hfail. unfold Set_, set, item_value.
  apply wp_intro. intros rr w'. unfold bind, attempt, ret, lift_res. rewrite Hdo, Hv, Hm.
  cbn [opt_LocalCache opt_Redis redis_only andb negb].
  generalize dependent (ttl (it_TTL _ item)). intros t Ht.
  destruct (Z.eqb_spec t 0) as [|_]; [done|]. rewrite Hxx, Hnx.
  destruct (redis_cmd (SET (it_Key _ item) b t) w) as [x w1] eqn:Ec.
  pose proof (redis_cmd_spec _ _ _ _ Ec) as (Hd & He & Hs). cbn [cmd_spec] in Hs.
  destruct x as [u|e|p]; [| |done]; cbn; unfold fail; intros [= <- <-].
  - injection Hs as _ Hs. by apply Hok.
  - apply Hfail; try done. destruct Hs as [?|[a Hs] ]; [by left|]. injection Hs as _ Hs. by right.
Qed.
End CacheRules.

(** ** [Once] *)
Section OnceRules.
Context {R D E A : Type} `{RedisLaws R} `{LocalCacheOps E} `{CodecLaws A}.
Notation World := (W R D E).
Implicit Type item : Item (R := R) (D := D) (E := E) A.

(** An entry that is served satisfies [Q]. *)
Definition entry_ok (Q : A -> Prop) (w : World) (key : string) : Prop :=
  match view w !! key with
  | Some (RStr s) => s <> EmptyString /\ exists a, unmarshal s = Ret a /\ Q a
  | _ => True
  end.

Lemma coherent_entry_ok (w : World) key (a : A) : coherent w key a -> entry_ok (eq a) w key.
Proof using.
  unfold coherent, entry_ok. destruct (view w !! key) as [[s|h|l]|]; try done. intros [Hs Hu]. eauto.
Qed.

(** A missing or undecodable entry is loaded and stored. *)
Definition load_and_set item : M World (string * bool) :=
  let! s := set redis_only item in
  match s with
  | (Some b, _) => ret (b, false)
  | (None, Some err') => fail err'
  | (None, None) => panic "interface conversion: interface {} is nil, not []uint8"
  end.

Lemma bytes_once_eq item (w : World) :
  getSetItemBytesOnce redis_only item w =
  match redis_cmd (GET (it_Key _ item)) w with
  | (Ret (Some s), w1) => (Ret (s, true), w1)
  | (Ret None, w1) => load_and_set item w1
  | (Fail e, w1) =>
      if errors_is is_ctx_canceled e || errors_is is_ctx_deadline e then (Fail e, w1)
      else load_and_set item w1
  | (Panic p, w1) => (Panic p, w1)
  end.
Proof using.
  unfold getSetItemBytesOnce. simpl opt_LocalCache. cbv iota. rewrite bind_ret_l.
  unfold bind at 1, attempt at 1. rewrite getBytes_eq.
  destruct (redis_cmd (GET (it_Key _ item)) w) as [[[s|]|e|p] w1]; try done.
  by destruct (errors_is is_ctx_canceled e || errors_is is_ctx_deadline e).
Qed.

Lemma load_value item (Q : A -> Prop) (w w' : World) b c :
  (forall o w2, item_value item w = (Ret o, w2) ->
     (forall x, o = Some x -> encodable x) /\ Q (value_of o)) ->
  load_and_set item w = (Ret (b, c), w') ->
  b <> EmptyString /\ exists x, unmarshal b = Ret x /\ Q x.
Proof using H0 H3.
  intros Hload Hm. unfold load_and_set in Hm. inv_bind Hm.
  destruct (item_value item w) as [[o|e|q] wl] eqn:El.
  - destruct (Hload _ _ eq_refl) as [Henc HQ].
    destruct (set_spec _ _ _ _ _ _ El Henc Hm0) as (b0 & oe & [= ->] & Hne & Hu & _).
    injection Hm as -> _ _. eauto.
  - unfold set, bind, attempt in Hm0. rewrite El in Hm0. by injection Hm0 as <- <-.
  - unfold set, bind, attempt in Hm0. by rewrite El in Hm0.
Qed.

(** What a call returns satisfies [Q] when the entry and what is loaded do. *)
Lemma Once_value item (Q : A -> Prop) fuel v0 (w w' : World) a :
  entry_ok Q w (it_Key _ item) ->
  (forall w1 o w2, w_sql w1 = w_sql w -> item_value item w1 = (Ret o, w2) ->
     (forall x, o = Some x -> encodable x) /\ Q (value_of o)) ->
  Once redis_only fuel item v0 w = (Ret a, w') -> Q a.
Proof using H0 H3.
  intros Hentry Hload Hrun. destruct fuel as [|fuel]; [done|]. rewrite Once_step in Hrun.
  destruct (getSetItemBytesOnce redis_only item w) as [[[b c]|e|q] w1] eqn:Eb; [|done..].
  assert (Hb : b <> EmptyString /\ exists x, unmarshal b = Ret x /\ Q x).
  { rewrite bytes_once_eq in Eb.
    destruct (redis_cmd (GET (it_Key _ item)) w) as [rg wg] eqn:Eg.
    apply get_spec in Eg as (Hd & _ & Hv & Hg). unfold entry_ok in Hentry.
    destruct rg as [[s|]|e|q]; [| | |done].
    - rewrite Hg in Hentry. by injection Eb as -> _ _.
    - eapply load_value; [|exact Eb]. intros. by eapply Hload.
    - destruct (errors_is _ e || _); [done|].
      eapply load_value; [|exact Eb]. intros. by eapply Hload. }
  destruct Hb as (Hne & x & Hu & HQ). destruct (String.eqb_spec b ""); [done|].
  rewrite Hu in Hrun. by injection Hrun as <- _.
Qed.

(** ** Frames: a call touches no key but its own *)
Lemma set_frame item (w : World) :
  (forall w1 : World, view (item_value item w1).2 = view w1) ->
  only_key (it_Key _ item) w (set redis_only item w).2.
Proof using H0.
  intros Hload. unfold set, bind at 1, attempt at 1. specialize (Hload w).
  destruct (item_value item w) as [[o|e|q] w2]; cbn [snd] in Hload; [|intros k _; by rewrite <- Hload..].
  unfold bind at 1, attempt at 1, lift_res. destruct (marshal o) as [b|e|q];
    [|intros k _; by rewrite <- Hload..].
  unfold bind at 1. cbn [opt_LocalCache opt_Redis redis_only andb negb ret].
  destruct (ttl _ =? 0); [intros k _; by rewrite <- Hload|]. unfold bind at 1.
  match goal with |- context [match ?m ?w0 with _ => _ end] => destruct (m w0) as [re w3] eqn:Es end.
  apply set_store_spec in Es as (_ & _ & [oe ->] & Hs). intros k Hk. cbn [ret snd].
  destruct Hs as [->| ->]; [by rewrite Hload|by rewrite lookup_insert_ne, Hload].
Qed.

Lemma delete_frame key (w : World) : only_key key w (Delete redis_only key w).2.
Proof using H0.
  intros k Hk. unfold Delete, bind. cbn [opt_LocalCache opt_Redis redis_only negb ret].
  destruct (redis_cmd (DEL key) w) as [rd wd] eqn:Ed.
  pose proof (redis_cmd_spec _ _ _ _ Ed) as (_ & _ & Hs). cbn [cmd_spec] in Hs.
  assert (Hd : forall n m, match view w !! key with
      | None => Some (0, view w) | Some _ => Some (1, delete key (view w)) end = Some (n, m) ->
      m !! k = view w !! k).
  { intros n m. destruct (view w !! key); intros [= _ <-]; [by rewrite lookup_delete_ne|done]. }
  destruct rd as [n|e'|q]; cbn [snd]; [by eapply Hd| |done].
  destruct Hs as [->|[n Hs] ]; [done|by eapply Hd].
Qed.

Lemma bytes_frame item (w : World) :
  (forall w1 : World, view (item_value item w1).2 = view w1) ->
  only_key (it_Key _ item) w (getSetItemBytesOnce redis_only item w).2.
Proof using H0.
  intros Hload. rewrite bytes_once_eq.
  destruct (redis_cmd (GET (it_Key _ item)) w) as [rg wg] eqn:Eg.
  apply get_spec in Eg as (_ & _ & Hv & _).
  assert (Hmiss : only_key (it_Key _ item) w (load_and_set item wg).2).
  { intros k Hk. unfold load_and_set, bind. pose proof (set_frame item wg Hload k Hk) as Hset.
    rewrite <- Hv. destruct (set redis_only item wg) as [[ [[b|] [e|]]|e|q] w3]; exact Hset. }
  destruct rg as [[s|]|e|q]; cbn [snd]; [intros k _; by rewrite <- Hv|done| |intros k _; by rewrite <- Hv].
  destruct (errors_is _ e || _); [intros k _; by rewrite <- Hv|done].
Qed.

Lemma Once_frame item fuel v0 :
  (forall w1 : World, view (item_value item w1).2 = view w1) ->
  forall w : World, only_key (it_Key _ item) w (Once redis_only fuel item v0 w).2.
Proof using H0.
  intros Hload. induction fuel as [|fuel IH]; intros w; [by intros k _|].
  pose proof (bytes_frame item w Hload) as Hbytes.
  rewrite Once_step. destruct (getSetItemBytesOnce redis_only item w) as [[[b c]|e|q] w1]; [|done..].
  destruct (String.eqb b ""); [done|]. destruct (unmarshal b) as [x|e|q]; [done| |done].
  destruct c; [|done]. cbn [snd] in Hbytes. intros k Hk. rewrite <- (Hbytes k Hk).
  pose proof (delete_frame (it_Key _ item) w1 k Hk) as Hdel. unfold bind, attempt.
  destruct (Delete redis_only (it_Key _ item) w1) as [[u|e'|q] w2]; cbn [snd] in *; rewrite <- Hdel;
    [by apply IH|by apply IH|done].
Qed.
End OnceRules.
