(* ===== verification/CacheCodec.v ===== *)
(** * CacheCodec: the cache's own encoding of values

    [pkg/cache/cache.go]: [New], [_marshal], [compress] and [_unmarshal], the encoding a
    cache uses when the options give none.  Byte strings are stored as they are; anything
    else is packed by [msgpack] and closed with a byte that tells whether [s2] compressed
    it.  Both libraries are parameters. *)
From Stdlib Require Import ZArith Lia List Ascii String.
From stdpp Require Import base gmap strings list numbers.
From S2P Require Import Prelude GoLib Model Po Env.
Open Scope Z_scope.

Definition compressionThreshold : nat := 64.
Definition noCompression : ascii := "000".
Definition s2Compression : ascii := "001".

(** [%x] of a byte. *)
Definition hex_byte (c : ascii) : string :=
  if byte_val c <? 16 then String (hex_digit (byte_val c)) EmptyString else hex_encode [byte_val c].

(** What the type switch of [_marshal] tells apart in an [interface{}]. *)
Inductive goval (V : Type) :=
| VNil
| VBytes (b : string)
| VString (s : string)
| VOther (v : V).
Arguments VNil {V}.
Arguments VBytes {V}.
Arguments VString {V}.
Arguments VOther {V}.

(** Where [_unmarshal] writes: nowhere, or through a pointer to one of the kinds. *)
Inductive dest := DNil | DBytes | DString | DOther.

(** [msgpack] for the values [V], and the [s2] block format. *)
Class Packer (V : Type) := {
  msgpack_Marshal : V -> res string;
  msgpack_Unmarshal : string -> res V;
  s2_Encode : string -> res string;
  s2_Decode : string -> res string }.

Class PackerLaws (V : Type) `{Packer V} := {
  msgpack_law : forall v b, msgpack_Marshal v = Ret b -> msgpack_Unmarshal b = Ret v;
  s2_law : forall d b, s2_Encode d = Ret b -> s2_Decode b = Ret d }.

Section Codec.
Context {V : Type} `{Packer V}.

Definition compress (data : string) : res string :=
  if Nat.ltb (String.length data) compressionThreshold
  then Ret (data ++ String noCompression EmptyString)%string
  else
    let? b := s2_Encode data in
    Ret (b ++ String s2Compression EmptyString)%string.

Definition marshal_ (value : goval V) : res string :=
  match value with
  | VNil => Ret EmptyString
  | VBytes b => Ret b
  | VString s => Ret s
  | VOther v =>
      let? b := msgpack_Marshal v in
      compress b
  end.

(** The last byte and what is before it. *)
Fixpoint split_last (s : string) : option (string * ascii) :=
  match s with
  | EmptyString => None
  | String c EmptyString => Some (EmptyString, c)
  | String c s' => match split_last s' with Some (b, l) => Some (String c b, l) | None => None end
  end.

(** The value written through the pointer, [None] when it is left as it was. *)
Definition unmarshal_ (b : string) (d : dest) : res (option (goval V)) :=
  if Nat.eqb (String.length b) 0 then Ret None
  else
    match d with
    | DNil => Ret None
    | DBytes => Ret (Some (VBytes b))
    | DString => Ret (Some (VString b))
    | DOther =>
        match split_last b with
        | None => Panic index_out_of_range
        | Some (b, c) =>
            let? b := (if Ascii.eqb c noCompression then Ret b
                       else if Ascii.eqb c s2Compression then s2_Decode b
                       else Fail (ENew ("unknown compression method: " ++ hex_byte c))) in
            let? v := msgpack_Unmarshal b in
            Ret (Some (VOther v))
        end
    end.

(** ** [New] *)
Record CodecOptions := mkCodecOptions {
  co_Marshal : option (goval V -> res string);
  co_Unmarshal : option (string -> dest -> res (option (goval V))) }.
Record CacheCodec := mkCacheCodec {
  cc_marshal : goval V -> res string;
  cc_unmarshal : string -> dest -> res (option (goval V)) }.

Definition New (opt : CodecOptions) : CacheCodec :=
  mkCacheCodec
    (match co_Marshal opt with None => marshal_ | Some f => f end)
    (match co_Unmarshal opt with None => unmarshal_ | Some f => f end).

Definition Marshal (cd : CacheCodec) (value : goval V) : res string := cc_marshal cd value.
Definition Unmarshal (cd : CacheCodec) (b : string) (d : dest) : res (option (goval V)) := cc_unmarshal cd b d.
End Codec.

(** ** Facts *)
Lemma split_last_app b c : split_last (b ++ String c EmptyString) = Some (b, c).
Proof.
  induction b as [|x b IH]; [done|]. rewrite str_app_cons. cbn [split_last].
  rewrite IH. destruct b; done.
Qed.

Section CodecFacts.
Context {V : Type} `{PackerLaws V}.

Definition dest_of (v : goval V) : dest :=
  match v with VNil => DNil | VBytes _ => DBytes | VString _ => DString | VOther _ => DOther end.
Definition empty_value (v : goval V) : bool :=
  match v with VNil => true | VBytes b => String.eqb b EmptyString | VString s => String.eqb s EmptyString | VOther _ => false end.

Lemma compress_decompresses data b :
  compress data = Ret b -> exists c body, b = (body ++ String c EmptyString)%string /\
    (if Ascii.eqb c noCompression then Ret body
     else if Ascii.eqb c s2Compression then s2_Decode body
     else Fail (ENew ("unknown compression method: " ++ hex_byte c))) = Ret data.
Proof.
  unfold compress. destruct (Nat.ltb (String.length data) compressionThreshold).
  - intros [= <-]. by exists noCompression, data.
  - destruct (s2_Encode data) as [e|e|e] eqn:Es; cbn [rbind]; [|done..]. intros [= <-].
    exists s2Compression, e. split; [done|]. cbn. by apply s2_law.
Qed.

Lemma length_snoc b c : Nat.eqb (String.length (b ++ String c EmptyString)) 0 = false.
Proof. by destruct b. Qed.

(** C30. What the cache stores comes back: the bytes made from a value, read through a
    pointer of its kind, give that value -- packed, compressed or plain -- except that an
    empty one is stored as no bytes and leaves the destination as it was. *)
Theorem default_codec_roundtrip (v : goval V) (b : string)
    (Hm : Marshal (New (mkCodecOptions None None)) v = Ret b) :
  Unmarshal (New (mkCodecOptions None None)) b (dest_of v) = Ret (if empty_value v then None else Some v).
Proof.
  unfold Marshal, Unmarshal, New in *. cbn [cc_marshal cc_unmarshal co_Marshal co_Unmarshal] in *.
  destruct v as [|x|x|v]; cbn [marshal_] in Hm.
  - by injection Hm as <-.
  - injection Hm as <-. by destruct x.
  - injection Hm as <-. by destruct x.
  - destruct (msgpack_Marshal v) as [p|e|e] eqn:Ep; cbn [rbind] in Hm; [|done..].
    apply compress_decompresses in Hm as (c & body & -> & Hd). unfold unmarshal_.
    rewrite length_snoc. cbn [dest_of]. rewrite split_last_app, Hd. cbn [rbind].
    by rewrite (msgpack_law _ _ Ep).
Qed.

(** Reading never panics and never goes past what [msgpack] and [s2] do. *)
Lemma unmarshal_no_panic b d p :
  (forall s q, s2_Decode s <> Panic q) -> (forall s q, msgpack_Unmarshal s <> Panic q) -> unmarshal_ b d <> Panic p.
Proof.
  intros Hs Hm. unfold unmarshal_. destruct (Nat.eqb (String.length b) 0) eqn:El; [done|].
  destruct d; [done..|]. destruct (split_last b) as [ [b' c]|] eqn:Eb.
  2: { exfalso. destruct b as [|x b]; [done|]. clear -Eb. revert x Eb. induction b as [|y b IH]; intros x Eb; [done|].
       cbn [split_last] in Eb, IH. specialize (IH y). destruct b; [done|]. destruct (split_last _) as [ [? ?]|]; [done|by apply IH]. }
  assert (Hu : forall s, (let? v := msgpack_Unmarshal s in Ret (Some (VOther v))) <> Panic p).
  { intros s. specialize (Hm s). destruct (msgpack_Unmarshal s) as [v|e|q]; [done..|]. by destruct (Hm q). }
  destruct (Ascii.eqb c noCompression); [apply Hu|]. destruct (Ascii.eqb c s2Compression); [|done].
  specialize (Hs b'). destruct (s2_Decode b') as [s|e|q]; [apply Hu|done|by destruct (Hs q)].
Qed.
End CodecFacts.

(** ** Witness: strings packed behind a letter, blocks behind another *)
#[local] Instance demo_packer : Packer string := {
  msgpack_Marshal := fun s => Ret (String "m" s);
  msgpack_Unmarshal := fun s => match s with String "m" s' => Ret s' | _ => Fail (EExt "msgpack") end;
  s2_Encode := fun s => Ret (String "z" s);
  s2_Decode := fun s => match s with String "z" s' => Ret s' | _ => Fail (EExt "s2: corrupt input") end }.
#[local] Instance demo_packer_laws : PackerLaws string.
Proof. by split; intros v b [= <-]. Defined.

Definition demo_long : string := zeros 70.
Definition demo_bytes (v : goval string) : res string := Marshal (New (mkCodecOptions None None)) v.

Lemma default_codec_roundtrip_witness :
  demo_bytes (VOther "ab") = Ret ("mab" ++ String noCompression EmptyString)%string /\
  demo_bytes (VOther demo_long) = Ret ("zm" ++ demo_long ++ String s2Compression EmptyString)%string /\
  Unmarshal (New (mkCodecOptions None None)) ("zm" ++ demo_long ++ String s2Compression EmptyString) DOther
    = Ret (Some (VOther demo_long)).
Proof.
  split; [vm_compute; reflexivity|]. split; [vm_compute; reflexivity|].
  exact (default_codec_roundtrip (VOther demo_long) ("zm" ++ demo_long ++ String s2Compression EmptyString) eq_refl).
Defined.

(** A byte that is no mark is an error, and the empty string leaves what was there. *)
Example unknown_mark :
  unmarshal_ "mab" DOther = Fail (ENew "unknown compression method: 62").
Proof. vm_compute. reflexivity. Qed.
Example empty_string_lost :
  demo_bytes (VString EmptyString) = Ret EmptyString /\ unmarshal_ EmptyString DString = Ret None.
Proof. split; vm_compute; reflexivity. Qed.
