(* ===== verification/CacheStats.v ===== *)
(** * CacheStats: hits and misses of the cache, and the blocking pop

    [pkg/cache/cache.go]: the counters [getBytes] keeps when [StatsEnabled] is set, and
    [Stats] and [BLPop].  [Cache] leaves the counters out; here the counting [getBytes] is
    shown to be the same computation with counters next to it. *)
From Stdlib Require Import ZArith Lia List Ascii String.
From stdpp Require Import base gmap strings list numbers.
From S2P Require Import Prelude GoLib Model Po Env Mem Cache.
Open Scope Z_scope.

(** The two counters are [uint64]. *)
Record Counters := mkCounters { hits : Z; misses : Z }.
Definition AddUint64 (n : Z) : Z := (n + 1) mod 2 ^ 64.

Section Stats.
Context {R D E : Type} `{RedisOps R} `{LocalCacheOps E}.
Notation World := (W R D E).
Notation Counted := (Counters * World)%type.
Variable opt : Options.
Variable StatsEnabled : bool.

Definition in_world {A} (m : M World A) : M Counted A := fun s =>
  let '(a, w) := m s.2 in (a, (s.1, w)).
Definition count_hit : M Counted unit := fun s =>
  (Ret tt, (if StatsEnabled then mkCounters (AddUint64 (hits s.1)) (misses s.1) else s.1, s.2)).
Definition count_miss : M Counted unit := fun s =>
  (Ret tt, (if StatsEnabled then mkCounters (hits s.1) (AddUint64 (misses s.1)) else s.1, s.2)).

(** [getBytes], every statement of it. *)
Definition counted_getBytes (key : string) (skipLocalCache : bool) : M Counted string :=
  let! local :=
    (if negb skipLocalCache && opt_LocalCache opt then in_world (in_env (lc_get key)) else ret None) in
  match local with
  | Some b => ret b
  | None =>
      if negb (opt_Redis opt) then
        (if negb (opt_LocalCache opt) then fail ERedisLocalCacheNil else fail ECacheMiss)
      else
        let! r := attempt (in_world (redis_cmd (GET key))) in
        match r with
        | inr err => count_miss ;;; fail err
        | inl None => count_miss ;;; fail ECacheMiss
        | inl (Some b) =>
            count_hit ;;;
            (if negb skipLocalCache && opt_LocalCache opt then in_world (in_env (lc_set key b)) else ret tt) ;;;
            ret b
        end
  end.

(** [cd.Stats()]: nothing unless it is enabled. *)
Definition Stats (c : Counters) : option Counters := if StatsEnabled then Some c else None.

(** [BLPop] passes on; the blocking command is the client's. *)
Definition BLPop (redis_BLPop : Z -> list string -> M World (list string)) (timeout : Z) (keys : list string)
    : M World (list string) :=
  if negb (opt_Redis opt) then fail ERedisLocalCacheNil else redis_BLPop timeout keys.

(** Counting changes neither the answer nor the world. *)
Lemma counted_getBytes_same key skip c (w : World) :
  (counted_getBytes key skip (c, w)).1 = (getBytes opt key skip w).1 /\
  (counted_getBytes key skip (c, w)).2.2 = (getBytes opt key skip w).2.
Proof.
  unfold counted_getBytes, getBytes, bind, attempt, in_world, ret, count_hit, count_miss, fail. cbn [fst snd].
  destruct (negb skip && opt_LocalCache opt), (negb (opt_Redis opt)), (negb (opt_LocalCache opt));
    repeat (case_match; simplify_eq/=; try done); done.
Qed.

(** A lookup that reaches Redis counts once: a hit when it gives bytes, else a miss; and a
    lookup the local cache answers counts nothing. *)
Lemma counted_getBytes_counts key skip c (w : World) :
  StatsEnabled = true -> opt_Redis opt = true -> opt_LocalCache opt = false ->
  forall r s, counted_getBytes key skip (c, w) = (r, s) -> (forall p, r <> Panic p) ->
  s.1 = match r with
        | Ret _ => mkCounters (AddUint64 (hits c)) (misses c)
        | _ => mkCounters (hits c) (AddUint64 (misses c))
        end.
Proof.
  intros Hs Hr Hl r s. unfold counted_getBytes, bind, attempt, in_world, ret, count_hit, count_miss, fail.
  rewrite Hr, Hl, andb_false_r, Hs. cbn [negb fst snd].
  destruct (redis_cmd (GET key) w) as [ [ [b|]|e|p] w2]; cbn [fst snd]; intros [= <- <-] Hp; try done.
  by destruct (Hp p).
Qed.
End Stats.
