(* ===== verification/LocalCache.v ===== *)
(** * LocalCache: values kept in the process for a limited time

    [pkg/cache/local.go]: [TinyLFU], a lock around the [tinylfu] library with a time to
    live that is randomised on every [Set].  The library is [Lfu]; it may forget at any
    time, and the theorem bounds how old a value can be that [Get] still returns. *)
From Stdlib Require Import ZArith Lia List Ascii String.
From stdpp Require Import base gmap strings list numbers.
From S2P Require Import Prelude GoLib Model Po Env Mem Cache.
Open Scope Z_scope.

(** ** The library

    An item expires at an instant; [lf_Get] is told the time the library reads. *)
Class Lfu (L : Type) := {
  lf_New : forall (size samples : Z), L;
  lf_Set : string -> string -> time -> L -> L;
  lf_Get : string -> time -> L -> option string * L;
  lf_Del : string -> L -> L }.

Class LfuLaws (L : Type) `{Lfu L} := {
  lf_items : L -> gmap string (string * time);
  lf_New_law : forall size samples, lf_items (lf_New size samples) = ∅;
  lf_Set_law : forall k v exp l, lf_items (lf_Set k v exp l) ⊆ <[k := (v, exp)]> (lf_items l);
  lf_Get_law : forall k now l, lf_items (lf_Get k now l).2 ⊆ lf_items l /\
    forall v, (lf_Get k now l).1 = Some v -> exists exp, lf_items l !! k = Some (v, exp) /\ now <= exp;
  lf_Del_law : forall k l, lf_items (lf_Del k l) ⊆ delete k (lf_items l) }.

(** ** [TinyLFU] *)
Record TinyLFU (L : Type) := mkTinyLFU {
  tl_lfu : L;
  tl_ttl : Z;
  tl_offset : Z }.
Arguments mkTinyLFU {L}.
Arguments tl_lfu {L}.
Arguments tl_ttl {L}.
Arguments tl_offset {L}.

Definition maxOffset : Z := 10 * Second.

Definition NewTinyLFU {L} `{Lfu L} (size ttl : Z) : TinyLFU L :=
  let offset := Z.quot ttl 10 in
  let offset := if maxOffset <? offset then maxOffset else offset in
  mkTinyLFU (lf_New size 100000) ttl offset.

Definition UseRandomizedTTL {L} (offset : Z) (c : TinyLFU L) : TinyLFU L :=
  mkTinyLFU (tl_lfu c) (tl_ttl c) offset.

Section Operations.
Context {L E : Type} `{Lfu L} `{EnvOps E}.
Notation St := (TinyLFU L * E)%type.

Definition in_process {A} (m : M E A) : M St A := fun s =>
  let '(c, e) := s in let '(a, e') := m e in (a, (c, e')).
Definition the_cache : M St (TinyLFU L) := fun s => (Ret s.1, s).
Definition on_lfu {A} (f : L -> A * L) : M St A := fun s =>
  let '(c, e) := s in
  let '(a, l) := f (tl_lfu c) in (Ret a, (mkTinyLFU l (tl_ttl c) (tl_offset c), e)).

Definition Set_ (key b : string) : M St unit :=
  let! c := the_cache in
  let! ttl := (if 0 <? tl_offset c
               then let! r := in_process (ev_int63n (tl_offset c)) in ret (wrap64 (tl_ttl c + r))
               else ret (tl_ttl c)) in
  let! now := in_process ev_now in
  on_lfu (fun l => (tt, lf_Set key b (now + ttl) l)).

Definition Get (key : string) : M St (option string) :=
  let! now := in_process ev_now in
  on_lfu (lf_Get key now).

Definition Del (key : string) : M St unit := on_lfu (fun l => (tt, lf_Del key l)).

(** The local cache of [Cache]'s options. *)
Definition tiny_local_cache : LocalCacheOps St := {|
  lc_set := Set_;
  lc_get := Get;
  lc_del := Del |}.
End Operations.

(** ** How old a value can be *)

(** A clock that does not go back, and is all that reading it or drawing a number moves. *)
Class ClockLaws (E : Type) `{EnvOps E} := {
  time_of : E -> time;
  clock_now : forall e t e', ev_now e = (Ret t, e') -> time_of e <= t <= time_of e';
  clock_random : forall n e z e', ev_int63n n e = (Ret z, e') -> time_of e <= time_of e' }.

Inductive op := OpSet (key b : string) | OpGet (key : string) | OpDel (key : string).

Section Staleness.
Context {L E : Type} `{LfuLaws L} `{EnvLaws E} `{!ClockLaws E}.
Notation St := (TinyLFU L * E)%type.

Definition apply_op (o : op) : M St unit :=
  match o with
  | OpSet k b => Set_ k b
  | OpGet k => let! _ := Get k in ret tt
  | OpDel k => Del k
  end.

(** The operations done, each with the time when it was over; other goroutines may let
    time pass in between. *)
Inductive run : list (op * time) -> St -> St -> Prop :=
| run_nil s : run [] s s
| run_op o tr s s1 s' : apply_op o s = (Ret tt, s1) -> run tr s1 s' -> run ((o, time_of s1.2) :: tr) s s'
| run_wait tr c e e1 s' : time_of e <= time_of e1 -> run tr (c, e1) s' -> run tr (c, e) s'.

(** The last value written under each key, and when. *)
Fixpoint written (tr : list (op * time)) (m : gmap string (string * time)) : gmap string (string * time) :=
  match tr with
  | [] => m
  | (OpSet k b, t) :: tr' => written tr' (<[k := (b, t)]> m)
  | (OpDel k, _) :: tr' => written tr' (delete k m)
  | (OpGet _, _) :: tr' => written tr' m
  end.

Definition max_age (c : TinyLFU L) : Z := tl_ttl c + Z.max 0 (tl_offset c).

(** Every item of the library is the last one written, with an expiry not later than the
    bound. *)
Definition dated (m : gmap string (string * time)) (s : St) : Prop :=
  forall k v exp, lf_items (tl_lfu s.1) !! k = Some (v, exp) ->
    exists t, m !! k = Some (v, t) /\ exp <= t + max_age s.1.

Lemma on_lfu_run {A} (f : L -> A * L) c (e : E) a s' :
  on_lfu f (c, e) = (Ret a, s') -> a = (f (tl_lfu c)).1 /\
    s' = (mkTinyLFU (f (tl_lfu c)).2 (tl_ttl c) (tl_offset c), e).
Proof. unfold on_lfu. destruct (f (tl_lfu c)) as [x l]. intros [= <- <-]. done. Qed.

Lemma in_process_run {A} (m : M E A) c (e : E) a s' :
  in_process m ((c : TinyLFU L), e) = (Ret a, s') -> exists e', m e = (Ret a, e') /\ s' = (c, e').
Proof. unfold in_process. destruct (m e) as [x e']. intros [= -> <-]. eauto. Qed.

(** [Set] stores the value with an expiry within the bound of the time it is over. *)
Lemma Set_run k b c (e : E) u s' :
  in_int64 (tl_ttl c) -> in_int64 (max_age c) -> Set_ k b (c, e) = (Ret u, s') ->
  exists exp, s'.1 = mkTinyLFU (lf_Set k b exp (tl_lfu c)) (tl_ttl c) (tl_offset c) /\
    exp <= time_of s'.2 + max_age c /\ time_of e <= time_of s'.2.
Proof.
  intros Ht Ha. unfold Set_, the_cache. unfold bind at 1. cbn [fst].
  assert (Hstore : forall ttl e1, time_of e <= time_of e1 -> ttl <= max_age c ->
    (let! now := in_process ev_now in on_lfu (fun l => (tt, lf_Set k b (now + ttl) l))) (c, e1) = (Ret u, s') ->
    exists exp, s'.1 = mkTinyLFU (lf_Set k b exp (tl_lfu c)) (tl_ttl c) (tl_offset c) /\
      exp <= time_of s'.2 + max_age c /\ time_of e <= time_of s'.2).
  { intros ttl e1 He Hl Hr. inv_bind Hr. apply in_process_run in Hm as (e2 & Hn & ->).
    apply clock_now in Hn. apply on_lfu_run in Hr as [_ ->]. cbn [fst snd]. exists (a + ttl).
    split; [done|]. lia. }
  unfold max_age in *. destruct (0 <? tl_offset c) eqn:Eo.
  - apply Z.ltb_lt in Eo. destruct (ev_int63n_law (tl_offset c) e Eo) as (z & e1 & Hz & Hr).
    intros Er. apply (Hstore (wrap64 (tl_ttl c + z)) e1); [by eapply clock_random| |].
    + rewrite wrap64_id; [lia|]. unfold in_int64 in *. lia.
    + revert Er. unfold bind at 1. unfold bind at 1, in_process at 1. rewrite Hz. done.
  - apply Z.ltb_ge in Eo. intros Er. apply (Hstore (tl_ttl c) e); [lia|lia|exact Er].
Qed.

Lemma dated_sub m l bound c (e : E) :
  lf_items (tl_lfu c) ⊆ l -> max_age c = bound ->
  (forall k v exp, l !! k = Some (v, exp) -> exists t, m !! k = Some (v, t) /\ exp <= t + bound) ->
  dated m (c, e).
Proof. intros Hs <- Hl k v exp Hk. apply Hl. by eapply lookup_weaken. Qed.

(** One operation keeps the items dated, and the settings. *)
Lemma apply_op_dated o m c (e : E) s1 :
  in_int64 (tl_ttl c) -> in_int64 (max_age c) -> dated m (c, e) -> apply_op o (c, e) = (Ret tt, s1) ->
  dated (written [(o, time_of s1.2)] m) s1 /\ tl_ttl s1.1 = tl_ttl c /\ tl_offset s1.1 = tl_offset c.
Proof.
  intros Ht Ha Hd. destruct o as [k b|k|k]; cbn [apply_op written].
  - intros Er. apply Set_run in Er as (exp & Hc & He & _); [|done..]. destruct s1 as [c1 e1]; cbn [fst snd] in *.
    subst c1. split; [|done]. eapply (dated_sub _ _ (max_age c)); [apply lf_Set_law|done|].
    intros k' v exp' Hk. destruct (decide (k = k')) as [->|N].
    + rewrite lookup_insert_eq in Hk. injection Hk as <- <-. exists (time_of e1). by rewrite lookup_insert_eq.
    + rewrite lookup_insert_ne in Hk by done. rewrite lookup_insert_ne by done. by apply Hd.
  - intros Er. unfold Get in Er. inv_bind Er. injection Er as <-. inv_bind Hm.
    apply in_process_run in Hm0 as (e2 & _ & ->). apply on_lfu_run in Hm as [_ ->]. cbn [fst snd].
    split; [|done]. eapply (dated_sub _ _ (max_age c)); [apply lf_Get_law|done|]. intros k' v exp Hk. by apply Hd.
  - intros Er. unfold Del in Er. apply on_lfu_run in Er as [_ ->]. cbn [fst snd]. split; [|done].
    eapply (dated_sub _ _ (max_age c)); [apply lf_Del_law|done|]. intros k' v exp Hk.
    destruct (decide (k = k')) as [->|N]; [by rewrite lookup_delete_eq in Hk|].
    rewrite lookup_delete_ne in Hk by done. rewrite lookup_delete_ne by done. by apply Hd.
Qed.

Lemma run_dated tr s s' : run tr s s' -> in_int64 (tl_ttl s.1) -> in_int64 (max_age s.1) -> forall m,
  dated m s -> dated (written tr m) s' /\ max_age s'.1 = max_age s.1.
Proof.
  induction 1 as [s|o tr [c e] s1 s' Ho Hr IH|tr c e e1 s' He Hr IH]; intros Ht Ha m Hd.
  - done.
  - cbn [fst] in *. destruct (apply_op_dated o m c e s1 Ht Ha Hd Ho) as (Hd1 & T1 & O1).
    assert (A1 : max_age s1.1 = max_age c) by (unfold max_age; by rewrite T1, O1).
    destruct (IH ltac:(by rewrite T1) ltac:(by rewrite A1) _ Hd1) as [Hd2 A2]. split; [|congruence].
    destruct o; exact Hd2.
  - destruct (IH Ht Ha m Hd) as [Hd2 A2]. by split.
Qed.

(** C29. What the local cache answers is the value last written under the key, and it is
    not older than the time to live plus its random share -- a tenth, at most ten seconds
    -- whatever was set, read and deleted in between; a key that was deleted, or never
    set, has no value. *)
Theorem Get_bounded_staleness (size ttl : Z) (e0 : E) (tr : list (op * time)) (s s' : St) (k v : string)
    (Httl : 0 <= ttl <= 2 ^ 62) (Hrun : run tr (NewTinyLFU size ttl, e0) s)
    (Hget : Get k s = (Ret (Some v), s')) :
  exists t, written tr ∅ !! k = Some (v, t) /\
    time_of s.2 <= t + ttl + Z.min (Z.quot ttl 10) maxOffset.
Proof.
  assert (Hoff : max_age (NewTinyLFU (L := L) size ttl) = ttl + Z.min (Z.quot ttl 10) maxOffset).
  { unfold max_age, NewTinyLFU. cbn [tl_ttl tl_offset].
    pose proof (Z.quot_pos ttl 10 ltac:(lia) ltac:(lia)). unfold maxOffset, Second in *.
    destruct (10 * 1000000000 <? Z.quot ttl 10) eqn:El; [apply Z.ltb_lt in El|apply Z.ltb_ge in El]; lia. }
  assert (Hmin : Z.min (Z.quot ttl 10) maxOffset <= 10 * 1000000000) by (unfold maxOffset, Second; lia).
  assert (Hpos : 0 <= Z.min (Z.quot ttl 10) maxOffset).
  { pose proof (Z.quot_pos ttl 10 ltac:(lia) ltac:(lia)). unfold maxOffset, Second. lia. }
  destruct (run_dated _ _ _ Hrun) with (m := (∅ : gmap string (string * time))) as [Hd Ha].
  - cbn. unfold in_int64, int64_min, int64_max. lia.
  - cbn [fst]. rewrite Hoff. unfold in_int64, int64_min, int64_max. lia.
  - intros k0 v0 exp Hk. cbn in Hk. rewrite lf_New_law, lookup_empty in Hk. done.
  - cbn [fst] in Ha. rewrite Hoff in Ha. destruct s as [c e]; cbn [fst snd] in *.
    unfold Get in Hget. inv_bind Hget. apply in_process_run in Hm as (e2 & Hn & ->).
    apply clock_now in Hn. apply on_lfu_run in Hget as [Hv _].
    destruct (lf_Get_law k a (tl_lfu c)) as [_ Hl]. destruct (Hl v) as (exp & Hk & He); [done|].
    destruct (Hd k v exp Hk) as (t & Ht & Hb). exists t. split; [done|]. cbn [fst] in Hb. lia.
Qed.
End Staleness.

(** ** Witness: a library that keeps everything until it expires *)
#[local] Instance MemLfu : Lfu (gmap string (string * time)) := {
  lf_New := fun _ _ => ∅;
  lf_Set := fun k v exp l => <[k := (v, exp)]> l;
  lf_Get := fun k now l =>
    match l !! k with
    | Some (v, exp) => if now <=? exp then (Some v, l) else (None, delete k l)
    | None => (None, l)
    end;
  lf_Del := fun k l => delete k l }.
#[local] Instance MemLfuLaws : LfuLaws (gmap string (string * time)).
Proof.
  unshelve econstructor; [exact (fun l => l)|..]; [done|done| |done].
  intros k now l. cbn. destruct (l !! k) as [ [v exp]|] eqn:El; [|by split].
  destruct (now <=? exp) eqn:En; [|split; [apply delete_subseteq|done] ].
  split; [done|]. intros v' [= <-]. exists exp. apply Z.leb_le in En. by split.
Defined.
#[local] Instance MemClock : ClockLaws MemEnv.
Proof.
  unshelve econstructor; [exact me_clock|..].
  - intros e t e' [= <- <-]. lia.
  - intros n e z e'. cbn. unfold me_draw. destruct (me_random e); intros [= _ <-]; cbn; lia.
Defined.

Definition demo_at (now : time) : MemEnv := mkMemEnv now [5 * Second] [] [] [].
Definition demo_tiny : TinyLFU (gmap string (string * time)) := NewTinyLFU 100 (60 * Second).
Definition demo_set := Set_ "k" "v" (demo_tiny, demo_at 0).
Definition demo_later (now : time) := (demo_set.2.1, mkMemEnv now [] [] [] []).

Lemma Get_bounded_staleness_witness :
  (Get "k" (demo_later (62 * Second))).1 = Ret (Some "v"%string) /\
  (Get "k" (demo_later (66 * Second))).1 = Ret None /\
  exists t, written [(OpSet "k" "v", 0)] ∅ !! "k"%string = Some ("v"%string, t) /\
    62 * Second <= t + 60 * Second + Z.min (Z.quot (60 * Second) 10) maxOffset.
Proof.
  split; [vm_compute; reflexivity|]. split; [vm_compute; reflexivity|].
  refine (Get_bounded_staleness 100 (60 * Second) (demo_at 0) [(OpSet "k" "v", 0)] (demo_later (62 * Second))
    (Get "k" (demo_later (62 * Second))).2 "k" "v" _ _ _).
  - vm_compute. split; discriminate.
  - change [(OpSet "k" "v", 0)] with [(OpSet "k" "v", time_of demo_set.2.2)].
    eapply (run_op _ _ _ demo_set.2); [vm_compute; reflexivity|].
    eapply (run_wait _ demo_set.2.1 demo_set.2.2 (mkMemEnv (62 * Second) [] [] [] [])); [vm_compute; discriminate|].
    apply run_nil.
  - vm_compute. reflexivity.
Defined.
