(* ===== verification/Event.v ===== *)
(** * Event: message envelopes and the publisher

    [pkg/rabbitmq/event.go] and [internal/data/rabbitmq_publisher.go].  The set of
    exchanges the publisher has declared is memory of the process, reached through
    [PublisherMem]. *)
From Stdlib Require Import ZArith Lia List Ascii String.
From stdpp Require Import base gmap strings list numbers.
From S2P Require Import Prelude GoLib Model Env Mem.
Open Scope Z_scope.

Record BaseEvent (A : Type) := mkBaseEvent {
  ev_ID : string;
  ev_Timestamp : time;
  ev_Data : A }.
Arguments mkBaseEvent {A}.
Arguments ev_ID {A}.
Arguments ev_Timestamp {A}.
Arguments ev_Data {A}.

(** [json.Marshal] of an envelope. *)
Class EventCodec (A : Type) := { marshal_event : BaseEvent A -> res string }.

(** The publisher's [declaredExchanges]. *)
Class PublisherMem (E : Type) := {
  declared : E -> string -> bool;
  declare : string -> E -> E }.

Class PublisherMemLaws (E : Type) `{PublisherMem E} `{EnvOps E} := {
  declared_declare : forall t t' e, declared (declare t e) t' = String.eqb t t' || declared e t';
  declared_exchange : forall t e, declared (ev_exchange_declare t e).2 = declared e;
  declared_publish : forall t b e, declared (ev_amqp_publish t b e).2 = declared e }.

Section Event.
Context {E : Type} `{EnvOps E}.

Definition generateShortID : M E string :=
  let! bytes := attempt (ev_crypto_read 5) in
  match bytes with
  | inl bs => ret (hex_encode bs)
  | inr _ => let! now := ev_now in ret (format_short (ev_offset now) now)
  end.

Definition NewBaseEvent {A} (data : A) : M E (BaseEvent A) :=
  let! id := generateShortID in
  let! now := ev_now in
  ret (mkBaseEvent id now data).
End Event.

Section Publisher.
Context {E : Type} `{EnvOps E} `{PublisherMem E}.

Definition Publish {A} `{EventCodec A} (topic : string) (event : BaseEvent A) : M E unit :=
  let! ok := (fun e => (Ret (declared e topic), e)) in
  (if (ok : bool) then ret tt
   else
     with_err (EWrap "exchange declare error: ") (ev_exchange_declare topic) ;;;
     (fun e => (Ret tt, declare topic e))) ;;;
  let! body := with_err (EWrap "marshal event error: ") (lift_res (marshal_event event)) in
  ev_amqp_publish topic body.

(** [Publisher] with its configured topics. *)
Record Publisher := mkPublisher {
  pb_ActivitySkuStockZero : string;
  pb_SendRebate : string;
  pb_SendAward : string }.
Variable p : Publisher.

Definition PublishStockZero {A} `{EventCodec A} (event : BaseEvent A) : M E unit :=
  Publish (pb_ActivitySkuStockZero p) event.
Definition PublishSendRebate {A} `{EventCodec A} (event : BaseEvent A) : M E unit :=
  Publish (pb_SendRebate p) event.
Definition PublishSendAward {A} `{EventCodec A} (event : BaseEvent A) : M E unit :=
  Publish (pb_SendAward p) event.
Definition PublishTopic {A} `{EventCodec A} (topic : string) (event : BaseEvent A) : M E unit :=
  Publish topic event.
Definition PublishSaveOrder {A} `{EventCodec A} (event : BaseEvent A) : M E unit :=
  Publish SaveOrderRecordTopic event.
End Publisher.
