(* ===== verification/Quota.v ===== *)
(** * Quota: the counters and the pending order of an account in Redis

    The two Lua scripts of [internal/data/activity_partake.go]: [take_script] reuses
    the pending order or takes one unit of the total, day and month counters for a
    new one; [give_back_script] undoes it.  [account] and [quota_take],
    [quota_give_back] are what the scripts promise about one account, the
    refinement lemmas show that they implement it, and the step relation [quota_step]
    interleaves any number of calls. *)
From Stdlib Require Import ZArith Lia List Ascii String.
From stdpp Require Import base gmap strings list numbers.
From S2P Require Import Prelude GoLib Model Po Env Mem Cache.
Open Scope Z_scope.

(** ** The scripts *)
Section Scripts.
Context {R : Type} `{RedisOps R}.

(** [tonumber(v) <= 0]; comparing with nil raises. *)
Definition lua_check (v : string) : M R bool :=
  match lua_le0 v with
  | Some b => ret b
  | None => fail (EExt "ERR attempt to compare nil with number")
  end.

(** The part of the script that makes a new pending order. *)
Definition create_script (totalKey dayKey monthKey pendingKey oid sid st : string) (ttl : Z)
    : M R (Z * list string) :=
  let! total := rd_call (GET totalKey) in
  let! day := rd_call (GET dayKey) in
  let! month := rd_call (GET monthKey) in
  match total, day, month with
  | Some total, Some day, Some month =>
      let! total_le0 := lua_check total in
      if (total_le0 : bool) then ret (-2, [])
      else
        let! day_le0 := lua_check day in
        if (day_le0 : bool) then ret (-3, [])
        else
          let! month_le0 := lua_check month in
          if (month_le0 : bool) then ret (-4, [])
          else
            rd_call (DECR totalKey) ;;;
            rd_call (DECR dayKey) ;;;
            rd_call (DECR monthKey) ;;;
            rd_call (HSET pendingKey
              [("oid"%string, oid); ("sid"%string, sid); ("st"%string, st)]) ;;;
            rd_call (EXPIRE pendingKey ttl) ;;;
            ret (1, [oid; sid; st])
  | _, _, _ => ret (-1, [])
  end.

(** [KEYS] are the total, day, month and pending keys; [ARGV] the order id, the
    strategy id, the state and the time to live.  The reply is the status and the
    strings after it. *)
Definition take_script (totalKey dayKey monthKey pendingKey oid sid st : string) (ttl : Z)
    : M R (Z * list string) :=
  let! pending := rd_call (HMGET pendingKey ["oid"; "sid"; "st"]%string) in
  match pending with
  | [Some p1; Some p2; Some p3] =>
      if String.eqb p3 "0" then ret (2, [p1; p2; p3])
      else
        rd_call (DEL pendingKey) ;;;
        create_script totalKey dayKey monthKey pendingKey oid sid st ttl
  | _ => create_script totalKey dayKey monthKey pendingKey oid sid st ttl
  end.

Definition give_back_script (totalKey dayKey monthKey pendingKey oid : string) : M R Z :=
  let! pending := rd_call (HMGET pendingKey ["oid"; "st"]%string) in
  match pending with
  | [Some p1; p2] =>
      if negb (String.eqb p1 oid) then ret 0
      else match p2 with
           | Some st =>
               if negb (String.eqb st "0") then ret 0
               else
                 rd_call (INCR totalKey) ;;;
                 rd_call (INCR dayKey) ;;;
                 rd_call (INCR monthKey) ;;;
                 rd_call (DEL pendingKey) ;;;
                 ret 1
           | None => ret 0
           end
  | _ => ret 0
  end.
End Scripts.

(** ** The specification: one account *)
Record account := mkAccount {
  qa_total : option Z;
  qa_day : option Z;
  qa_month : option Z;
  qa_pending : option (gmap string string) }.

Definition complete_pending (h : gmap string string) : option (string * string * string) :=
  match h !! "oid"%string, h !! "sid"%string, h !! "st"%string with
  | Some o, Some s, Some st => Some (o, s, st)
  | _, _, _ => None
  end.

Definition put_pending (oid sid : string) (h : gmap string string) : gmap string string :=
  <["st"%string := "0"%string]> (<["sid"%string := sid]> (<["oid"%string := oid]> h)).

Definition set_pending (a : account) (p : option (gmap string string)) : account :=
  mkAccount (qa_total a) (qa_day a) (qa_month a) p.

Definition quota_create (oid sid : string) (a : account) : (Z * list string) * account :=
  match qa_total a, qa_day a, qa_month a with
  | Some t, Some d, Some m =>
      if t <=? 0 then ((-2, []), a)
      else if d <=? 0 then ((-3, []), a)
      else if m <=? 0 then ((-4, []), a)
      else ((1, [oid; sid; "0"%string]),
            mkAccount (Some (t - 1)) (Some (d - 1)) (Some (m - 1))
              (Some (put_pending oid sid (default ∅ (qa_pending a)))))
  | _, _, _ => ((-1, []), a)
  end.

Definition quota_take (oid sid : string) (a : account) : (Z * list string) * account :=
  match qa_pending a with
  | Some h =>
      match complete_pending h with
      | Some (o, s, st) =>
          if String.eqb st "0" then ((2, [o; s; st]), a)
          else quota_create oid sid (set_pending a None)
      | None => quota_create oid sid a
      end
  | None => quota_create oid sid a
  end.

Definition bump (c : option Z) : option Z := Some (default 0 c + 1).

Definition quota_give_back (oid : string) (a : account) : Z * account :=
  match qa_pending a with
  | Some h =>
      match h !! "oid"%string, h !! "st"%string with
      | Some o, Some st =>
          if String.eqb o oid && String.eqb st "0"
          then (1, mkAccount (bump (qa_total a)) (bump (qa_day a)) (bump (qa_month a)) None)
          else (0, a)
      | _, _ => (0, a)
      end
  | None => (0, a)
  end.

(** ** The account in the keyspace *)
Definition counter_ok (c : option Z) : Prop := forall z, c = Some z -> Z.abs z < 2 ^ 53.

Definition counters_ok (a : account) : Prop :=
  counter_ok (qa_total a) /\ counter_ok (qa_day a) /\ counter_ok (qa_month a).

Definition account_at (m : gmap string rval) (k1 k2 k3 k4 : string) (a : account) : Prop :=
  m !! k1 = (fun z => RStr (FormatInt z)) <$> qa_total a /\
  m !! k2 = (fun z => RStr (FormatInt z)) <$> qa_day a /\
  m !! k3 = (fun z => RStr (FormatInt z)) <$> qa_month a /\
  m !! k4 = RHash <$> qa_pending a.

Definition same_outside (ks : list string) (m m' : gmap string rval) : Prop :=
  forall k, k ∉ ks -> m' !! k = m !! k.

(** ** Running commands on the server *)
Section Runs.
Context {R : Type} `{RedisLaws R}.

(** [m] run on [r] replies a value and leaves a keyspace that satisfy [Q]. *)
Definition runs {A} (m : M R A) (r : R) (Q : A -> gmap string rval -> Prop) : Prop :=
  exists a r', m r = (Ret a, r') /\ Q a (rd_view r').

Lemma runs_ret {A} (a : A) r Q : Q a (rd_view r) -> runs (ret a) r Q.
Proof. intros HQ. exists a, r. done. Qed.

Lemma runs_call {A B} (c : rcmd A) (k : A -> M R B) r a m' Q :
  cmd_spec c (rd_view r) = Some (a, m') ->
  (forall r', rd_view r' = m' -> runs (k a) r' Q) ->
  runs (bind (rd_call c) k) r Q.
Proof.
  intros Hc Hk. pose proof (rd_call_law _ c r) as Hl. rewrite Hc in Hl.
  destruct Hl as (r' & Er & Hv). destruct (Hk r' Hv) as (b & r2 & E2 & HQ).
  exists b, r2. split; [|done]. unfold bind. by rewrite Er.
Qed.

Lemma runs_check {B} z (k : bool -> M R B) r Q :
  Z.abs z < 2 ^ 53 -> runs (k (z <=? 0)) r Q -> runs (bind (lua_check (FormatInt z)) k) r Q.
Proof.
  intros Hz (b & r' & E & HQ). exists b, r'. split; [|done].
  unfold lua_check. rewrite lua_le0_law by lia. done.
Qed.
End Runs.

Lemma in_int64b_small z : Z.abs z <= 2 ^ 53 -> in_int64b z = true.
Proof. intros Hz. apply in_int64b_spec. unfold in_int64, int64_min, int64_max. lia. Qed.

Lemma spec_incrby_some k n z (m : gmap string rval) :
  m !! k = Some (RStr (FormatInt z)) -> Z.abs z < 2 ^ 53 -> Z.abs n <= 1 ->
  spec_incrby k n m = Some (z + n, <[k := RStr (FormatInt (z + n))]> m).
Proof.
  intros Hk Hz Hn. unfold spec_incrby. rewrite Hk, redis_int_FormatInt.
  - by rewrite in_int64b_small by lia.
  - unfold in_int64, int64_min, int64_max. lia.
Qed.

Lemma spec_incrby_none k n (m : gmap string rval) :
  m !! k = None -> spec_incrby k n m = Some (n, <[k := RStr (FormatInt n)]> m).
Proof. intros Hk. unfold spec_incrby. by rewrite Hk. Qed.

Lemma spec_incr_bump k (m : gmap string rval) c :
  m !! k = (fun z => RStr (FormatInt z)) <$> c -> counter_ok c ->
  spec_incrby k 1 m = Some (default 0 c + 1, <[k := RStr (FormatInt (default 0 c + 1))]> m).
Proof.
  intros Hk Hc. destruct c as [z|]; simpl in *.
  - apply spec_incrby_some; [done|by apply Hc|lia].
  - by apply spec_incrby_none.
Qed.

Lemma spec_hset k fvs (m : gmap string rval) p :
  m !! k = RHash <$> p -> fvs <> [] ->
  exists n, cmd_spec (HSET k fvs) m
    = Some (n, <[k := RHash (foldl (fun acc fv => <[fv.1 := fv.2]> acc) (default ∅ p) fvs)]> m).
Proof.
  intros Hk Hne. simpl. unfold get_hash. rewrite Hk. destruct fvs; [done|].
  destruct p; simpl; eauto.
Qed.

Lemma spec_hmget k fs (m : gmap string rval) p :
  m !! k = RHash <$> p ->
  cmd_spec (HMGET k fs) m = Some (map (fun f => default ∅ p !! f) fs, m).
Proof. intros Hk. simpl. unfold get_hash. rewrite Hk. by destruct p. Qed.

(** ** The scripts implement the specification *)
Section Refinement.
Context {R : Type} `{RedisLaws R}.
Variables (k1 k2 k3 k4 : string).
Hypothesis keys_distinct : NoDup [k1; k2; k3; k4].

Lemma keys_ne : k1 <> k2 /\ k1 <> k3 /\ k1 <> k4 /\ k2 <> k3 /\ k2 <> k4 /\ k3 <> k4.
Proof using keys_distinct.
  clear - keys_distinct.
  repeat match goal with Hn : NoDup (_ :: _) |- _ => inversion_clear Hn end.
  set_solver.
Qed.

Lemma same_outside_refl ks m : same_outside ks m m.
Proof. by intros k _. Qed.

Lemma runs_create oid sid ttl a (r : R) :
  account_at (rd_view r) k1 k2 k3 k4 a -> counters_ok a ->
  runs (create_script k1 k2 k3 k4 oid sid "0" ttl) r (fun reply m' =>
    reply = (quota_create oid sid a).1 /\
    account_at m' k1 k2 k3 k4 (quota_create oid sid a).2 /\
    same_outside [k1; k2; k3; k4] (rd_view r) m').
Proof using keys_distinct.
  intros Hat Hok. pose proof Hat as (H1 & H2 & H3 & H4). destruct Hok as (Hk1 & Hk2 & Hk3).
  destruct keys_ne as (N12 & N13 & N14 & N23 & N24 & N34).
  unfold create_script, quota_create.
  destruct a as [[t|] [d|] [mo|] p]; simpl in *;
    (eapply runs_call; [simpl; rewrite H1; reflexivity|]; intros r1 V1);
    (eapply runs_call; [simpl; rewrite V1, H2; reflexivity|]; intros r2 V2);
    (eapply runs_call; [simpl; rewrite V2, H3; reflexivity|]; intros r3 V3); cbv beta iota;
    try (apply runs_ret; rewrite V3; split_and!; [done|exact Hat|apply same_outside_refl]).
  apply runs_check; [by apply Hk1|]. destruct (Z.leb_spec t 0).
  { apply runs_ret; rewrite V3; split_and!; [done|exact Hat|apply same_outside_refl]. }
  apply runs_check; [by apply Hk2|]. destruct (Z.leb_spec d 0).
  { apply runs_ret; rewrite V3; split_and!; [done|exact Hat|apply same_outside_refl]. }
  apply runs_check; [by apply Hk3|]. destruct (Z.leb_spec mo 0).
  { apply runs_ret; rewrite V3; split_and!; [done|exact Hat|apply same_outside_refl]. }
  eapply runs_call.
  { cbn [cmd_spec]. rewrite V3. apply spec_incrby_some; [exact H1|by apply Hk1|lia]. }
  intros r4 V4. eapply runs_call.
  { cbn [cmd_spec]. rewrite V4. apply (spec_incrby_some _ _ d); [|by apply Hk2|lia].
    by rewrite lookup_insert_ne. }
  intros r5 V5. eapply runs_call.
  { cbn [cmd_spec]. rewrite V5. apply (spec_incrby_some _ _ mo); [|by apply Hk3|lia].
    by rewrite !lookup_insert_ne. }
  intros r6 V6.
  destruct (spec_hset k4 [("oid"%string, oid); ("sid"%string, sid); ("st"%string, "0"%string)]
              (rd_view r6) p) as [n Hn]; [by rewrite V6, !lookup_insert_ne|done|].
  eapply runs_call; [exact Hn|]. intros r7 V7. eapply runs_call.
  { cbn [cmd_spec]. rewrite V7, lookup_insert_eq. reflexivity. }
  intros r8 V8. apply runs_ret. rewrite V8, V6. split_and!; [done|..].
  - unfold account_at. cbn [qa_total qa_day qa_month qa_pending fmap option_fmap option_map].
    split_and!; rewrite ?lookup_insert_eq, ?lookup_insert_ne, ?lookup_insert_eq by done; done.
  - intros k Hk. rewrite !lookup_insert_ne by set_solver. done.
Qed.

Lemma runs_take oid sid ttl a (r : R) :
  account_at (rd_view r) k1 k2 k3 k4 a -> counters_ok a ->
  runs (take_script k1 k2 k3 k4 oid sid "0" ttl) r (fun reply m' =>
    reply = (quota_take oid sid a).1 /\
    account_at m' k1 k2 k3 k4 (quota_take oid sid a).2 /\
    same_outside [k1; k2; k3; k4] (rd_view r) m').
Proof using keys_distinct.
  intros Hat Hok. pose proof Hat as (H1 & H2 & H3 & H4).
  destruct keys_ne as (N12 & N13 & N14 & N23 & N24 & N34).
  unfold take_script. eapply runs_call; [by apply spec_hmget|]. intros r1 V1.
  assert (Hcreate : runs (create_script k1 k2 k3 k4 oid sid "0" ttl) r1 (fun reply m' =>
    reply = (quota_create oid sid a).1 /\ account_at m' k1 k2 k3 k4 (quota_create oid sid a).2 /\
    same_outside [k1; k2; k3; k4] (rd_view r) m')).
  { rewrite <- V1. apply runs_create; [by rewrite V1|done]. }
  unfold quota_take, complete_pending. destruct (qa_pending a) as [h|] eqn:Ep; simpl; [|exact Hcreate].
  destruct (h !! "oid"%string) as [o|], (h !! "sid"%string) as [si|], (h !! "st"%string) as [st|];
    try exact Hcreate.
  destruct (String.eqb st "0").
  - apply runs_ret. rewrite V1. split_and!; [done|exact Hat|apply same_outside_refl].
  - eapply runs_call; [cbn [cmd_spec]; rewrite V1, H4; reflexivity|]. intros r2 V2.
    destruct (runs_create oid sid ttl (set_pending a None) r2) as (reply & r3 & E3 & Hr & Ha & Ho).
    + rewrite V2. unfold account_at, set_pending. simpl.
      rewrite lookup_delete_eq, !lookup_delete_ne by done. done.
    + done.
    + exists reply, r3. split_and!; try done. intros k Hk. rewrite Ho by done.
      rewrite V2, lookup_delete_ne by set_solver. done.
Qed.

Lemma runs_give_back oid a (r : R) :
  account_at (rd_view r) k1 k2 k3 k4 a -> counters_ok a ->
  runs (give_back_script k1 k2 k3 k4 oid) r (fun reply m' =>
    reply = (quota_give_back oid a).1 /\
    account_at m' k1 k2 k3 k4 (quota_give_back oid a).2 /\
    same_outside [k1; k2; k3; k4] (rd_view r) m').
Proof using keys_distinct.
  intros Hat Hok. pose proof Hat as (H1 & H2 & H3 & H4). destruct Hok as (Hk1 & Hk2 & Hk3).
  destruct keys_ne as (N12 & N13 & N14 & N23 & N24 & N34).
  unfold give_back_script, quota_give_back. eapply runs_call; [by apply spec_hmget|]. intros r1 V1.
  assert (Hskip : runs (ret 0) r1 (fun (reply : Z) m' =>
    reply = 0 /\ account_at m' k1 k2 k3 k4 a /\ same_outside [k1; k2; k3; k4] (rd_view r) m')).
  { apply runs_ret. rewrite V1. split_and!; [done|exact Hat|apply same_outside_refl]. }
  destruct (qa_pending a) as [h|] eqn:Ep; simpl; [|exact Hskip].
  destruct (h !! "oid"%string) as [o|]; [|exact Hskip].
  destruct (String.eqb o oid); simpl; [|by destruct (h !! "st"%string)].
  destruct (h !! "st"%string) as [st|]; [|exact Hskip].
  destruct (String.eqb st "0"); simpl; [|exact Hskip].
  eapply runs_call.
  { cbn [cmd_spec]. apply (spec_incr_bump _ _ (qa_total a)); [by rewrite V1|exact Hk1]. }
  intros r2 V2. eapply runs_call.
  { cbn [cmd_spec]. apply (spec_incr_bump _ _ (qa_day a)); [|exact Hk2].
    by rewrite V2, lookup_insert_ne, V1. }
  intros r3 V3. eapply runs_call.
  { cbn [cmd_spec]. apply (spec_incr_bump _ _ (qa_month a)); [|exact Hk3].
    by rewrite V3, V2, !lookup_insert_ne, V1. }
  intros r4 V4. eapply runs_call.
  { cbn [cmd_spec]. rewrite V4, V3, V2, !lookup_insert_ne, V1, H4 by done. reflexivity. }
  intros r5 V5. apply runs_ret. rewrite V5. split_and!; [done|..].
  - unfold account_at, bump. simpl.
    split_and!; rewrite ?lookup_delete_eq, ?lookup_delete_ne, ?lookup_insert_eq, ?lookup_insert_ne,
      ?lookup_insert_eq by done; done.
  - intros k Hk. rewrite lookup_delete_ne, !lookup_insert_ne by set_solver. done.
Qed.
End Refinement.

(** An order just made is open: taking again finds it, giving it back restores the
    counters. *)
Lemma quota_create_open oid sid a rest :
  quota_create oid sid a = ((1, rest), (quota_create oid sid a).2) ->
  exists t d m p, qa_total a = Some t /\ qa_day a = Some d /\ qa_month a = Some m /\
    0 < t /\ 0 < d /\ 0 < m /\
    (quota_create oid sid a).2 =
      mkAccount (Some (t - 1)) (Some (d - 1)) (Some (m - 1)) (Some (put_pending oid sid p)).
Proof.
  unfold quota_create. destruct (qa_total a) as [t|], (qa_day a) as [d|], (qa_month a) as [m|];
    try done. destruct (Z.leb_spec t 0), (Z.leb_spec d 0), (Z.leb_spec m 0); try done.
  intros _. simpl. eauto 12.
Qed.

Lemma quota_take_open oid sid a rest :
  (1, rest) = (quota_take oid sid a).1 ->
  exists t d m p, qa_total a = Some t /\ qa_day a = Some d /\ qa_month a = Some m /\
    0 < t /\ 0 < d /\ 0 < m /\
    (quota_take oid sid a).2 =
      mkAccount (Some (t - 1)) (Some (d - 1)) (Some (m - 1)) (Some (put_pending oid sid p)).
Proof.
  assert (Hc : forall a0, qa_total a0 = qa_total a -> qa_day a0 = qa_day a ->
    qa_month a0 = qa_month a -> (1, rest) = (quota_create oid sid a0).1 ->
    exists t d m p, qa_total a = Some t /\ qa_day a = Some d /\ qa_month a = Some m /\
      0 < t /\ 0 < d /\ 0 < m /\
      (quota_create oid sid a0).2 =
        mkAccount (Some (t - 1)) (Some (d - 1)) (Some (m - 1)) (Some (put_pending oid sid p))).
  { intros a0 <- <- <- Hr. apply (quota_create_open _ _ _ rest).
    destruct (quota_create oid sid a0) as [x y]. simpl in *. by rewrite <- Hr. }
  unfold quota_take. destruct (qa_pending a) as [h|]; [|by apply Hc].
  destruct (complete_pending h) as [[[o s] st]|]; [|by apply Hc].
  destruct (String.eqb st "0"); [done|]. by apply Hc.
Qed.

Lemma put_pending_complete oid sid p :
  complete_pending (put_pending oid sid p) = Some (oid, sid, "0"%string).
Proof.
  unfold complete_pending, put_pending.
  rewrite (lookup_insert_ne _ "st" "oid"), (lookup_insert_ne _ "sid" "oid"), lookup_insert_eq by done.
  rewrite (lookup_insert_ne _ "st" "sid"), lookup_insert_eq by done.
  by rewrite lookup_insert_eq.
Qed.

Lemma quota_take_new oid sid oid' sid' a rest :
  counters_ok a -> (1, rest) = (quota_take oid sid a).1 ->
  quota_take oid' sid' (quota_take oid sid a).2
    = ((2, [oid; sid; "0"%string]), (quota_take oid sid a).2) /\
  counters_ok (quota_take oid sid a).2.
Proof.
  intros (C1 & C2 & C3) Hr. apply quota_take_open in Hr as (t & d & m & p & E1 & E2 & E3 & ? & ? & ? & ->).
  split.
  - unfold quota_take. simpl. by rewrite put_pending_complete.
  - unfold counters_ok, counter_ok in *. simpl.
    specialize (C1 _ E1). specialize (C2 _ E2). specialize (C3 _ E3).
    split_and!; intros z [= <-]; lia.
Qed.

Lemma quota_give_back_new oid sid a rest :
  (1, rest) = (quota_take oid sid a).1 ->
  quota_give_back oid (quota_take oid sid a).2 = (1, set_pending a None).
Proof.
  intros Hr. apply quota_take_open in Hr as (t & d & m & p & E1 & E2 & E3 & ? & ? & ? & ->).
  unfold quota_give_back. simpl. pose proof (put_pending_complete oid sid p) as Hp.
  unfold complete_pending in Hp.
  destruct (put_pending oid sid p !! "oid"%string) as [o|]; [|done].
  destruct (put_pending oid sid p !! "sid"%string) as [si|]; [|done].
  destruct (put_pending oid sid p !! "st"%string) as [st|]; [|done].
  injection Hp as -> -> ->. rewrite !String.eqb_refl. simpl. unfold bump, set_pending.
  rewrite E1, E2, E3. simpl. f_equal. f_equal; f_equal; lia.
Qed.

(** ** Any number of callers

    The server runs one script at a time; a state is the server and the number of
    orders made and not given back. *)
Section Steps.
Context {R : Type} `{RedisLaws R}.
Variables (k1 k2 k3 k4 : string).

Inductive quota_step : R * Z -> R * Z -> Prop :=
| step_take oid sid ttl r r' reply n :
    take_script k1 k2 k3 k4 oid sid "0" ttl r = (Ret reply, r') ->
    quota_step (r, n) (r', if reply.1 =? 1 then n + 1 else n)
| step_give_back oid r r' c n :
    give_back_script k1 k2 k3 k4 oid r = (Ret c, r') ->
    quota_step (r, n) (r', n - c)
| step_award r r' c n :
    rd_call (DEL k4) r = (Ret c, r') -> quota_step (r, n) (r', n)
| step_other r r' n :
    (forall k, k ∈ [k1; k2; k3; k4] -> rd_view r' !! k = rd_view r !! k) ->
    quota_step (r, n) (r', n).

(** [n] orders are out, and every counter is [n] below where it started. *)
Definition quota_inv (t d m : Z) (st : R * Z) : Prop :=
  exists a, account_at (rd_view st.1) k1 k2 k3 k4 a /\
    qa_total a = Some (t - st.2) /\ qa_day a = Some (d - st.2) /\ qa_month a = Some (m - st.2) /\
    0 <= st.2 <= Z.min t (Z.min d m) /\ (qa_pending a <> None -> 1 <= st.2).

Lemma quota_take_cases oid sid a t d m :
  qa_total a = Some t -> qa_day a = Some d -> qa_month a = Some m ->
  let '((status, rest), a') := quota_take oid sid a in
  (status = 1 /\ 0 < t /\ 0 < d /\ 0 < m /\ rest = [oid; sid; "0"%string] /\
   qa_total a' = Some (t - 1) /\ qa_day a' = Some (d - 1) /\ qa_month a' = Some (m - 1)) \/
  (status <> 1 /\ qa_total a' = Some t /\ qa_day a' = Some d /\ qa_month a' = Some m /\
   (qa_pending a' = qa_pending a \/ qa_pending a' = None)).
Proof.
  intros Ht Hd Hm.
  assert (Hc : forall a0, qa_total a0 = Some t -> qa_day a0 = Some d -> qa_month a0 = Some m ->
    (qa_pending a0 = qa_pending a \/ qa_pending a0 = None) ->
    let '((status, rest), a') := quota_create oid sid a0 in
    (status = 1 /\ 0 < t /\ 0 < d /\ 0 < m /\ rest = [oid; sid; "0"%string] /\
     qa_total a' = Some (t - 1) /\ qa_day a' = Some (d - 1) /\ qa_month a' = Some (m - 1)) \/
    (status <> 1 /\ qa_total a' = Some t /\ qa_day a' = Some d /\ qa_month a' = Some m /\
     (qa_pending a' = qa_pending a \/ qa_pending a' = None))).
  { intros a0 E1 E2 E3 E4. unfold quota_create. rewrite E1, E2, E3.
    destruct (Z.leb_spec t 0), (Z.leb_spec d 0), (Z.leb_spec m 0); auto 10. }
  unfold quota_take. destruct (qa_pending a) as [h|] eqn:Ep; [|apply Hc; auto].
  destruct (complete_pending h) as [[[o s] st]|]; [|apply Hc; auto].
  destruct (String.eqb st "0"); [right; rewrite Ep; auto 10|]. apply Hc; simpl; auto.
Qed.

Lemma quota_give_back_cases oid a t d m :
  qa_total a = Some t -> qa_day a = Some d -> qa_month a = Some m ->
  let '(c, a') := quota_give_back oid a in
  (c = 1 /\ qa_pending a <> None /\ qa_pending a' = None /\
   qa_total a' = Some (t + 1) /\ qa_day a' = Some (d + 1) /\ qa_month a' = Some (m + 1)) \/
  (c = 0 /\ a' = a).
Proof.
  intros Ht Hd Hm. unfold quota_give_back. destruct (qa_pending a) as [h|] eqn:Ep; [|by right].
  destruct (h !! "oid"%string) as [o|]; [|by right]. destruct (h !! "st"%string) as [st|]; [|by right].
  destruct (String.eqb o oid && String.eqb st "0"); [left|by right].
  unfold bump. rewrite Ht, Hd, Hm. done.
Qed.

Hypothesis keys_distinct : NoDup [k1; k2; k3; k4].

Lemma quota_inv_ok t d m st :
  0 <= t < 2 ^ 53 -> 0 <= d < 2 ^ 53 -> 0 <= m < 2 ^ 53 -> quota_inv t d m st ->
  exists a, account_at (rd_view st.1) k1 k2 k3 k4 a /\ counters_ok a /\
    qa_total a = Some (t - st.2) /\ qa_day a = Some (d - st.2) /\ qa_month a = Some (m - st.2) /\
    0 <= st.2 <= Z.min t (Z.min d m) /\ (qa_pending a <> None -> 1 <= st.2).
Proof.
  intros Ht Hd Hm (a & Hat & E1 & E2 & E3 & Hn & Hp). exists a. split_and!; try done; try lia.
  unfold counters_ok, counter_ok. rewrite E1, E2, E3.
  split_and!; intros z [= <-]; lia.
Qed.

Lemma quota_step_inv t d m st st' :
  0 <= t < 2 ^ 53 -> 0 <= d < 2 ^ 53 -> 0 <= m < 2 ^ 53 ->
  quota_inv t d m st -> quota_step st st' -> quota_inv t d m st'.
Proof using keys_distinct.
  intros Ht Hd Hm Hinv Hstep.
  apply quota_inv_ok in Hinv as (a & Hat & Hok & E1 & E2 & E3 & Hn & Hp); [|done..].
  destruct Hstep as [oid sid ttl r r' reply n E|oid r r' c n E|r r' c n E|r r' n E]; simpl in *.
  - destruct (runs_take k1 k2 k3 k4 keys_distinct oid sid ttl a r Hat Hok)
      as (reply' & r2 & E' & -> & Ha & _). rewrite E in E'. injection E' as -> <-.
    pose proof (quota_take_cases oid sid a _ _ _ E1 E2 E3) as Hc.
    destruct (quota_take oid sid a) as [[status rest] a']. simpl in *. exists a'. split; [done|].
    destruct Hc as [(-> & ? & ? & ? & _ & -> & -> & ->)|(Hne & -> & -> & -> & Hpend)]; simpl.
    + split_and!; try lia; f_equal; lia.
    + destruct (Z.eqb_spec status 1); [done|]. split_and!; try done; try lia.
      intros Hp'. apply Hp. destruct Hpend as [<-|Hnone]; [done|]. by rewrite Hnone in Hp'.
  - destruct (runs_give_back k1 k2 k3 k4 keys_distinct oid a r Hat Hok)
      as (c' & r2 & E' & -> & Ha & _). rewrite E in E'. injection E' as -> <-.
    pose proof (quota_give_back_cases oid a _ _ _ E1 E2 E3) as Hc.
    destruct (quota_give_back oid a) as [c a']. simpl in *. exists a'. split; [done|].
    destruct Hc as [(-> & Hpa & Hpn & -> & -> & ->)|[-> ->]].
    + specialize (Hp Hpa). cbn [fst snd]. split_and!; try lia; try (f_equal; lia). intros Hx. by destruct Hx.
    + cbn [fst snd]. rewrite Z.sub_0_r. split_and!; done || lia.
  - destruct Hat as (A1 & A2 & A3 & A4). destruct (keys_ne k1 k2 k3 k4 keys_distinct)
      as (N12 & N13 & N14 & N23 & N24 & N34).
    pose proof (rd_call_law _ (DEL k4) r) as Hl.
    assert (Hv : rd_view r' = delete k4 (rd_view r)).
    { simpl in Hl. destruct (rd_view r !! k4) eqn:Ek.
      - destruct Hl as (r2 & E' & Hv). rewrite E in E'. by injection E' as _ ->.
      - destruct Hl as (r2 & E' & Hv). rewrite E in E'. injection E' as _ ->.
        by rewrite Hv, delete_id. }
    exists (set_pending a None). unfold account_at, set_pending. cbn [fst snd]. simpl. rewrite Hv.
    rewrite lookup_delete_eq, !lookup_delete_ne by done. split_and!; done || lia.
  - destruct Hat as (A1 & A2 & A3 & A4). exists a. unfold account_at.
    cbn [fst snd]. rewrite !E by set_solver. split_and!; done || lia.
Qed.

(** The invariant of the steps, read at the keys. *)
Lemma quota_reach (t d m : Z) (r0 r : R) (n : Z)
    (Ht : 0 <= t < 2 ^ 53) (Hd : 0 <= d < 2 ^ 53) (Hm : 0 <= m < 2 ^ 53)
    (Hstart : account_at (rd_view r0) k1 k2 k3 k4 (mkAccount (Some t) (Some d) (Some m) None))
    (Hreach : rtc quota_step (r0, 0) (r, n)) :
  0 <= n <= Z.min t (Z.min d m) /\
  rd_view r !! k1 = Some (RStr (FormatInt (t - n))) /\
  rd_view r !! k2 = Some (RStr (FormatInt (d - n))) /\
  rd_view r !! k3 = Some (RStr (FormatInt (m - n))).
Proof using keys_distinct.
  assert (Hinv : quota_inv t d m (r, n)).
  { remember (r0, 0) as st0 eqn:E0. remember (r, n) as st1 eqn:E1.
    assert (H0i : quota_inv t d m st0).
    { subst st0. eexists. split; [exact Hstart|]. simpl. rewrite !Z.sub_0_r.
      split_and!; done || lia. }
    clear E0 E1 Hstart. induction Hreach as [|x y z Hs _ IH]; [done|].
    apply IH. by eapply quota_step_inv. }
  destruct Hinv as (a & (A1 & A2 & A3 & _) & E1 & E2 & E3 & Hn & _). simpl in *.
  rewrite E1 in A1. rewrite E2 in A2. rewrite E3 in A3. done.
Qed.

(** C2. No interleaving of takes, compensations, award deletions and unrelated
    commands oversells an account: from quotas [t], [d], [m] and no pending order, if
    [n] orders were made and not given back then every counter stands exactly [n]
    below its start, and [n] never exceeds any of the three quotas. *)
Theorem quota_never_oversold (t d m : Z) (r0 r : R) (n : Z)
    (Ht : 0 <= t < 2 ^ 53) (Hd : 0 <= d < 2 ^ 53) (Hm : 0 <= m < 2 ^ 53)
    (Hstart : account_at (rd_view r0) k1 k2 k3 k4 (mkAccount (Some t) (Some d) (Some m) None))
    (Hreach : rtc quota_step (r0, 0) (r, n)) :
  0 <= n <= Z.min t (Z.min d m) /\
  rd_view r !! k1 = Some (RStr (FormatInt (t - n))) /\
  rd_view r !! k2 = Some (RStr (FormatInt (d - n))) /\
  rd_view r !! k3 = Some (RStr (FormatInt (m - n))).
Proof using keys_distinct. by apply (quota_reach t d m r0 r n). Qed.

(** An account has at most one open order: after a take made an order, the next
    take -- whatever order it proposes -- returns that same order and takes nothing. *)
Theorem take_reuses_pending (oid sid oid' sid' : string) (ttl ttl' : Z) (a : account) (r r1 : R)
    (rest : list string)
    (Hat : account_at (rd_view r) k1 k2 k3 k4 a) (Hok : counters_ok a)
    (Htake : take_script k1 k2 k3 k4 oid sid "0" ttl r = (Ret (1, rest), r1)) :
  exists r2, take_script k1 k2 k3 k4 oid' sid' "0" ttl' r1 = (Ret (2, [oid; sid; "0"%string]), r2) /\
    forall k, k ∈ [k1; k2; k3; k4] -> rd_view r2 !! k = rd_view r1 !! k.
Proof using keys_distinct.
  destruct (runs_take k1 k2 k3 k4 keys_distinct oid sid ttl a r Hat Hok)
    as (reply & r' & E & Hr & Ha & _).
  rewrite Htake in E. injection E as <- <-.
  assert (Hnew : quota_take oid' sid' (quota_take oid sid a).2
                 = ((2, [oid; sid; "0"%string]), (quota_take oid sid a).2) /\
                 counters_ok (quota_take oid sid a).2).
  { by eapply quota_take_new. }
  destruct Hnew as [Hnew Hok'].
  destruct (runs_take k1 k2 k3 k4 keys_distinct oid' sid' ttl' _ r1 Ha Hok')
    as (reply2 & r2 & E2 & -> & Ha2 & _).
  rewrite Hnew in E2, Ha2. exists r2. split; [done|].
  destruct Ha as (A1 & A2 & A3 & A4), Ha2 as (B1 & B2 & B3 & B4). simpl in *.
  intros k Hk. rewrite !elem_of_cons, elem_of_nil in Hk.
  destruct Hk as [->|[->|[->|[->|[] ]]]]; congruence.
Qed.

(** Compensation undoes a take: giving back the order a take just made puts the
    three counters where they were, removes the pending order, and a second
    compensation of the same order changes nothing. *)
Theorem give_back_undoes_take (oid sid : string) (ttl : Z) (a : account) (r r1 : R)
    (rest : list string)
    (Hat : account_at (rd_view r) k1 k2 k3 k4 a) (Hok : counters_ok a)
    (Htake : take_script k1 k2 k3 k4 oid sid "0" ttl r = (Ret (1, rest), r1)) :
  exists r2 r3, give_back_script k1 k2 k3 k4 oid r1 = (Ret 1, r2) /\
    account_at (rd_view r2) k1 k2 k3 k4 (set_pending a None) /\
    give_back_script k1 k2 k3 k4 oid r2 = (Ret 0, r3) /\
    account_at (rd_view r3) k1 k2 k3 k4 (set_pending a None).
Proof using keys_distinct.
  destruct (runs_take k1 k2 k3 k4 keys_distinct oid sid ttl a r Hat Hok)
    as (reply & r' & E & Hr & Ha & _).
  rewrite Htake in E. injection E as <- <-.
  destruct (quota_take_new oid sid oid sid a rest Hok Hr) as [_ Hok'].
  destruct (runs_give_back k1 k2 k3 k4 keys_distinct oid _ r1 Ha Hok')
    as (c & r2 & E2 & -> & Ha2 & _).
  rewrite (quota_give_back_new _ _ _ _ Hr) in E2, Ha2. simpl in *.
  destruct (runs_give_back k1 k2 k3 k4 keys_distinct oid _ r2 Ha2 Hok)
    as (c & r3 & E3 & -> & Ha3 & _).
  exists r2, r3. done.
Qed.
End Steps.

(** ** Witnesses *)
Definition demo_quota (n : Z) : MemRedis :=
  <["t"%string := RStr (FormatInt n)]> (<["d"%string := RStr (FormatInt n)]>
    (<["m"%string := RStr (FormatInt n)]> ∅)).

Definition demo_quota_account (n : Z) : account := mkAccount (Some n) (Some n) (Some n) None.

Lemma demo_keys_NoDup : NoDup ["t"; "d"; "m"; "p"]%string.
Proof. apply (bool_decide_unpack _). vm_compute. exact I. Qed.

Lemma demo_quota_at : account_at (rd_view (demo_quota 2)) "t" "d" "m" "p" (demo_quota_account 2).
Proof. split_and!; reflexivity. Qed.

Definition demo_take (oid : string) (r : MemRedis) : MemRedis :=
  (take_script "t" "d" "m" "p" oid "1" "0" 1800 r).2.
Definition demo_award (r : MemRedis) : MemRedis := (rd_call (DEL "p") r).2.

Definition demo_r1 : MemRedis := demo_take "o1" (demo_quota 2).
Definition demo_r2 : MemRedis := demo_take "o2" (demo_award demo_r1).
Definition demo_r3 : MemRedis := demo_take "o3" (demo_award demo_r2).

Notation demo_step := (quota_step "t" "d" "m" "p").

Lemma demo_step1 : demo_step (demo_quota 2, 0) (demo_r1, 1).
Proof. apply (step_take "t" "d" "m" "p" "o1" "1" 1800 (demo_quota 2) demo_r1 (1, ["o1"; "1"; "0"]%string) 0). vm_compute. reflexivity. Qed.
Lemma demo_step2 : demo_step (demo_r1, 1) (demo_award demo_r1, 1).
Proof. apply (step_award "t" "d" "m" "p" demo_r1 (demo_award demo_r1) 1 1). vm_compute. reflexivity. Qed.
Lemma demo_step3 : demo_step (demo_award demo_r1, 1) (demo_r2, 2).
Proof. apply (step_take "t" "d" "m" "p" "o2" "1" 1800 (demo_award demo_r1) demo_r2 (1, ["o2"; "1"; "0"]%string) 1). vm_compute. reflexivity. Qed.
Lemma demo_step4 : demo_step (demo_r2, 2) (demo_award demo_r2, 2).
Proof. apply (step_award "t" "d" "m" "p" demo_r2 (demo_award demo_r2) 1 2). vm_compute. reflexivity. Qed.
Lemma demo_step5 : demo_step (demo_award demo_r2, 2) (demo_r3, 2).
Proof. apply (step_take "t" "d" "m" "p" "o3" "1" 1800 (demo_award demo_r2) demo_r3 (-2, []) 2). vm_compute. reflexivity. Qed.

(** Two orders use the quota of two; the third take is refused. *)
Lemma quota_never_oversold_witness :
  0 <= 2 <= Z.min 2 (Z.min 2 2) /\
  rd_view demo_r3 !! "t"%string = Some (RStr (FormatInt (2 - 2))) /\
  rd_view demo_r3 !! "d"%string = Some (RStr (FormatInt (2 - 2))) /\
  rd_view demo_r3 !! "m"%string = Some (RStr (FormatInt (2 - 2))).
Proof.
  refine (quota_never_oversold "t" "d" "m" "p" demo_keys_NoDup 2 2 2 (demo_quota 2) demo_r3 2
    _ _ _ demo_quota_at _).
  1-3: split; [discriminate|reflexivity].
  exact (rtc_l _ _ _ _ demo_step1 (rtc_l _ _ _ _ demo_step2 (rtc_l _ _ _ _ demo_step3
          (rtc_l _ _ _ _ demo_step4 (rtc_once _ _ demo_step5))))).
Defined.

Lemma take_reuses_pending_witness :
  exists r2, take_script "t" "d" "m" "p" "o2" "1" "0" 1800 (demo_take "o1" (demo_quota 2))
    = (Ret (2, ["o1"; "1"; "0"]%string), r2) /\
  forall k, k ∈ ["t"; "d"; "m"; "p"]%string ->
    rd_view r2 !! k = rd_view (demo_take "o1" (demo_quota 2)) !! k.
Proof.
  apply (take_reuses_pending "t" "d" "m" "p" demo_keys_NoDup "o1" "1" "o2" "1" 1800 1800
    (demo_quota_account 2) (demo_quota 2) _ ["o1"; "1"; "0"]%string demo_quota_at).
  - split_and!; intros z [= <-]; vm_compute; reflexivity.
  - vm_compute. reflexivity.
Defined.

Lemma give_back_undoes_take_witness :
  exists r2 r3, give_back_script "t" "d" "m" "p" "o1" (demo_take "o1" (demo_quota 2)) = (Ret 1, r2) /\
    account_at (rd_view r2) "t" "d" "m" "p" (set_pending (demo_quota_account 2) None) /\
    give_back_script "t" "d" "m" "p" "o1" r2 = (Ret 0, r3) /\
    account_at (rd_view r3) "t" "d" "m" "p" (set_pending (demo_quota_account 2) None).
Proof.
  apply (give_back_undoes_take "t" "d" "m" "p" demo_keys_NoDup "o1" "1" 1800
    (demo_quota_account 2) (demo_quota 2) _ ["o1"; "1"; "0"]%string demo_quota_at).
  - split_and!; intros z [= <-]; vm_compute; reflexivity.
  - vm_compute. reflexivity.
Defined.
