(* ===== verification/StrategyRepo.v ===== *)
(** * StrategyRepo: the repository interface of the strategy package

    [internal/biz/strategy/repo.go] as a class over a state [S], the methods of the
    entities in [model.go], and the pure parsers of the rule values. *)
From Stdlib Require Import ZArith List Ascii String.
From stdpp Require Import base gmap strings list numbers.
From S2P Require Import Prelude GoLib Model Env.
Open Scope Z_scope.

(** A pointer result that may be [nil] is an [option]. *)
Class StrategyRepo (S : Type) := {
  QueryStrategyAwardList : Z -> M S (list StrategyAward);
  QueryStrategyEntityByStrategyId : Z -> M S (option Strategy);
  QueryStrategyRule : Z -> string -> M S (option StrategyRule);
  QueryStrategyRuleValue : Z -> RuleChainName -> M S string;
  QueryStrategyValue : Z -> RuleChainName -> M S string;
  QueryStrategyRuleModel : Z -> Z -> M S RuleTreeName;
  QueryRuleTree : RuleTreeName -> M S (option RuleTree);
  QueryStrategyAward : Z -> Z -> M S (option StrategyAward);
  UpdateStrategyAwardStock : Z -> Z -> M S unit;
  QueryStrategyIdByActivityId : Z -> M S Z;
  QueryAwardRuleWeight : Z -> M S (list WeightBucket);
  QueryActivityAccountTotalUseCount : string -> Z -> M S Z;
  StoreStrategyAwardPool : string -> Z -> gmap Z Z -> M S unit;
  GetRateRange : string -> M S Z;
  GetStrategyAwardAssemble : string -> Z -> M S Z;
  SubtractionAwardStock : Z -> Z -> M S bool;
  AwardStockConsumeSendQueue : Z -> Z -> M S unit }.

(** ** The contract of the pool storage

    A pool key holds a rate range and an index table.  Storing a pool replaces the
    range and overwrites the entries of the table; the old entries stay. *)
Class PoolLaws (S : Type) `{StrategyRepo S} `{EnvOps S} := {
  pool_range : S -> string -> option Z;
  pool_table : S -> string -> gmap Z Z;
  StoreStrategyAwardPool_law : forall key n tab s r s',
    StoreStrategyAwardPool key n tab s = (r, s') ->
    (r = Ret tt -> pool_range s' key = Some n /\ pool_table s' key = tab ∪ pool_table s key) /\
    (forall key', key' <> key ->
       pool_range s' key' = pool_range s key' /\ pool_table s' key' = pool_table s key') /\
    (forall p, r <> Panic p);
  GetRateRange_law : forall key s r s',
    GetRateRange key s = (r, s') ->
    pool_range s' = pool_range s /\ pool_table s' = pool_table s /\
    match r with
    | Ret n => pool_range s key = Some n
    | Fail _ => True
    | Panic _ => False
    end;
  GetStrategyAwardAssemble_law : forall key i s r s',
    GetStrategyAwardAssemble key i s = (r, s') ->
    pool_range s' = pool_range s /\ pool_table s' = pool_table s /\
    match r with
    | Ret a => pool_table s key !! i = Some a
    | Fail e => is_redis_nil e = true -> pool_table s key !! i = None
    | Panic _ => False
    end;
  (** reading a rule and drawing randomness do not touch the pools *)
  QueryStrategyRule_pool : forall sid m s r s',
    QueryStrategyRule sid m s = (r, s') ->
    pool_range s' = pool_range s /\ pool_table s' = pool_table s;
  ev_shuffle_pool : forall A (l : list A) s r s',
    ev_shuffle l s = (r, s') -> pool_range s' = pool_range s /\ pool_table s' = pool_table s;
  ev_crypto_int_pool : forall n s r s',
    ev_crypto_int n s = (r, s') -> pool_range s' = pool_range s /\ pool_table s' = pool_table s }.

(** ** Methods of [Strategy] *)
Definition GetRuleModels (s : Strategy) : list RuleChainName :=
  if String.eqb (st_RuleModels s) "" then [] else Split (st_RuleModels s) SPLIT.

Definition contains_string (l : list string) (x : string) : bool := existsb (String.eqb x) l.

Definition GetRuleWeight (s : Strategy) : string :=
  if String.eqb (st_RuleModels s) "" then ""
  else if contains_string (Split (st_RuleModels s) SPLIT) "rule_weight" then "rule_weight"
  else "".

Definition GetRuleBlackList (s : Strategy) : string :=
  if String.eqb (st_RuleModels s) "" then ""
  else if contains_string (Split (st_RuleModels s) SPLIT) "rule_blacklist" then "rule_blacklist"
  else "".

(** ** [StrategyRule.GetRuleWeightValues] *)

(** The inner loop: empty items are skipped, a bad number ends with an error. *)
Fixpoint parse_weight_ids (ruleValue : string) (items : list string) : res (list Z) :=
  match items with
  | [] => Ret []
  | value :: rest =>
      if String.eqb value "" then parse_weight_ids ruleValue rest
      else match ParseInt value with
           | Ret v => let? vs := parse_weight_ids ruleValue rest in Ret (v :: vs)
           | Fail err =>
               Fail (WithMetadata (WithCause ErrRuleWeightValueInvalidFormat err)
                       [("rule_value", ruleValue)])
           | Panic p => Panic p
           end
  end.

(** The outer loop over the groups [key:id,id,...]. *)
Fixpoint parse_weight_groups (groups : list string) (acc : gmap string (list Z))
    : res (gmap string (list Z)) :=
  match groups with
  | [] => Ret acc
  | ruleValue :: rest =>
      if String.eqb ruleValue "" then parse_weight_groups rest acc
      else match Split ruleValue COLON with
           | key :: valueString :: _ =>
               let? values := parse_weight_ids ruleValue (Split valueString SPLIT) in
               parse_weight_groups rest (<[key := values]> acc)
           | _ => Panic index_out_of_range
           end
  end.

(** A [nil] map (a rule of another model) has no entries, like the empty map. *)
Definition GetRuleWeightValues (sr : StrategyRule) : res (gmap string (list Z)) :=
  if negb (String.eqb "rule_weight" (sr_RuleModel sr)) then Ret ∅
  else parse_weight_groups (Split (sr_RuleValue sr) SPACE) ∅.

Example weight_values_ex :
  GetRuleWeightValues (mkStrategyRule 1 0 1 "rule_weight" "4000:102,103 5000:104" "")
  = Ret (<["5000" := [104]]> (<["4000" := [102; 103]]> ∅)).
Proof. vm_compute. reflexivity. Qed.
Example weight_values_panics :
  GetRuleWeightValues (mkStrategyRule 1 0 1 "rule_weight" "4000" "") = Panic index_out_of_range.
Proof. vm_compute. reflexivity. Qed.

(** A printed weight group. *)
Definition print_group (g : Z * list Z) : string :=
  (FormatInt g.1 ++ ":" ++ Join (map FormatInt g.2) ",")%string.

Lemma parse_weight_ids_print rv ids :
  Forall in_int64 ids -> parse_weight_ids rv (map FormatInt ids) = Ret ids.
Proof.
  induction 1 as [|z ids Hz _ IH]; simpl; [done|].
  destruct (String.eqb_spec (FormatInt z) "") as [E|_]; [by destruct (FormatInt_not_empty z)|].
  by rewrite ParseInt_FormatInt, IH.
Qed.

Lemma Forall_FormatInt_no_char c ids :
  int_char c = false -> Forall (fun s => no_char c s = true) (map FormatInt ids).
Proof. intros Hc. apply Forall_map, Forall_true. intros. by apply FormatInt_no_char. Qed.

Lemma Split_print_group g :
  Split (print_group g) COLON = [FormatInt g.1; Join (map FormatInt g.2) ","].
Proof.
  unfold print_group. change (":" ++ ?z)%string with (String COLON z).
  rewrite Split_app_sep by (by apply FormatInt_no_char).
  rewrite Split_no_sep; [done|].
  apply no_char_Join; [by apply Forall_FormatInt_no_char | done].
Qed.

(** A printed group splits back into its key and its ids. *)
Lemma parse_group_print g rest acc :
  g.2 <> [] -> Forall in_int64 g.2 ->
  parse_weight_groups (print_group g :: rest) acc =
  parse_weight_groups rest (<[FormatInt g.1 := g.2]> acc).
Proof.
  intros Hne Hids. simpl.
  destruct (String.eqb_spec (print_group g) "") as [E|_].
  { unfold print_group in E. destruct (FormatInt g.1) eqn:E'; [by destruct (FormatInt_not_empty g.1)|done]. }
  rewrite Split_print_group, Split_Join; [|by destruct g.2|by apply Forall_FormatInt_no_char].
  by rewrite parse_weight_ids_print.
Qed.

(** Distinct keys, at least one id each, all ids int64. *)
Definition weight_config_ok (cfg : list (Z * list Z)) : Prop :=
  NoDup (map fst cfg) /\ Forall (fun g => g.2 <> [] /\ Forall in_int64 g.2) cfg.

Definition weight_map (cfg : list (Z * list Z)) : gmap string (list Z) :=
  list_to_map (map (fun g => (FormatInt g.1, g.2)) cfg).

Lemma parse_groups_print cfg acc :
  NoDup (map fst cfg) -> Forall (fun g => g.2 <> [] /\ Forall in_int64 g.2) cfg ->
  (forall g, g ∈ cfg -> acc !! FormatInt g.1 = None) ->
  parse_weight_groups (map print_group cfg) acc = Ret (weight_map cfg ∪ acc).
Proof.
  intros Hnd Hok. revert acc. induction Hok as [|g cfg [Hne Hids] Hok IH]; intros acc Hacc.
  - simpl. unfold weight_map. simpl. by rewrite (left_id_L ∅ (∪)).
  - change (map print_group (g :: cfg)) with (print_group g :: map print_group cfg).
    rewrite parse_group_print by done.
    inversion_clear Hnd as [|? ? Hg Hnd']. rewrite IH; [|done|].
    + f_equal. unfold weight_map. simpl. rewrite <- insert_union_l, insert_union_r; [done|].
      apply not_elem_of_list_to_map_1. rewrite <- list_fmap_compose.
      intros (g' & E & Hin)%list_elem_of_fmap. simpl in E. apply FormatInt_inj in E.
      apply Hg. apply list_elem_of_fmap. eauto.
    + intros g' Hg'. rewrite lookup_insert_ne; [apply Hacc; set_solver|].
      intros E%FormatInt_inj. apply Hg, list_elem_of_fmap. eauto.
Qed.

Lemma parse_printed cfg :
  cfg <> [] -> weight_config_ok cfg ->
  parse_weight_groups (Split (Join (map print_group cfg) " ") SPACE) ∅ = Ret (weight_map cfg).
Proof.
  intros Hne [Hnd Hall]. rewrite Split_Join.
  - rewrite parse_groups_print by (done || intros; apply lookup_empty).
    by rewrite (right_id_L ∅ (∪)).
  - by destruct cfg.
  - apply Forall_map, Forall_forall. intros g _. simpl. unfold print_group.
    rewrite !no_char_app, FormatInt_no_char by done. simpl.
    apply no_char_Join; [by apply Forall_FormatInt_no_char | done].
Qed.

Lemma weight_map_keys cfg key :
  weight_config_ok cfg ->
  is_Some (weight_map cfg !! key) <-> exists k, k ∈ map fst cfg /\ key = FormatInt k.
Proof.
  intros [Hnd _]. unfold weight_map. split.
  - intros [v Hv%elem_of_list_to_map_2]. apply list_elem_of_fmap in Hv as (g & [= -> ->] & Hg).
    exists g.1. split; [|done]. apply list_elem_of_fmap. eauto.
  - intros (k & (g & -> & Hg)%list_elem_of_fmap & ->). exists g.2.
    apply elem_of_list_to_map_1; [|apply list_elem_of_fmap; eauto].
    rewrite <- list_fmap_compose.
    change (NoDup (map (fun g : Z * list Z => FormatInt g.1) cfg)).
    rewrite <- (map_map fst FormatInt). apply (NoDup_fmap_2_strong FormatInt); [|exact Hnd].
    intros x y _ _. apply FormatInt_inj.
Qed.

(** C34. A weight rule value printed from a configuration ([key:id,id key:id ...],
    distinct keys, at least one id per key) is parsed by [GetRuleWeightValues] into
    exactly that configuration. *)
Theorem GetRuleWeightValues_print (sid aid ty : Z) (desc : string) (cfg : list (Z * list Z))
    (Hne : cfg <> []) (Hok : weight_config_ok cfg) :
  GetRuleWeightValues
    (mkStrategyRule sid aid ty "rule_weight" (Join (map print_group cfg) " ") desc)
  = Ret (weight_map cfg).
Proof.
  unfold GetRuleWeightValues. simpl sr_RuleValue. simpl sr_RuleModel. by apply parse_printed.
Qed.

Definition demo_weight_config : list (Z * list Z) := [(4000, [102; 103]); (5000, [104])].

Lemma GetRuleWeightValues_print_witness :
  GetRuleWeightValues (mkStrategyRule 1 0 1 "rule_weight" "4000:102,103 5000:104" "")
  = Ret (weight_map demo_weight_config).
Proof.
  apply (GetRuleWeightValues_print 1 0 1 "" demo_weight_config).
  - discriminate.
  - split.
    + apply (bool_decide_unpack _). vm_compute. exact I.
    + repeat constructor; simpl; discriminate.
Defined.
