(* ===== verification/Demo.v ===== *)
(** * Demo: an in-memory strategy repository

    A concrete [StrategyRepo] over tables, award pools and a stock kept in memory,
    on which the witnesses run the business layer. *)
From Stdlib Require Import ZArith List Ascii String.
From stdpp Require Import base gmap strings list numbers.
From S2P Require Import Prelude GoLib Model Env Mem StrategyRepo.
Open Scope Z_scope.

(** ** The repository *)
Record DemoState := mkDemoState {
  ds_strategies : gmap Z Strategy;
  ds_awards : list StrategyAward;
  ds_rules : list StrategyRule;
  ds_trees : gmap string RuleTree;
  ds_activities : gmap Z Z;
  ds_used : gmap string Z;
  ds_range : gmap string Z;
  ds_table : gmap string (gmap Z Z);
  ds_stock : gmap Z Z;
  ds_queue : list (Z * Z);
  ds_env : MemEnv }.

#[export] Instance eta_DemoState_env : EnvOps DemoState :=
  let up {A} (m : M MemEnv A) : M DemoState A := fun s =>
    let '(r, e) := m (ds_env s) in
    (r, {| ds_strategies := ds_strategies s; ds_awards := ds_awards s; ds_rules := ds_rules s;
           ds_trees := ds_trees s; ds_activities := ds_activities s; ds_used := ds_used s;
           ds_range := ds_range s; ds_table := ds_table s; ds_stock := ds_stock s;
           ds_queue := ds_queue s; ds_env := e |}) in
  {| ev_now := up ev_now;
     ev_offset := ev_offset (E := MemEnv);
     ev_int63n := fun n => up (ev_int63n n);
     ev_shuffle := fun A l => up (ev_shuffle l);
     ev_crypto_int := fun n => up (ev_crypto_int n);
     ev_crypto_read := fun n => up (ev_crypto_read n);
     ev_exchange_declare := fun t => up (ev_exchange_declare t);
     ev_amqp_publish := fun t b => up (ev_amqp_publish t b);
     ev_enqueue := fun ty pl q d => up (ev_enqueue ty pl q d);
     ev_delete_queue := fun q => up (ev_delete_queue q) |}.

#[export] Instance DemoEnvLaws : EnvLaws DemoState.
Proof.
  constructor.
  - intros s. simpl. eauto.
  - intros n s Hn. simpl. destruct (me_draw n (ds_env s)) as [z e] eqn:E.
    eauto using me_draw_range.
  - intros A l s. simpl. eauto.
  - intros n s Hn. simpl. destruct (me_draw n (ds_env s)) as [z' e] eqn:E.
    eauto using me_draw_range.
  - intros n s p s'. discriminate.
Qed.

Definition ds_set_pool (key : string) (n : Z) (tab : gmap Z Z) (s : DemoState) : DemoState :=
  {| ds_strategies := ds_strategies s; ds_awards := ds_awards s; ds_rules := ds_rules s;
     ds_trees := ds_trees s; ds_activities := ds_activities s; ds_used := ds_used s;
     ds_range := <[key := n]> (ds_range s);
     ds_table := <[key := tab ∪ default ∅ (ds_table s !! key)]> (ds_table s);
     ds_stock := ds_stock s; ds_queue := ds_queue s; ds_env := ds_env s |}.

Definition ds_set_stock (stock : gmap Z Z) (queue : list (Z * Z)) (s : DemoState) : DemoState :=
  {| ds_strategies := ds_strategies s; ds_awards := ds_awards s; ds_rules := ds_rules s;
     ds_trees := ds_trees s; ds_activities := ds_activities s; ds_used := ds_used s;
     ds_range := ds_range s; ds_table := ds_table s;
     ds_stock := stock; ds_queue := queue; ds_env := ds_env s |}.

Definition of_option {S A} (e : gerr) (o : option A) : M S A :=
  match o with Some a => ret a | None => fail e end.

#[export] Instance DemoRepo : StrategyRepo DemoState := {
  QueryStrategyAwardList := fun sid s =>
    (Ret (List.filter (fun a => sa_StrategyID a =? sid) (ds_awards s)), s);
  QueryStrategyEntityByStrategyId := fun sid s => (Ret (ds_strategies s !! sid), s);
  QueryStrategyRule := fun sid m s =>
    (Ret (List.find (fun r => (sr_StrategyID r =? sid) && String.eqb (sr_RuleModel r) m)
            (ds_rules s)), s);
  QueryStrategyRuleValue := fun sid m s =>
    (Ret (match List.find (fun r => (sr_StrategyID r =? sid) && String.eqb (sr_RuleModel r) m)
                  (ds_rules s) with Some r => sr_RuleValue r | None => ""%string end), s);
  QueryStrategyValue := fun sid m s =>
    (Ret (match List.find (fun r => (sr_StrategyID r =? sid) && String.eqb (sr_RuleModel r) m)
                  (ds_rules s) with Some r => sr_RuleValue r | None => ""%string end), s);
  QueryStrategyRuleModel := fun sid aid s =>
    (Ret (match List.find (fun a => (sa_StrategyID a =? sid) && (sa_AwardID a =? aid))
                  (ds_awards s) with Some a => sa_RuleModels a | None => ""%string end), s);
  QueryRuleTree := fun m s => (Ret (ds_trees s !! m), s);
  QueryStrategyAward := fun sid aid s =>
    (Ret (List.find (fun a => (sa_StrategyID a =? sid) && (sa_AwardID a =? aid)) (ds_awards s)), s);
  UpdateStrategyAwardStock := fun _ _ => ret tt;
  QueryStrategyIdByActivityId := fun act s => (Ret (default 0 (ds_activities s !! act)), s);
  QueryAwardRuleWeight := fun _ => ret [];
  QueryActivityAccountTotalUseCount := fun u _ s => (Ret (default 0 (ds_used s !! u)), s);
  StoreStrategyAwardPool := fun key n tab s => (Ret tt, ds_set_pool key n tab s);
  GetRateRange := fun key s => of_option ERedisNil (ds_range s !! key) s;
  GetStrategyAwardAssemble := fun key i s =>
    of_option ERedisNil (default ∅ (ds_table s !! key) !! i) s;
  SubtractionAwardStock := fun _ aid s =>
    let n := default 0 (ds_stock s !! aid) - 1 in
    (Ret (0 <=? n), ds_set_stock (<[aid := n]> (ds_stock s)) (ds_queue s) s);
  AwardStockConsumeSendQueue := fun sid aid s =>
    (Ret tt, ds_set_stock (ds_stock s) (ds_queue s ++ [(sid, aid)]) s) }.

#[export] Instance DemoPoolLaws : PoolLaws DemoState.
Proof.
  refine {| pool_range := fun s key => ds_range s !! key;
            pool_table := fun s key => default ∅ (ds_table s !! key) |}.
  - intros key n tab s r s' [= <- <-]. simpl. split_and!; [|intros key' Hk|done].
    + intros _. by rewrite !lookup_insert_eq.
    + by rewrite !lookup_insert_ne.
  - intros key s r s'. simpl. destruct (ds_range s !! key) eqn:E; intros [= <- <-]; done.
  - intros key i s r s'. simpl. destruct (default ∅ (ds_table s !! key) !! i) eqn:E;
      intros [= <- <-]; done.
  - intros sid m s r s'. simpl. intros [= <- <-]. done.
  - intros A l s r s'. simpl. intros [= <- <-]. done.
  - intros n s r s'. simpl. destruct (me_draw n (ds_env s)). intros [= <- <-]. done.
Defined.

(** ** A configured shop

    Awards 101 (1 left) and 102 with rate 0.5 each, a luck award 103 with rate 0, and
    the tree lock -> stock -> luck award. *)
Definition demo_award (aid : Z) (rate : float64) (tree : string) : StrategyAward :=
  mkStrategyAward 1 aid "award" "" 10 10 rate aid tree.

Definition demo_line (from to : string) (v : RuleLogicCheckType) : RuleTreeNodeLine :=
  mkRuleTreeNodeLine "tree" from to EQUAL v.

(** The tree the rule constants are made for: lock, then stock, else the luck award. *)
Definition standard_tree (lockValue luckValue : string) : RuleTree :=
  mkRuleTree "tree" "" "" RuleLock
    (list_to_map
       [(RuleLock, mkRuleTreeNode "tree" RuleLock "" lockValue
           [demo_line RuleLock RuleStock RuleCheckAllow;
            demo_line RuleLock RuleLuckAward RuleCheckTakeOver]);
        (RuleStock, mkRuleTreeNode "tree" RuleStock "" ""
           [demo_line RuleStock "" RuleCheckAllow;
            demo_line RuleStock RuleLuckAward RuleCheckTakeOver]);
        (RuleLuckAward, mkRuleTreeNode "tree" RuleLuckAward "" luckValue [])]).

Definition demo_tree : RuleTree := standard_tree "1" "103:1,100".

Definition demo_half : float64 := float_of_decimal 5 1.

Definition demo_state : DemoState :=
  {| ds_strategies := <[1 := mkStrategy 1 "" "rule_blacklist,rule_weight"]> ∅;
     ds_awards := [demo_award 101 demo_half "tree"; demo_award 102 demo_half "tree";
                   demo_award 103 (float_of_Z 0) ""];
     ds_rules := [mkStrategyRule 1 0 1 "rule_blacklist" "103:eve,mallory" "";
                  mkStrategyRule 1 0 1 "rule_weight" "4000:102 6000:101,102" ""];
     ds_trees := <["tree" := demo_tree]> ∅;
     ds_activities := <[301 := 1]> ∅;
     ds_used := <["bob" := 5000]> ∅;
     ds_range := ∅; ds_table := ∅;
     ds_stock := <[101 := 1]> ∅; ds_queue := [];
     ds_env := mkMemEnv 0 [0; 1; 2; 3] [] [] [] |}.
