(* ===== verification/Armory.v ===== *)
(** * Armory: building the award pools and drawing from them

    [armoryDispatch] of [internal/biz/strategy/raffle_support.go]: a pool is a table
    from the indexes [0 .. n-1] to award ids, in which an award fills a share of the
    indexes that its rate gives; a draw picks an index. *)
From Stdlib Require Import ZArith Lia List Ascii String Permutation.
From stdpp Require Import base gmap strings list numbers.
From S2P Require Import Prelude GoLib Model Env Mem StrategyRepo Demo.
Open Scope Z_scope.

(** ** The pool of a list of awards *)
Definition total_rate (awards : list StrategyAward) : float64 :=
  fold_left (fun acc a => fadd acc (sa_AwardRate a)) awards (float_of_Z 0).

Definition max_decimal_len (awards : list StrategyAward) : Z :=
  fold_left (fun acc a =>
    match Split (FormatFloat (sa_AwardRate a)) "." with
    | [_; decimalPart] =>
        let n := Z.of_nat (String.length decimalPart) in if acc <? n then n else acc
    | _ => acc
    end) awards 0.

Definition award_count (awards : list StrategyAward) (a : StrategyAward) : Z :=
  round_to_int (fmul (fdiv (sa_AwardRate a) (total_rate awards)) (Pow10 (max_decimal_len awards))).

(** [for i := 0; i < count; i++ { append }] for every award. *)
Definition award_pool (awards : list StrategyAward) : list Z :=
  flat_map (fun a => repeat (sa_AwardID a) (Z.to_nat (award_count awards a))) awards.

Fixpoint idx_map (i : Z) (pool : list Z) : gmap Z Z :=
  match pool with
  | [] => ∅
  | a :: pool' => <[i := a]> (idx_map (i + 1) pool')
  end.

(** The largest capacity [makeslice] accepts for 8-byte elements on 64-bit Linux
    (48-bit address space). *)
Definition max_slice_cap : Z := 2 ^ 48 / 8.

(** [filedAwards]: the awards of a weight group. *)
Definition group_awards (awards : list StrategyAward) (v : list Z) : list StrategyAward :=
  List.filter (fun a => existsb (Z.eqb (sa_AwardID a)) v) awards.

Section Armory.
Context {S : Type} `{StrategyRepo S} `{EnvOps S}.

Definition assembleLotteryStrategyWithAwards (strategyId : string)
    (strategyAwards : list StrategyAward) : M S unit :=
  let expectedCap := float_to_int (Pow10 (max_decimal_len strategyAwards)) in
  if (expectedCap <? 0) || (max_slice_cap <? expectedCap) then
    panic "runtime error: makeslice: cap out of range"
  else
    let! pool := ev_shuffle (award_pool strategyAwards) in
    StoreStrategyAwardPool strategyId (Z.of_nat (length pool)) (idx_map 0 pool).

Definition assembleLotteryStrategy (strategyID : Z) : M S bool :=
  let! strategyEntity := QueryStrategyEntityByStrategyId strategyID in
  let! strategyAwards := QueryStrategyAwardList strategyID in
  let! entity := deref strategyEntity in
  let rule_weight := GetRuleWeight entity in
  assembleLotteryStrategyWithAwards (FormatInt strategyID) strategyAwards ;;;
  if String.eqb rule_weight "" then ret true
  else
    let! strategyRuleEntity := QueryStrategyRule strategyID rule_weight in
    let! rule := deref strategyRuleEntity in
    let! ruleWeightMap := lift_res (GetRuleWeightValues rule) in
    let! entries := range_map ruleWeightMap in
    for_each entries (fun '(key, v) =>
      let filedAwards := group_awards strategyAwards v in
      assembleLotteryStrategyWithAwards (FormatInt strategyID ++ UNDERLINE ++ key) filedAwards) ;;;
    ret true.

Definition assembleLotteryStrategyByActivityId (activityID : Z) : M S bool :=
  let! strategyID := QueryStrategyIdByActivityId activityID in
  assembleLotteryStrategy strategyID.

Definition getRandomAwardID (strategyID : string) : M S Z :=
  let! rateRange := with_err (WithCause ErrStrategyRateRangeFailed) (GetRateRange strategyID) in
  if rateRange <=? 0 then
    fail (WithMetadata ErrStrategyRateRangeInvalid [("rate_range"%string, Itoa rateRange)])
  else
    let! randomVal := with_err (WithCause ErrStrategyRandomValGenFailed)
                        (GetSecureRandomInt rateRange) in
    with_err (WithCause ErrStrategyAwardAssembleFailed)
      (GetStrategyAwardAssemble strategyID randomVal).

Definition getRandomAwardIDWithWeight (strategyID : Z) (ruleWeight : string) : M S Z :=
  let stringStrategyID :=
    if negb (String.eqb ruleWeight "")
    then (FormatInt strategyID ++ UNDERLINE ++ ruleWeight)%string
    else FormatInt strategyID in
  getRandomAwardID stringStrategyID.
End Armory.

(** ** Facts about pools *)

Lemma idx_map_lookup pool i j :
  idx_map i pool !! j =
  if (i <=? j) && (j <? i + Z.of_nat (length pool)) then pool !! Z.to_nat (j - i) else None.
Proof.
  revert i. induction pool as [|a pool IH]; intros i; simpl.
  - rewrite lookup_empty. by destruct (_ && _).
  - destruct (decide (i = j)) as [<-|Hne].
    + rewrite lookup_insert_eq, Z.leb_refl, Z.sub_diag.
      destruct (Z.ltb_spec i (i + Z.of_nat (Datatypes.S (length pool)))); [done|lia].
    + rewrite lookup_insert_ne by done. rewrite IH.
      replace (Z.to_nat (j - i)) with (if i <=? j then Datatypes.S (Z.to_nat (j - (i + 1)))
                                       else Z.to_nat (j - i)) by (destruct (Z.leb_spec i j); lia).
      destruct (Z.leb_spec (i + 1) j), (Z.leb_spec i j); simpl; try lia; try done.
      by replace (i + Z.of_nat (Datatypes.S (length pool)))
        with (i + 1 + Z.of_nat (length pool)) by lia.
Qed.

Lemma award_pool_elem awards x :
  x ∈ award_pool awards <->
  exists a, a ∈ awards /\ sa_AwardID a = x /\ 0 < award_count awards a.
Proof.
  unfold award_pool. rewrite list_elem_of_In, in_flat_map. split.
  - intros (a & Ha & Hx). exists a. rewrite list_elem_of_In. split; [done|].
    assert (Hc : (0 < Z.to_nat (award_count awards a))%nat).
    { destruct (Z.to_nat _); [done|lia]. }
    apply repeat_spec in Hx. split; [done|lia].
  - intros (a & Ha & <- & Hc). exists a. rewrite <- list_elem_of_In. split; [done|].
    destruct (Z.to_nat (award_count awards a)) eqn:E; [lia|]. by left.
Qed.

(** ** Properties *)

(** A pool that a draw can use: a positive range whose indexes are all in the table. *)
Definition pool_ready {S} `{PoolLaws S} (s : S) (key : string) : Prop :=
  exists n, pool_range s key = Some n /\
    forall i, 0 <= i < n -> is_Some (pool_table s key !! i).

(** Every index of the pool at [key] holds an award that satisfies [P]. *)
Definition pool_holds {S} `{PoolLaws S} (s : S) (key : string) (P : Z -> Prop) : Prop :=
  forall n, pool_range s key = Some n ->
  forall i, 0 <= i < n -> exists a, pool_table s key !! i = Some a /\ P a.

Section ArmoryFacts.
Context {S : Type} `{PoolLaws S} `{!EnvLaws S}.

Definition same_pools (s s' : S) : Prop :=
  pool_range s' = pool_range s /\ pool_table s' = pool_table s.

Definition pool_at (s : S) (key : string) : option Z * gmap Z Z :=
  (pool_range s key, pool_table s key).

(** The effect of storing one pool: only [key] changes, and its new entries are a
    permutation of the pool of the awards. *)
Lemma assemble_with_awards_spec key awards (s s' : S) r :
  assembleLotteryStrategyWithAwards key awards s = (r, s') ->
  (forall key', key' <> key -> pool_at s' key' = pool_at s key') /\
  (r = Ret tt -> exists pool, Permutation (award_pool awards) pool /\
     pool_range s' key = Some (Z.of_nat (length pool)) /\
     pool_table s' key = idx_map 0 pool ∪ pool_table s key).
Proof.
  unfold assembleLotteryStrategyWithAwards.
  destruct ((_ <? 0) || _); [by intros [= <- <-]|].
  destruct (ev_shuffle_law Z (award_pool awards) s) as (pool & s1 & Es & Hp).
  unfold bind. rewrite Es. destruct (ev_shuffle_pool _ _ _ _ _ Es) as [E1 E2].
  intros Est. destruct (StoreStrategyAwardPool_law _ _ _ _ _ _ Est) as (Hok & Hoth & _).
  split.
  - intros key' Hk. unfold pool_at. destruct (Hoth key' Hk) as [-> ->]. by rewrite E1, E2.
  - intros ->. destruct (Hok eq_refl) as [Hr Ht]. exists pool. by rewrite Ht, E2.
Qed.

Lemma idx_map_holds pool (old : gmap Z Z) i :
  0 <= i < Z.of_nat (length pool) ->
  exists a, (idx_map 0 pool ∪ old) !! i = Some a /\ a ∈ pool.
Proof.
  intros Hi. destruct (lookup_lt_is_Some_2 pool (Z.to_nat i)) as [a Ha]; [lia|].
  exists a. split; [|by eapply list_elem_of_lookup_2].
  apply lookup_union_Some_l. rewrite idx_map_lookup, Z.sub_0_r, Ha.
  destruct (Z.leb_spec 0 i), (Z.ltb_spec i (0 + Z.of_nat (length pool))); simpl; done || lia.
Qed.

(** A stored pool serves awards of the list with a positive count. *)
Lemma assemble_with_awards_holds key awards (s s' : S) :
  assembleLotteryStrategyWithAwards key awards s = (Ret tt, s') ->
  pool_holds s' key (fun x => exists a, a ∈ awards /\ sa_AwardID a = x /\ 0 < award_count awards a).
Proof.
  intros E. apply assemble_with_awards_spec in E as [_ Hok].
  destruct (Hok eq_refl) as (pool & Hp & Hr & Ht).
  intros n Hn i Hi. rewrite Hr in Hn. injection Hn as <-.
  destruct (idx_map_holds pool (pool_table s key) i Hi) as (x & Hx & Hin).
  exists x. rewrite Ht. split; [done|]. apply award_pool_elem. by rewrite Hp.
Qed.

Lemma pool_holds_other key awards (s s' : S) r key' P :
  assembleLotteryStrategyWithAwards key awards s = (r, s') ->
  key' <> key -> pool_holds s key' P -> pool_holds s' key' P.
Proof.
  intros E Hne Hh n Hn i Hi. 
  assert (Ht : pool_at s' key' = pool_at s key')
    by by apply (assemble_with_awards_spec _ _ _ _ _ E).
  unfold pool_at in Ht. injection Ht as Ht1 Ht2. rewrite Ht2. rewrite Ht1 in Hn. eauto.
Qed.
End ArmoryFacts.

Section Draw.
Context {S : Type} `{PoolLaws S} `{!EnvLaws S}.

(** A draw reads one index of the pool; it fails only with one of the three errors of
    the code. *)
Lemma getRandomAwardID_spec key (s s' : S) r :
  getRandomAwardID key s = (r, s') ->
  same_pools s s' /\
  match r with
  | Ret a => exists n i, pool_range s key = Some n /\ 0 <= i < n /\
               pool_table s key !! i = Some a
  | Fail e =>
      (exists c, e = WithCause ErrStrategyRateRangeFailed c) \/
      (exists n, e = WithMetadata ErrStrategyRateRangeInvalid [("rate_range"%string, FormatInt n)]
         /\ pool_range s key = Some n /\ n <= 0) \/
      (exists c, e = WithCause ErrStrategyRandomValGenFailed c) \/
      (exists c, e = WithCause ErrStrategyAwardAssembleFailed c /\
         (is_redis_nil c = true -> ~ pool_ready s key))
  | Panic _ => False
  end.
Proof.
  unfold getRandomAwardID, bind, with_err at 1.
  destruct (GetRateRange key s) as [r1 s1] eqn:E1.
  destruct (GetRateRange_law _ _ _ _ E1) as (R1 & T1 & L1).
  destruct r1 as [n|e|p]; [|intros [= <- <-]; split; [done|eauto]|done].
  destruct (Z.leb_spec n 0) as [Hn|Hn].
  { intros [= <- <-]. split; [done|]. right; left. eauto. }
  unfold with_err, GetSecureRandomInt. destruct (Z.leb_spec n 0); [lia|].
  pose proof (ev_crypto_int_law n s1 Hn) as L2.
  destruct (ev_crypto_int n s1) as [r2 s2] eqn:E2.
  destruct (ev_crypto_int_pool _ _ _ _ E2) as [R2 T2].
  destruct r2 as [i|e|p]; [|intros [= <- <-]; split; [split; congruence|eauto 7]|done].
  destruct (GetStrategyAwardAssemble key i s2) as [r3 s3] eqn:E3.
  destruct (GetStrategyAwardAssemble_law _ _ _ _ _ E3) as (R3 & T3 & L3).
  rewrite T2, T1 in L3.
  destruct r3 as [a|e|p]; [| |done]; intros [= <- <-]; (split; [split; congruence|]).
  - eauto.
  - right; right; right. exists e. split; [done|]. intros He (n' & Hn' & Hall).
    rewrite L1 in Hn'. injection Hn' as <-. destruct (Hall i L2) as [a Ha].
    rewrite (L3 He) in Ha. done.
Qed.

Lemma FormatInt_weight_key_ne (sid : Z) (k : string) :
  FormatInt sid <> (FormatInt sid ++ UNDERLINE ++ k)%string.
Proof.
  intros E. rewrite <- (str_app_nil_r (FormatInt sid)) in E at 1.
  apply str_app_inj_l in E. discriminate E.
Qed.

Lemma weight_key_inj (sid : Z) (k k' : string) :
  (FormatInt sid ++ UNDERLINE ++ k)%string = (FormatInt sid ++ UNDERLINE ++ k')%string -> k = k'.
Proof. intros E. by do 2 apply str_app_inj_l in E. Qed.

Definition served (awards : list StrategyAward) (x : Z) : Prop :=
  exists a, a ∈ awards /\ sa_AwardID a = x /\ 0 < award_count awards a.

Lemma group_awards_served awards v x :
  served (group_awards awards v) x -> x ∈ v /\ exists a, a ∈ awards /\ sa_AwardID a = x.
Proof.
  intros (a & Ha & <- & _). unfold group_awards in Ha.
  apply list_elem_of_In, filter_In in Ha as [Ha Hv].
  apply existsb_exists in Hv as (y & Hy & <-%Z.eqb_eq). rewrite !list_elem_of_In.
  split; [done|]. exists a. by rewrite list_elem_of_In.
Qed.

(** The loop over the weight groups. *)
Lemma assemble_groups_holds (sid : Z) awards entries : forall (s s' : S),
  NoDup (map fst entries) ->
  for_each entries (fun '(key, v) =>
    assembleLotteryStrategyWithAwards (FormatInt sid ++ UNDERLINE ++ key)
      (group_awards awards v)) s = (Ret tt, s') ->
  (forall key', (forall k, k ∈ map fst entries -> key' <> (FormatInt sid ++ UNDERLINE ++ k)%string) ->
     pool_at s' key' = pool_at s key') /\
  (forall k v, (k, v) ∈ entries ->
     pool_holds s' (FormatInt sid ++ UNDERLINE ++ k) (served (group_awards awards v))).
Proof.
  induction entries as [|[k0 v0] entries IH]; intros s s' Hnd; simpl.
  { intros [= <-]. split; [done|]. intros k v Hk. by apply elem_of_nil in Hk. }
  inversion_clear Hnd as [|? ? Hk0 Hnd']. intros E. apply bind_inv_ret in E as ([] & s1 & E1 & E2).
  destruct (IH _ _ Hnd' E2) as [Hother Hin]. clear IH.
  pose proof (proj1 (assemble_with_awards_spec _ _ _ _ _ E1)) as Hframe.
  split.
  - intros key' Hk. rewrite Hother by (intros; apply Hk; by right).
    apply Hframe. apply Hk. by left.
  - intros k v [[= -> ->]|Hkv]%elem_of_cons; [|by apply Hin].
    pose proof (assemble_with_awards_holds _ _ _ _ E1) as Hh.
    assert (Hat : pool_at s' (FormatInt sid ++ UNDERLINE ++ k0)
                  = pool_at s1 (FormatInt sid ++ UNDERLINE ++ k0)).
    { apply Hother. intros k' Hk' ->%weight_key_inj. by apply Hk0, list_elem_of_In. }
    unfold pool_at in Hat. injection Hat as A1 A2.
    intros n Hn i Hi. rewrite A2. rewrite A1 in Hn. by apply (Hh n).
Qed.
End Draw.

(** The number of indexes an award id gets. *)
Definition share (awards : list StrategyAward) (x : Z) : nat :=
  sum_list (map (fun a => if sa_AwardID a =? x then Z.to_nat (award_count awards a) else 0%nat) awards).

Lemma count_occ_repeat (x y : Z) n :
  count_occ Z.eq_dec (repeat y n) x = if y =? x then n else 0%nat.
Proof.
  destruct (Z.eqb_spec y x) as [->|Hne].
  - by apply count_occ_repeat_eq.
  - by apply count_occ_repeat_neq.
Qed.

Lemma count_award_pool awards x :
  count_occ Z.eq_dec (award_pool awards) x = share awards x.
Proof.
  unfold award_pool, share. generalize awards at 1 3 as ctx. intros ctx.
  induction awards as [|a l IH]; simpl; [done|].
  by rewrite count_occ_app, count_occ_repeat, IH.
Qed.

Lemma count_indexes (pool : list Z) x :
  length (List.filter (fun i => bool_decide (pool !! i = Some x)) (seq 0 (length pool)))
  = count_occ Z.eq_dec pool x.
Proof.
  induction pool as [|a pool IH]; [done|]. simpl length. simpl seq. rewrite <- seq_shift.
  assert (E : forall l, length (List.filter (fun i => bool_decide ((a :: pool) !! i = Some x)) (map Datatypes.S l))
            = length (List.filter (fun i => bool_decide (pool !! i = Some x)) l)).
  { induction l as [|j l IHl]; [done|]. simpl. destruct (bool_decide _); simpl; auto. }
  simpl List.filter. simpl count_occ. destruct (Z.eq_dec a x) as [->|Hne].
  - rewrite bool_decide_true by done. simpl. by rewrite E, IH.
  - rewrite bool_decide_false by congruence. by rewrite E.
Qed.

Section ArmoryTheorems.
Context {S : Type} `{PoolLaws S} `{!EnvLaws S}.

(** The run of an assembly: the queries it makes first, and the pools it leaves. *)
Lemma assemble_strategy_run (sid : Z) (s s' : S) :
  assembleLotteryStrategy sid s = (Ret true, s') ->
  exists entity awards s1 s2,
    QueryStrategyEntityByStrategyId sid s = (Ret (Some entity), s1) /\
    QueryStrategyAwardList sid s1 = (Ret awards, s2) /\
    pool_holds s' (FormatInt sid) (served awards) /\
    (GetRuleWeight entity <> ""%string ->
     exists rule groups s3 s4,
       QueryStrategyRule sid (GetRuleWeight entity) s3 = (Ret (Some rule), s4) /\
       GetRuleWeightValues rule = Ret groups /\
       forall k v, groups !! k = Some v ->
         pool_holds s' (FormatInt sid ++ UNDERLINE ++ k) (fun x => x ∈ v /\ served (group_awards awards v) x)).
Proof.
  intros Hrun. unfold assembleLotteryStrategy in Hrun.
  apply bind_inv_ret in Hrun as (oe & s1 & Ee & Hrun).
  apply bind_inv_ret in Hrun as (awards & s2 & Ea & Hrun).
  destruct oe as [entity|]; [rewrite bind_deref in Hrun|done].
  apply bind_inv_ret in Hrun as ([] & s3 & Ed & Hrun).
  exists entity, awards, s1, s2. split_and!; [done|done|..].
  all: pose proof (assemble_with_awards_holds _ _ _ _ Ed) as Hd.
  all: destruct (String.eqb_spec (GetRuleWeight entity) "") as [Hw|Hw];
    [injection Hrun as <-; by try done|].
  all: apply bind_inv_ret in Hrun as (orule & s4 & Er & Hrun).
  all: destruct orule as [rule|]; [rewrite bind_deref in Hrun|done].
  all: apply bind_inv_ret in Hrun as (groups & s5 & Eg & Hrun); injection Eg as Eg <-.
  all: apply bind_inv_ret in Hrun as (entries & s6 & En & Hrun).
  all: apply bind_inv_ret in Hrun as ([] & s7 & El & Hrun); injection Hrun as <-.
  all: destruct (ev_shuffle_law _ (map_to_list groups) s4) as (l & s8 & Es & Hp);
    unfold range_map in En; rewrite Es in En; injection En as -> ->.
  all: assert (Hnd : NoDup (map fst entries))
    by (rewrite <- Hp; exact (NoDup_fst_map_to_list groups)).
  all: destruct (assemble_groups_holds sid awards entries _ _ Hnd El) as [Hframe Hgroups].
  - assert (Hat : pool_at s7 (FormatInt sid) = pool_at s3 (FormatInt sid)).
    { rewrite Hframe by (intros; apply FormatInt_weight_key_ne). unfold pool_at.
      destruct (ev_shuffle_pool _ _ _ _ _ Es) as [-> ->].
      by destruct (QueryStrategyRule_pool _ _ _ _ _ Er) as [-> ->]. }
    unfold pool_at in Hat. injection Hat as A1 A2.
    intros n Hn i Hi. rewrite A2. rewrite A1 in Hn. by apply (Hd n).
  - intros _. exists rule, groups, s3, s4. split_and!; [done|done|].
    intros k v Hk n Hn i Hi.
    destruct (Hgroups k v) with (n := n) (i := i) as (a & Ha & Hs); try done.
    { rewrite <- Hp. by apply elem_of_map_to_list. }
    exists a. split; [done|]. split; [|done]. by apply group_awards_served in Hs as [? _].
Qed.

(** Assembling a strategy leaves a pool for the strategy that serves, at every
    index of its range, an award of the strategy with a positive share, and for every
    group of the weight rule a pool that serves only awards of that group. *)
Theorem assembleLotteryStrategy_pools (sid : Z) (s s' : S)
    (Hrun : assembleLotteryStrategy sid s = (Ret true, s')) :
  exists entity awards,
    (exists s1 s2, QueryStrategyEntityByStrategyId sid s1 = (Ret (Some entity), s2)) /\
    (exists s1 s2, QueryStrategyAwardList sid s1 = (Ret awards, s2)) /\
    pool_holds s' (FormatInt sid) (served awards) /\
    (GetRuleWeight entity <> ""%string ->
     exists rule groups,
       (exists s1 s2, QueryStrategyRule sid (GetRuleWeight entity) s1 = (Ret (Some rule), s2)) /\
       GetRuleWeightValues rule = Ret groups /\
       forall k v, groups !! k = Some v ->
         pool_holds s' (FormatInt sid ++ UNDERLINE ++ k) (fun x => x ∈ v /\ served (group_awards awards v) x)).
Proof.
  destruct (assemble_strategy_run _ _ _ Hrun) as (entity & awards & s1 & s2 & He & Ha & Hp & Hw).
  exists entity, awards. split_and!; [by eauto|by eauto|done|].
  intros Hne. destruct (Hw Hne) as (rule & groups & s3 & s4 & Hr & Hg & Hk).
  exists rule, groups. split_and!; [by eauto|done|done].
Qed.


(** A draw from a usable pool never misses: it returns the award at some index
    of the range, or fails because the store or the random source failed, and it
    never panics. *)
Theorem getRandomAwardIDWithWeight_in_pool (sid : Z) (w : string) (P : Z -> Prop)
    (s s' : S) r :
  let key := if String.eqb w "" then FormatInt sid else (FormatInt sid ++ UNDERLINE ++ w)%string in
  forall (Hready : pool_ready s key) (Hholds : pool_holds s key P)
    (Hrun : getRandomAwardIDWithWeight sid w s = (r, s')),
  same_pools s s' /\
  match r with
  | Ret a => P a
  | Fail e => forall n, pool_range s key = Some n -> 0 < n ->
      exists c, e = WithCause ErrStrategyRateRangeFailed c \/
                e = WithCause ErrStrategyRandomValGenFailed c \/
                e = WithCause ErrStrategyAwardAssembleFailed c /\ is_redis_nil c = false
  | Panic _ => False
  end.
Proof.
  intros key Hready Hholds Hrun. unfold getRandomAwardIDWithWeight in Hrun.
  replace (if negb (String.eqb w "") then (FormatInt sid ++ UNDERLINE ++ w)%string else FormatInt sid)
    with key in Hrun by (unfold key; by destruct (String.eqb w "")).
  apply getRandomAwardID_spec in Hrun as [Hs Hr]. split; [done|].
  destruct r as [a|e|p]; [| |done].
  - destruct Hr as (n & i & Hn & Hi & Ha). destruct (Hholds n Hn i Hi) as (a' & Ha' & HP).
    congruence.
  - intros n Hn Hpos. destruct Hr as [[c ->]|[(n' & -> & Hn' & Hle)|[[c ->]|(c & -> & Hc)]]].
    + eauto.
    + rewrite Hn in Hn'. injection Hn' as <-. lia.
    + eauto.
    + exists c. right; right. split; [done|]. destruct (is_redis_nil c) eqn:E; [|done].
      by destruct (Hc eq_refl).
Qed.
End ArmoryTheorems.

(** ** Witnesses *)
Definition demo_assembled : DemoState := (assembleLotteryStrategy 1 demo_state).2.
Definition demo_awards : list StrategyAward := ds_awards demo_state.

Lemma demo_assemble_run : assembleLotteryStrategy 1 demo_state = (Ret true, demo_assembled).
Proof. vm_compute. reflexivity. Qed.

Lemma assembleLotteryStrategy_pools_witness :
  exists entity awards,
    (exists s1 s2, QueryStrategyEntityByStrategyId 1 (s1 : DemoState) = (Ret (Some entity), s2)) /\
    (exists s1 s2, QueryStrategyAwardList 1 (s1 : DemoState) = (Ret awards, s2)) /\
    pool_holds demo_assembled "1" (served awards) /\
    (GetRuleWeight entity <> ""%string ->
     exists rule groups,
       (exists s1 s2, QueryStrategyRule 1 (GetRuleWeight entity) (s1 : DemoState)
          = (Ret (Some rule), s2)) /\
       GetRuleWeightValues rule = Ret groups /\
       forall k v, groups !! k = Some v ->
         pool_holds demo_assembled ("1" ++ UNDERLINE ++ k) (fun x => x ∈ v /\ served (group_awards awards v) x)).
Proof. exact (assembleLotteryStrategy_pools 1 demo_state demo_assembled demo_assemble_run). Defined.


Definition demo_draw_key (w : string) : string :=
  if String.eqb w "" then FormatInt 1 else (FormatInt 1 ++ UNDERLINE ++ w)%string.

(** A decidable form of [pool_holds] on the in-memory repository. *)
Definition demo_holds (s : DemoState) (key : string) (ids : list Z) : bool :=
  match ds_range s !! key with
  | Some n => forallb (fun i => match default ∅ (ds_table s !! key) !! Z.of_nat i with
                                | Some a => existsb (Z.eqb a) ids
                                | None => false
                                end) (seq 0 (Z.to_nat n))
  | None => false
  end.

Lemma demo_holds_spec s key ids :
  demo_holds s key ids = true -> pool_ready s key /\ pool_holds s key (fun x => In x ids).
Proof.
  unfold demo_holds. destruct (ds_range s !! key) as [n|] eqn:En; [|done].
  intros Hall. rewrite forallb_forall in Hall.
  assert (H : forall i, 0 <= i < n ->
            exists a, default ∅ (ds_table s !! key) !! i = Some a /\ In a ids).
  { intros i Hi. specialize (Hall (Z.to_nat i)). rewrite Z2Nat.id in Hall by lia.
    destruct (default ∅ _ !! i) as [a|].
    - exists a. split; [done|]. apply existsb_exists in Hall as (y & Hy & ->%Z.eqb_eq); [done|].
      apply in_seq. lia.
    - discriminate Hall. apply in_seq. lia. }
  split.
  - exists n. split; [done|]. intros i Hi. destruct (H i Hi) as (a & Ha & _). by exists a.
  - intros n' Hn' i Hi. simpl in Hn'. rewrite En in Hn'. injection Hn' as <-. by apply H.
Qed.

Lemma getRandomAwardIDWithWeight_in_pool_witness :
  In 102 [102] /\ getRandomAwardIDWithWeight 1 "4000" demo_assembled
    = (Ret 102, (getRandomAwardIDWithWeight 1 "4000" demo_assembled).2).
Proof.
  assert (E : getRandomAwardIDWithWeight 1 "4000" demo_assembled
    = (Ret 102, (getRandomAwardIDWithWeight 1 "4000" demo_assembled).2))
    by (vm_compute; reflexivity).
  split; [|exact E].
  assert (Hd : demo_holds demo_assembled "1_4000" [102] = true) by (vm_compute; reflexivity).
  destruct (demo_holds_spec _ _ _ Hd) as [Hr Hh].
  exact (proj2 (getRandomAwardIDWithWeight_in_pool 1 "4000" (fun x => In x [102])
                  demo_assembled _ _ Hr Hh E)).
Defined.
