(* ===== verification/RuleTree.v ===== *)
(** * RuleTree: the decision-tree engine

    [internal/biz/strategy/rule_tree.go]: the three rule nodes, the choice of the
    next node and the loop of [ruleTreeEngine.process].  The loop follows the lines
    of a tree read from the database, so it takes fuel; [process_terminates] gives
    the fuel an acyclic tree needs. *)
From Stdlib Require Import ZArith Lia List Ascii String.
From stdpp Require Import base gmap strings list numbers.
From S2P Require Import Prelude GoLib Model Env Mem StrategyRepo Demo.
Open Scope Z_scope.

Record treeStrategyAward := mkTreeStrategyAward {
  ta_AwardID : Z;
  ta_AwardRuleValue : string }.

Record treeAction := mkTreeAction {
  tac_RuleLogicCheckType : RuleLogicCheckType;
  tac_Award : treeStrategyAward }.

(** The entries of [TreeNodeGroup]: the node types [newDecisionTreeEngine] puts in
    the group, by key. *)
Inductive ruleNode := ruleLockNode | ruleLuckAwardNode | ruleStockNode.

Definition TreeNodeGroup (name : RuleTreeName) : option ruleNode :=
  if String.eqb name RuleLock then Some ruleLockNode
  else if String.eqb name RuleLuckAward then Some ruleLuckAwardNode
  else if String.eqb name RuleStock then Some ruleStockNode
  else None.

Definition out_of_fuel : string := "model: out of fuel".

Section Engine.
Context {S : Type} `{StrategyRepo S}.

Definition ruleLock_logic (strategyID awardID : Z) (ruleValue : string) : M S treeAction :=
  match Atoi ruleValue with
  | Ret raffleCount =>
      let userRafferCount := 10 in
      if raffleCount <=? userRafferCount
      then ret (mkTreeAction RuleCheckAllow (mkTreeStrategyAward awardID ruleValue))
      else ret (mkTreeAction RuleCheckTakeOver (mkTreeStrategyAward awardID ruleValue))
  | Fail err => panic ("规则过滤-次数锁异常 ruleValue: " ++ ruleValue ++ " 配置不正确" ++ error_text err)%string
  | Panic p => panic p
  end.

Definition ruleLuckAward_logic (strategyID awardID : Z) (ruleValue : string) : M S treeAction :=
  match Split ruleValue COLON with
  | [luckAwardID; awardRuleValue] =>
      match ParseInt luckAwardID with
      | Ret luckAwardIDInt64 =>
          ret (mkTreeAction RuleCheckTakeOver
                 (mkTreeStrategyAward luckAwardIDInt64 awardRuleValue))
      | _ => panic ("兜底奖品规则配置错误，luckAwardID: " ++ luckAwardID)%string
      end
  | _ => panic ("兜底奖品规则配置错误，ruleValue: " ++ ruleValue)%string
  end.

Definition ruleStock_logic (strategyID awardID : Z) (ruleValue : string) : M S treeAction :=
  let! status := SubtractionAwardStock strategyID awardID in
  if (status : bool) then
    AwardStockConsumeSendQueue strategyID awardID ;;;
    ret (mkTreeAction RuleCheckAllow (mkTreeStrategyAward awardID ruleValue))
  else
    ret (mkTreeAction RuleCheckTakeOver (mkTreeStrategyAward awardID ruleValue)).

Definition node_logic (n : ruleNode) : Z -> Z -> string -> M S treeAction :=
  match n with
  | ruleLockNode => ruleLock_logic
  | ruleLuckAwardNode => ruleLuckAward_logic
  | ruleStockNode => ruleStock_logic
  end.

(** Only [EQUAL] lines can match; the other limit types fall through to [false]. *)
Definition decisionLogic (matterValue : RuleLogicCheckType) (line : RuleTreeNodeLine) : bool :=
  match rl_RuleLimitType line with
  | EQUAL => bool_decide (matterValue = rl_RuleLimitValue line)
  | GT | LT | GE | LE => false
  end.

Definition next (matterValue : RuleLogicCheckType) (lines : list RuleTreeNodeLine)
    : M S RuleTreeName :=
  match lines with
  | [] => ret ""%string
  | _ =>
      match List.find (decisionLogic matterValue) lines with
      | Some line => ret (rl_RuleNodeTo line)
      | None => panic "决策树引擎，nextNode 计算失败，未找到可执行节点！"
      end
  end.

(** The engine is the tree: its node group is always the same. *)
Definition newDecisionTreeEngine (ruleTree : option RuleTree) : M S RuleTree :=
  match ruleTree with
  | None => fail ErrRuleTreeInvalid
  | Some tree =>
      match rt_NodeMap tree !! rt_TreeRootRuleNode tree with
      | Some _ => ret tree
      | None => fail ErrRuleTreeInvalid
      end
  end.

(** The loop of [process]; [acc] is the variable [strategyAward]. *)
Fixpoint process_loop (fuel : nat) (tree : RuleTree) (strategyID awardID : Z)
    (nextNode : RuleTreeName) (acc : treeStrategyAward) : M S treeStrategyAward :=
  if String.eqb nextNode "" then ret acc
  else
    match fuel with
    | O => panic out_of_fuel
    | Datatypes.S fuel' =>
        let! treeNode := deref (rt_NodeMap tree !! nextNode) in
        let! logicNode := deref (TreeNodeGroup nextNode) in
        let! action := node_logic logicNode strategyID awardID (rn_RuleValue treeNode) in
        let! nextNode' := next (tac_RuleLogicCheckType action) (rn_TreeNodeLine treeNode) in
        process_loop fuel' tree strategyID awardID nextNode' (tac_Award action)
    end.

Definition process (fuel : nat) (tree : RuleTree) (strategyID awardID : Z)
    : M S treeStrategyAward :=
  process_loop fuel tree strategyID awardID (rt_TreeRootRuleNode tree)
    (mkTreeStrategyAward 0 "").
End Engine.

(** ** Properties *)

(** A rank that decreases along every line: the tree has no cycle. *)
Definition ranked (tree : RuleTree) (rank : string -> nat) : Prop :=
  forall k node line,
    rt_NodeMap tree !! k = Some node -> In line (rn_TreeNodeLine node) ->
    rl_RuleNodeTo line <> ""%string -> (rank (rl_RuleNodeTo line) < rank k)%nat.

Section EngineFacts.
Context {S : Type} `{StrategyRepo S}.

Lemma next_spec (v : RuleLogicCheckType) (lines : list RuleTreeNodeLine) (s : S) r s' :
  next v lines s = (r, s') ->
  s' = s /\
  match r with
  | Ret to => (lines = [] /\ to = ""%string) \/
      exists line, In line lines /\ rl_RuleNodeTo line = to /\
        rl_RuleLimitType line = EQUAL /\ rl_RuleLimitValue line = v
  | Fail _ => False
  | Panic _ => lines <> [] /\
      forall line, In line lines -> rl_RuleLimitType line = EQUAL -> rl_RuleLimitValue line <> v
  end.
Proof.
  unfold next. destruct lines as [|l0 lines]; [intros [= <- <-]; auto|].
  destruct (List.find _ _) as [line|] eqn:E; intros [= <- <-]; (split; [done|]).
  - apply List.find_some in E as [Hin Hd]. right. exists line. unfold decisionLogic in Hd.
    destruct (rl_RuleLimitType line) eqn:Et; try done. apply bool_decide_eq_true in Hd. auto.
  - split; [done|]. intros line Hin Ht Hv.
    pose proof (List.find_none _ _ E line Hin) as Hn. unfold decisionLogic in Hn.
    rewrite Ht, Hv in Hn. by rewrite bool_decide_eq_false in Hn.
Qed.

(** The repository methods the stock node calls return a value or an error. *)
Definition stock_methods_return : Prop :=
  forall sid aid (s s' : S) p,
    SubtractionAwardStock sid aid s <> (Panic p, s') /\
    AwardStockConsumeSendQueue sid aid s <> (Panic p, s').

Lemma node_logic_fuel k sid aid v (s s' : S) :
  stock_methods_return -> node_logic k sid aid v s <> (Panic out_of_fuel, s').
Proof.
  intros Hst. destruct k; simpl.
  - unfold ruleLock_logic. destruct (Atoi v) as [n|e|p] eqn:Ea; [by destruct (_ <=? _)|intros [=]|by destruct (Atoi_no_panic v p)].
  - unfold ruleLuckAward_logic.
    destruct (Split v COLON) as [|x [|y [|]]]; try by intros [=].
    destruct (ParseInt x); by intros [=].
  - unfold ruleStock_logic, bind.
    destruct (SubtractionAwardStock sid aid s) as [[[]|e|p] s1] eqn:E1;
      [|go_discr|go_discr|by destruct (proj1 (Hst sid aid s s1 p) E1)].
    destruct (AwardStockConsumeSendQueue sid aid s1) as [[u|e|p] s2] eqn:E2;
      [go_discr|go_discr|by destruct (proj2 (Hst sid aid s1 s2 p) E2)].
Qed.

Lemma next_fuel v lines (s s' : S) : next v lines s <> (Panic out_of_fuel, s').
Proof.
  unfold next. destruct lines; [discriminate|]. destruct (List.find _ _); discriminate.
Qed.

Lemma process_loop_fuel (tree : RuleTree) (rank : string -> nat) (sid aid : Z) :
  ranked tree rank -> stock_methods_return ->
  forall fuel nn acc (s s' : S),
    (nn <> ""%string -> (rank nn < fuel)%nat) ->
    process_loop fuel tree sid aid nn acc s <> (Panic out_of_fuel, s').
Proof.
  intros Hr Hst fuel. induction fuel as [|fuel IH]; intros nn acc s s' Hf; simpl;
    (destruct (String.eqb_spec nn "") as [->|Hn]; [discriminate|]); specialize (Hf Hn);
    [lia|].
  destruct (rt_NodeMap tree !! nn) as [node|] eqn:En; [|go_discr].
  destruct (TreeNodeGroup nn) as [k|]; [|go_discr]. rewrite !bind_deref. unfold bind.
  destruct (node_logic k sid aid (rn_RuleValue node) s) as [[act|e|p] s1] eqn:El;
    [|discriminate|intros [= -> ->]; by destruct (node_logic_fuel _ _ _ _ _ _ Hst El)].
  destruct (next (tac_RuleLogicCheckType act) (rn_TreeNodeLine node) s1)
    as [[to|e|p] s2] eqn:Ex; [|discriminate|intros [= -> ->]; by destruct (next_fuel _ _ _ _ Ex)].
  apply IH. intros Hto. apply next_spec in Ex as [_ [[_ ->]|(line & Hin & <- & _)]]; [done|].
  specialize (Hr nn node line En Hin Hto). lia.
Qed.

Lemma process_loop_end fuel tree sid aid acc (s : S) :
  process_loop fuel tree sid aid "" acc s = (Ret acc, s).
Proof. by destruct fuel. Qed.

(** One round of the loop. *)
Lemma process_loop_step fuel tree sid aid k acc node kind (s : S) :
  String.eqb k "" = false -> rt_NodeMap tree !! k = Some node -> TreeNodeGroup k = Some kind ->
  process_loop (Datatypes.S fuel) tree sid aid k acc s =
  bind (node_logic kind sid aid (rn_RuleValue node)) (fun action =>
    bind (next (tac_RuleLogicCheckType action) (rn_TreeNodeLine node)) (fun nn =>
      process_loop fuel tree sid aid nn (tac_Award action))) s.
Proof. intros Hk Hn Hg. simpl. rewrite Hk, Hn, Hg. by rewrite !bind_deref. Qed.

(** More fuel does not change a result that was reached. *)
Lemma process_loop_mono (tree : RuleTree) (sid aid : Z) fuel fuel' :
  (fuel <= fuel')%nat ->
  forall nn acc (s s' : S) r,
    process_loop fuel tree sid aid nn acc s = (r, s') -> r <> Panic out_of_fuel ->
    process_loop fuel' tree sid aid nn acc s = (r, s').
Proof.
  revert fuel'. induction fuel as [|fuel IH]; intros fuel' Hle nn acc s s' r; simpl.
  - destruct (String.eqb nn "") eqn:En; [by destruct fuel'; simpl; rewrite En|].
    intros [= <- <-]. by destruct 1.
  - destruct fuel' as [|fuel']; [lia|]. simpl.
    destruct (String.eqb nn ""); [done|]. unfold bind.
    destruct (deref _ s) as [[node|e|p] s1]; [|done..].
    destruct (deref _ s1) as [[k|e|p] s2]; [|done..].
    destruct (node_logic _ _ _ _ s2) as [[act|e|p] s3]; [|done..].
    destruct (next _ _ s3) as [[to|e|p] s4]; [|done..].
    apply IH. lia.
Qed.

(** The loop changes the state only through the stock node. *)
Lemma process_loop_result (tree : RuleTree) (sid aid : Z) fuel :
  forall nn acc (s s' : S) a,
    process_loop fuel tree sid aid nn acc s = (Ret a, s') ->
    a = acc /\ nn = ""%string \/
    exists k node, rt_NodeMap tree !! k = Some node /\
      ((k = RuleLock \/ k = RuleStock) /\ a = mkTreeStrategyAward aid (rn_RuleValue node) \/
       k = RuleLuckAward /\ exists x, Split (rn_RuleValue node) COLON = [x; ta_AwardRuleValue a] /\
         ParseInt x = Ret (ta_AwardID a)).
Proof.
  induction fuel as [|fuel IH]; intros nn acc s s' a; simpl;
    (destruct (String.eqb_spec nn "") as [->|Hn]; [intros [= <- <-]; by left|]);
    [go_discr|].
  intros E. right.
  destruct (rt_NodeMap tree !! nn) as [node|] eqn:En; [|go_discr].
  destruct (TreeNodeGroup nn) as [k|] eqn:Eg; [|go_discr]. rewrite !bind_deref in E. inv_bind E. inv_bind E.
  apply IH in E as [[-> ->]|E]; [|exact E]. exists nn, node. split; [exact En|].
  unfold TreeNodeGroup in Eg.
  destruct (String.eqb_spec nn RuleLock) as [->|]; [injection Eg as <-|].
  { left. split; [by left|]. simpl in Hm. unfold ruleLock_logic in Hm.
    destruct (Atoi _); try done. by destruct (_ <=? _); injection Hm as <- <-. }
  destruct (String.eqb_spec nn RuleLuckAward) as [->|]; [injection Eg as <-|].
  { right. split; [done|]. simpl in Hm. unfold ruleLuckAward_logic in Hm.
    destruct (Split _ _) as [|x [|y [|]]] eqn:Es; try done.
    destruct (ParseInt x) eqn:Ep; try done. injection Hm as <- <-. simpl. eauto. }
  destruct (String.eqb_spec nn RuleStock) as [->|]; [injection Eg as <-|done].
  left. split; [by right|]. simpl in Hm. unfold ruleStock_logic in Hm.
  unfold bind in Hm. destruct (SubtractionAwardStock sid aid s) as [[[]|?|?] ?]; [|go_done|done..].
  destruct (AwardStockConsumeSendQueue _ _ _) as [[?|?|?] ?]; [go_done|done..].
Qed.

(** C31. The decision tree terminates: when the lines of the tree have no cycle (a
    rank decreases along them), [rank root + 1] rounds of the loop are enough. The
    loop never runs out of fuel and more fuel gives the same result. *)
Theorem process_terminates (tree : RuleTree) (rank : string -> nat) (sid aid : Z)
    (fuel : nat) (s : S)
    (Hrank : ranked tree rank) (Hstock : stock_methods_return)
    (Hfuel : (rank (rt_TreeRootRuleNode tree) < fuel)%nat) :
  process fuel tree sid aid s
    = process (Datatypes.S (rank (rt_TreeRootRuleNode tree))) tree sid aid s /\
  forall s', process fuel tree sid aid s <> (Panic out_of_fuel, s').
Proof.
  unfold process.
  destruct (process_loop (Datatypes.S _) tree sid aid _ _ s) as [r s1] eqn:E.
  split; [|intros s'; by apply (process_loop_fuel _ rank)].
  eapply process_loop_mono; [|exact E|]; [lia|]. intros ->.
  eapply (process_loop_fuel tree rank); [exact Hrank|exact Hstock| |exact E]. lia.
Qed.

(** The award the tree settles on is the drawn award itself or the luck award
    configured in the tree, with the rule value of the node that decided. *)
Theorem process_award (fuel : nat) (tree : RuleTree) (sid aid : Z) (s s' : S)
    (a : treeStrategyAward)
    (Hroot : rt_TreeRootRuleNode tree <> ""%string)
    (Hrun : process fuel tree sid aid s = (Ret a, s')) :
  exists k node, rt_NodeMap tree !! k = Some node /\
    ((k = RuleLock \/ k = RuleStock) /\ a = mkTreeStrategyAward aid (rn_RuleValue node) \/
     k = RuleLuckAward /\ exists x,
       Split (rn_RuleValue node) COLON = [x; ta_AwardRuleValue a] /\
       ParseInt x = Ret (ta_AwardID a)).
Proof. by apply process_loop_result in Hrun as [[_ ?]|?]. Qed.

(** On the lock -> stock -> luck-award tree the engine gives the luck award when
    the lock threshold is above the user's count or the stock is gone, and the drawn
    award, with one message for the stock queue, when a unit was taken. *)
Theorem process_standard_tree (sid aid n luck : Z) (luckValue : string) (s : S)
    (Hn : in_int64 n) (Hluck : in_int64 luck) (Hval : no_char COLON luckValue = true) :
  let tree := standard_tree (FormatInt n) (FormatInt luck ++ ":" ++ luckValue)%string in
  let luckAward := mkTreeStrategyAward luck luckValue in
  process 3 tree sid aid s =
  if n <=? 10 then
    match SubtractionAwardStock sid aid s with
    | (Ret true, s1) =>
        (AwardStockConsumeSendQueue sid aid ;;; ret (mkTreeStrategyAward aid "")) s1
    | (Ret false, s1) => (Ret luckAward, s1)
    | (Fail e, s1) => (Fail e, s1)
    | (Panic p, s1) => (Panic p, s1)
    end
  else (Ret luckAward, s).
Proof.
  intros tree luckAward.
  assert (Hs : Split (FormatInt luck ++ ":" ++ luckValue)%string COLON
               = [FormatInt luck; luckValue]).
  { change (":" ++ luckValue)%string with (String COLON luckValue).
    by rewrite Split_app_sep, Split_no_sep by (by auto with golib). }
  assert (Hl : forall fuel acc s1,
            process_loop (Datatypes.S fuel) tree sid aid RuleLuckAward acc s1
            = (Ret luckAward, s1)).
  { intros fuel acc s1. erewrite process_loop_step by reflexivity.
    cbn [node_logic rn_RuleValue rn_TreeNodeLine snd]. unfold ruleLuckAward_logic.
    rewrite Hs, ParseInt_FormatInt by done. cbn. by rewrite process_loop_end. }
  unfold process. cbn [rt_TreeRootRuleNode tree standard_tree].
  erewrite process_loop_step by reflexivity.
  cbn [node_logic rn_RuleValue rn_TreeNodeLine snd]. unfold ruleLock_logic.
  rewrite Atoi_FormatInt by done. destruct (n <=? 10).
  - rewrite bind_ret_l.
    change (next _ _) with (@ret S _ RuleStock). rewrite bind_ret_l.
    erewrite process_loop_step by reflexivity. cbn [node_logic rn_RuleValue rn_TreeNodeLine snd].
    unfold ruleStock_logic. rewrite bind_assoc. unfold bind at 1.
    destruct (SubtractionAwardStock sid aid s) as [[[]|e|p] s1]; [|apply Hl|done..].
    rewrite bind_assoc. unfold bind at 1 4.
    by destruct (AwardStockConsumeSendQueue sid aid s1) as [[[]|e|p] s2].
  - rewrite bind_ret_l. apply Hl.
Qed.
End EngineFacts.

(** ** Witnesses *)
Definition demo_rank (k : string) : nat :=
  if String.eqb k RuleLock then 2 else if String.eqb k RuleStock then 1 else 0.

Lemma demo_tree_ranked : ranked demo_tree demo_rank.
Proof.
  intros k node line Hk. unfold demo_tree, standard_tree in Hk. simpl in Hk.
  repeat (apply lookup_insert_Some in Hk as [[<- <-]|[_ Hk]];
    [simpl; intros Hl Hne; repeat destruct Hl as [<-|Hl]; try done; vm_compute; lia|]).
  done.
Qed.

Lemma demo_stock_returns : stock_methods_return (S := DemoState).
Proof. intros sid aid s s' p. simpl. split; intros [=]. Qed.

Lemma process_terminates_witness :
  process 100 demo_tree 1 101 demo_state = process 3 demo_tree 1 101 demo_state /\
  forall s', process 100 demo_tree 1 101 demo_state <> (Panic out_of_fuel, s').
Proof.
  apply (process_terminates demo_tree demo_rank 1 101 100 demo_state demo_tree_ranked
           demo_stock_returns).
  vm_compute. lia.
Defined.

Lemma process_award_witness : exists k node, rt_NodeMap demo_tree !! k = Some node /\
  ((k = RuleLock \/ k = RuleStock) /\
     mkTreeStrategyAward 103 "1,100" = mkTreeStrategyAward 102 (rn_RuleValue node) \/
   k = RuleLuckAward /\ exists x, Split (rn_RuleValue node) COLON = [x; "1,100"%string] /\
     ParseInt x = Ret 103).
Proof.
  apply (process_award 3 demo_tree 1 102 demo_state (process 3 demo_tree 1 102 demo_state).2
           (mkTreeStrategyAward 103 "1,100")).
  - discriminate.
  - vm_compute. reflexivity.
Defined.

Lemma process_standard_tree_witness :
  (process 3 (standard_tree "1" "103:1,100") 1 101 demo_state).1
    = Ret (mkTreeStrategyAward 101 "") /\
  (process 3 (standard_tree "11" "103:1,100") 1 101 demo_state).1
    = Ret (mkTreeStrategyAward 103 "1,100").
Proof.
  split.
  - rewrite (process_standard_tree 1 101 1 103 "1,100" demo_state); [reflexivity|..];
      vm_compute; try split; congruence.
  - rewrite (process_standard_tree 1 101 11 103 "1,100" demo_state); [reflexivity|..];
      vm_compute; try split; congruence.
Defined.
