(* ===== verification/TreeTypes.v ===== *)
(** * TreeTypes: well-typed decision trees

    A decision tree is data from the database; the engine of [RuleTree] panics on a key
    without a node, a node of an unknown kind, a rule value that does not parse and an
    outcome no line matches.  [well_typed] is a check on the tree that excludes them. *)
From Stdlib Require Import ZArith Lia List Ascii String.
From stdpp Require Import base gmap strings list numbers.
From S2P Require Import Prelude GoLib Model Env Mem StrategyRepo Demo RuleTree.
Open Scope Z_scope.

(** The rule value a kind of node can read. *)
Definition value_ok (kind : ruleNode) (ruleValue : string) : bool :=
  match kind with
  | ruleLockNode => match Atoi ruleValue with Ret _ => true | _ => false end
  | ruleStockNode => true
  | ruleLuckAwardNode =>
      match Split ruleValue COLON with
      | [luckAwardID; _] => match ParseInt luckAwardID with Ret _ => true | _ => false end
      | _ => false
      end
  end.

(** What a kind of node may decide. *)
Definition outcomes (kind : ruleNode) : list RuleLogicCheckType :=
  match kind with
  | ruleLockNode | ruleStockNode => [RuleCheckAllow; RuleCheckTakeOver]
  | ruleLuckAwardNode => [RuleCheckTakeOver]
  end.

Definition lines_ok (kind : ruleNode) (lines : list RuleTreeNodeLine) : bool :=
  match lines with
  | [] => true
  | _ => forallb (fun v => existsb (decisionLogic v) lines) (outcomes kind)
  end.

Definition has_node (tree : RuleTree) (k : string) : bool :=
  match rt_NodeMap tree !! k with Some _ => true | None => false end.

Definition targets_ok (tree : RuleTree) (lines : list RuleTreeNodeLine) : bool :=
  forallb (fun l => String.eqb (rl_RuleNodeTo l) "" || has_node tree (rl_RuleNodeTo l)) lines.

Definition node_ok (tree : RuleTree) (kn : string * RuleTreeNode) : bool :=
  match TreeNodeGroup kn.1 with
  | Some kind => value_ok kind (rn_RuleValue kn.2) && lines_ok kind (rn_TreeNodeLine kn.2) &&
                 targets_ok tree (rn_TreeNodeLine kn.2)
  | None => false
  end.

Definition well_typed (tree : RuleTree) : bool :=
  has_node tree (rt_TreeRootRuleNode tree) && forallb (node_ok tree) (map_to_list (rt_NodeMap tree)).

(** The lines go down: an executable bound on the depth below a node. *)
Fixpoint depth_ok (fuel : nat) (tree : RuleTree) (k : string) : bool :=
  match fuel with
  | O => false
  | S fuel' =>
      match rt_NodeMap tree !! k with
      | Some node => forallb (fun l => String.eqb (rl_RuleNodeTo l) "" ||
                                       depth_ok fuel' tree (rl_RuleNodeTo l)) (rn_TreeNodeLine node)
      | None => true
      end
  end.

Section TreeTypes.
Context {S : Type} `{StrategyRepo S}.

Lemma well_typed_node (tree : RuleTree) k node :
  well_typed tree = true -> rt_NodeMap tree !! k = Some node ->
  exists kind, TreeNodeGroup k = Some kind /\ value_ok kind (rn_RuleValue node) = true /\
    lines_ok kind (rn_TreeNodeLine node) = true /\ targets_ok tree (rn_TreeNodeLine node) = true.
Proof using.
  intros [_ Hall]%andb_prop Hn. rewrite forallb_forall in Hall.
  assert (Hok : node_ok tree (k, node) = true) by (apply Hall, list_elem_of_In; by apply elem_of_map_to_list).
  unfold node_ok in Hok. cbn [fst snd] in Hok. destruct (TreeNodeGroup k) as [kind|]; [|done].
  apply andb_prop in Hok as [[? ?]%andb_prop ?]. by exists kind.
Qed.

(** A node that can read its value decides one of its outcomes, or its repository fails. *)
Lemma node_logic_outcome kind sid aid v (s s' : S) r :
  stock_methods_return -> value_ok kind v = true ->
  node_logic kind sid aid v s = (r, s') ->
  match r with
  | Ret act => In (tac_RuleLogicCheckType act) (outcomes kind)
  | Fail _ => True
  | Panic _ => False
  end.
Proof using.
  intros Hst Hv. destruct kind; cbn [node_logic outcomes value_ok] in *.
  - unfold ruleLock_logic. destruct (Atoi v) as [n|e|p]; [|done..].
    destruct (n <=? 10); intros [= <- <-]; cbn; auto.
  - unfold ruleLuckAward_logic. destruct (Split v COLON) as [|x [|y [|z l] ] ]; try done.
    destruct (ParseInt x); [|done..]. intros [= <- <-]. cbn. auto.
  - unfold ruleStock_logic, bind. intros Hrun.
    destruct (SubtractionAwardStock sid aid s) as [[[]|e|p] s1] eqn:E1; [| |by injection Hrun as <-
      |by destruct (proj1 (Hst sid aid s s1 p) E1)].
    + destruct (AwardStockConsumeSendQueue sid aid s1) as [[u|e|p] s2] eqn:E2; [|by injection Hrun as <-
        |by destruct (proj2 (Hst sid aid s1 s2 p) E2)].
      injection Hrun as <- <-. cbn. auto.
    + injection Hrun as <- <-. cbn. auto.
Qed.

Lemma next_ok kind v lines (s : S) :
  lines_ok kind lines = true -> In v (outcomes kind) ->
  exists to, next v lines s = (Ret to, s) /\ (to = ""%string \/ exists l, In l lines /\ rl_RuleNodeTo l = to).
Proof using.
  intros Hok Hv. unfold next, lines_ok in *. destruct lines as [|l0 ls]; [eauto|].
  rewrite forallb_forall in Hok. specialize (Hok v Hv). apply existsb_exists in Hok as (l & Hl & Hd).
  destruct (List.find (decisionLogic v) (l0 :: ls)) as [l1|] eqn:Ef.
  - apply List.find_some in Ef as [Hin _]. exists (rl_RuleNodeTo l1). split; [done|]. right. eauto.
  - pose proof (List.find_none _ _ Ef l Hl). congruence.
Qed.

Lemma process_loop_safe (tree : RuleTree) (sid aid : Z) :
  well_typed tree = true -> stock_methods_return ->
  forall fuel nn acc (s s' : S) p,
    (nn = ""%string \/ has_node tree nn = true /\ depth_ok fuel tree nn = true) ->
    process_loop fuel tree sid aid nn acc s <> (Panic p, s').
Proof using.
  intros Hw Hst. induction fuel as [|fuel IH]; intros nn acc s s' p Hnn; cbn [process_loop];
    (destruct (String.eqb_spec nn "") as [->|Hne]; [done|]); (destruct Hnn as [|[Hn Hd] ]; [done|]); [done|].
  unfold has_node in Hn. cbn [depth_ok] in Hd.
  destruct (rt_NodeMap tree !! nn) as [node|] eqn:En; [|done].
  destruct (well_typed_node _ _ _ Hw En) as (kind & Hk & Hv & Hl & Ht). rewrite Hk, !bind_deref.
  unfold bind. destruct (node_logic kind sid aid (rn_RuleValue node) s) as [r1 s1] eqn:E1.
  pose proof (node_logic_outcome _ _ _ _ _ _ _ Hst Hv E1) as Ho. destruct r1 as [act|e|q]; [|done..].
  destruct (next_ok _ _ _ s1 Hl Ho) as (to & -> & Hto). apply IH.
  destruct Hto as [->|(l & Hin & <-)]; [by left|]. unfold targets_ok in Ht. rewrite forallb_forall in Ht, Hd.
  specialize (Ht l Hin). specialize (Hd l Hin). destruct (String.eqb_spec (rl_RuleNodeTo l) "") as [->|]; [by left|].
  by right.
Qed.

(** C38. A well-typed tree never panics: when every key the tree names has a node of a known
    kind whose value parses, every outcome of a node has a line (or the node is a leaf), and
    the lines go down within [fuel] steps, processing the tree returns an award or the error
    of a stock operation. *)
Theorem process_well_typed (tree : RuleTree) (fuel : nat) (sid aid : Z) (s s' : S) r
    (Htyped : well_typed tree = true)
    (Hdepth : depth_ok fuel tree (rt_TreeRootRuleNode tree) = true)
    (Hstock : stock_methods_return)
    (Hrun : process fuel tree sid aid s = (r, s')) :
  (exists a, r = Ret a) \/ (exists e, r = Fail e).
Proof using.
  destruct r as [a|e|p]; [by left; eauto|by right; eauto|]. exfalso.
  refine (process_loop_safe tree sid aid Htyped Hstock fuel _ _ s s' p _ Hrun).
  right. split; [|done]. by apply andb_prop in Htyped as [? _].
Qed.
End TreeTypes.

(** The lock, stock and luck-award tree is well typed. *)
Definition demo_typed_tree : RuleTree := standard_tree "5" "103:1,100".

Lemma process_well_typed_witness :
  (process 3 demo_typed_tree 1 101 demo_state).1 = Ret (mkTreeStrategyAward 101 "") /\
  ((exists a, (process 3 demo_typed_tree 1 101 demo_state).1 = Ret a) \/
   (exists e, (process 3 demo_typed_tree 1 101 demo_state).1 = Fail e)).
Proof.
  split; [vm_compute; reflexivity|].
  refine (process_well_typed demo_typed_tree 3 1 101 demo_state
    (process 3 demo_typed_tree 1 101 demo_state).2 _ _ _ _ _).
  - vm_compute. reflexivity.
  - vm_compute. reflexivity.
  - intros sid aid s s' p. split; intros [=].
  - apply surjective_pairing.
Defined.

(** A stock node with an allow line only does not check, and an empty stock panics. *)
Definition demo_open_tree : RuleTree :=
  mkRuleTree "tree" "" "" RuleStock
    (list_to_map [(RuleStock, mkRuleTreeNode "tree" RuleStock "" "" [demo_line RuleStock "" RuleCheckAllow])]).
Example open_tree_rejected :
  well_typed demo_open_tree = false /\
  exists p, (process 2 demo_open_tree 1 102 demo_state).1 = Panic p.
Proof. split; [vm_compute; reflexivity|]. eexists. vm_compute. reflexivity. Qed.
