(* ===== verification/RuleChain.v ===== *)
(** * RuleChain: the responsibility chain before the draw

    [internal/biz/strategy/rule_chain.go].  The nodes of a chain are objects that are
    cloned from three prototypes and linked by [appendNext]; [cells] is the store of
    those objects.  [chain_of] and [run_chain] say which rules a strategy runs without
    the store, and [openLogicChain_refines] relates the two. *)
From Stdlib Require Import ZArith Lia List Ascii String Permutation Sorted.
From stdpp Require Import base gmap strings list numbers sorting.
From S2P Require Import Prelude GoLib Model Env Mem StrategyRepo Demo Armory.
Open Scope Z_scope.

Record logicResult := mkLogicResult {
  lr_AwardID : Z;
  lr_LogicModel : RuleChainName }.

(** The three implementations of [logicChain]. *)
Inductive chain_kind := KDefault | KBlackList | KWeight.

Definition ruleModel (k : chain_kind) : RuleChainName :=
  match k with
  | KDefault => RuleDefault
  | KBlackList => RuleBlacklist
  | KWeight => RuleWeight
  end.

(** ** [getAnalyticalValue] *)
Fixpoint analytical_groups (ruleValues : list string) (acc : gmap Z string)
    : res (gmap Z string) :=
  match ruleValues with
  | [] => Ret acc
  | singleRule :: rest =>
      if String.eqb singleRule "" then analytical_groups rest acc
      else match Split singleRule COLON with
           | p0 :: p1 :: _ =>
               let? key := Atoi p0 in analytical_groups rest (<[key := p1]> acc)
           | _ => Fail (WithMetadata ErrRuleWeightConfigInvalid [("rule"%string, singleRule)])
           end
  end.

Definition getAnalyticalValue (ruleValue : string) : res (gmap Z string) :=
  analytical_groups (Split ruleValue SPACE) ∅.

(** The keys after [slices.Sort], and the loop from the largest down. *)
Definition sorted_keys (m : gmap Z string) : list Z := merge_sort Z.le (map fst (map_to_list m)).
Definition pick_weight (keys : list Z) (userScore : Z) : option Z :=
  List.find (fun k => k <=? userScore) (rev keys).

(** ** The logic of the nodes; [nxt] is [r.next().logic(ctx, userID, strategyID)] *)
Section Nodes.
Context {S : Type} `{StrategyRepo S} `{EnvOps S}.

Definition default_logic (userID : string) (strategyID : Z) : M S logicResult :=
  let! awardID := getRandomAwardIDWithWeight strategyID "" in
  ret (mkLogicResult awardID RuleDefault).

Definition blacklist_logic (nxt : M S logicResult) (userID : string) (strategyID : Z)
    : M S logicResult :=
  let! ruleValue := QueryStrategyRuleValue strategyID RuleBlacklist in
  match Split ruleValue COLON with
  | p0 :: p1 :: _ =>
      let! awardID := with_err (WithCause ErrBlackListConfigParseFailed) (lift_res (ParseInt p0)) in
      if existsb (String.eqb userID) (Split p1 SPLIT)
      then ret (mkLogicResult awardID RuleBlacklist)
      else nxt
  | _ => fail (WithMetadata ErrBlackListConfigInvalid [("rule_value"%string, ruleValue)])
  end.

Definition weight_logic (nxt : M S logicResult) (userID : string) (strategyID : Z)
    : M S logicResult :=
  let! ruleValue := QueryStrategyValue strategyID RuleWeight in
  let! analyticalValueGroup := lift_res (getAnalyticalValue ruleValue) in
  if Nat.eqb (size analyticalValueGroup) 0 then nxt
  else
    let keys := sorted_keys analyticalValueGroup in
    let! userScore := QueryActivityAccountTotalUseCount userID strategyID in
    match pick_weight keys userScore with
    | Some k =>
        let! awardID := getRandomAwardIDWithWeight strategyID (FormatInt k) in
        ret (mkLogicResult awardID RuleWeight)
    | None => nxt
    end.

Definition chain_logic (k : chain_kind) (nxt : M S logicResult) (userID : string)
    (strategyID : Z) : M S logicResult :=
  match k with
  | KDefault => default_logic userID strategyID
  | KBlackList => blacklist_logic nxt userID strategyID
  | KWeight => weight_logic nxt userID strategyID
  end.
End Nodes.

(** ** The objects

    A cell is a node and its [nextChain]; a pointer is the index of a cell, and [nil]
    is [None].  Allocation appends a cell. *)
Record chain_cell := mkChainCell {
  cc_kind : chain_kind;
  cc_next : option nat }.

(** [newLogicFactory]: the prototypes and the group that names them. *)
Definition newLogicFactory : list chain_cell :=
  [mkChainCell KBlackList None; mkChainCell KWeight None; mkChainCell KDefault None].

Definition logicChainGroup (name : RuleChainName) : option nat :=
  if String.eqb name RuleBlacklist then Some 0%nat
  else if String.eqb name RuleWeight then Some 1%nat
  else if String.eqb name RuleDefault then Some 2%nat
  else None.

Section Factory.
Context {S : Type} `{StrategyRepo S} `{EnvOps S}.

Definition in_repo {A} (m : M S A) : M (list chain_cell * S) A := fun st =>
  let '(r, s) := m st.2 in (r, (st.1, s)).

(** [clone]: a shallow copy of the object. *)
Definition clone (p : nat) : M (list chain_cell * S) nat := fun '(cells, s) =>
  match cells !! p with
  | Some c => (Ret (length cells), (cells ++ [c], s))
  | None => (Panic nil_deref, (cells, s))
  end.

Definition appendNext (p next : nat) : M (list chain_cell * S) nat := fun '(cells, s) =>
  match cells !! p with
  | Some c => (Ret next, (<[p := mkChainCell (cc_kind c) (Some next)]> cells, s))
  | None => (Panic nil_deref, (cells, s))
  end.

(** The loop over [ruleModels[1:]]; returns the last node of the chain. *)
Fixpoint link_models (chain : nat) (ruleModels : list RuleChainName)
    : M (list chain_cell * S) nat :=
  match ruleModels with
  | [] => ret chain
  | model :: rest =>
      match logicChainGroup model with
      | Some node =>
          let! newNode := clone node in
          appendNext chain newNode ;;;
          link_models newNode rest
      | None => link_models chain rest
      end
  end.

Definition clone_named (name : RuleChainName) : M (list chain_cell * S) nat :=
  let! p := deref (logicChainGroup name) in clone p.

Definition openLogicChain (strategyID : Z) : M (list chain_cell * S) nat :=
  let! strategy := in_repo (QueryStrategyEntityByStrategyId strategyID) in
  let! entity := deref strategy in
  match GetRuleModels entity with
  | [] => clone_named RuleDefault
  | model0 :: rest =>
      match logicChainGroup model0 with
      | None => clone_named RuleDefault
      | Some firstNode =>
          let! head := clone firstNode in
          let! chain := link_models head rest in
          let! defaultNode := clone_named RuleDefault in
          appendNext chain defaultNode ;;;
          ret head
      end
  end.

(** [chain.logic] on the object at [p]. *)
Fixpoint heap_logic (fuel : nat) (cells : list chain_cell) (p : option nat)
    (userID : string) (strategyID : Z) : M S logicResult :=
  match fuel with
  | O => panic "model: out of fuel"
  | Datatypes.S fuel' =>
      let! q := deref p in
      let! c := deref (cells !! q) in
      chain_logic (cc_kind c) (heap_logic fuel' cells (cc_next c) userID strategyID)
        userID strategyID
  end.

(** [raffleLogicChain]; a chain is never longer than the store. *)
Definition raffleLogicChain (factor : RaffleFactor) : M (list chain_cell * S) logicResult :=
  let! head := openLogicChain (rf_StrategyID factor) in
  fun '(cells, s) =>
    in_repo (heap_logic (length cells) cells (Some head) (rf_UserID factor) (rf_StrategyID factor))
      (cells, s).
End Factory.

(** ** The specification: a chain as a list of rules *)
Definition kind_of (name : RuleChainName) : option chain_kind :=
  if String.eqb name RuleBlacklist then Some KBlackList
  else if String.eqb name RuleWeight then Some KWeight
  else if String.eqb name RuleDefault then Some KDefault
  else None.

Definition chain_of (ruleModels : list RuleChainName) : list chain_kind :=
  match ruleModels with
  | [] => [KDefault]
  | model0 :: rest =>
      match kind_of model0 with
      | None => [KDefault]
      | Some k => k :: omap kind_of rest ++ [KDefault]
      end
  end.

Section Spec.
Context {S : Type} `{StrategyRepo S} `{EnvOps S}.

Fixpoint run_chain (ks : list chain_kind) (userID : string) (strategyID : Z)
    : M S logicResult :=
  match ks with
  | [] => panic nil_deref
  | k :: ks' => chain_logic k (run_chain ks' userID strategyID) userID strategyID
  end.
End Spec.

(** [linked cells p ks]: the objects from [p] on are of the kinds [ks], then [nil]. *)
Fixpoint linked (cells : list chain_cell) (p : nat) (ks : list chain_kind) : Prop :=
  match ks with
  | [] => False
  | [k] => cells !! p = Some (mkChainCell k None)
  | k :: ks' => exists q, cells !! p = Some (mkChainCell k (Some q)) /\ linked cells q ks'
  end.

(** The prototypes are as the factory made them. *)
Definition factory_ok (cells : list chain_cell) : Prop := firstn 3 cells = newLogicFactory.

Section FactoryFacts.
Context {S : Type} `{StrategyRepo S} `{EnvOps S}.

Lemma factory_ok_proto cells name p :
  factory_ok cells -> logicChainGroup name = Some p ->
  (p < 3)%nat /\ exists k, kind_of name = Some k /\ cells !! p = Some (mkChainCell k None).
Proof.
  intros Hf Hg. unfold factory_ok in Hf.
  assert (Hl : forall i, (i < 3)%nat -> cells !! i = newLogicFactory !! i).
  { intros i Hi. rewrite <- Hf. by rewrite lookup_take_lt. }
  unfold logicChainGroup in Hg. unfold kind_of.
  repeat (destruct (String.eqb name _); [injection Hg as <-; split; [lia|];
    eexists; split; [reflexivity|]; rewrite Hl by lia; reflexivity|]). done.
Qed.

Lemma kind_of_group name : logicChainGroup name = None -> kind_of name = None.
Proof.
  unfold logicChainGroup, kind_of. by repeat destruct (String.eqb name _).
Qed.

Lemma factory_ok_length cells : factory_ok cells -> (3 <= length cells)%nat.
Proof. intros Hf. pose proof (f_equal length Hf) as E. rewrite length_take in E. change (length newLogicFactory) with 3%nat in E. lia. Qed.

Lemma factory_ok_app cells c : factory_ok cells -> factory_ok (cells ++ [c]).
Proof.
  intros Hf. unfold factory_ok. rewrite take_app_le; [done|]. by apply factory_ok_length.
Qed.

Lemma factory_ok_insert cells p c : factory_ok cells -> (3 <= p)%nat -> factory_ok (<[p := c]> cells).
Proof. intros Hf Hp. unfold factory_ok. by rewrite take_insert_ge. Qed.

Lemma clone_eq cells (s : S) p c :
  cells !! p = Some c -> clone p (cells, s) = (Ret (length cells), (cells ++ [c], s)).
Proof. intros E. unfold clone. by rewrite E. Qed.

Lemma appendNext_eq cells (s : S) p q c :
  cells !! p = Some c ->
  appendNext p q (cells, s) = (Ret q, (<[p := mkChainCell (cc_kind c) (Some q)]> cells, s)).
Proof. intros E. unfold appendNext. by rewrite E. Qed.

(** Old cells other than [p] are as they were. *)
Definition frame (p : nat) (cells cells' : list chain_cell) : Prop :=
  (length cells <= length cells')%nat /\
  forall i, (i < length cells)%nat -> i <> p -> cells' !! i = cells !! i.

(** Cloning a prototype and linking it behind [chain]. *)
Lemma append_clone_eq cells (s : S) chain k p kp {A} (K : nat -> M (list chain_cell * S) A) :
  cells !! chain = Some (mkChainCell k None) -> cells !! p = Some (mkChainCell kp None) ->
  (3 <= chain)%nat -> factory_ok cells ->
  let cells2 := <[chain := mkChainCell k (Some (length cells))]> (cells ++ [mkChainCell kp None]) in
  bind (clone p) (fun newNode => bind (appendNext chain newNode) (fun _ => K newNode)) (cells, s)
    = K (length cells) (cells2, s) /\
  factory_ok cells2 /\ frame chain cells cells2 /\
  cells2 !! chain = Some (mkChainCell k (Some (length cells))) /\
  cells2 !! length cells = Some (mkChainCell kp None).
Proof.
  intros Hc Hp Hge Hf cells2.
  pose proof (lookup_lt_Some _ _ _ Hc) as Hlt.
  assert (Hc' : (cells ++ [mkChainCell kp None]) !! chain = Some (mkChainCell k None))
    by by rewrite lookup_app_l.
  split_and!.
  - unfold bind. rewrite (clone_eq _ _ _ _ Hp), (appendNext_eq _ _ _ _ _ Hc'). done.
  - by apply factory_ok_insert, Hge; apply factory_ok_app.
  - split.
    + unfold cells2. rewrite length_insert, length_app. lia.
    + intros i Hi Hne. unfold cells2. rewrite list_lookup_insert_ne by done. by rewrite lookup_app_l.
  - unfold cells2. apply list_lookup_insert_eq. rewrite length_app. simpl. lia.
  - unfold cells2. rewrite list_lookup_insert_ne by lia.
    rewrite lookup_app_r, Nat.sub_diag by lia. done.
Qed.

(** The loop, the default node and the last link build exactly the list. *)
Lemma link_finish rest : forall (chain : nat) k cells (s : S) (head : nat),
  cells !! chain = Some (mkChainCell k None) -> (3 <= chain)%nat -> factory_ok cells ->
  exists cells',
    bind (link_models chain rest) (fun last =>
      bind (clone_named RuleDefault) (fun defaultNode =>
        bind (appendNext last defaultNode) (fun _ => ret head))) (cells, s)
      = (Ret head, (cells', s)) /\
    factory_ok cells' /\ frame chain cells cells' /\
    linked cells' chain (k :: omap kind_of rest ++ [KDefault]) /\
    length cells' = (length cells + length (omap kind_of rest) + 1)%nat.
Proof.
  induction rest as [|model rest IH]; intros chain k cells s head Hc Hge Hf; simpl.
  - destruct (factory_ok_proto cells RuleDefault _ Hf eq_refl) as (_ & kd & Hkd & Hp) .
    injection Hkd as <-.
    destruct (append_clone_eq cells s chain k 2 KDefault (fun _ => ret head) Hc Hp Hge Hf)
      as (E & Hf2 & Hfr & Hch & Hnew).
    eexists. split_and!; [|exact Hf2|exact Hfr| |].
    + rewrite bind_ret_l. exact E.
    + simpl. exists (length cells). auto.
    + rewrite length_insert, length_app. simpl. lia.
  - destruct (logicChainGroup model) as [p|] eqn:Eg.
    + destruct (factory_ok_proto _ _ _ Hf Eg) as (_ & kp & Hkp & Hp).
      rewrite bind_assoc.
      destruct (append_clone_eq cells s chain k p kp (A := nat)
        (fun newNode => bind (link_models newNode rest) (fun last =>
           bind (clone_named RuleDefault) (fun defaultNode =>
             bind (appendNext last defaultNode) (fun _ => ret head)))) Hc Hp Hge Hf)
        as (E & Hf2 & Hfr & Hch & Hnew).
      destruct (IH (length cells) kp _ s head Hnew ltac:(pose proof (factory_ok_length _ Hf); lia) Hf2)
        as (cells' & E' & Hf' & Hfr' & Hl' & Hlen').
      exists cells'. split_and!; [|done|..].
      * rewrite <- E', <- E. apply bind_ext. intros a st. by rewrite bind_assoc.
      * destruct Hfr as [L1 F1], Hfr' as [L2 F2]. split; [lia|]. intros i Hi Hne.
        rewrite F2 by lia. by apply F1.
      * rewrite Hkp. simpl. exists (length cells). split; [|exact Hl'].
        pose proof (lookup_lt_Some _ _ _ Hc). destruct Hfr' as [_ F2].
        rewrite F2, Hch; [done| |lia]. apply lookup_lt_Some in Hch. exact Hch.
      * rewrite Hlen', Hkp, length_insert, length_app. simpl.
        change (list_omap string chain_kind kind_of rest) with (omap kind_of rest). lia.
    + rewrite (kind_of_group _ Eg). by apply IH.
Qed.

Lemma clone_named_default cells (s : S) :
  factory_ok cells ->
  exists cells', clone_named RuleDefault (cells, s) = (Ret (length cells), (cells', s)) /\
    factory_ok cells' /\ frame (length cells) cells cells' /\ linked cells' (length cells) [KDefault] /\
    length cells' = (length cells + 1)%nat.
Proof.
  intros Hf. destruct (factory_ok_proto cells RuleDefault _ Hf eq_refl) as (_ & kd & Hkd & Hp).
  injection Hkd as <-. unfold clone_named. simpl.
  rewrite bind_ret_l, (clone_eq _ _ _ _ Hp). eexists. split_and!; [done|by apply factory_ok_app|..].
  - split; [rewrite length_app; lia|]. intros i Hi _. by rewrite lookup_app_l.
  - simpl. by rewrite lookup_app_r, Nat.sub_diag by lia.
  - by rewrite length_app.
Qed.

(** Opening a chain leaves the prototypes and all existing chains as they are. *)
Lemma openLogicChain_spec (sid : Z) cells (s : S) r cells' s' :
  factory_ok cells -> openLogicChain sid (cells, s) = (r, (cells', s')) ->
  factory_ok cells' /\ frame (length cells) cells cells' /\
  match QueryStrategyEntityByStrategyId sid s with
  | (Ret (Some e), s1) => s' = s1 /\ r = Ret (length cells) /\
      linked cells' (length cells) (chain_of (GetRuleModels e)) /\
      length cells' = (length cells + length (chain_of (GetRuleModels e)))%nat
  | (Ret None, s1) => s' = s1 /\ r = Panic nil_deref
  | (Fail e, s1) => s' = s1 /\ r = Fail e
  | (Panic p, s1) => s' = s1 /\ r = Panic p
  end.
Proof.
  intros Hf. assert (Hrefl : frame (length cells) cells cells) by by split.
  unfold openLogicChain, bind at 1, in_repo. simpl.
  destruct (QueryStrategyEntityByStrategyId sid s) as [[[e|]|e|p] s1];
    [|by intros [= <- <- <-]..].
  rewrite bind_deref. destruct (clone_named_default cells s1 Hf) as (cd & Ed & Hfd & Hfrd & Hld & Hlend).
  unfold chain_of. destruct (GetRuleModels e) as [|model0 rest].
  { rewrite Ed. by intros [= <- <- <-]. }
  destruct (logicChainGroup model0) as [p0|] eqn:Eg.
  - destruct (factory_ok_proto _ _ _ Hf Eg) as (_ & k0 & Hk0 & Hp0). rewrite Hk0.
    unfold bind at 1. rewrite (clone_eq _ _ _ _ Hp0).
    assert (Hnew : (cells ++ [mkChainCell k0 None]) !! length cells = Some (mkChainCell k0 None))
      by by rewrite lookup_app_r, Nat.sub_diag by lia.
    destruct (link_finish rest (length cells) k0 _ s1 (length cells) Hnew
      ltac:(by apply factory_ok_length) ltac:(by apply factory_ok_app)) as (c' & E & Hf' & [L F] & Hl & Hlen).
    rewrite E. intros [= <- <- <-]. split_and!; try done; [split|].
    + rewrite length_app in L. lia.
    + intros i Hi Hne. rewrite F by (done || rewrite length_app; lia). by rewrite lookup_app_l.
    + rewrite Hlen, length_app. simpl. rewrite length_app. simpl. lia.
  - rewrite (kind_of_group _ Eg), Ed. by intros [= <- <- <-].
Qed.

Lemma chain_logic_ext k n1 n2 userID sid (s : S) :
  (forall s1, n1 s1 = n2 s1) -> chain_logic k n1 userID sid s = chain_logic k n2 userID sid s.
Proof.
  intros E. destruct k; simpl; [done|..].
  - unfold blacklist_logic. apply bind_ext. intros v s1.
    destruct (Split v COLON) as [|p0 [|p1 ps]]; [done..|]. apply bind_ext. intros a s2.
    by destruct (existsb _ _).
  - unfold weight_logic. apply bind_ext. intros v s1. apply bind_ext. intros g s2.
    destruct (Nat.eqb _ _); [done|]. apply bind_ext. intros u s3. by destruct (pick_weight _ _).
Qed.

(** Running linked objects is running the list of their kinds. *)
Lemma heap_logic_linked ks : forall fuel cells p userID sid (s : S),
  linked cells p ks -> (length ks < fuel)%nat ->
  heap_logic fuel cells (Some p) userID sid s = run_chain ks userID sid s.
Proof.
  induction ks as [|k ks IH]; [done|]. intros fuel cells p userID sid s Hl Hfuel.
  destruct fuel as [|fuel]; [simpl in Hfuel; lia|]. simpl in Hfuel.
  destruct ks as [|k' ks]; cbn [heap_logic run_chain]; rewrite bind_deref.
  - simpl in Hl. rewrite Hl, bind_deref. simpl. apply chain_logic_ext. intros s1.
    destruct fuel; [lia|done].
  - destruct Hl as (q & Hq & Hl). rewrite Hq, bind_deref. simpl cc_kind. simpl cc_next.
    apply chain_logic_ext. intros s1. apply IH; [exact Hl|lia].
Qed.
End FactoryFacts.

(** ** What the weight and blacklist rules decide *)

Lemma analytical_groups_print cfg acc :
  NoDup (map fst cfg) -> Forall (fun g => in_int64 g.1 /\ g.2 <> []) cfg ->
  (forall g, g ∈ cfg -> acc !! g.1 = None) ->
  analytical_groups (map print_group cfg) acc =
  Ret (list_to_map (map (fun g => (g.1, Join (map FormatInt g.2) ",")) cfg) ∪ acc).
Proof.
  intros Hnd Hok. revert acc. induction Hok as [|g cfg [Hk Hne] Hok IH]; intros acc Hacc; simpl.
  - by rewrite (left_id_L ∅ (∪)).
  - destruct (String.eqb_spec (print_group g) "") as [E|_].
    { unfold print_group in E. destruct (FormatInt g.1) eqn:E'; [by destruct (FormatInt_not_empty g.1)|done]. }
    rewrite (Split_print_group g). rewrite Atoi_FormatInt by done. simpl.
    inversion_clear Hnd as [|? ? Hg Hnd']. rewrite IH; [|done|].
    + f_equal. rewrite <- insert_union_l, insert_union_r; [done|].
      apply not_elem_of_list_to_map_1. rewrite <- list_fmap_compose.
      intros (g' & E & Hin)%list_elem_of_fmap. simpl in E. apply Hg, list_elem_of_fmap. eauto.
    + intros g' Hg'. rewrite lookup_insert_ne; [apply Hacc; set_solver|].
      intros E. apply Hg, list_elem_of_fmap. eauto.
Qed.

Lemma no_space_print_group g : no_char SPACE (print_group g) = true.
Proof.
  unfold print_group. rewrite !no_char_app, FormatInt_no_char by done. simpl.
  apply no_char_Join; [by apply Forall_FormatInt_no_char | done].
Qed.

Lemma getAnalyticalValue_print cfg :
  cfg <> [] -> NoDup (map fst cfg) -> Forall (fun g => in_int64 g.1 /\ g.2 <> []) cfg ->
  getAnalyticalValue (Join (map print_group cfg) " ") =
  Ret (list_to_map (map (fun g => (g.1, Join (map FormatInt g.2) ",")) cfg)).
Proof.
  intros Hne Hnd Hok. unfold getAnalyticalValue. rewrite Split_Join.
  - rewrite analytical_groups_print by (done || intros; apply lookup_empty).
    by rewrite (right_id_L ∅ (∪)).
  - by destruct cfg.
  - apply Forall_map, Forall_true. intros g. apply no_space_print_group.
Qed.

Lemma sorted_keys_perm m : Permutation (sorted_keys m) (map fst (map_to_list m)).
Proof. apply merge_sort_Permutation. Qed.

Lemma sorted_keys_elem m k : k ∈ sorted_keys m <-> is_Some (m !! k).
Proof.
  rewrite sorted_keys_perm, list_elem_of_fmap. split.
  - intros ([k' v] & -> & Hkv%elem_of_map_to_list). by exists v.
  - intros [v Hv]. exists (k, v). by rewrite elem_of_map_to_list.
Qed.

(** The loop from the largest key down finds the largest key not above the score. *)
Lemma pick_weight_sorted l score :
  StronglySorted Z.le l ->
  match pick_weight l score with
  | Some k => k ∈ l /\ k <= score /\ forall k', k' ∈ l -> k' <= score -> k' <= k
  | None => forall k', k' ∈ l -> score < k'
  end.
Proof.
  unfold pick_weight. induction 1 as [|x l Hl IH Hx]; simpl.
  - intros k' Hk'. by apply elem_of_nil in Hk'.
  - rewrite find_app. destruct (List.find _ (rev l)) as [k|].
    + destruct IH as (Hk & Hle & Hmax). split_and!; [by right|done|].
      intros k' [->|Hk']%elem_of_cons Hle'; [|by apply Hmax].
      rewrite Forall_forall in Hx. by apply Hx.
    + simpl. destruct (Z.leb_spec x score).
      * split_and!; [by left|done|]. intros k' [->|Hk']%elem_of_cons Hle'; [lia|].
        specialize (IH k' Hk'). lia.
      * intros k' [->|Hk']%elem_of_cons; [done|by apply IH].
Qed.

Lemma pick_weight_max m score :
  match pick_weight (sorted_keys m) score with
  | Some k => is_Some (m !! k) /\ k <= score /\
      forall k', is_Some (m !! k') -> k' <= score -> k' <= k
  | None => forall k', is_Some (m !! k') -> score < k'
  end.
Proof.
  assert (Hs : StronglySorted Z.le (sorted_keys m)) by (apply StronglySorted_merge_sort; apply _).
  pose proof (pick_weight_sorted (sorted_keys m) score Hs) as Hp.
  destruct (pick_weight _ _) as [k|].
  - destruct Hp as (Hk & Hle & Hmax). split_and!; [by apply sorted_keys_elem|done|].
    intros k' Hk'. apply Hmax. by apply sorted_keys_elem.
  - intros k' Hk'. apply Hp. by apply sorted_keys_elem.
Qed.

Definition weight_keys_ok (cfg : list (Z * list Z)) : Prop :=
  cfg <> [] /\ weight_config_ok cfg /\ Forall in_int64 (map fst cfg).

Lemma getAnalyticalValue_keys cfg :
  weight_keys_ok cfg ->
  exists m, getAnalyticalValue (Join (map print_group cfg) " ") = Ret m /\
    forall k, is_Some (m !! k) <-> k ∈ map fst cfg.
Proof.
  intros (Hne & [Hnd Hok] & Hk). eexists. split.
  - apply getAnalyticalValue_print; [done|done|].
    rewrite Forall_map in Hk. apply Forall_forall. intros g Hg.
    rewrite Forall_forall in Hk, Hok. split; [by apply Hk|by apply Hok].
  - intros k. split.
    + intros [v Hv%elem_of_list_to_map_2]. apply list_elem_of_fmap in Hv as (g & [= -> ->] & Hg).
      apply list_elem_of_fmap. eauto.
    + intros (g & -> & Hg)%list_elem_of_fmap. exists (Join (map FormatInt g.2) ",").
      apply elem_of_list_to_map_1.
      * rewrite <- list_fmap_compose. exact Hnd.
      * apply list_elem_of_fmap. eauto.
Qed.

(** ** Properties *)
Section ChainTheorems.
Context {S : Type} `{StrategyRepo S} `{EnvOps S}.

(** The chain of a strategy without the objects. *)
Definition chain_result (factor : RaffleFactor) : M S logicResult :=
  let! strategy := QueryStrategyEntityByStrategyId (rf_StrategyID factor) in
  let! entity := deref strategy in
  run_chain (chain_of (GetRuleModels entity)) (rf_UserID factor) (rf_StrategyID factor).

(** The objects and the list run the same. *)
Lemma chain_of_run (factor : RaffleFactor) cells (s : S) r cells' s' :
  factory_ok cells -> raffleLogicChain factor (cells, s) = (r, (cells', s')) ->
  chain_result factor s = (r, s') /\ factory_ok cells' /\
  (forall i, (i < length cells)%nat -> cells' !! i = cells !! i).
Proof.
  intros Hfactory Hrun.
  unfold raffleLogicChain, bind in Hrun.
  destruct (openLogicChain _ (cells, s)) as [r1 [cells1 s1]] eqn:Eo.
  apply openLogicChain_spec in Eo as (Hf & [Hlen Hfr] & Ho); [|done].
  unfold chain_result, bind.
  assert (Hold : forall i, (i < length cells)%nat -> cells1 !! i = cells !! i)
    by (intros i Hi; apply Hfr; lia).
  destruct (QueryStrategyEntityByStrategyId _ s) as [[[e|]|e|p] s2]; simpl.
  - destruct Ho as (-> & -> & Hl & Hn). unfold in_repo in Hrun. simpl in Hrun.
    pose proof (factory_ok_length _ Hfactory).
    rewrite (heap_logic_linked _ _ _ _ _ _ _ Hl) in Hrun by lia.
    destruct (run_chain _ _ _ s2) as [r2 s3]. by injection Hrun as <- <- <-.
  - destruct Ho as [-> ->]. by injection Hrun as <- <- <-.
  - destruct Ho as [-> ->]. by injection Hrun as <- <- <-.
  - destruct Ho as [-> ->]. by injection Hrun as <- <- <-.
Qed.

(** C24. Cloning and linking implement the list of rules: [raffleLogicChain] answers
    what running the known rules of the strategy in their order, then the default
    rule, answers.  The prototypes stay as the factory made them and the objects of
    the other chains are not touched, so any number of draws can share the factory. *)
Theorem raffleLogicChain_refines (factor : RaffleFactor) cells (s : S) r cells' s'
    (Hfactory : factory_ok cells)
    (Hrun : raffleLogicChain factor (cells, s) = (r, (cells', s'))) :
  (r, s') = chain_result factor s /\ factory_ok cells' /\
  (forall i, (i < length cells)%nat -> cells' !! i = cells !! i).
Proof. destruct (chain_of_run _ _ _ _ _ _ Hfactory Hrun) as [-> ?]. done. Qed.

(** With the rule value [award:user,user,...] the blacklist rule gives the
    blacklist award to exactly the listed users and passes everyone else on. *)
Theorem blacklist_logic_decides (nxt : M S logicResult) (userID : string) (sid aid : Z)
    (users : list string) (s s1 : S)
    (Haid : in_int64 aid) (Hne : users <> [])
    (Husers : Forall (fun u => no_char SPLIT u = true /\ no_char COLON u = true) users)
    (Hrule : QueryStrategyRuleValue sid RuleBlacklist s
             = (Ret (FormatInt aid ++ String COLON (Join users ","))%string, s1)) :
  (userID ∈ users -> blacklist_logic nxt userID sid s = (Ret (mkLogicResult aid RuleBlacklist), s1)) /\
  (userID ∉ users -> blacklist_logic nxt userID sid s = nxt s1).
Proof.
  assert (E : blacklist_logic nxt userID sid s =
    (if existsb (String.eqb userID) users then ret (mkLogicResult aid RuleBlacklist) else nxt) s1).
  { unfold blacklist_logic, bind at 1. rewrite Hrule, Split_app_sep by (by apply FormatInt_no_char).
    assert (Hc : Forall (fun u => no_char COLON u = true) users) by (by eapply Forall_impl; [exact Husers|intros ? [] ]).
    rewrite (Split_no_sep (Join users ",")) by (by apply no_char_Join).
    unfold with_err, bind, lift_res. rewrite ParseInt_FormatInt by done.
    rewrite Split_Join; [done|done|]. by eapply Forall_impl; [exact Husers|intros ? [] ]. }
  rewrite E. split; intros Hu.
  - by rewrite (proj2 (existsb_exists _ _)) by (exists userID; rewrite <- list_elem_of_In, String.eqb_refl; done).
  - destruct (existsb _ users) eqn:Ex; [|done].
    apply existsb_exists in Ex as (u & Hu' & <-%String.eqb_eq). by rewrite <- list_elem_of_In in Hu'.
Qed.

(** C25. With a printed weight configuration the weight rule draws from the pool of
    the largest configured key that the user's count reaches, and passes on when
    the count reaches none. *)
Theorem weight_logic_picks (nxt : M S logicResult) (userID : string) (sid score : Z)
    (cfg : list (Z * list Z)) (s s1 s2 : S)
    (Hcfg : weight_keys_ok cfg)
    (Hrule : QueryStrategyValue sid RuleWeight s = (Ret (Join (map print_group cfg) " "), s1))
    (Hscore : QueryActivityAccountTotalUseCount userID sid s1 = (Ret score, s2)) :
  (forall k, k ∈ map fst cfg -> k <= score ->
     (forall k', k' ∈ map fst cfg -> k' <= score -> k' <= k) ->
     weight_logic nxt userID sid s =
     (let! awardID := getRandomAwardIDWithWeight sid (FormatInt k) in
      ret (mkLogicResult awardID RuleWeight)) s2) /\
  ((forall k, k ∈ map fst cfg -> score < k) -> weight_logic nxt userID sid s = nxt s2).
Proof.
  destruct (getAnalyticalValue_keys cfg Hcfg) as (m & Em & Hm).
  assert (Hsz : Nat.eqb (size m) 0 = false).
  { apply Nat.eqb_neq. intros E%map_size_empty_iff. destruct Hcfg as [Hne _].
    destruct cfg as [|g cfg]; [done|]. destruct (proj2 (Hm g.1)) as [v Hv]; [by left|].
    by rewrite E, lookup_empty in Hv. }
  assert (E : weight_logic nxt userID sid s =
    match pick_weight (sorted_keys m) score with
    | Some k => (let! awardID := getRandomAwardIDWithWeight sid (FormatInt k) in
                 ret (mkLogicResult awardID RuleWeight)) s2
    | None => nxt s2
    end).
  { unfold weight_logic, bind at 1. rewrite Hrule. unfold bind at 1, lift_res.
    rewrite Em, Hsz. unfold bind at 1. rewrite Hscore. by destruct (pick_weight _ _). }
  rewrite E. pose proof (pick_weight_max m score) as Hp. split.
  - intros k Hk Hle Hmax. destruct (pick_weight _ _) as [k0|].
    + destruct Hp as (Hk0 & Hle0 & Hmax0). replace k0 with k; [done|].
      apply Z.le_antisymm; [apply Hmax0; [by apply Hm|done]|apply Hmax; [by apply Hm|done] ].
    + exfalso. specialize (Hp k (proj2 (Hm k) Hk)). lia.
  - intros Hall. destruct (pick_weight _ _) as [k0|]; [|done].
    exfalso. destruct Hp as (Hk0 & Hle0 & _). specialize (Hall k0 (proj1 (Hm k0) Hk0)). lia.
Qed.
End ChainTheorems.

(** The two parsers of a weight rule agree on the keys: the pool suffixes the
    armory stores are exactly the printed keys the chain draws with. *)
Theorem weight_parsers_agree (cfg : list (Z * list Z)) (sid aid ty : Z) (desc : string)
    (Hcfg : weight_keys_ok cfg) :
  exists groups keys,
    GetRuleWeightValues (mkStrategyRule sid aid ty "rule_weight" (Join (map print_group cfg) " ") desc)
      = Ret groups /\
    getAnalyticalValue (Join (map print_group cfg) " ") = Ret keys /\
    forall key, is_Some (groups !! key) <-> exists k, is_Some (keys !! k) /\ key = FormatInt k.
Proof.
  destruct (getAnalyticalValue_keys cfg Hcfg) as (m & Em & Hm).
  destruct Hcfg as (Hne & Hok & Hk). exists (weight_map cfg), m. split_and!; [|done|].
  - unfold GetRuleWeightValues. cbn [sr_RuleModel sr_RuleValue String.eqb negb].
    change (negb _) with false. cbv iota. by rewrite parse_printed.
  - intros key. rewrite weight_map_keys by done. split.
    + intros (k & Hin & ->). exists k. by rewrite Hm.
    + intros (k & Hin%Hm & ->). eauto.
Qed.

(** ** Witnesses *)
Definition demo_factor (userID : string) : RaffleFactor := mkRaffleFactor 301 userID 1.

Lemma raffleLogicChain_refines_witness :
  (raffleLogicChain (demo_factor "eve") (newLogicFactory, demo_assembled)).1
    = Ret (mkLogicResult 103 RuleBlacklist) /\
  (Ret (mkLogicResult 103 RuleBlacklist), demo_assembled)
    = chain_result (demo_factor "eve") demo_assembled.
Proof.
  split; [vm_compute; reflexivity|].
  apply (raffleLogicChain_refines (demo_factor "eve") newLogicFactory demo_assembled
           (Ret (mkLogicResult 103 RuleBlacklist))
           (raffleLogicChain (demo_factor "eve") (newLogicFactory, demo_assembled)).2.1
           demo_assembled).
  - reflexivity.
  - vm_compute. reflexivity.
Defined.

Lemma blacklist_logic_decides_witness :
  blacklist_logic (default_logic "eve" 1) "eve" 1 demo_state
    = (Ret (mkLogicResult 103 RuleBlacklist), demo_state) /\
  blacklist_logic (default_logic "bob" 1) "bob" 1 demo_state = default_logic "bob" 1 demo_state.
Proof.
  assert (Hu : Forall (fun u => no_char SPLIT u = true /\ no_char COLON u = true)
                 ["eve"%string; "mallory"%string]) by (repeat constructor).
  split.
  - apply (blacklist_logic_decides (default_logic "eve" 1) "eve" 1 103
             ["eve"%string; "mallory"%string] demo_state demo_state);
      [vm_compute; split; discriminate|discriminate|exact Hu|reflexivity|left].
  - apply (blacklist_logic_decides (default_logic "bob" 1) "bob" 1 103
             ["eve"%string; "mallory"%string] demo_state demo_state);
      [vm_compute; split; discriminate|discriminate|exact Hu|reflexivity|].
    intros Hb. apply list_elem_of_In in Hb. simpl in Hb. destruct Hb as [E|[E|[] ] ]; discriminate E.
Defined.

Definition demo_weights : list (Z * list Z) := [(4000, [102]); (6000, [101; 102])].

Lemma demo_weights_ok : weight_keys_ok demo_weights.
Proof.
  split; [discriminate|]. split.
  - split; [apply (bool_decide_unpack _); vm_compute; exact I|repeat constructor; discriminate].
  - repeat constructor; discriminate.
Qed.

Lemma demo_weight_value :
  QueryStrategyValue 1 RuleWeight demo_assembled
  = (Ret (Join (map print_group demo_weights) " "), demo_assembled).
Proof. reflexivity. Qed.

(** A user with 5000 draws reaches the key 4000 but not 6000. *)
Lemma weight_logic_picks_witness :
  weight_logic (default_logic "bob" 1) "bob" 1 demo_assembled =
  (let! awardID := getRandomAwardIDWithWeight 1 "4000" in
   ret (mkLogicResult awardID RuleWeight)) demo_assembled.
Proof.
  apply (proj1 (weight_logic_picks (default_logic "bob" 1) "bob" 1 5000 demo_weights
    demo_assembled demo_assembled demo_assembled demo_weights_ok
    demo_weight_value eq_refl) 4000).
  - left.
  - lia.
  - intros k' Hk' Hle. apply list_elem_of_In in Hk'. simpl in Hk'.
    destruct Hk' as [<-|[<-|[] ] ]; lia.
Defined.

Lemma weight_parsers_agree_witness :
  exists groups keys,
    GetRuleWeightValues (mkStrategyRule 1 0 1 "rule_weight" "4000:102 6000:101,102" "") = Ret groups /\
    getAnalyticalValue "4000:102 6000:101,102" = Ret keys /\
    forall key, is_Some (groups !! key) <-> exists k, is_Some (keys !! k) /\ key = FormatInt k.
Proof. exact (weight_parsers_agree demo_weights 1 0 1 "" demo_weights_ok). Defined.
