(* ===== verification/Raffle.v ===== *)
(** * Raffle: the draw

    [raffleStrategy] of [raffle_support.go] and [strategy_usecase.go]: the chain, then
    the rule tree of the drawn award, then the award the user sees. *)
From Stdlib Require Import ZArith Lia List Ascii String.
From stdpp Require Import base gmap strings list numbers.
From S2P Require Import Prelude GoLib Model Env Mem StrategyRepo Demo Armory RuleTree RuleChain.
Open Scope Z_scope.

Section Raffle.
Context {S : Type} `{StrategyRepo S} `{EnvOps S}.

(** [fuel] bounds the rounds of the tree's loop. *)
Definition raffleRuleTree (fuel : nat) (userID : string) (strategyID awardID : Z)
    : M S treeStrategyAward :=
  let! ruleModel := QueryStrategyRuleModel strategyID awardID in
  if String.eqb ruleModel "" then ret (mkTreeStrategyAward awardID "")
  else
    let! ruleTree := attempt (QueryRuleTree ruleModel) in
    match ruleTree with
    | inl (Some tree) =>
        let! engine := newDecisionTreeEngine (Some tree) in
        process fuel engine strategyID awardID
    | _ => panic ("存在抽奖策略配置的规则模型 Key，未在库表 rule_tree、rule_tree_node、rule_tree_line 配置对应的规则树信息 " ++ ruleModel)%string
    end.

Definition queryStrategyAwardList (strategyID : Z) : M S (list StrategyAward) :=
  QueryStrategyAwardList strategyID.

Definition queryAwardRuleWeightByActivityId (activityID : Z) : M S (list WeightBucket) :=
  let! strategyID := QueryStrategyIdByActivityId activityID in
  QueryAwardRuleWeight strategyID.

Definition buildRaffleAward (strategyID awardID : Z) : M S RaffleAward :=
  let! strategyAward := QueryStrategyAward strategyID awardID in
  let! a := deref strategyAward in
  ret (mkRaffleAward (sa_AwardID a) (sa_AwardTitle a) (sa_Sort a)).

Definition PerformRaffle (fuel : nat) (factor : RaffleFactor)
    : M (list chain_cell * S) RaffleAward :=
  let! strategyAwardBefore := raffleLogicChain factor in
  if negb (String.eqb (lr_LogicModel strategyAwardBefore) RuleDefault) then
    in_repo (buildRaffleAward (rf_StrategyID factor) (lr_AwardID strategyAwardBefore))
  else
    let! strategyAwardAfter :=
      in_repo (raffleRuleTree fuel (rf_UserID factor) (rf_StrategyID factor)
                 (lr_AwardID strategyAwardBefore)) in
    in_repo (buildRaffleAward (rf_StrategyID factor) (ta_AwardID strategyAwardAfter)).

(** [StrategyUsecase]'s other methods. *)
Definition AssembleLotteryStrategy (strategyID : Z) : M S bool :=
  assembleLotteryStrategy strategyID.
Definition Usecase_QueryStrategyAwardList (strategyID : Z) : M S (list StrategyAward) :=
  queryStrategyAwardList strategyID.
Definition QueryAwardRuleWeightByActivityId (activityID : Z) : M S (list WeightBucket) :=
  queryAwardRuleWeightByActivityId activityID.
Definition Usecase_UpdateStrategyAwardStock (strategyID awardID : Z) : M S unit :=
  UpdateStrategyAwardStock strategyID awardID.
Definition AssembleLotteryStrategyByActivityId (activityID : Z) : M S bool :=
  let! strategyID := QueryStrategyIdByActivityId activityID in
  AssembleLotteryStrategy strategyID.
End Raffle.

(** The label of the raffle metric; [None] is [err == nil]. *)
Definition raffleResultFromErr (err : option gerr) : string :=
  match err with
  | None => "success"
  | Some e =>
      if errors_is (same_kratos ErrBlackListUser) e then "blacklist"
      else if errors_is (same_kratos ErrRuleTreeInvalid) e then "rule_invalid"
      else "error"
  end.

(** ** Properties *)
Section RaffleTheorems.
Context {S : Type} `{StrategyRepo S} `{EnvOps S}.

(** Where the awarded id comes from. *)
Inductive award_source (sid drawn : Z) (model : RuleChainName) : Z -> Prop :=
| from_chain : model <> RuleDefault -> award_source sid drawn model drawn
| from_draw : model = RuleDefault -> award_source sid drawn model drawn
| from_luck (treeName : string) (tree : RuleTree) (node : RuleTreeNode) x v luck :
    model = RuleDefault ->
    (exists s s' : S, QueryRuleTree treeName s = (Ret (Some tree), s')) ->
    rt_NodeMap tree !! RuleLuckAward = Some node ->
    Split (rn_RuleValue node) COLON = [x; v] -> ParseInt x = Ret luck ->
    award_source sid drawn model luck
| from_rootless (treeName : string) (tree : RuleTree) :
    model = RuleDefault ->
    (exists s s' : S, QueryRuleTree treeName s = (Ret (Some tree), s')) ->
    rt_TreeRootRuleNode tree = ""%string ->
    award_source sid drawn model 0.

Lemma raffleRuleTree_source fuel u sid drawn (s s' : S) a :
  raffleRuleTree fuel u sid drawn s = (Ret a, s') ->
  award_source sid drawn RuleDefault (ta_AwardID a).
Proof.
  unfold raffleRuleTree. intros E. apply bind_inv_ret in E as (m & s1 & E1 & E).
  destruct (String.eqb m ""); [injection E as <- <-; by apply from_draw|].
  apply bind_inv_ret in E as (rt & s2 & E2 & E). unfold attempt in E2.
  destruct (QueryRuleTree m s1) as [[ot|e|p] s3] eqn:Eq; [|by injection E2 as <- <-|done].
  injection E2 as <- <-. destruct ot as [tree|]; [|done].
  apply bind_inv_ret in E as (eng & s4 & E4 & E). unfold newDecisionTreeEngine in E4.
  destruct (rt_NodeMap tree !! rt_TreeRootRuleNode tree); [|done]. injection E4 as <- <-.
  apply process_loop_result in E as [[-> Hroot]|(k & node & Hn & [[_ ->]|(-> & x & Hs & Hx)])].
  - eapply from_rootless; eauto.
  - by apply from_draw.
  - eapply from_luck; eauto.
Qed.

(** The award a draw returns is read from the strategy's award table, for an id
    that the chain decided (blacklist or weight), that the default rule drew, or
    that is the luck award of a rule tree (a tree whose root is the empty name yields
    the id 0). *)
Theorem PerformRaffle_award (fuel : nat) (factor : RaffleFactor) cells (s : S) cells' s' award
    (Hfactory : factory_ok cells)
    (Hrun : PerformRaffle fuel factor (cells, s) = (Ret award, (cells', s'))) :
  exists lr s1 aid a s2,
    chain_result factor s = (Ret lr, s1) /\
    award_source (rf_StrategyID factor) (lr_AwardID lr) (lr_LogicModel lr) aid /\
    QueryStrategyAward (rf_StrategyID factor) aid s2 = (Ret (Some a), s') /\
    award = mkRaffleAward (sa_AwardID a) (sa_AwardTitle a) (sa_Sort a).
Proof.
  unfold PerformRaffle in Hrun. apply bind_inv_ret in Hrun as (lr & [c1 s1] & E1 & Hrun).
  destruct (chain_of_run _ _ _ _ _ _ Hfactory E1) as (Hc & _).
  assert (Hb : forall aid st st', in_repo (buildRaffleAward (rf_StrategyID factor) aid) st = (Ret award, st') ->
    exists a, QueryStrategyAward (rf_StrategyID factor) aid st.2 = (Ret (Some a), st'.2) /\
      award = mkRaffleAward (sa_AwardID a) (sa_AwardTitle a) (sa_Sort a)).
  { intros aid st st' E. unfold in_repo, buildRaffleAward, bind in E.
    destruct (QueryStrategyAward _ aid st.2) as [[[a|]|e|p] s3]; try done.
    injection E as <- <-. eauto. }
  destruct (String.eqb_spec (lr_LogicModel lr) RuleDefault) as [Hm|Hm]; simpl in Hrun.
  - apply bind_inv_ret in Hrun as (ta & [c2 s2] & E2 & Hrun).
    unfold in_repo in E2. simpl in E2.
    destruct (raffleRuleTree _ _ _ _ s1) as [r3 s3] eqn:E3. injection E2 as -> <- <-.
    apply Hb in Hrun as (a & Ha & ->). simpl in Ha.
    exists lr, s1, (ta_AwardID ta), a, s3. split_and!; [done| |done|done].
    rewrite Hm. by apply raffleRuleTree_source in E3.
  - apply Hb in Hrun as (a & Ha & ->). simpl in Ha.
    exists lr, s1, (lr_AwardID lr), a, s1. split_and!; try done. by apply from_chain.
Qed.
End RaffleTheorems.

(** ** Witnesses *)

(** Alice draws award 102, whose stock is gone, and gets the luck award 103; Bob has
    5000 draws, so the weight rule draws him award 102. *)
Example demo_raffles :
  (PerformRaffle 3 (demo_factor "alice") (newLogicFactory,
     ds_set_stock ∅ [] demo_assembled)).1 = Ret (mkRaffleAward 103 "award" 103) /\
  (PerformRaffle 3 (demo_factor "bob") (newLogicFactory, demo_assembled)).1
    = Ret (mkRaffleAward 102 "award" 102).
Proof. vm_compute. split; reflexivity. Qed.

Lemma PerformRaffle_award_witness :
  exists lr (s1 : DemoState) aid a (s2 : DemoState),
    chain_result (demo_factor "bob") demo_assembled = (Ret lr, s1) /\
    award_source (S := DemoState) 1 (lr_AwardID lr) (lr_LogicModel lr) aid /\
    QueryStrategyAward 1 aid s2
      = (Ret (Some a), (PerformRaffle 3 (demo_factor "bob") (newLogicFactory, demo_assembled)).2.2) /\
    mkRaffleAward 102 "award" 102 = mkRaffleAward (sa_AwardID a) (sa_AwardTitle a) (sa_Sort a).
Proof.
  apply (PerformRaffle_award 3 (demo_factor "bob") newLogicFactory demo_assembled
    (PerformRaffle 3 (demo_factor "bob") (newLogicFactory, demo_assembled)).2.1
    (PerformRaffle 3 (demo_factor "bob") (newLogicFactory, demo_assembled)).2.2
    (mkRaffleAward 102 "award" 102)).
  - reflexivity.
  - vm_compute. reflexivity.
Defined.
