(* ===== verification/Activity.v ===== *)
(** * Activity: the use cases of an activity

    [internal/biz/activity]: taking part ([pertake.go]), recharging quota
    ([quota.go]), the chain that sells a sku ([sku_chain.go]) and warming up the stock
    ([stock.go]), over the repository interface of [repo.go]. *)
From Stdlib Require Import ZArith Lia List Ascii String.
From stdpp Require Import base gmap strings list numbers.
From S2P Require Import Prelude GoLib Model Env.
Open Scope Z_scope.

(** The interface [Repo]; a pointer result may be nil. *)
Class ActivityRepo (S : Type) := {
  QueryActivitySku : Z -> M S (option ActivitySku);
  QueryRaffleActivityByActivityId : Z -> M S (option Activity);
  QueryRaffleActivityCountByActivityCountId : Z -> M S (option ActivityCount);
  SaveOrder : CreateQuotaOrder -> M S unit;
  CacheActivitySkuStockCount : string -> Z -> M S unit;
  SubtractionActivitySkuStock : Z -> Z -> string -> time -> M S (option ActivityResult);
  ActivitySkuStockConsumeSendQueue : ActivitySkuStockKey -> M S unit;
  ClearActivitySkuStock : Z -> M S unit;
  ClearQueueValue : M S unit;
  QueryRaffleActivity : Z -> M S (option Activity);
  QueryNoUsedRaffleOrder : string -> Z -> M S (option UserRaffleOrder);
  CacheGetOrCreateNoUsedRaffleOrder : UserRaffleOrder -> M S (option UserRaffleOrder * bool);
  SaveLiteUserRaffleOrder : CreatePartakeOrder -> M S unit;
  QueryActivityAccount : string -> Z -> M S (option ActivityAccount);
  QueryActivityAccountDay : string -> Z -> string -> M S (option ActivityAccountDay);
  QueryActivityAccountMonth : string -> Z -> string -> M S (option ActivityAccountMonth);
  SaveCreatePartakeOrderAggregate : CreatePartakeOrder -> M S unit;
  AsyncSaveCreatePartakeOrderAggregate : CreatePartakeOrder -> M S unit;
  UpdateActivitySkuStock : Z -> M S unit;
  QueryActivitySkuByActivityID : Z -> M S (list ActivitySku);
  QueryActivityAccountEntity : string -> Z -> M S (option ActivityAccount);
  QueryRaffleActivityAccountPartakeCount : string -> Z -> M S Z;
  QueryRaffleActivityAccountDayPartakeCount : string -> Z -> M S Z;
  AssembleActivityAccountByActivityId : Z -> M S unit;
  AssembleActivityAccountByUserId : string -> Z -> M S unit }.

Section Activity.
Context {S : Type} `{ActivityRepo S} `{EnvOps S}.

(** A new order number: [rand.New(rand.NewSource(time.Now().UnixNano())).Int63n(..)],
    zero-padded. *)
Definition newOrderID : M S string :=
  let! _ := ev_now in
  let! n := ev_int63n 1000000000000 in
  ret (fmt_0d 12 n).

(** ** [pertake.go] *)
Definition quotaCheckResultFromErr (err : option gerr) : string :=
  match err with
  | None => "success"
  | Some e =>
      if errors_is (same_kratos ErrActivityQuotaError) e then "total_quota_exhausted"
      else if errors_is (same_kratos ErrActivityAccountDayCountSurplusNotEnough) e
      then "day_quota_exhausted"
      else if errors_is (same_kratos ErrActivityAccountMonthCountSurplusNotEnough) e
      then "month_quota_exhausted"
      else "error"
  end%string.

Definition doFilterAccount (userID : string) (activityID : Z) (currentTime : time)
    : M S CreatePartakeOrder :=
  let! account := QueryActivityAccount userID activityID in
  match account with
  | None => fail ErrActivityQuotaError
  | Some account =>
      if acc_TotalCountSurplus account <=? 0 then fail ErrActivityQuotaError
      else
        let day := format_day (ev_offset (E := S) currentTime) currentTime in
        let month := format_month (ev_offset (E := S) currentTime) currentTime in
        let! found := QueryActivityAccountDay userID activityID day in
        let dayDone := match found with
                       | Some d => ad_DayCountSurplus d <=? 0
                       | None => false
                       end in
        if dayDone then fail ErrActivityAccountDayCountSurplusNotEnough
        else
          let isExistAccountDay := match found with Some _ => true | None => false end in
          let dayAccount := match found with
            | Some d => d
            | None => mkActivityAccountDay userID activityID day
                        (acc_DayCount account) (acc_DayCountSurplus account)
            end in
          let! found := QueryActivityAccountMonth userID activityID month in
          let monthDone := match found with
                           | Some m => am_MonthCountSurplus m <=? 0
                           | None => false
                           end in
          if monthDone then fail ErrActivityAccountMonthCountSurplusNotEnough
          else
            let isExistAccountMonth := match found with Some _ => true | None => false end in
            let monthAccount := match found with
              | Some m => m
              | None => mkActivityAccountMonth userID activityID month
                          (acc_MonthCount account) (acc_MonthCountSurplus account)
              end in
            ret {| po_UserID := userID;
                   po_ActivityID := activityID;
                   po_ActivityAccount := Some account;
                   po_IsExistAccountMonth := isExistAccountMonth;
                   po_ActivityAccountMonth := Some monthAccount;
                   po_IsExistAccountDay := isExistAccountDay;
                   po_ActivityAccountDay := Some dayAccount;
                   po_UserRaffleOrder := None |}
  end.

Definition buildUserRaffleOrder (userID : string) (activity : Activity) (currentTime : time)
    : M S UserRaffleOrder :=
  let! orderID := newOrderID in
  ret {| uo_UserID := userID;
         uo_ActivityID := act_ActivityID activity;
         uo_ActivityName := act_ActivityName activity;
         uo_StrategyID := act_StrategyID activity;
         uo_OrderID := orderID;
         uo_OrderTime := currentTime;
         uo_OrderState := UserRaffleOrderStateCreate |}.

(** [aggregate.UserRaffleOrder = order] *)
Definition with_order (aggregate : CreatePartakeOrder) (order : option UserRaffleOrder)
    : CreatePartakeOrder :=
  {| po_UserID := po_UserID aggregate;
     po_ActivityID := po_ActivityID aggregate;
     po_ActivityAccount := po_ActivityAccount aggregate;
     po_IsExistAccountMonth := po_IsExistAccountMonth aggregate;
     po_ActivityAccountMonth := po_ActivityAccountMonth aggregate;
     po_IsExistAccountDay := po_IsExistAccountDay aggregate;
     po_ActivityAccountDay := po_ActivityAccountDay aggregate;
     po_UserRaffleOrder := order |}.

Definition CreateOrder (partake : PartakeRaffleActivity) : M S CreatePartakeOrder :=
  let userID := pra_UserID partake in
  let activityID := pra_ActivityID partake in
  let! currentTime := ev_now in
  let! found := QueryRaffleActivity activityID in
  let! activity := deref found in
  if negb (String.eqb (act_State activity) ActivityStateOpen) then fail ErrActivityStateError
  else if Before currentTime (act_BeginDateTime activity) || After currentTime (act_EndDateTime activity)
  then fail ErrActivityTimeError
  else
    let! aggregate := doFilterAccount userID activityID currentTime in
    let! newOrder := buildUserRaffleOrder userID activity currentTime in
    let! reply := CacheGetOrCreateNoUsedRaffleOrder newOrder in
    let '(userRaffleOrder, reused) := reply in
    if (reused : bool) then
      ret {| po_UserID := userID;
             po_ActivityID := activityID;
             po_ActivityAccount := None;
             po_IsExistAccountMonth := false;
             po_ActivityAccountMonth := None;
             po_IsExistAccountDay := false;
             po_ActivityAccountDay := None;
             po_UserRaffleOrder := userRaffleOrder |}
    else
      let aggregate := with_order aggregate userRaffleOrder in
      SaveLiteUserRaffleOrder aggregate ;;;
      ret aggregate.

Definition SaveOrderRecord (aggregate : CreatePartakeOrder) : M S unit :=
  SaveCreatePartakeOrderAggregate aggregate.

(** ** [quota.go] *)
Definition buildOrderAggregate (skuRecharge : SkuRecharge) (activitySku : ActivitySku)
    (activity : Activity) (activityCount : ActivityCount) : M S CreateQuotaOrder :=
  let! orderID := newOrderID in
  let! orderTime := ev_now in
  let activityOrder :=
    {| ao_UserID := rc_UserID skuRecharge;
       ao_Sku := rc_Sku skuRecharge;
       ao_ActivityID := act_ActivityID activity;
       ao_ActivityName := act_ActivityName activity;
       ao_StrategyID := act_StrategyID activity;
       ao_OrderID := orderID;
       ao_OrderTime := orderTime;
       ao_TotalCount := cnt_TotalCount activityCount;
       ao_DayCount := cnt_DayCount activityCount;
       ao_MonthCount := cnt_MonthCount activityCount;
       ao_State := ActivityOrderStateCompleted;
       ao_OutBusinessNo := rc_OutBusinessNo skuRecharge |} in
  ret {| qo_UserID := rc_UserID skuRecharge;
         qo_ActivityID := sku_ActivityID activitySku;
         qo_TotalCount := cnt_TotalCount activityCount;
         qo_DayCount := cnt_DayCount activityCount;
         qo_MonthCount := cnt_MonthCount activityCount;
         qo_ActivityOrder := activityOrder |}.

Definition CreateRaffleActivityOrder (skuRecharge : SkuRecharge) : M S string :=
  if String.eqb (rc_UserID skuRecharge) "" || String.eqb (rc_OutBusinessNo skuRecharge) ""
  then fail ErrInvalidParams
  else
    let! foundSku := QueryActivitySku (rc_Sku skuRecharge) in
    let! activitySku := deref foundSku in
    let! foundActivity := QueryRaffleActivityByActivityId (sku_ActivityID activitySku) in
    let! foundCount := QueryRaffleActivityCountByActivityCountId (sku_ActivityCountID activitySku) in
    let! activity := deref foundActivity in
    let! activityCount := deref foundCount in
    let! quotaOrder := buildOrderAggregate skuRecharge activitySku activity activityCount in
    SaveOrder quotaOrder ;;;
    ret (ao_OrderID (qo_ActivityOrder quotaOrder)).

(** ** [sku_chain.go] *)
Inductive ActionChain : Type :=
| BaseActionChain (nextChain : option ActionChain)
| SkuStockActionChain (nextChain : option ActionChain).

Definition appendNext (chain next : ActionChain) : ActionChain :=
  match chain with
  | BaseActionChain _ => BaseActionChain (Some next)
  | SkuStockActionChain _ => SkuStockActionChain (Some next)
  end.

Definition OpenLogicChain : ActionChain :=
  let baseAction := BaseActionChain None in
  let skuStockAction := SkuStockActionChain None in
  appendNext baseAction skuStockAction.

Definition SkuStock_Action (activitySku : ActivitySku) (activity : Activity) : M S bool :=
  let! found := SubtractionActivitySkuStock (sku_Sku activitySku) (act_ActivityID activity) "user_id"
                  (act_EndDateTime activity) in
  let! result := deref found in
  if ar_Status result =? ActivityResultStatusSuccess then
    ActivitySkuStockConsumeSendQueue
      (mkActivitySkuStockKey (sku_Sku activitySku) (act_ActivityID activity)) ;;;
    ret true
  else fail ErrActivitySkuStockError.

(** [Action] of either chain; the two reads of the clock are where the code makes them. *)
Fixpoint Action (chain : ActionChain) (activitySku : ActivitySku) (activity : Activity)
    (activityCount : ActivityCount) : M S bool :=
  match chain with
  | BaseActionChain nextChain =>
      if negb (String.eqb (act_State activity) ActivityStateOpen) then fail ErrActivityStateError
      else
        let! now1 := ev_now in
        let! early :=
          (if After (act_BeginDateTime activity) now1 then ret true
           else let! now2 := ev_now in ret (Before (act_EndDateTime activity) now2)) in
        if (early : bool) then fail ErrActivityTimeError
        else if sku_StockCount activitySku <=? 0 then fail ErrActivityStockError
        else match nextChain with
             | Some next => Action next activitySku activity activityCount
             | None => ret true
             end
  | SkuStockActionChain _ => SkuStock_Action activitySku activity
  end.

(** ** [stock.go] *)
Definition getActivitySkuStockCountKey (sku : Z) : string :=
  ("activity_sku_stock_count_" ++ FormatInt sku)%string.

Definition cacheActivitySkuStockCount (skuID stockCount : Z) : M S unit :=
  CacheActivitySkuStockCount (getActivitySkuStockCountKey skuID) stockCount.

(** The loop of [assembleActivitySkuByActivityId]; [false] is an early return. *)
Fixpoint assemble_skus (activitySkus : list ActivitySku) : M S bool :=
  match activitySkus with
  | [] => ret true
  | activitySku :: rest =>
      let! _ := attempt (cacheActivitySkuStockCount (sku_Sku activitySku) (sku_StockCount activitySku)) in
      let! activityCount := QueryRaffleActivityCountByActivityCountId (sku_ActivityCountID activitySku) in
      match activityCount with
      | None => ret false
      | Some _ => assemble_skus rest
      end
  end.

(** A nil slice is what a query without rows returns. *)
Definition assembleActivitySkuByActivityId (activityID : Z) : M S bool :=
  let! activitySkus := QueryActivitySkuByActivityID activityID in
  match activitySkus with
  | [] => ret false
  | _ =>
      let! all := assemble_skus activitySkus in
      if negb all then ret false
      else
        let! activity := QueryRaffleActivityByActivityId activityID in
        match activity with
        | None => ret false
        | Some _ => ret true
        end
  end.

Definition AssembleActivitySkuByActivityId (activityID : Z) : M S bool :=
  assembleActivitySkuByActivityId activityID.

Definition assembleActivitySku (skuID : Z) : M S bool :=
  let! found := QueryActivitySku skuID in
  match found with
  | None => ret false
  | Some activitySku =>
      let! _ := attempt (cacheActivitySkuStockCount skuID (sku_StockCount activitySku)) in
      let! activity := QueryRaffleActivityByActivityId (sku_ActivityID activitySku) in
      match activity with
      | None => ret false
      | Some _ =>
          let! activityCount :=
            QueryRaffleActivityCountByActivityCountId (sku_ActivityCountID activitySku) in
          match activityCount with
          | None => ret false
          | Some _ => ret true
          end
      end
  end.

Definition subtractionActivitySkuStock (skuID activityID : Z) (userID : string) (endDateTime : time)
    : M S (option ActivityResult) :=
  SubtractionActivitySkuStock skuID activityID userID endDateTime.
End Activity.

(** ** Properties *)
Section ActivityFacts.
Context {S : Type} `{ActivityRepo S} `{EnvLaws S}.

Lemma newOrderID_spec (s s' : S) id :
  newOrderID s = (Ret id, s') -> String.length id = 12%nat.
Proof.
  unfold newOrderID. intros Hr. inv_bind Hr. inv_bind Hr. injection Hr as <- <-.
  destruct (ev_int63n_law 1000000000000 s0) as (z & e' & Ez & Hz); [lia|].
  assert (a0 = z) as -> by congruence. apply fmt_0d_length; lia.
Qed.

(** The guards of the account. *)
Lemma doFilterAccount_inv userID activityID t (s s' : S) agg :
  doFilterAccount userID activityID t s = (Ret agg, s') ->
  exists account s1 day s2 month,
    QueryActivityAccount userID activityID s = (Ret (Some account), s1) /\
    0 < acc_TotalCountSurplus account /\
    QueryActivityAccountDay userID activityID (format_day (ev_offset (E := S) t) t) s1 = (Ret day, s2) /\
    (forall d, day = Some d -> 0 < ad_DayCountSurplus d) /\
    QueryActivityAccountMonth userID activityID (format_month (ev_offset (E := S) t) t) s2
      = (Ret month, s') /\
    (forall m, month = Some m -> 0 < am_MonthCountSurplus m) /\
    po_UserID agg = userID /\ po_ActivityID agg = activityID.
Proof.
  unfold doFilterAccount. intros Hr. inv_bind Hr. destruct a as [account|]; [|discriminate Hr].
  destruct (Z.leb_spec (acc_TotalCountSurplus account) 0) as [|Hpos]; [discriminate Hr|].
  inv_bind Hr. rename a into day. rename Hm0 into Hday.
  destruct (match day with Some d => ad_DayCountSurplus d <=? 0 | None => false end) eqn:Ed;
    [discriminate Hr|].
  inv_bind Hr. rename a into month. rename Hm0 into Hmonth.
  destruct (match month with Some m => am_MonthCountSurplus m <=? 0 | None => false end) eqn:Em;
    [discriminate Hr|].
  injection Hr as <- <-. exists account, s0, day, s1, month. split_and!; try done.
  - intros d ->. by apply Z.leb_gt in Ed.
  - intros m ->. by apply Z.leb_gt in Em.
Qed.

(** The order that is proposed to the repository. *)
Definition proposed (userID : string) (activity : Activity) (t : time) (o : UserRaffleOrder) : Prop :=
  uo_UserID o = userID /\ uo_ActivityID o = act_ActivityID activity /\
  uo_ActivityName o = act_ActivityName activity /\ uo_StrategyID o = act_StrategyID activity /\
  String.length (uo_OrderID o) = 12%nat /\ uo_OrderTime o = t /\
  uo_OrderState o = UserRaffleOrderStateCreate.

Lemma CreateOrder_inv (partake : PartakeRaffleActivity) (s s' : S) agg :
  CreateOrder partake s = (Ret agg, s') ->
  exists t s0 activity s1 s2 order s3 o reused s4,
    ev_now s = (Ret t, s0) /\
    QueryRaffleActivity (pra_ActivityID partake) s0 = (Ret (Some activity), s1) /\
    act_State activity = ActivityStateOpen /\
    act_BeginDateTime activity <= t <= act_EndDateTime activity /\
    (exists filtered, doFilterAccount (pra_UserID partake) (pra_ActivityID partake) t s1
                      = (Ret filtered, s2)) /\
    proposed (pra_UserID partake) activity t order /\
    (exists id, newOrderID s2 = (Ret id, s3)) /\
    CacheGetOrCreateNoUsedRaffleOrder order s3 = (Ret (o, reused), s4) /\
    po_UserRaffleOrder agg = o /\ po_UserID agg = pra_UserID partake /\
    po_ActivityID agg = pra_ActivityID partake /\
    (if (reused : bool) then s' = s4 else SaveLiteUserRaffleOrder agg s4 = (Ret tt, s')).
Proof.
  unfold CreateOrder. intros Hr. inv_bind Hr. rename a into t, s0 into s0', Hm into Hnow.
  inv_bind Hr. rename s0 into s1', Hm into Hact.
  destruct a as [activity|]; [rewrite bind_deref in Hr|discriminate Hr].
  destruct (String.eqb_spec (act_State activity) ActivityStateOpen) as [Hopen|]; [|discriminate Hr].
  simpl negb in Hr. cbv iota in Hr.
  destruct (Before t (act_BeginDateTime activity) || After t (act_EndDateTime activity)) eqn:Ew;
    [discriminate Hr|].
  apply orb_false_iff in Ew as [Eb Ea]. unfold Before, After in Eb, Ea.
  apply Z.ltb_ge in Eb, Ea.
  inv_bind Hr. rename a into filtered, s0 into s2', Hm into Hf.
  inv_bind Hr. rename a into order, s0 into s3', Hm into Hb.
  inv_bind Hr. destruct a as [o reused]. rename s0 into s4', Hm into Hc.
  unfold buildUserRaffleOrder in Hb. inv_bind Hb. injection Hb as <- <-.
  destruct (doFilterAccount_inv _ _ _ _ _ _ Hf) as (? & ? & ? & ? & ? & _ & _ & _ & _ & _ & _ & Hu & Ha).
  match type of Hc with CacheGetOrCreateNoUsedRaffleOrder ?x ?st = _ =>
    exists t, s0', activity, s1', s2', x, st, o, reused, s4' end.
  split; [exact Hnow|]. split; [exact Hact|]. split; [exact Hopen|]. split; [lia|].
  split; [by exists filtered|]. split.
  { unfold proposed. simpl. split_and!; try done. by eapply newOrderID_spec. }
  split; [by eexists|]. split; [exact Hc|]. destruct reused.
  - injection Hr as <- <-. done.
  - inv_bind Hr. injection Hr as <- <-. simpl. split_and!; try done. by destruct a0.
Qed.

(** Whoever gets an order was entitled to it: the activity was open and the clock
    inside its window, the account had total quota left and neither its day nor its month
    was used up, the order is the one the repository reused or created for a proposal with
    the user, the activity's strategy and a twelve-digit number, and unless it was reused
    it was saved before it is returned. *)
Theorem CreateOrder_admits (partake : PartakeRaffleActivity) (s s' : S) agg
    (Hrun : CreateOrder partake s = (Ret agg, s')) :
  exists t s0 activity s1 account s2 day s3 month s4 order s5 o reused s6,
    ev_now s = (Ret t, s0) /\
    QueryRaffleActivity (pra_ActivityID partake) s0 = (Ret (Some activity), s1) /\
    act_State activity = ActivityStateOpen /\
    act_BeginDateTime activity <= t <= act_EndDateTime activity /\
    QueryActivityAccount (pra_UserID partake) (pra_ActivityID partake) s1 = (Ret (Some account), s2) /\
    0 < acc_TotalCountSurplus account /\
    QueryActivityAccountDay (pra_UserID partake) (pra_ActivityID partake)
      (format_day (ev_offset (E := S) t) t) s2 = (Ret day, s3) /\
    (forall d, day = Some d -> 0 < ad_DayCountSurplus d) /\
    QueryActivityAccountMonth (pra_UserID partake) (pra_ActivityID partake)
      (format_month (ev_offset (E := S) t) t) s3 = (Ret month, s4) /\
    (forall m, month = Some m -> 0 < am_MonthCountSurplus m) /\
    proposed (pra_UserID partake) activity t order /\
    CacheGetOrCreateNoUsedRaffleOrder order s5 = (Ret (o, reused), s6) /\
    po_UserRaffleOrder agg = o /\
    (if (reused : bool) then s' = s6 else SaveLiteUserRaffleOrder agg s6 = (Ret tt, s')).
Proof.
  destruct (CreateOrder_inv _ _ _ _ Hrun) as (t & s0 & activity & s1 & s4 & order & s5 & o & reused & s6
    & Hnow & Hact & Hopen & Hw & [filtered Hf] & Hp & _ & Hc & Ho & _ & _ & Hs).
  destruct (doFilterAccount_inv _ _ _ _ _ _ Hf)
    as (account & s2 & day & s3 & month & Ha & Hpos & Hd & Hd' & Hm & Hm' & _).
  exists t, s0, activity, s1, account, s2, day, s3, month, s4, order, s5, o, reused, s6.
  destruct Hw. by split_and!.
Qed.

(** A sku is only sold inside the activity's window, while its configured stock is
    positive, after the repository took a unit for it and after the debit was queued; in
    every other case the chain fails or the repository's error is passed on. *)
Theorem sku_chain_sells (sku : ActivitySku) (activity : Activity) (count : ActivityCount) (s s' : S) b
    (Hrun : Action OpenLogicChain sku activity count s = (Ret b, s')) :
  b = true /\ act_State activity = ActivityStateOpen /\ 0 < sku_StockCount sku /\
  (exists t1 s1 t2 s2 result s3,
    ev_now s = (Ret t1, s1) /\ act_BeginDateTime activity <= t1 /\
    ev_now s1 = (Ret t2, s2) /\ t2 <= act_EndDateTime activity /\
    SubtractionActivitySkuStock (sku_Sku sku) (act_ActivityID activity) "user_id"
      (act_EndDateTime activity) s2 = (Ret (Some result), s3) /\
    ar_Status result = ActivityResultStatusSuccess /\
    ActivitySkuStockConsumeSendQueue (mkActivitySkuStockKey (sku_Sku sku) (act_ActivityID activity)) s3
      = (Ret tt, s')).
Proof.
  revert Hrun. unfold OpenLogicChain. cbn [appendNext Action]. intros Hr.
  destruct (String.eqb_spec (act_State activity) ActivityStateOpen) as [Hopen|]; [|discriminate Hr].
  simpl negb in Hr. cbv iota in Hr. inv_bind Hr. rename a into t1, s0 into s1', Hm into Ht1.
  inv_bind Hr. rename s0 into s2', Hm into Ht2.
  destruct (After (act_BeginDateTime activity) t1) eqn:Ea.
  { injection Ht2 as <- <-. discriminate Hr. }
  inv_bind Ht2. rename a0 into t2, s0 into s2, Hm into Hnow2. injection Ht2 as <- <-.
  destruct (Before (act_EndDateTime activity) t2) eqn:Eb; [discriminate Hr|].
  destruct (Z.leb_spec (sku_StockCount sku) 0) as [|Hpos]; [discriminate Hr|].
  unfold SkuStock_Action in Hr. inv_bind Hr. rename s0 into s3, Hm into Hsub.
  destruct a as [result|]; [rewrite bind_deref in Hr|discriminate Hr].
  destruct (Z.eqb_spec (ar_Status result) ActivityResultStatusSuccess) as [Hst|]; [|discriminate Hr].
  inv_bind Hr. injection Hr as <- <-. unfold After in Ea. unfold Before in Eb. apply Z.ltb_ge in Ea, Eb.
  split_and!; try done. exists t1, s1', t2, s2, result, s3. destruct a. by split_and!.
Qed.
End ActivityFacts.
