(* ===== verification/PartakeData.v ===== *)
(** * PartakeData: taking part in an activity, on Redis and MySQL

    [internal/data/activity_partake.go]: the queries of the accounts, the quota
    script and its compensation ([Quota]), the short order that is written at once,
    and the ledger that is written later from the task table. *)
From Stdlib Require Import ZArith Lia List Ascii String.
From stdpp Require Import base gmap strings list numbers.
From S2P Require Import Prelude GoLib Model Po Env Logic Mem Keys Router Cache Event Quota.
Open Scope Z_scope.

(** [Repository]: the publisher's topics, and whether there is an inspector. *)
Record Repository := mkRepository {
  rp_routerDB : DBRouter;
  rp_db : dbh;
  rp_stockZeroPublisher : Publisher;
  rp_inspector : bool }.

Definition pendingRaffleOrderTTL : Z := 30 * Minute.

(** The rows of an account, of an account's day and month, and of an order. *)
Definition is_account (userID : string) (activityID : Z) (p : RaffleActivityAccountPO) : bool :=
  String.eqb (aap_UserID p) userID && (aap_ActivityID p =? activityID).
Definition is_account_day (userID : string) (activityID : Z) (day : string)
    (p : RaffleActivityAccountDayPO) : bool :=
  String.eqb (adp_UserID p) userID && (adp_ActivityID p =? activityID) && String.eqb (adp_Day p) day.
Definition is_account_month (userID : string) (activityID : Z) (month : string)
    (p : RaffleActivityAccountMonthPO) : bool :=
  String.eqb (amp_UserID p) userID && (amp_ActivityID p =? activityID) && String.eqb (amp_Month p) month.
Definition is_order (userID orderID : string) (p : UserRaffleOrderPO) : bool :=
  String.eqb (uop_UserID p) userID && String.eqb (uop_OrderID p) orderID.

(** [Updates] with [surplus - 1] and a new update time. *)
Definition debit_account (now : time) (p : RaffleActivityAccountPO) : RaffleActivityAccountPO :=
  {| aap_ID := aap_ID p; aap_UserID := aap_UserID p; aap_ActivityID := aap_ActivityID p;
     aap_TotalCount := aap_TotalCount p; aap_TotalCountSurplus := aap_TotalCountSurplus p - 1;
     aap_DayCount := aap_DayCount p; aap_DayCountSurplus := aap_DayCountSurplus p - 1;
     aap_MonthCount := aap_MonthCount p; aap_MonthCountSurplus := aap_MonthCountSurplus p - 1;
     aap_CreateTime := aap_CreateTime p; aap_UpdateTime := now |}.
Definition debit_month (now : time) (p : RaffleActivityAccountMonthPO) : RaffleActivityAccountMonthPO :=
  {| amp_ID := amp_ID p; amp_UserID := amp_UserID p; amp_ActivityID := amp_ActivityID p;
     amp_Month := amp_Month p; amp_MonthCount := amp_MonthCount p;
     amp_MonthCountSurplus := amp_MonthCountSurplus p - 1;
     amp_CreateTime := amp_CreateTime p; amp_UpdateTime := now |}.
Definition debit_day (now : time) (p : RaffleActivityAccountDayPO) : RaffleActivityAccountDayPO :=
  {| adp_ID := adp_ID p; adp_UserID := adp_UserID p; adp_ActivityID := adp_ActivityID p;
     adp_Day := adp_Day p; adp_DayCount := adp_DayCount p;
     adp_DayCountSurplus := adp_DayCountSurplus p - 1;
     adp_CreateTime := adp_CreateTime p; adp_UpdateTime := now |}.
Definition complete_order (now : time) (p : UserRaffleOrderPO) : UserRaffleOrderPO :=
  {| uop_ID := uop_ID p; uop_UserID := uop_UserID p; uop_ActivityID := uop_ActivityID p;
     uop_ActivityName := uop_ActivityName p; uop_StrategyID := uop_StrategyID p;
     uop_OrderID := uop_OrderID p; uop_OrderTime := uop_OrderTime p;
     uop_OrderState := uop_OrderState p; uop_AccountSyncState := AccountSyncStateCompleted;
     uop_CreateTime := uop_CreateTime p; uop_UpdateTime := now |}.

Section Partake.
Context {R D E : Type} `{RedisOps R} `{SqlOps D} `{EnvOps E} `{LocalCacheOps E} `{PublisherMem E}.
Context `{Codec Activity} `{Codec ActivityAccount} `{Codec UserRaffleOrder}
  `{Codec SaveOrderTaskMessage} `{EventCodec CreatePartakeOrder}.
Notation World := (W R D E).
Variable r : Repository.
(** rounds of [Once] *)
Variable fuel : nat.

Definition DBStrategy_ (shardKey : string) : M World (option dbh * string) :=
  lift_res (DBStrategy (rp_routerDB r) shardKey).

(** [time.Now().Format(..)], and the format of a given instant. *)
Definition Format_day (t : time) : string := format_day (ev_offset (E := E) t) t.
Definition Format_month (t : time) : string := format_month (ev_offset (E := E) t) t.
Definition now : M World time := in_env ev_now.

(** [if errors.Is(err, gorm.ErrRecordNotFound) { return nil, nil }] *)
Definition first_or_nil {A} (m : M World A) : M World (option A) :=
  let! x := attempt m in
  match x with
  | inl a => ret (Some a)
  | inr err => if errors_is is_not_found err then ret None else fail err
  end.

Definition cached_item {A} (key : string) (t : Z) (do : M World (option A))
    : Item (R := R) (D := D) (E := E) A :=
  mkItem key None t (Some do) false false false.

(** A pointer result that is never nil is the value. *)
Definition QueryRaffleActivity (activityID : Z) : M World Activity :=
  Once redis_only fuel
    (cached_item (GetActivityKey activityID) hour10days
       (let! p := first_or_nil (in_sql (sq_first (rp_db r) Traffle_activity
                    (fun p => rap_ActivityID p =? activityID))) in
        ret (option_map RaffleActivity_ToEntity p)))
    (mkActivity 0 "" "" zero_time zero_time 0 "").

Definition QueryActivityAccount (userID : string) (activityID : Z) : M World ActivityAccount :=
  Once redis_only fuel
    (cached_item (GetActivityAccountKey activityID userID) hour10days
       (let! db := DBStrategy_ userID in
        let! h := deref db.1 in
        let! p := first_or_nil (in_sql (sq_first h Traffle_activity_account
                    (is_account userID activityID))) in
        ret (option_map RaffleActivityAccount_ToEntity p)))
    (mkActivityAccount "" 0 0 0 0 0 0 0).

Definition QueryNoUsedRaffleOrder (userID : string) (activityID : Z) : M World (option UserRaffleOrder) :=
  let! order :=
    Once redis_only fuel
      (cached_item (noUsedRaffleOrderKey activityID userID) (5 * Second)
         (let! db := DBStrategy_ userID in
          match db.1 with
          | None => fail ErrDBRouterError
          | Some h =>
              let! p := first_or_nil (in_sql (sq_first h (Tuser_raffle_order db.2)
                          (fun p => String.eqb (uop_UserID p) userID &&
                                    (uop_ActivityID p =? activityID) &&
                                    String.eqb (uop_OrderState p) UserRaffleOrderStateCreate))) in
              ret (option_map UserRaffleOrder_ToEntity p)
          end))
      (mkUserRaffleOrder "" 0 "" 0 "" zero_time "") in
  if String.eqb (uo_OrderID order) "" then ret None else ret (Some order).

(** The reply of the script as the code reads it. *)
Definition read_reply (order : UserRaffleOrder) (reply : Z * list string)
    : M World (UserRaffleOrder * bool) :=
  let '(status, rest) := reply in
  if (status =? -1) || (status =? -2) then fail ErrActivityQuotaError
  else if status =? -3 then fail ErrActivityAccountDayCountSurplusNotEnough
  else if status =? -4 then fail ErrActivityAccountMonthCountSurplusNotEnough
  else if (status =? 1) || (status =? 2) then
    match rest with
    | r1 :: r2 :: _ :: _ =>
        let! strategyID := lift_res (ParseInt r2) in
        ret (mkUserRaffleOrder (uo_UserID order) (uo_ActivityID order) (uo_ActivityName order)
               strategyID r1 (uo_OrderTime order) UserRaffleOrderStateCreate, status =? 2)
    | _ => fail (ENew ("unexpected redis eval payload length: " ++
                       FormatInt (1 + Z.of_nat (length rest)))%string)
    end
  else fail (ENew ("unexpected redis eval status: " ++ FormatInt status)%string).

Definition CacheGetOrCreateNoUsedRaffleOrder (order : UserRaffleOrder)
    : M World (UserRaffleOrder * bool) :=
  let totalKey := GetActivityAccountTotalSurplusKey (uo_ActivityID order) (uo_UserID order) in
  let! now1 := now in
  let dayKey := GetActivityAccountDaySurplusKey (uo_ActivityID order) (uo_UserID order)
                  (Format_day now1) in
  let! now2 := now in
  let monthKey := GetActivityAccountMonthSurplusKey (uo_ActivityID order) (uo_UserID order)
                    (Format_month now2) in
  let pendingOrderKey := GetPendingRaffleOrderKey (uo_ActivityID order) (uo_UserID order) in
  let! reply := Eval (take_script totalKey dayKey monthKey pendingOrderKey
                        (uo_OrderID order) (FormatInt (uo_StrategyID order)) "0"
                        pendingRaffleOrderTTL) in
  read_reply order reply.

Definition compensatePendingRaffleOrder (order : UserRaffleOrder) : M World unit :=
  let totalKey := GetActivityAccountTotalSurplusKey (uo_ActivityID order) (uo_UserID order) in
  let dayKey := GetActivityAccountDaySurplusKey (uo_ActivityID order) (uo_UserID order)
                  (Format_day (uo_OrderTime order)) in
  let monthKey := GetActivityAccountMonthSurplusKey (uo_ActivityID order) (uo_UserID order)
                    (Format_month (uo_OrderTime order)) in
  let pendingOrderKey := GetPendingRaffleOrderKey (uo_ActivityID order) (uo_UserID order) in
  Eval (give_back_script totalKey dayKey monthKey pendingOrderKey (uo_OrderID order)) ;;;
  ret tt.

Definition buildSaveOrderTaskPO (userID messageID : string) (aggregate : CreatePartakeOrder)
    : M World TaskPO :=
  let! order := deref (po_UserRaffleOrder aggregate) in
  let message := mkSaveOrderTaskMessage (po_UserID aggregate) (uo_OrderID order) in
  let! messageBytes := lift_res (marshal (Some message)) in
  let! createTime := now in
  let! updateTime := now in
  ret (mkTaskPO 0 userID SaveOrderRecordTopic messageID messageBytes "create" createTime updateTime).

(** The row of a short order. *)
Definition lite_order_po (order : UserRaffleOrder) : UserRaffleOrderPO :=
  mkUserRaffleOrderPO 0 (uo_UserID order) (uo_ActivityID order) (uo_ActivityName order)
    (uo_StrategyID order) (uo_OrderID order) (uo_OrderTime order) (uo_OrderState order)
    AccountSyncStateCreate zero_time zero_time.

(** A failed compensation is only logged. *)
Definition compensate_and_fail (order : UserRaffleOrder) (err : gerr) : M World unit :=
  let! _ := attempt (compensatePendingRaffleOrder order) in fail err.

Definition SaveLiteUserRaffleOrder (aggregate : CreatePartakeOrder) : M World unit :=
  let! order := deref (po_UserRaffleOrder aggregate) in
  let! dbs := DBStrategy_ (uo_UserID order) in
  match dbs.1 with
  | None => compensate_and_fail order ErrDBRouterError
  | Some db =>
      let orderPO := lite_order_po order in
      let! baseEvent := in_env (NewBaseEvent aggregate) in
      let! task := attempt (buildSaveOrderTaskPO (po_UserID aggregate) (ev_ID baseEvent) aggregate) in
      match task with
      | inr taskErr => compensate_and_fail order taskErr
      | inl taskPO =>
          let! res := attempt (sq_transaction (X := R * E) db (
            in_sql (sq_create db (Tuser_raffle_order dbs.2) orderPO) ;;;
            in_sql (sq_create db Ttask taskPO) ;;;
            ret tt)) in
          match res with
          | inl _ => ret tt
          | inr err =>
              if is_duplicate_entry err then ret tt
              else compensate_and_fail order err
          end
      end
  end.

Definition QueryActivityAccountDay (userID : string) (activityID : Z) (day : string)
    : M World (option ActivityAccountDay) :=
  let! dbs := DBStrategy_ userID in
  let! db := deref dbs.1 in
  let! p := first_or_nil (in_sql (sq_first db Traffle_activity_account_day
              (is_account_day userID activityID day))) in
  ret (option_map RaffleActivityAccountDay_ToEntity p).

Definition QueryActivityAccountMonth (userID : string) (activityID : Z) (month : string)
    : M World (option ActivityAccountMonth) :=
  let! dbs := DBStrategy_ userID in
  let! db := deref dbs.1 in
  let! p := first_or_nil (in_sql (sq_first db Traffle_activity_account_month
              (is_account_month userID activityID month))) in
  ret (option_map RaffleActivityAccountMonth_ToEntity p).

Definition AsyncSaveCreatePartakeOrderAggregate (aggregate : CreatePartakeOrder) : M World unit :=
  let! baseEvent := in_env (NewBaseEvent aggregate) in
  in_env (PublishSaveOrder baseEvent).
End Partake.

(** ** Taking part, on the keys of one account *)
Section PartakeFacts.
Context {R D E : Type} `{RedisLaws R} `{EnvLaws E}.
Notation World := (W R D E).

Lemma wp_eval {A} (script : M R A) Q (w : World) :
  (forall a r1 w', script (w_redis w) = (Ret a, r1) -> view w' = rd_view r1 ->
     w_sql w' = w_sql w -> Q (Ret a) w') ->
  (forall e w', Eval script w = (Fail e, w') ->
     view w' = view w \/ view w' = rd_view (script (w_redis w)).2 ->
     w_sql w' = w_sql w -> Q (Fail e) w') ->
  wp (Eval script) Q w.
Proof.
  intros Hok Hfail. apply wp_intro. intros rr w' Hrun. destruct w as [[r e] d].
  pose proof Hrun as Hrun'. unfold Eval, in_redis in Hrun'.
  pose proof (rd_eval_law _ script r) as Hl. destruct (rd_eval script r) as [x r'].
  injection Hrun' as <- <-. destruct x as [a|err|p]; [| |done].
  - destruct Hl as (r1 & Er & Hv). by apply (Hok a r1 ((r', e), d)).
  - by apply (Hfail err ((r', e), d)).
Qed.

(** The envelope of an event is always built. *)
Lemma wp_base_event {A} (data : A) Q (w : World) :
  (forall be w', w_redis w' = w_redis w -> w_sql w' = w_sql w -> Q (Ret be) w') ->
  wp (in_env (NewBaseEvent data)) Q w.
Proof.
  intros HQ. destruct w as [[r e] d]. unfold wp, in_env, NewBaseEvent, generateShortID, bind, attempt.
  destruct (ev_crypto_read 5 e) as [[bs|err|p] e1] eqn:Ec; [| |by destruct (ev_crypto_read_law 5 e p e1)].
  - unfold ret. destruct (ev_now_law e1) as (t & e2 & ->). by apply HQ.
  - destruct (ev_now_law e1) as (t & e2 & ->). unfold ret. destruct (ev_now_law e2) as (t' & e3 & ->).
    by apply HQ.
Qed.

(** A command of a script that replied took its documented effect. *)
Lemma rd_call_ret {A} (c : rcmd A) (r r' : R) a :
  rd_call c r = (Ret a, r') -> cmd_spec c (rd_view r) = Some (a, rd_view r').
Proof.
  intros Er. pose proof (rd_call_law _ c r) as Hl. destruct (cmd_spec c (rd_view r)) as [ [b m]|].
  - destruct Hl as (r1 & E1 & <-). rewrite Er in E1. by injection E1 as -> ->.
  - destruct Hl as (e & r1 & E1 & _). rewrite Er in E1. discriminate E1.
Qed.

(** The pending hash of an account holds an unused order. *)
Definition pending_at (m : gmap string rval) (key oid : string) : Prop :=
  exists h sid, m !! key = Some (RHash h) /\ h !! "oid"%string = Some oid /\
    h !! "sid"%string = Some sid /\ h !! "st"%string = Some "0"%string.

Lemma pending_at_reply (r : R) key oid a m' :
  pending_at (rd_view r) key oid ->
  cmd_spec (HMGET key ["oid"; "sid"; "st"]%string) (rd_view r) = Some (a, m') ->
  exists sid, a = [Some oid; Some sid; Some "0"%string].
Proof.
  intros (h & sid & Hk & Ho & Hs & Hst). cbn [cmd_spec]. unfold get_hash. rewrite Hk.
  intros [= <- _]. exists sid. cbn. by rewrite Ho, Hs, Hst.
Qed.

Lemma create_script_made k1 k2 k3 k4 oid sid ttl (r r' : R) status p1 p2 p3 rest :
  create_script k1 k2 k3 k4 oid sid "0" ttl r = (Ret (status, p1 :: p2 :: p3 :: rest), r') ->
  status = 1 /\ p1 = oid /\ pending_at (rd_view r') k4 oid.
Proof.
  unfold create_script. intros Er. do 3 inv_bind Er.
  destruct a as [a|]; [|discriminate Er]. destruct a0 as [a0|]; [|discriminate Er].
  destruct a1 as [a1|]; [|discriminate Er].
  inv_bind Er. destruct a2; [discriminate Er|]. inv_bind Er. destruct a2; [discriminate Er|].
  inv_bind Er. destruct a2; [discriminate Er|]. do 3 inv_bind Er.
  inv_bind Er. apply rd_call_ret in Hm8. inv_bind Er. apply rd_call_ret in Hm9.
  injection Er as <- <- _ _ _ <-. split; [done|]. split; [done|].
  cbn [cmd_spec] in Hm8. destruct (get_hash k4 (rd_view s7)) as [h|]; [|discriminate Hm8].
  injection Hm8 as _ Hv. cbn [cmd_spec] in Hm9. rewrite <- Hv, lookup_insert_eq in Hm9.
  injection Hm9 as _ <-. eexists _, sid. split; [by apply lookup_insert_eq|]. cbn [foldl fst snd].
  split_and!; rewrite ?lookup_insert_ne by done; by apply lookup_insert_eq.
Qed.

(** Whatever the keys hold, a reply with an order leaves that order pending: the one that
    was there, and nothing is written, or the proposed one, when there was none. *)
Lemma take_script_made k1 k2 k3 k4 oid sid ttl (r r' : R) status p1 p2 p3 rest :
  take_script k1 k2 k3 k4 oid sid "0" ttl r = (Ret (status, p1 :: p2 :: p3 :: rest), r') ->
  pending_at (rd_view r') k4 p1 /\
  (status = 2 /\ rd_view r' = rd_view r \/
   status = 1 /\ p1 = oid /\ forall o, ~ pending_at (rd_view r) k4 o).
Proof.
  unfold take_script. intros Er. inv_bind Er. apply rd_call_ret in Hm.
  assert (Hc : forall r0, create_script k1 k2 k3 k4 oid sid "0" ttl r0 =
      (Ret (status, p1 :: p2 :: p3 :: rest), r') ->
    (forall o s, a <> [Some o; Some s; Some "0"%string]) -> pending_at (rd_view r') k4 p1 /\
    (status = 2 /\ rd_view r' = rd_view r \/
     status = 1 /\ p1 = oid /\ forall o, ~ pending_at (rd_view r) k4 o)).
  { intros r0 E0 Ha. destruct (create_script_made _ _ _ _ _ _ _ _ _ _ _ _ _ _ E0) as (-> & -> & Hp).
    split; [done|]. right. split_and!; [done..|]. intros o Ho.
    destruct (pending_at_reply _ _ _ _ _ Ho Hm) as [sd Es]. by apply (Ha o sd). }
  destruct a as [|[q1|] [|[q2|] [|[q3|] [|] ] ] ]; try by apply (Hc _ Er).
  destruct (String.eqb_spec q3 "0") as [->|Hne]; [|inv_bind Er; apply (Hc _ Er); by intros ? ? [=] ].
  injection Er as <- <- _ _ _ <-. cbn [cmd_spec] in Hm. unfold get_hash in Hm.
  destruct (rd_view r !! k4) as [ [x|h|l]|] eqn:Ek; [discriminate Hm| |discriminate Hm|].
  - injection Hm as E1 E2 E3 <-. split; [|by left]. by exists h, q2.
  - injection Hm as E1 _ _ _. by rewrite lookup_empty in E1.
Qed.

(** What comes back is the user's order, unused, and pending in Redis. *)
Lemma take_answer (order : UserRaffleOrder) (w w' : World) o reused :
  CacheGetOrCreateNoUsedRaffleOrder order w = (Ret (o, reused), w') ->
  uo_UserID o = uo_UserID order /\ uo_ActivityID o = uo_ActivityID order /\
  uo_OrderState o = UserRaffleOrderStateCreate /\
  pending_at (view w') (GetPendingRaffleOrderKey (uo_ActivityID order) (uo_UserID order)) (uo_OrderID o) /\
  (if (reused : bool) then view w' = view w
   else uo_OrderID o = uo_OrderID order /\ forall oid,
     ~ pending_at (view w) (GetPendingRaffleOrderKey (uo_ActivityID order) (uo_UserID order)) oid).
Proof.
  unfold CacheGetOrCreateNoUsedRaffleOrder, now. intros Hr.
  inv_bind Hr. rename Hm into Hn1. inv_bind Hr. rename Hm into Hn2. inv_bind Hr. rename Hm into He3.
  assert (Hv : view s0 = view w).
  { destruct w as [ [r0 e0] d0]. unfold in_env in Hn1. destruct (ev_now e0) as [x1 e1]. injection Hn1 as _ <-.
    unfold in_env in Hn2. destruct (ev_now e1) as [x2 e2]. by injection Hn2 as _ <-. }
  destruct s0 as [ [r0 e0] d0]. unfold Eval, in_redis in He3.
  pose proof (rd_eval_law _ (take_script
    (GetActivityAccountTotalSurplusKey (uo_ActivityID order) (uo_UserID order))
    (GetActivityAccountDaySurplusKey (uo_ActivityID order) (uo_UserID order) (Format_day (E := E) a))
    (GetActivityAccountMonthSurplusKey (uo_ActivityID order) (uo_UserID order) (Format_month (E := E) a0))
    (GetPendingRaffleOrderKey (uo_ActivityID order) (uo_UserID order))
    (uo_OrderID order) (FormatInt (uo_StrategyID order)) "0" pendingRaffleOrderTTL) r0) as Hl.
  destruct (rd_eval _ r0) as [x r1]. injection He3 as -> <-. destruct Hl as (r2 & Er & Hv2).
  destruct a1 as [st rest]. unfold read_reply in Hr.
  destruct ((st =? -1) || (st =? -2)); [discriminate Hr|].
  destruct (st =? -3); [discriminate Hr|]. destruct (st =? -4); [discriminate Hr|].
  destruct ((st =? 1) || (st =? 2)); [|discriminate Hr].
  destruct rest as [|q1 [|q2 [|q3 rest] ] ]; try discriminate Hr.
  inv_bind Hr. unfold lift_res in Hm. injection Hm as _ <-. injection Hr as <- <- <-.
  destruct (take_script_made _ _ _ _ _ _ _ _ _ _ _ _ _ _ Er) as [Hp Hs].
  cbn [uo_UserID uo_ActivityID uo_OrderState uo_OrderID]. unfold view, w_redis in *. cbn [fst snd] in *.
  split_and!; try done; [by rewrite Hv2|].
  destruct (Z.eqb_spec st 2) as [->|Hne].
  - destruct Hs as [ [_ Hs]|[? _] ]; [congruence|discriminate].
  - destruct Hs as [ [? _]|(_ & Ho & Hn)]; [done|]. split; [done|]. by rewrite <- Hv.
Qed.

(** The keys of an account on the days the clock shows. *)
Definition account_state (w : World) (activityID : Z) (userID : string) (t1 t2 : time)
    (a : account) : Prop :=
  account_at (view w)
    (GetActivityAccountTotalSurplusKey activityID userID)
    (GetActivityAccountDaySurplusKey activityID userID (Format_day (E := E) t1))
    (GetActivityAccountMonthSurplusKey activityID userID (Format_month (E := E) t2))
    (GetPendingRaffleOrderKey activityID userID) a.

Lemma quota_take_status oid sid a :
  (quota_take oid sid a).1 = (1, [oid; sid; "0"%string]) \/
  ((exists o s, (quota_take oid sid a).1 = (2, [o; s; "0"%string])) /\ (quota_take oid sid a).2 = a) \/
  (exists st, (quota_take oid sid a).1 = (st, []) /\ -4 <= st <= -1).
Proof.
  assert (Hc : forall a0, (quota_create oid sid a0).1 = (1, [oid; sid; "0"%string]) \/
    (exists st, (quota_create oid sid a0).1 = (st, []) /\ -4 <= st <= -1)).
  { intros a0. unfold quota_create.
    destruct (qa_total a0) as [t|], (qa_day a0) as [d|], (qa_month a0) as [m|];
      try (right; eexists; split; [reflexivity|lia]).
    destruct (t <=? 0); [right; eexists; split; [reflexivity|lia]|].
    destruct (d <=? 0); [right; eexists; split; [reflexivity|lia]|].
    destruct (m <=? 0); [right; eexists; split; [reflexivity|lia]|by left]. }
  unfold quota_take. destruct (qa_pending a) as [h|]; [|destruct (Hc a); auto].
  destruct (complete_pending h) as [[[o s] st]|]; [|destruct (Hc a); auto].
  destruct (String.eqb_spec st "0") as [->|]; [|destruct (Hc (set_pending a None)); auto].
  right. left. eauto.
Qed.

(** How the code reads the three kinds of reply. *)
Lemma read_reply_made order st oid sid (w : World) :
  st = 1 \/ st = 2 ->
  read_reply order (st, [oid; sid; "0"%string]) w =
  match ParseInt sid with
  | Ret z => (Ret (mkUserRaffleOrder (uo_UserID order) (uo_ActivityID order) (uo_ActivityName order)
                     z oid (uo_OrderTime order) UserRaffleOrderStateCreate, st =? 2), w)
  | Fail e => (Fail e, w)
  | Panic p => (Panic p, w)
  end.
Proof.
  intros [->| ->]; unfold read_reply; cbn; unfold bind, lift_res; by destruct (ParseInt sid).
Qed.

Lemma read_reply_refused order st (w : World) :
  -4 <= st <= -1 -> exists e, read_reply order (st, []) w = (Fail e, w).
Proof.
  intros Hst. assert (st = -1 \/ st = -2 \/ st = -3 \/ st = -4) as [->|[->|[->| ->]]] by lia;
    eexists; reflexivity.
Qed.


(** C21. Taking part runs the quota specification on the user's account and on nothing
    else: a new order carries the proposed id and strategy and one unit is taken of each
    counter, a reused order is the account's pending one and nothing is taken, and no
    failure changes the account otherwise than the specification; every Redis key
    outside the four of the account is left alone. *)
Theorem CacheGetOrCreate_refines (order : UserRaffleOrder) (w : World) rr w'
    (Hsid : in_int64 (uo_StrategyID order))
    (Hrun : CacheGetOrCreateNoUsedRaffleOrder order w = (rr, w')) :
  exists t1 e1 t2 e2,
  ev_now (w_env w) = (Ret t1, e1) /\ ev_now e1 = (Ret t2, e2) /\ forall a,
  account_state w (uo_ActivityID order) (uo_UserID order) t1 t2 a -> counters_ok a ->
  let taken := quota_take (uo_OrderID order) (FormatInt (uo_StrategyID order)) a in
  let after := account_state w' (uo_ActivityID order) (uo_UserID order) t1 t2 in
  same_outside (account_keys (uo_ActivityID order) (uo_UserID order)
    (Format_day (E := E) t1) (Format_month (E := E) t2)) (view w) (view w') /\
  w_sql w' = w_sql w /\
  match rr with
  | Ret (o, reused) => uo_UserID o = uo_UserID order /\ uo_ActivityID o = uo_ActivityID order /\
      if (reused : bool)
      then (exists s, taken.1 = (2, [uo_OrderID o; s; "0"%string]) /\ ParseInt s = Ret (uo_StrategyID o)) /\
           after a
      else taken.1 = (1, [uo_OrderID o; FormatInt (uo_StrategyID o); "0"%string]) /\
           uo_OrderID o = uo_OrderID order /\ uo_StrategyID o = uo_StrategyID order /\ after taken.2
  | Fail _ => after a \/ after taken.2
  | Panic _ => False
  end.
Proof.
  revert Hrun. unfold CacheGetOrCreateNoUsedRaffleOrder, now.
  destruct w as [[r0 e0] d0].
  destruct (ev_now_law e0) as (t1 & e1 & E1). destruct (ev_now_law e1) as (t2 & e2 & E2).
  rewrite (bind_eq _ _ _ t1 ((r0, e1), d0)) by by apply in_env_eq.
  rewrite (bind_eq _ _ _ t2 ((r0, e2), d0)) by by apply in_env_eq.
  intros Hrun. exists t1, e1, t2, e2. split_and!; [done|done|]. intros a Hat Hok. cbn zeta.
  pattern rr, w'. eapply wp_run; [|exact Hrun]. clear Hrun.
  destruct (runs_take _ _ _ _ (account_keys_NoDup (uo_ActivityID order) (uo_UserID order)
              (Format_day (E := E) t1) (Format_month (E := E) t2))
              (uo_OrderID order) (FormatInt (uo_StrategyID order)) pendingRaffleOrderTTL a r0 Hat Hok)
    as (reply & r1 & Er & -> & Ha & Hout).
  apply wp_bind, wp_eval.
  - intros reply r2 w2 Er2 Hv Hd. unfold w_redis in Er2. cbn [fst snd] in Er2.
    rewrite Er in Er2. injection Er2 as <- <-. cbn [then_]. rewrite <- Hv in Ha, Hout.
    apply wp_intro. intros rr2 w3. 
    destruct (quota_take_status (uo_OrderID order) (FormatInt (uo_StrategyID order)) a)
      as [Ek|[[(o & s & Ek) Ea]|(st & Ek & Hst)]]; rewrite Ek.
    + rewrite read_reply_made by auto. rewrite ParseInt_FormatInt by done.
      intros [= <- <-]. by split_and!.
    + rewrite read_reply_made by auto. rewrite Ea in Ha. destruct (ParseInt s) as [z|e|p] eqn:Ez.
      * intros [= <- <-]. split_and!; try done. by exists s.
      * intros [= <- <-]. split_and!; try done. by left.
      * by apply ParseInt_no_panic in Ez.
    + destruct (read_reply_refused order st w2 Hst) as [e ->]. intros [= <- <-].
      split_and!; try done. by right.
  - intros e w2 _ Hv Hd. cbn [then_].
    assert (Hv' : view w2 = rd_view r0 \/ view w2 = rd_view r1).
    { destruct Hv as [Hv|Hv]; [by left|right]. rewrite Hv. unfold w_redis. cbn [fst snd]. by rewrite Er. }
    split_and!; try done.
    + destruct Hv' as [->| ->]; [apply same_outside_refl|done].
    + unfold account_state. destruct Hv' as [->| ->]; [by left|by right].
Qed.
End PartakeFacts.

(** ** The short order and its task *)
Section Outbox.
Context {R D E : Type} `{RedisLaws R} `{SqlLaws D} `{EnvLaws E}.
Context `{CodecLaws SaveOrderTaskMessage} `{EventCodec CreatePartakeOrder}.
Notation World := (W R D E).
Notation tables := (dbh -> forall t, list (row t)).
Variable r : Repository.

Definition save_order_task (userID messageID message : string) (t1 t2 : time) : TaskPO :=
  mkTaskPO 0 userID SaveOrderRecordTopic messageID message "create" t1 t2.

(** One order row and one task row, the task's message naming the order, and nothing
    else. *)
Definition order_and_task_saved (db : dbh) (tableSuffix : string) (aggregate : CreatePartakeOrder)
    (order : UserRaffleOrder) (f f' : tables) : Prop :=
  exists messageID message t1 t2,
    marshal (Some (mkSaveOrderTaskMessage (po_UserID aggregate) (uo_OrderID order))) = Ret message /\
    added (t := Tuser_raffle_order tableSuffix) (lite_order_po order)
      (f db (Tuser_raffle_order tableSuffix)) (f' db (Tuser_raffle_order tableSuffix)) /\
    added (t := Ttask) (save_order_task (po_UserID aggregate) messageID message t1 t2)
      (f db Ttask) (f' db Ttask) /\
    forall db' t', (db', t') <> (db, Tuser_raffle_order tableSuffix) -> (db', t') <> (db, Ttask) ->
      f' db' t' = f db' t'.

Lemma build_task_spec userID messageID aggregate order (w : World) :
  po_UserRaffleOrder aggregate = Some order ->
  wp (buildSaveOrderTaskPO userID messageID aggregate) (fun rr w' =>
    w_redis w' = w_redis w /\ w_sql w' = w_sql w /\
    match rr with
    | Ret taskPO => exists message t1 t2,
        marshal (Some (mkSaveOrderTaskMessage (po_UserID aggregate) (uo_OrderID order))) = Ret message /\
        taskPO = save_order_task userID messageID message t1 t2
    | Fail _ => True
    | Panic _ => False
    end) w.
Proof.
  intros Ho. unfold buildSaveOrderTaskPO. rewrite Ho. apply wp_deref; [|done].
  intros o [= <-]. apply wp_lift.
  destruct (marshal _) as [message|e|p] eqn:Em; cbn [then_];
    [|done|by destruct (proj1 (codec_no_panic _ EmptyString p) Em)].
  apply wp_bind, wp_now. intros t1 w1 R1 D1. cbn [then_].
  apply wp_bind, wp_now. intros t2 w2 R2 D2. cbn [then_]. apply wp_ret.
  split_and!; [congruence..|]. by exists message, t1, t2.
Qed.

(** The script that gives the units of an order back. *)
Definition give_back (order : UserRaffleOrder) : M R Z :=
  give_back_script
    (GetActivityAccountTotalSurplusKey (uo_ActivityID order) (uo_UserID order))
    (GetActivityAccountDaySurplusKey (uo_ActivityID order) (uo_UserID order)
       (Format_day (E := E) (uo_OrderTime order)))
    (GetActivityAccountMonthSurplusKey (uo_ActivityID order) (uo_UserID order)
       (Format_month (E := E) (uo_OrderTime order)))
    (GetPendingRaffleOrderKey (uo_ActivityID order) (uo_UserID order)) (uo_OrderID order).

(** What the compensation of an order leaves: the account with the units of the order
    given back and every other key alone.  Only when Redis answered the script with an
    error may the account have stayed as it was. *)
Definition given_back (order : UserRaffleOrder) (w w' : World) : Prop :=
  forall a,
  account_state w (uo_ActivityID order) (uo_UserID order) (uo_OrderTime order) (uo_OrderTime order) a ->
  counters_ok a ->
  let after := account_state w' (uo_ActivityID order) (uo_UserID order)
                 (uo_OrderTime order) (uo_OrderTime order) in
  same_outside (account_keys (uo_ActivityID order) (uo_UserID order)
    (Format_day (E := E) (uo_OrderTime order)) (Format_month (E := E) (uo_OrderTime order)))
    (view w) (view w') /\
  (after (quota_give_back (uo_OrderID order) a).2 \/
   after a /\ exists w1 e, w_redis w1 = w_redis w /\ Eval (give_back order) w1 = (Fail e, w')).

Lemma compensate_spec order err (w : World) :
  wp (compensate_and_fail order err) (fun rr w' =>
    rr = Fail err /\ w_sql w' = w_sql w /\ given_back order w w') w.
Proof.
  unfold compensate_and_fail. apply wp_attempt. unfold compensatePendingRaffleOrder.
  fold (give_back order).
  assert (Hgb : forall w' (failed : Prop),
    (view w' = view w /\ failed) \/ view w' = rd_view (give_back order (w_redis w)).2 ->
    (failed -> exists w1 e, w_redis w1 = w_redis w /\ Eval (give_back order) w1 = (Fail e, w')) ->
    given_back order w w').
  { intros w' failed Hv Hf a Hat Hok. cbn zeta.
    destruct (runs_give_back _ _ _ _ (account_keys_NoDup (uo_ActivityID order) (uo_UserID order)
        (Format_day (E := E) (uo_OrderTime order)) (Format_month (E := E) (uo_OrderTime order)))
        (uo_OrderID order) a (w_redis w) Hat Hok) as (c & r1 & Er & _ & Ha & Hout).
    unfold give_back in Hv. rewrite Er in Hv. unfold account_state.
    destruct Hv as [ [-> Hfail]| ->]; [|by auto].
    split; [apply same_outside_refl|]. right. split; [done|auto]. }
  apply wp_bind, wp_eval.
  - intros c r1 w1 Er Hv Hd. cbn [then_]. apply wp_ret, wp_fail. split_and!; try done.
    apply (Hgb w1 False); [|done]. right. by rewrite Er.
  - intros e w1 Hrun Hv Hd. cbn [then_]. apply wp_fail. split_and!; try done.
    apply (Hgb w1 True); [destruct Hv; auto|eauto].
Qed.

(** The transaction of the two rows. *)
Lemma outbox_tx_spec db tableSuffix aggregate order messageID message t1 t2 (w : World) :
  marshal (Some (mkSaveOrderTaskMessage (po_UserID aggregate) (uo_OrderID order))) = Ret message ->
  uo_OrderState order <> ""%string ->
  wp (sq_transaction (X := R * E) db (
        in_sql (sq_create db (Tuser_raffle_order tableSuffix) (lite_order_po order)) ;;;
        in_sql (sq_create db Ttask (save_order_task (po_UserID aggregate) messageID message t1 t2)) ;;;
        ret tt)) (fun rr w' =>
    w_redis w' = w_redis w /\
    match rr with
    | Ret _ => order_and_task_saved db tableSuffix aggregate order (rows w) (rows w')
    | Fail e => (rows w' = rows w \/ order_and_task_saved db tableSuffix aggregate order (rows w) (rows w')) /\
        (is_duplicate_entry e = true -> rows w' = rows w /\
           (existsb (sq_conflict (Tuser_raffle_order tableSuffix) (lite_order_po order))
              (rows w db (Tuser_raffle_order tableSuffix)) = true \/
            existsb (sq_conflict Ttask (save_order_task (po_UserID aggregate) messageID message t1 t2))
              (rows w db Ttask) = true))
    | Panic _ => False
    end) w.
Proof.
  intros Hm Hst. apply wp_transaction.
  2: { intros w2 e S2 R2 Hd. split; [unfold w_redis; by rewrite S2|]. split; [by left|congruence]. }
  intros w0 R0 S0. assert (Q0 : w_redis w0 = w_redis w) by (unfold w_redis; by rewrite S0).
  apply wp_bind, wp_create; [by split|..].
  2: { intros w1 e S1 Hd w2 S2 R2. rewrite R0 in Hd. split; [unfold w_redis in *; by rewrite S2, S1|].
       split; [by left|]. intros He. split; [done|]. left. by apply Hd. }
  intros w1 p1 S1 _ P1 A1 O1. cbn [then_]. rewrite R0 in A1, O1.
  apply wp_bind, wp_create; [done|..].
  2: { intros w2 e S2 Hd w3 S3 R3. rewrite O1 in Hd by done.
       split; [unfold w_redis in *; by rewrite S3, S2, S1|].
       split; [by left|]. intros He. split; [done|]. right. by apply Hd. }
  intros w2 p2 S2 _ P2 A2 O2. cbn [then_]. rewrite O1 in A2 by done. apply wp_ret.
  assert (Hsaved : order_and_task_saved db tableSuffix aggregate order (rows w) (rows w2)).
  { exists messageID, message, t1, t2. split_and!; [done|..].
    - exists p1. split; [done|]. by rewrite O2.
    - by exists p2.
    - intros db' t' N1 N2. by rewrite O2, O1. }
  split.
  - intros w3 S3 R3. rewrite R3. split; [unfold w_redis in *; by rewrite S3, S2, S1|done].
  - intros w3 e S3 R3 Hd. split; [unfold w_redis in *; by rewrite S3, S2, S1|].
    split; [|congruence]. destruct R3 as [->| ->]; [by left|by right].
Qed.

(** What a run leaves, by its result. *)
Lemma SaveLite_run (aggregate : CreatePartakeOrder) (order : UserRaffleOrder)
    (db tableSuffix : string) (w : World) rr w'
    (Horder : po_UserRaffleOrder aggregate = Some order)
    (Hroute : DBStrategy (rp_routerDB r) (uo_UserID order) = Ret (Some db, tableSuffix))
    (Hstate : uo_OrderState order <> ""%string)
    (Hrun : SaveLiteUserRaffleOrder r aggregate w = (rr, w')) :
  match rr with
  | Ret _ => w_redis w' = w_redis w /\
      (order_and_task_saved db tableSuffix aggregate order (rows w) (rows w') \/
       rows w' = rows w /\
       (existsb (sq_conflict (Tuser_raffle_order tableSuffix) (lite_order_po order))
          (rows w db (Tuser_raffle_order tableSuffix)) = true \/
        exists messageID message t1 t2,
          existsb (sq_conflict Ttask (save_order_task (po_UserID aggregate) messageID message t1 t2))
            (rows w db Ttask) = true))
  | Fail _ => (rows w' = rows w \/ order_and_task_saved db tableSuffix aggregate order (rows w) (rows w')) /\
      given_back order w w'
  | Panic _ => False
  end.
Proof.
  pattern rr, w'. eapply wp_run; [|exact Hrun]. clear Hrun.
  unfold SaveLiteUserRaffleOrder. rewrite Horder. apply wp_deref; [|done].
  intros o [= <-]. unfold DBStrategy_. rewrite Hroute. apply wp_lift. cbn [then_ fst snd].
  assert (Hcomp : forall err w1, w_redis w1 = w_redis w ->
    rows w1 = rows w \/ order_and_task_saved db tableSuffix aggregate order (rows w) (rows w1) ->
    wp (compensate_and_fail order err) (fun rr w' => match rr with
      | Ret _ => False
      | Fail _ => (rows w' = rows w \/
                   order_and_task_saved db tableSuffix aggregate order (rows w) (rows w')) /\
                  given_back order w w'
      | Panic _ => False
      end) w1).
  { intros err w1 Q1 R1. eapply wp_mono; [apply compensate_spec|].
    intros rr2 w2 (-> & D2 & G2). split.
    - unfold rows in *. by rewrite D2.
    - intros a Hat Hok. unfold given_back, account_state, view in *. rewrite <- Q1 in Hat |- *.
      exact (G2 a Hat Hok). }
  apply wp_bind, wp_base_event. intros be w1 Q1 D1. cbn [then_].
  apply wp_attempt. eapply wp_mono; [apply build_task_spec; exact Horder|].
  intros [taskPO|e|p] w2 (Q2 & D2 & Hb); [| |done].
  2: { eapply wp_mono; [apply Hcomp; [congruence|left; unfold rows; by rewrite D2, D1]|].
       by intros []. }
  destruct Hb as (message & t1 & t2 & Hmar & ->).
  apply wp_attempt. eapply wp_mono; [exact (outbox_tx_spec db tableSuffix aggregate order
    (ev_ID be) message t1 t2 w2 Hmar Hstate)|].
  assert (R2 : rows w2 = rows w) by (unfold rows; by rewrite D2, D1).
  intros [[]|e|p] w3 (Q3 & Hs); [rewrite R2 in Hs..|done].
  - apply wp_ret. split; [congruence|by left].
  - destruct Hs as [Hs Hdup]. destruct (is_duplicate_entry e) eqn:Ed.
    + apply wp_ret. destruct (Hdup eq_refl) as [R3 Hc]. split; [congruence|]. right. split; [done|].
      destruct Hc as [Hc|Hc]; [by left|right; eauto].
    + eapply wp_mono; [apply Hcomp; [congruence|done]|]. by intros [].
Qed.

(** C13. The short order and the task that will account for it are written together or
    not at all: success means both rows were added, or that one of the two tables
    already held a row the new one collides with and nothing was written; on failure
    either nothing was written or, when only the commit's answer was lost, both rows
    were, and the account in Redis has the order's units back, every other key being
    untouched -- the account stays as it was only if Redis answered the script that gives
    them back with an error.  It never panics. *)
Theorem SaveLite_outbox (aggregate : CreatePartakeOrder) (order : UserRaffleOrder)
    (db tableSuffix : string) (w : World) rr w'
    (Horder : po_UserRaffleOrder aggregate = Some order)
    (Hroute : DBStrategy (rp_routerDB r) (uo_UserID order) = Ret (Some db, tableSuffix))
    (Hstate : uo_OrderState order <> ""%string)
    (Hrun : SaveLiteUserRaffleOrder r aggregate w = (rr, w')) :
  match rr with
  | Ret _ => w_redis w' = w_redis w /\
      (order_and_task_saved db tableSuffix aggregate order (rows w) (rows w') \/
       rows w' = rows w /\
       (existsb (sq_conflict (Tuser_raffle_order tableSuffix) (lite_order_po order))
          (rows w db (Tuser_raffle_order tableSuffix)) = true \/
        exists messageID message t1 t2,
          existsb (sq_conflict Ttask (save_order_task (po_UserID aggregate) messageID message t1 t2))
            (rows w db Ttask) = true))
  | Fail _ => (rows w' = rows w \/ order_and_task_saved db tableSuffix aggregate order (rows w) (rows w')) /\
      given_back order w w'
  | Panic _ => False
  end.
Proof. by apply (SaveLite_run aggregate order db tableSuffix w rr w'). Qed.
End Outbox.

(** ** Witnesses *)
Definition demo_partake_order : UserRaffleOrder := mkUserRaffleOrder "u" 100 "a" 7 "o1" 0 "create".
Definition demo_partake_redis : MemRedis :=
  <[GetActivityAccountTotalSurplusKey 100 "u" := RStr "2"]>
   (<[GetActivityAccountDaySurplusKey 100 "u" (format_day 28800 0) := RStr "2"]>
    (<[GetActivityAccountMonthSurplusKey 100 "u" (format_month 28800 0) := RStr "2"]> ∅)).
Definition demo_partake_world : MemWorld := mem_world demo_partake_redis mem_no_rows 0 [].
Definition demo_partake : res (UserRaffleOrder * bool) * MemWorld :=
  CacheGetOrCreateNoUsedRaffleOrder demo_partake_order demo_partake_world.

(** A new order takes one unit of each counter. *)
Lemma CacheGetOrCreate_refines_witness :
  demo_partake.1 = Ret (demo_partake_order, false) /\
  account_state demo_partake.2 100 "u" 0 0
    (mkAccount (Some 1) (Some 1) (Some 1) (Some (put_pending "o1" "7" ∅))) /\
  exists t1 t2, account_state demo_partake_world 100 "u" t1 t2
      (mkAccount (Some 2) (Some 2) (Some 2) None) ->
    same_outside (account_keys 100 "u" (Format_day (E := MemEnv) t1) (Format_month (E := MemEnv) t2))
      (view demo_partake_world) (view demo_partake.2).
Proof.
  split; [vm_compute; reflexivity|]. split; [split_and!; vm_compute; reflexivity|].
  destruct (CacheGetOrCreate_refines (D := MemSql) demo_partake_order demo_partake_world
    demo_partake.1 demo_partake.2) as (t1 & e1 & t2 & e2 & _ & _ & Hall).
  - split; discriminate.
  - apply surjective_pairing.
  - exists t1, t2. intros Hat. refine (proj1 (Hall _ Hat _)).
    split_and!; intros z [= <-]; reflexivity.
Defined.

(** Messages as a brace, the user, a comma and the order. *)
#[local] Instance demo_message_codec : Codec SaveOrderTaskMessage := {
  marshal := fun o => Ret match o with
    | Some m => String "{" (som_UserID m ++ String "," (som_OrderID m))
    | None => "null"%string
    end;
  unmarshal := fun s => if String.eqb s "null" then Ret (mkSaveOrderTaskMessage "" "")
    else match Split s "," with
         | [String _ u; o] => Ret (mkSaveOrderTaskMessage u o)
         | _ => Fail (EExt "json")
         end;
  zero_value := mkSaveOrderTaskMessage "" "";
  encodable := fun m => no_char "," (som_UserID m) = true /\ no_char "," (som_OrderID m) = true }.

#[local] Instance demo_message_laws : CodecLaws SaveOrderTaskMessage.
Proof.
  constructor.
  - intros [u o] [Hu Ho]. simpl in Hu, Ho. eexists. split; [reflexivity|]. split; [done|].
    cbn [unmarshal demo_message_codec som_UserID som_OrderID].
    change (Split (String "{" (u ++ String "," o)) ",") with
      (Split (String "{" u ++ String "," o)%string ",").
    rewrite (Split_app_sep (String "{" u) o ",") by done.
    by rewrite Split_no_sep.
  - exists "null"%string. done.
  - intros o s p. split; [done|]. cbn [unmarshal demo_message_codec].
    destruct (String.eqb s "null"); [done|].
    destruct (Split s ",") as [|[|c u] [|o' [|] ] ]; done.
Qed.

#[local] Instance demo_event_codec : EventCodec CreatePartakeOrder := {
  marshal_event := fun e => Ret (ev_ID e) }.
#[local] Instance demo_outbox_sql : SqlOps MemSql := MemSqlOps (fun _ _ _ => false).
#[local] Instance demo_outbox_laws : SqlLaws MemSql := MemSqlLaws (fun _ _ _ => false).

Definition demo_outbox_repository : Repository :=
  mkRepository (mkDBRouter {["01"%string := "db1"%string]} 1 1) "db"
    (mkPublisher "zero" "rebate" "award") true.
Definition demo_outbox_aggregate : CreatePartakeOrder :=
  mkCreatePartakeOrder "u" 100 None false None false None (Some demo_partake_order).
Definition demo_outbox : res unit * MemWorld :=
  SaveLiteUserRaffleOrder demo_outbox_repository demo_outbox_aggregate demo_partake_world.

Lemma SaveLite_outbox_witness :
  demo_outbox.1 = Ret tt /\
  map tkp_Message (demo_outbox.2.2 "db1"%string Ttask) = ["{u,o1"%string] /\
  map uop_OrderID (demo_outbox.2.2 "db1"%string (Tuser_raffle_order "000")) = ["o1"%string] /\
  w_redis demo_outbox.2 = w_redis demo_partake_world.
Proof.
  split; [vm_compute; reflexivity|]. split; [vm_compute; reflexivity|].
  split; [vm_compute; reflexivity|].
  refine (proj1 (SaveLite_outbox demo_outbox_repository demo_outbox_aggregate demo_partake_order
    "db1" "000" demo_partake_world (Ret tt) demo_outbox.2 eq_refl eq_refl _ _)); [done|].
  apply injective_projections; [vm_compute; reflexivity|reflexivity].
Defined.
