(* ===== verification/Frames.v ===== *)
(** * Frames: computations that leave the database, or all stores, alone

    [reads m] says that [m] leaves every table as it is, [quiet m] that it only uses the
    environment (clock, randomness, messages), [off_redis m] that it leaves Redis alone
    and [spares k m] that it leaves the key [k]; the rules follow the shape of a
    computation and are collected in the hint databases [reads], [quiet] and [off_redis]. *)
From Stdlib Require Import ZArith Lia List Ascii String.
From stdpp Require Import base gmap strings list numbers.
From S2P Require Import Prelude GoLib Model Po Env Logic Mem Keys Router Cache Calls CacheRules Event Quota PartakeData.
Open Scope Z_scope.

Section Frames.
Context {R D E : Type} `{SqlLaws D}.
Notation World := (W R D E).

Definition reads {A} (m : M World A) : Prop := forall w, rows (m w).2 = rows w.

Lemma reads_ret {A} (a : A) : reads (ret a).
Proof. by intros w. Qed.
Lemma reads_fail {A} e : reads (A := A) (fail e).
Proof. by intros w. Qed.
Lemma reads_panic {A} p : reads (A := A) (panic p).
Proof. by intros w. Qed.
Lemma reads_lift {A} (x : res A) : reads (lift_res x).
Proof. by intros w. Qed.
Lemma reads_deref {A} (o : option A) : reads (deref o).
Proof. by destruct o. Qed.

Lemma reads_bind {A B} (m : M World A) (k : A -> M World B) :
  reads m -> (forall a, reads (k a)) -> reads (bind m k).
Proof.
  intros Hm Hk w. unfold bind. specialize (Hm w). destruct (m w) as [[a|e|p] w1]; cbn [snd] in *;
    [by rewrite Hk|done..].
Qed.

Lemma reads_attempt {A} (m : M World A) : reads m -> reads (attempt m).
Proof. intros Hm w. specialize (Hm w). unfold attempt. by destruct (m w) as [[] w1]. Qed.

Lemma reads_with_err {A} f (m : M World A) : reads m -> reads (with_err f m).
Proof. intros Hm w. specialize (Hm w). unfold with_err. by destruct (m w) as [[] w1]. Qed.

Lemma reads_env {A} (m : M E A) : reads (in_env m).
Proof. intros [[r e] d]. unfold in_env. by destruct (m e). Qed.
Lemma reads_redis {A} (m : M R A) : reads (in_redis m).
Proof. intros [[r e] d]. unfold in_redis. by destruct (m r). Qed.

Lemma reads_exec `{RedisOps R} {A} (p : prog A) : reads (exec p).
Proof.
  induction p as [x|B c k IH]; intros w; [done|]. cbn [exec].
  pose proof (reads_redis (rd_do c) w) as Hr. unfold redis_cmd.
  destruct (in_redis (rd_do c) w) as [reply w1]. cbn [snd] in Hr. by rewrite IH.
Qed.

Lemma reads_first db t p : reads (in_sql (sq_first db t p)).
Proof.
  intros [x d]. unfold in_sql, rows, w_sql. pose proof (sq_first_law db t p d) as Hl.
  destruct (sq_first db t p d) as [[a|e|q] d']; cbn [snd]; [by destruct Hl..|done].
Qed.
Lemma reads_find db t p : reads (in_sql (sq_find db t p)).
Proof.
  intros [x d]. unfold in_sql, rows, w_sql. pose proof (sq_find_law db t p d) as Hl.
  destruct (sq_find db t p d) as [[a|e|q] d']; cbn [snd]; [by destruct Hl|done..].
Qed.
Lemma reads_scan {A} db t p (col : row t -> A) : reads (in_sql (sq_scan db t p col)).
Proof.
  intros [x d]. unfold in_sql, rows, w_sql. pose proof (sq_scan_law A db t p col d) as Hl.
  destruct (sq_scan db t p col d) as [[[a|]|e|q] d']; cbn [snd]; [by destruct Hl|by destruct Hl|done..].
Qed.
End Frames.

Create HintDb reads.
#[export] Hint Resolve reads_ret reads_fail reads_panic reads_lift reads_deref reads_attempt
  reads_with_err reads_env reads_redis reads_exec reads_first reads_find reads_scan : reads.

(** Follow the shape of a computation. *)
Ltac reads_step :=
  match goal with
  | |- reads (bind _ _) => apply reads_bind; [|intros]
  | |- reads (attempt _) => apply reads_attempt
  | |- reads (with_err _ _) => apply reads_with_err
  | |- reads (match ?x with _ => _ end) => destruct x
  | |- reads (if ?x then _ else _) => destruct x
  | |- reads (let '_ := ?x in _) => destruct x
  | |- reads _ => solve [eauto 4 with reads]
  end.
Ltac solve_reads := repeat (cbv zeta; reads_step).

(** ** The cache and the queries *)
Section Queries.
Context {R D E : Type} `{RedisOps R} `{SqlLaws D} `{EnvOps E} `{LocalCacheOps E}.
Notation World := (W R D E).

Lemma reads_set {A} `{Codec A} opt (item : Item (R := R) (D := D) (E := E) A) :
  reads (item_value item) -> reads (set opt item).
Proof. intros Hv. unfold set, redis_cmd. solve_reads. Qed.

Lemma reads_getBytes opt key skip : reads (D := D) (getBytes opt key skip).
Proof. unfold getBytes, redis_cmd. solve_reads. Qed.

Lemma reads_get {A} `{Codec A} opt key skip : reads (D := D) (get (A := A) opt key skip).
Proof. unfold get. pose proof (reads_getBytes opt key skip). solve_reads. Qed.

Lemma reads_delete opt key : reads (D := D) (Delete opt key).
Proof. unfold Delete, redis_cmd. solve_reads. Qed.

Lemma reads_Once {A} `{Codec A} opt fuel (item : Item (R := R) (D := D) (E := E) A) v0 :
  reads (item_value item) -> reads (Once opt fuel item v0).
Proof.
  intros Hv. induction fuel as [|fuel IH]; cbn [Once]; [apply reads_panic|].
  unfold getSetItemBytesOnce. pose proof (reads_set opt item Hv).
  pose proof (reads_getBytes opt (it_Key _ item) (it_SkipLocalCache _ item)).
  pose proof (reads_delete opt (it_Key _ item)). solve_reads.
Qed.

(** A cached query reads when its loader does. *)
Lemma reads_cached {A} `{Codec A} opt fuel key t (do : M World (option A)) v0 :
  reads do -> reads (Once opt fuel (cached_item key t do) v0).
Proof. intros Hd. by apply reads_Once. Qed.

Lemma reads_first_or_nil {A} (m : M World A) : reads m -> reads (first_or_nil m).
Proof. intros Hm. unfold first_or_nil. solve_reads. Qed.
End Queries.

#[export] Hint Resolve reads_Once reads_first_or_nil reads_get : reads.

(** The queries too. *)
Ltac solve_queries :=
  repeat (cbv zeta;
    first [ apply reads_cached | apply reads_first_or_nil | reads_step ]).

(** ** Computations of the environment *)
Section Quiet.
Context {R D E : Type}.
Notation World := (W R D E).

Definition quiet {A} (m : M World A) : Prop :=
  forall w, w_redis (m w).2 = w_redis w /\ w_sql (m w).2 = w_sql w.

Lemma quiet_ret {A} (a : A) : quiet (ret a).
Proof. by intros w. Qed.
Lemma quiet_fail {A} e : quiet (A := A) (fail e).
Proof. by intros w. Qed.
Lemma quiet_panic {A} p : quiet (A := A) (panic p).
Proof. by intros w. Qed.
Lemma quiet_lift {A} (x : res A) : quiet (lift_res x).
Proof. by intros w. Qed.
Lemma quiet_env {A} (m : M E A) : quiet (in_env m).
Proof. intros [[r e] d]. unfold in_env. by destruct (m e). Qed.

Lemma quiet_bind {A B} (m : M World A) (k : A -> M World B) :
  quiet m -> (forall a, quiet (k a)) -> quiet (bind m k).
Proof.
  intros Hm Hk w. unfold bind. specialize (Hm w). destruct (m w) as [[a|e|p] w1]; cbn [snd] in *; [|done..].
  destruct (Hk a w1) as [-> ->]. exact Hm.
Qed.

Lemma quiet_attempt {A} (m : M World A) : quiet m -> quiet (attempt m).
Proof. intros Hm w. specialize (Hm w). unfold attempt. by destruct (m w) as [[] w1]. Qed.

Lemma quiet_with_err {A} f (m : M World A) : quiet m -> quiet (with_err f m).
Proof. intros Hm w. specialize (Hm w). unfold with_err. by destruct (m w) as [[] w1]. Qed.

Lemma quiet_for_each {A} (l : list A) (body : A -> M World unit) :
  (forall x, quiet (body x)) -> quiet (for_each l body).
Proof. intros Hb. induction l as [|x l IH]; [apply quiet_ret|]. cbn [for_each]. by apply quiet_bind. Qed.

Lemma quiet_random `{EnvOps E} n : quiet (RandomNumeric n).
Proof.
  induction n as [|n IH]; cbn [RandomNumeric]; [apply quiet_ret|].
  apply quiet_bind; [apply quiet_attempt, quiet_env|]. intros [z|e]; [|apply quiet_panic].
  apply quiet_bind; [done|]. intros. apply quiet_ret.
Qed.

(** The rule that uses it. *)
Lemma wp_quiet {A} (m : M World A) Q w :
  quiet m -> (forall r w', m w = (r, w') -> w_redis w' = w_redis w -> w_sql w' = w_sql w -> Q r w') -> wp m Q w.
Proof.
  intros Hm HQ. unfold wp. destruct (Hm w) as [H1 H2]. destruct (m w) as [r w'] eqn:Er. by apply HQ.
Qed.
End Quiet.

Create HintDb quiet.
#[export] Hint Resolve quiet_ret quiet_fail quiet_panic quiet_lift quiet_env quiet_random : quiet.

Ltac solve_quiet :=
  repeat (cbv zeta;
    match goal with
    | |- quiet (bind _ _) => apply quiet_bind; [|intros]
    | |- quiet (attempt _) => apply quiet_attempt
    | |- quiet (with_err _ _) => apply quiet_with_err
    | |- quiet (for_each _ _) => apply quiet_for_each; intros
    | |- quiet (match ?x with _ => _ end) => destruct x
    | |- quiet _ => solve [eauto 4 with quiet]
    end).

(** ** Computations that leave the keys of Redis alone, or one of them *)
Section Spares.
Context {R D E : Type} `{RedisLaws R} `{SqlOps D} `{EnvOps E} `{LocalCacheOps E}.
Notation World := (W R D E).

Definition off_redis {A} (m : M World A) : Prop := forall w, view (m w).2 = view w.

Definition spares {A} (k : string) (m : M World A) : Prop := forall w, view (m w).2 !! k = view w !! k.

Lemma off_ret {A} (a : A) : off_redis (ret a).
Proof. by intros w. Qed.
Lemma off_fail {A} e : off_redis (A := A) (fail e).
Proof. by intros w. Qed.
Lemma off_lift {A} (x : res A) : off_redis (lift_res x).
Proof. by intros w. Qed.
Lemma off_deref {A} (o : option A) : off_redis (deref o).
Proof. intros w. by destruct o. Qed.
Lemma off_sql {A} (m : M D A) : off_redis (in_sql m).
Proof. intros [x d]. unfold in_sql. by destruct (m d). Qed.
Lemma off_env {A} (m : M E A) : off_redis (in_env m).
Proof. intros [[r e] d]. unfold in_env. by destruct (m e). Qed.

Lemma off_bind {A B} (m : M World A) (k : A -> M World B) :
  off_redis m -> (forall a, off_redis (k a)) -> off_redis (bind m k).
Proof.
  intros Hm Hk w. unfold bind. specialize (Hm w). destruct (m w) as [[a|e|p] w1]; cbn [snd] in *; [|done..].
  by rewrite Hk.
Qed.

Lemma off_attempt {A} (m : M World A) : off_redis m -> off_redis (attempt m).
Proof. intros Hm w. specialize (Hm w). unfold attempt. by destruct (m w) as [[] w1]. Qed.

Lemma off_first_or_nil {A} (m : M World A) : off_redis m -> off_redis (first_or_nil m).
Proof.
  intros Hm. unfold first_or_nil. apply off_bind; [by apply off_attempt|]. intros [a|e]; [apply off_ret|].
  destruct (errors_is _ e); [apply off_ret|apply off_fail].
Qed.

Lemma spares_off {A} k (m : M World A) : off_redis m -> spares k m.
Proof. intros Hm w. by rewrite Hm. Qed.

Lemma spares_bind {A B} k (m : M World A) (f : A -> M World B) :
  spares k m -> (forall a, spares k (f a)) -> spares k (bind m f).
Proof.
  intros Hm Hf w. unfold bind. specialize (Hm w). destruct (m w) as [[a|e|p] w1]; cbn [snd] in *; [|done..].
  by rewrite Hf.
Qed.

(** A cached query writes its own key only. *)
Lemma spares_cached {A} `{Codec A} fuel k key t (do : M World (option A)) v0 :
  off_redis do -> key <> k -> spares k (Once redis_only fuel (cached_item key t do) v0).
Proof.
  intros Hd Hne w. apply (Once_frame (cached_item key t do) fuel v0); [exact Hd|by intros ->].
Qed.

(** The state a run leaves. *)
Lemma spares_run {A} k (m : M World A) (w w' : World) a :
  spares k m -> m w = (a, w') -> view w' !! k = view w !! k.
Proof. intros Hm Er. specialize (Hm w). by rewrite Er in Hm. Qed.
End Spares.

Create HintDb off_redis.
#[export] Hint Resolve off_ret off_fail off_lift off_deref off_sql off_env : off_redis.

Ltac solve_off_redis :=
  repeat (cbv zeta;
    match goal with
    | |- off_redis (bind _ _) => apply off_bind; [|intros]
    | |- off_redis (first_or_nil _) => apply off_first_or_nil
    | |- off_redis (match ?x with _ => _ end) => destruct x
    | |- off_redis _ => solve [eauto 4 with off_redis]
    end).
