(* ===== verification/PartakeLedger.v ===== *)
(** * PartakeLedger: the ledger of the raffle orders

    [SaveCreatePartakeOrderAggregate] and the two counts of
    [internal/data/activity_partake.go].  A short order was written when the user took
    part; this transaction, run from the task queue as often as the message is
    delivered, debits the account, its month and its day, and marks the order. *)
From Stdlib Require Import ZArith Lia List Ascii String.
From stdpp Require Import base gmap strings list numbers.
From S2P Require Import Prelude GoLib Model Po Env Logic Mem Keys Router Cache Event Quota PartakeData.
Open Scope Z_scope.

(** The month and day accounts made from the total account on their first debit. *)
Definition new_month_row (userID : string) (activityID : Z) (orderMonth : string)
    (accountPO : RaffleActivityAccountPO) : RaffleActivityAccountMonthPO :=
  mkRaffleActivityAccountMonthPO 0 userID activityID orderMonth
    (aap_MonthCount accountPO) (aap_MonthCountSurplus accountPO - 1) zero_time zero_time.
Definition new_day_row (userID : string) (activityID : Z) (orderDay : string)
    (accountPO : RaffleActivityAccountPO) : RaffleActivityAccountDayPO :=
  mkRaffleActivityAccountDayPO 0 userID activityID orderDay
    (aap_DayCount accountPO) (aap_DayCountSurplus accountPO - 1) zero_time zero_time.

Section Ledger.
Context {R D E : Type} `{SqlOps D} `{EnvOps E}.
Notation World := (W R D E).
Variable r : Repository.

(** [First], with a missing row reported as the error of the business layer. *)
Definition first_or_record_not_found {A} (m : M World A) : M World A :=
  with_err (fun err => if errors_is is_not_found err then ErrRecordNotFound else err) m.

(** 2.2 *)
Definition debit_month_account (db : dbh) (userID : string) (activityID : Z) (orderMonth : string)
    (t : time) (accountPO : RaffleActivityAccountPO) : M World unit :=
  let! found := attempt (in_sql (sq_first db Traffle_activity_account_month
                  (is_account_month userID activityID orderMonth))) in
  match found with
  | inl monthPO =>
      if amp_MonthCountSurplus monthPO <=? 0 then fail ErrActivityAccountMonthCountSurplusNotEnough
      else
        let! RowsAffected := in_sql (sq_update db Traffle_activity_account_month
                               (is_account_month userID activityID orderMonth) (debit_month t)) in
        if RowsAffected =? 0 then fail ErrActivityAccountMonthCountSurplusNotEnough else ret tt
  | inr err =>
      if errors_is is_not_found err then
        let! created := attempt (in_sql (sq_create db Traffle_activity_account_month
                          (new_month_row userID activityID orderMonth accountPO))) in
        match created with
        | inl _ => ret tt
        | inr createErr =>
            if errors_is is_duplicated_key createErr then fail ErrDBIndexDuplicate else fail createErr
        end
      else fail err
  end.

(** 2.3 *)
Definition debit_day_account (db : dbh) (userID : string) (activityID : Z) (orderDay : string)
    (t : time) (accountPO : RaffleActivityAccountPO) : M World unit :=
  let! found := attempt (in_sql (sq_first db Traffle_activity_account_day
                  (is_account_day userID activityID orderDay))) in
  match found with
  | inl dayPO =>
      if adp_DayCountSurplus dayPO <=? 0 then fail ErrActivityAccountDayCountSurplusNotEnough
      else
        let! RowsAffected := in_sql (sq_update db Traffle_activity_account_day
                               (is_account_day userID activityID orderDay) (debit_day t)) in
        if RowsAffected =? 0 then fail ErrActivityAccountDayCountSurplusNotEnough else ret tt
  | inr err =>
      if errors_is is_not_found err then
        let! created := attempt (in_sql (sq_create db Traffle_activity_account_day
                          (new_day_row userID activityID orderDay accountPO))) in
        match created with
        | inl _ => ret tt
        | inr createErr =>
            if errors_is is_duplicated_key createErr then fail ErrDBIndexDuplicate else fail createErr
        end
      else fail err
  end.

(** The function passed to [db.Transaction]. *)
Definition ledger_tx (db : dbh) (tableSuffix userID orderID : string) : M World unit :=
  let orderTable := Tuser_raffle_order tableSuffix in
  let! orderPO := first_or_record_not_found
                    (in_sql (sq_first db orderTable (is_order userID orderID))) in
  if String.eqb (uop_AccountSyncState orderPO) AccountSyncStateCompleted then ret tt
  else
    let activityID := uop_ActivityID orderPO in
    let orderMonth := Format_month (E := E) (uop_OrderTime orderPO) in
    let orderDay := Format_day (E := E) (uop_OrderTime orderPO) in
    let! t := now in
    let! accountPO := first_or_record_not_found
                        (in_sql (sq_first db Traffle_activity_account (is_account userID activityID))) in
    if aap_TotalCountSurplus accountPO <=? 0 then fail ErrActivityQuotaError
    else if aap_MonthCountSurplus accountPO <=? 0 then fail ErrActivityAccountMonthCountSurplusNotEnough
    else if aap_DayCountSurplus accountPO <=? 0 then fail ErrActivityAccountDayCountSurplusNotEnough
    else
      in_sql (sq_update db Traffle_activity_account (is_account userID activityID) (debit_account t)) ;;;
      debit_month_account db userID activityID orderMonth t accountPO ;;;
      debit_day_account db userID activityID orderDay t accountPO ;;;
      in_sql (sq_update db orderTable (is_order userID orderID) (complete_order t)) ;;;
      ret tt.

Definition SaveCreatePartakeOrderAggregate (aggregate : CreatePartakeOrder) : M World unit :=
  let userID := po_UserID aggregate in
  match po_UserRaffleOrder aggregate with
  | None => fail ErrInvalidParams
  | Some order =>
      if String.eqb (uo_OrderID order) "" then fail ErrInvalidParams
      else
        let orderID := uo_OrderID order in
        let! dbs := DBStrategy_ r userID in
        match dbs.1 with
        | None => fail ErrDBRouterError
        | Some db => sq_transaction (X := R * E) db (ledger_tx db dbs.2 userID orderID)
        end
  end.

Definition QueryRaffleActivityAccountPartakeCount (userID : string) (activityID : Z) : M World Z :=
  let! dbs := DBStrategy_ r userID in
  let! db := deref dbs.1 in
  let! p := first_or_nil (in_sql (sq_first db Traffle_activity_account (is_account userID activityID))) in
  ret (match p with
       | Some po => wrap64 (aap_TotalCount po - aap_TotalCountSurplus po)
       | None => 0
       end).

Definition QueryRaffleActivityAccountDayPartakeCount (userID : string) (activityID : Z) : M World Z :=
  let! dbs := DBStrategy_ r userID in
  let! t := now in
  let day := Format_day (E := E) t in
  let! db := deref dbs.1 in
  let! p := first_or_nil (in_sql (sq_first db Traffle_activity_account_day
              (is_account_day userID activityID day))) in
  ret (match p with
       | Some po => wrap64 (adp_DayCount po - adp_DayCountSurplus po)
       | None => 0
       end).
End Ledger.

(** ** What one run does *)
Section LedgerFacts.
Context {R D E : Type} `{SqlLaws D} `{EnvLaws E}.
Notation World := (W R D E).
Notation tables := (dbh -> forall t, list (row t)).

Definition month_debited (userID : string) (activityID : Z) (month : string) (t : time)
    (acc : RaffleActivityAccountPO) (l l' : list RaffleActivityAccountMonthPO) : Prop :=
  match List.find (is_account_month userID activityID month) l with
  | Some p => 0 < amp_MonthCountSurplus p /\
      updated (t := Traffle_activity_account_month)
        (is_account_month userID activityID month) (debit_month t) l l'
  | None => added (t := Traffle_activity_account_month) (new_month_row userID activityID month acc) l l'
  end.

Definition day_debited (userID : string) (activityID : Z) (day : string) (t : time)
    (acc : RaffleActivityAccountPO) (l l' : list RaffleActivityAccountDayPO) : Prop :=
  match List.find (is_account_day userID activityID day) l with
  | Some p => 0 < adp_DayCountSurplus p /\
      updated (t := Traffle_activity_account_day)
        (is_account_day userID activityID day) (debit_day t) l l'
  | None => added (t := Traffle_activity_account_day) (new_day_row userID activityID day acc) l l'
  end.

(** A debit takes one unit of every surplus and leaves the counts. *)
Definition one_unit_taken : Prop := forall t a m d o,
  aap_TotalCountSurplus (debit_account t a) = aap_TotalCountSurplus a - 1 /\
  aap_MonthCountSurplus (debit_account t a) = aap_MonthCountSurplus a - 1 /\
  aap_DayCountSurplus (debit_account t a) = aap_DayCountSurplus a - 1 /\
  aap_TotalCount (debit_account t a) = aap_TotalCount a /\
  amp_MonthCountSurplus (debit_month t m) = amp_MonthCountSurplus m - 1 /\
  adp_DayCountSurplus (debit_day t d) = adp_DayCountSurplus d - 1 /\
  uop_AccountSyncState (complete_order t o) = AccountSyncStateCompleted.

(** The whole debit of one order: an order that was not completed, an account with
    quota left, one unit less on the account, its month and its day, the order
    completed, and nothing else. *)
Definition ledger_moved (db : dbh) (tableSuffix userID orderID : string) (f f' : tables) : Prop :=
  exists order acc t,
    List.find (is_order userID orderID) (f db (Tuser_raffle_order tableSuffix)) = Some order /\
    uop_AccountSyncState order <> AccountSyncStateCompleted /\
    List.find (is_account userID (uop_ActivityID order)) (f db Traffle_activity_account) = Some acc /\
    0 < aap_TotalCountSurplus acc /\ 0 < aap_MonthCountSurplus acc /\ 0 < aap_DayCountSurplus acc /\
    updated (t := Traffle_activity_account) (is_account userID (uop_ActivityID order))
      (debit_account t) (f db Traffle_activity_account) (f' db Traffle_activity_account) /\
    month_debited userID (uop_ActivityID order) (Format_month (E := E) (uop_OrderTime order)) t acc
      (f db Traffle_activity_account_month) (f' db Traffle_activity_account_month) /\
    day_debited userID (uop_ActivityID order) (Format_day (E := E) (uop_OrderTime order)) t acc
      (f db Traffle_activity_account_day) (f' db Traffle_activity_account_day) /\
    updated (t := Tuser_raffle_order tableSuffix) (is_order userID orderID) (complete_order t)
      (f db (Tuser_raffle_order tableSuffix)) (f' db (Tuser_raffle_order tableSuffix)) /\
    forall db' t', (db', t') <> (db, Traffle_activity_account) ->
      (db', t') <> (db, Traffle_activity_account_month) ->
      (db', t') <> (db, Traffle_activity_account_day) ->
      (db', t') <> (db, Tuser_raffle_order tableSuffix) -> f' db' t' = f db' t'.

Lemma debit_month_spec db userID activityID month t acc (w : World) :
  wp (debit_month_account db userID activityID month t acc) (fun r w' =>
    match r with
    | Ret _ => same_rest w w' /\
        month_debited userID activityID month t acc
          (rows w db Traffle_activity_account_month) (rows w' db Traffle_activity_account_month) /\
        other_tables db Traffle_activity_account_month (rows w) (rows w')
    | Fail _ => same_rest w w'
    | Panic _ => False
    end) w.
Proof.
  unfold debit_month_account, month_debited.
  apply wp_attempt, wp_first. intros w1 S1 R1. split.
  - intros p Hp. assert (Ef : List.find (is_account_month userID activityID month)
      (rows w db Traffle_activity_account_month) = Some p) by exact Hp.
    rewrite Ef.
    destruct (Z.leb_spec (amp_MonthCountSurplus p) 0); [done|].
    apply wp_bind, wp_update.
    + intros w2 n S2 U2 O2 _ _. rewrite R1 in U2, O2. cbn [then_].
      assert (same_rest w w2) by (unfold same_rest in *; congruence).
      destruct (n =? 0); [done|]. apply wp_ret. done.
    + intros w2 e S2. cbn [then_]. unfold same_rest in *; congruence.
  - intros e He. destruct (errors_is is_not_found e); [|done].
    assert (Ef : List.find (is_account_month userID activityID month)
      (rows w db Traffle_activity_account_month) = None) by by apply He.
    rewrite Ef. apply wp_attempt, wp_create; [done|..].
    + intros w2 p S2 _ P2 A2 O2. rewrite R1 in A2, O2. apply wp_ret.
      split_and!; [unfold same_rest in *; congruence|by eapply added_intro|done].
    + intros w2 e2 S2 _.
      assert (same_rest w w2) by (unfold same_rest in *; congruence).
      by destruct (errors_is is_duplicated_key e2).
Qed.

Lemma debit_day_spec db userID activityID day t acc (w : World) :
  wp (debit_day_account db userID activityID day t acc) (fun r w' =>
    match r with
    | Ret _ => same_rest w w' /\
        day_debited userID activityID day t acc
          (rows w db Traffle_activity_account_day) (rows w' db Traffle_activity_account_day) /\
        other_tables db Traffle_activity_account_day (rows w) (rows w')
    | Fail _ => same_rest w w'
    | Panic _ => False
    end) w.
Proof.
  unfold debit_day_account, day_debited.
  apply wp_attempt, wp_first. intros w1 S1 R1. split.
  - intros p Hp. assert (Ef : List.find (is_account_day userID activityID day)
      (rows w db Traffle_activity_account_day) = Some p) by exact Hp.
    rewrite Ef.
    destruct (Z.leb_spec (adp_DayCountSurplus p) 0); [done|].
    apply wp_bind, wp_update.
    + intros w2 n S2 U2 O2 _ _. rewrite R1 in U2, O2. cbn [then_].
      assert (same_rest w w2) by (unfold same_rest in *; congruence).
      destruct (n =? 0); [done|]. apply wp_ret. done.
    + intros w2 e S2. cbn [then_]. unfold same_rest in *; congruence.
  - intros e He. destruct (errors_is is_not_found e); [|done].
    assert (Ef : List.find (is_account_day userID activityID day)
      (rows w db Traffle_activity_account_day) = None) by by apply He.
    rewrite Ef. apply wp_attempt, wp_create; [done|..].
    + intros w2 p S2 _ P2 A2 O2. rewrite R1 in A2, O2. apply wp_ret.
      split_and!; [unfold same_rest in *; congruence|by eapply added_intro|done].
    + intros w2 e2 S2 _.
      assert (same_rest w w2) by (unfold same_rest in *; congruence).
      by destruct (errors_is is_duplicated_key e2).
Qed.

Definition completed (db : dbh) (tableSuffix userID orderID : string) (f : tables) : Prop :=
  exists order,
    List.find (is_order userID orderID) (f db (Tuser_raffle_order tableSuffix)) = Some order /\
    uop_AccountSyncState order = AccountSyncStateCompleted.

Lemma ledger_tx_spec db tableSuffix userID orderID (w : World) :
  wp (ledger_tx db tableSuffix userID orderID) (fun r w' =>
    w_redis w' = w_redis w /\
    match r with
    | Ret _ => rows w' = rows w /\ completed db tableSuffix userID orderID (rows w) \/
               ledger_moved db tableSuffix userID orderID (rows w) (rows w')
    | Fail _ => True
    | Panic _ => False
    end) w.
Proof.
  unfold ledger_tx, first_or_record_not_found.
  apply wp_bind, wp_with_err, wp_first. intros w1 S1 R1.
  assert (Q1 : w_redis w1 = w_redis w) by (unfold w_redis; by rewrite S1).
  split; [intros order Ho; cbn [then_]|done].
  destruct (String.eqb_spec (uop_AccountSyncState order) AccountSyncStateCompleted) as [Ec|Ec].
  { apply wp_ret. split; [done|]. left. split; [done|]. by exists order. }
  apply wp_bind, wp_now. intros t w2 Q2 R2. cbn [then_].
  assert (R2' : rows w2 = rows w) by (rewrite <- R1; unfold rows; by rewrite R2).
  apply wp_bind, wp_with_err, wp_first. intros w3 S3 R3. rewrite R2' in R3.
  assert (Q3 : w_redis w3 = w_redis w) by (rewrite <- Q1, <- Q2; unfold w_redis; by rewrite S3).
  split; [intros acc Ha; cbn [then_]|done]. rewrite R2' in Ha.
  destruct (Z.leb_spec (aap_TotalCountSurplus acc) 0) as [|Ht]; [done|].
  destruct (Z.leb_spec (aap_MonthCountSurplus acc) 0) as [|Hm]; [done|].
  destruct (Z.leb_spec (aap_DayCountSurplus acc) 0) as [|Hd]; [done|].
  assert (Hin : In acc (rows w db Traffle_activity_account)) by exact (proj1 (List.find_some _ _ Ha)).
  apply wp_bind, wp_update.
  2: { intros w4 e S4. cbn [then_]. unfold w_redis in *. by rewrite S4. }
  intros w4 n4 S4 U4 O4 _ _. cbn [then_]. rewrite R3 in U4, O4.
  apply wp_bind. eapply wp_mono; [apply debit_month_spec|].
  intros [[]|e|q] w5 H5; cbn [then_]; [|split; [unfold w_redis in *; by rewrite H5, S4|done]|done].
  destruct H5 as (S5 & M5 & O5). rewrite O4 in M5 by done.
  apply wp_bind. eapply wp_mono; [apply debit_day_spec|].
  intros [[]|e|q] w6 H6; cbn [then_]; [|split; [unfold w_redis in *; by rewrite H6, S5, S4|done]|done].
  destruct H6 as (S6 & M6 & O6). rewrite O5, O4 in M6 by done.
  apply wp_bind, wp_update.
  2: { intros w7 e S7. cbn [then_]. unfold w_redis in *. by rewrite S7, S6, S5, S4. }
  intros w7 n7 S7 U7 O7 _ _. cbn [then_]. apply wp_ret.
  split; [unfold w_redis in *; by rewrite S7, S6, S5, S4|]. right.
  rewrite O6, O5, O4 in U7 by done.
  exists order, acc, t. split_and!; try done.
  - by rewrite O7, O6, O5.
  - by rewrite O7, O6.
  - by rewrite O7.
  - intros db' t' N1 N2 N3 N4. by rewrite O7, O6, O5, O4.
Qed.

Variable r : Repository.

(** What a run of the whole operation leaves, for the shard of the user. *)
Lemma SaveCreate_run aggregate order db tableSuffix (w : World) rr w' :
  po_UserRaffleOrder aggregate = Some order -> uo_OrderID order <> EmptyString ->
  DBStrategy (rp_routerDB r) (po_UserID aggregate) = Ret (Some db, tableSuffix) ->
  SaveCreatePartakeOrderAggregate r aggregate w = (rr, w') ->
  w_redis w' = w_redis w /\
  match rr with
  | Ret _ => rows w' = rows w /\ completed db tableSuffix (po_UserID aggregate) (uo_OrderID order) (rows w)
             \/ ledger_moved db tableSuffix (po_UserID aggregate) (uo_OrderID order) (rows w) (rows w')
  | Fail _ => rows w' = rows w \/
              ledger_moved db tableSuffix (po_UserID aggregate) (uo_OrderID order) (rows w) (rows w')
  | Panic _ => False
  end.
Proof.
  intros Ho Hid Hroute Hrun. pattern rr, w'. eapply wp_run; [|exact Hrun].
  unfold SaveCreatePartakeOrderAggregate. rewrite Ho.
  destruct (String.eqb_spec (uo_OrderID order) ""); [done|].
  unfold DBStrategy_. rewrite Hroute. apply wp_lift. cbn [then_ fst snd].
  apply wp_transaction.
  2: { intros w2 e S2 R2 _. split; [unfold w_redis; by rewrite S2|by left]. }
  intros w0 R0 S0. eapply wp_mono; [apply ledger_tx_spec|].
  assert (Q0 : w_redis w0 = w_redis w) by (unfold w_redis; by rewrite S0).
  intros [[]|e|q] w1 [Q1 Hm]; [| |done].
  - rewrite R0 in Hm. split.
    + intros w2 S2 R2. rewrite R2. split; [unfold w_redis in *; rewrite S2; congruence|done].
    + intros w2 e S2 R2 _. split; [unfold w_redis in *; rewrite S2; congruence|].
      destruct R2 as [->| ->]; [by left|]. destruct Hm as [[-> _]|Hm]; [by left|by right].
  - intros w2 S2 R2. split; [unfold w_redis in *; rewrite S2; congruence|by left].
Qed.

(** C4. The ledger transaction is all or nothing: a run that succeeds either found the
    order already completed and changed no table, or debited exactly the account, its
    month and its day by one -- each of which had quota left, the month and day rows
    being created from the account when missing -- and completed the order; a run that
    fails leaves every table as it was, unless only the answer of the commit was lost. *)
Theorem SaveCreate_all_or_nothing (aggregate : CreatePartakeOrder) (order : UserRaffleOrder)
    (db tableSuffix : string) (w : World) rr w'
    (Horder : po_UserRaffleOrder aggregate = Some order) (Hid : uo_OrderID order <> EmptyString)
    (Hroute : DBStrategy (rp_routerDB r) (po_UserID aggregate) = Ret (Some db, tableSuffix))
    (Hrun : SaveCreatePartakeOrderAggregate r aggregate w = (rr, w')) :
  one_unit_taken /\
  w_redis w' = w_redis w /\
  match rr with
  | Ret _ => rows w' = rows w /\ completed db tableSuffix (po_UserID aggregate) (uo_OrderID order) (rows w)
             \/ ledger_moved db tableSuffix (po_UserID aggregate) (uo_OrderID order) (rows w) (rows w')
  | Fail _ => rows w' = rows w \/
              ledger_moved db tableSuffix (po_UserID aggregate) (uo_OrderID order) (rows w) (rows w')
  | Panic _ => False
  end.
Proof. split; [done|by eapply SaveCreate_run]. Qed.

(** A debited order is completed. *)
Lemma ledger_moved_completed db tableSuffix userID orderID f f' :
  ledger_moved db tableSuffix userID orderID f f' -> completed db tableSuffix userID orderID f'.
Proof.
  intros (order & acc & t & Ho & _ & _ & _ & _ & _ & _ & _ & _ & Hu & _).
  destruct (updated_find (t := Tuser_raffle_order tableSuffix) (is_order userID orderID)
              (is_order userID orderID) (complete_order t) _ _ order Hu) as (o' & Hf & Hp).
  - intros [] []; cbn; unfold is_order; simpl. intros [= -> -> -> -> -> -> _ -> ->]. done.
  - done.
  - exact Ho.
  - exists o'. split; [exact Hf|].
    rewrite (proj2 (List.find_some _ _ Ho)) in Hp.
    apply (f_equal uop_AccountSyncState) in Hp. exact Hp.
Qed.

(** A completed order makes the operation do nothing. *)
Lemma SaveCreate_completed aggregate order db tableSuffix (w : World) rr w' :
  po_UserRaffleOrder aggregate = Some order -> uo_OrderID order <> EmptyString ->
  DBStrategy (rp_routerDB r) (po_UserID aggregate) = Ret (Some db, tableSuffix) ->
  completed db tableSuffix (po_UserID aggregate) (uo_OrderID order) (rows w) ->
  SaveCreatePartakeOrderAggregate r aggregate w = (rr, w') ->
  rows w' = rows w /\ w_redis w' = w_redis w.
Proof.
  intros Ho Hid Hroute (o & Hf & Hc) Hrun. revert Hrun.
  apply (wp_run _ (fun _ w' => rows w' = rows w /\ w_redis w' = w_redis w)).
  unfold SaveCreatePartakeOrderAggregate. rewrite Ho.
  destruct (String.eqb_spec (uo_OrderID order) ""); [done|].
  unfold DBStrategy_. rewrite Hroute. apply wp_lift. cbn [then_ fst snd].
  apply wp_transaction.
  2: { intros w2 e S2 R2 _. unfold w_redis. by rewrite S2. }
  intros w0 R0 S0. unfold ledger_tx, first_or_record_not_found.
  apply wp_bind, wp_with_err, wp_first. intros w1 S1 R1.
  assert (Hq : forall w2, same_rest w1 w2 -> w_redis w2 = w_redis w).
  { intros w2 S2. unfold w_redis. by rewrite S2, S1, S0. }
  split.
  - intros o' Ho'. rewrite R0 in Ho'. assert (Eo : Some o' = Some o) by (rewrite <- Hf; symmetry; exact Ho').
    injection Eo as ->.
    cbn [then_]. rewrite Hc. apply wp_ret. split.
    + intros w2 S2 ->. by rewrite R1, R0, Hq.
    + intros w2 e S2 [->| ->] _; by rewrite ?R1, ?R0, Hq.
  - intros e He w2 S2 ->. by rewrite Hq.
Qed.

(** Delivering a task message again is harmless: after a run that succeeded,
    another run of the same order, whatever its result, changes no table and nothing
    in Redis. *)
Lemma SaveCreate_idempotent (aggregate : CreatePartakeOrder) (order : UserRaffleOrder)
    (db tableSuffix : string) (w w1 w2 : World) u rr
    (Horder : po_UserRaffleOrder aggregate = Some order) (Hid : uo_OrderID order <> EmptyString)
    (Hroute : DBStrategy (rp_routerDB r) (po_UserID aggregate) = Ret (Some db, tableSuffix))
    (Hrun1 : SaveCreatePartakeOrderAggregate r aggregate w = (Ret u, w1))
    (Hrun2 : SaveCreatePartakeOrderAggregate r aggregate w1 = (rr, w2)) :
  rows w2 = rows w1 /\ w_redis w2 = w_redis w1.
Proof.
  destruct (SaveCreate_run _ _ _ _ _ _ _ Horder Hid Hroute Hrun1) as [_ Hr].
  eapply SaveCreate_completed; [exact Horder|exact Hid|exact Hroute| |exact Hrun2].
  destruct Hr as [[-> Hc]|Hm]; [done|by eapply ledger_moved_completed].
Qed.
End LedgerFacts.

(** ** Witnesses

    One shard; user [u] has two draws left, on an account without rows for the day and
    the month yet, and one short order. *)
Definition demo_router : DBRouter := mkDBRouter {["01"%string := "db1"%string]} 1 1.
Definition demo_repository : Repository := mkRepository demo_router "db"
  (mkPublisher "zero" "rebate" "award") true.

Definition demo_ledger_rows : MemSql := fun _ t =>
  match t return list (row t) with
  | Traffle_activity_account => [mkRaffleActivityAccountPO 1 "u" 100 3 2 3 2 3 2 zero_time zero_time]
  | Tuser_raffle_order _ =>
      [mkUserRaffleOrderPO 1 "u" 100 "a" 7 "o1" 0 "create" AccountSyncStateCreate zero_time zero_time]
  | _ => []
  end.
Definition demo_ledger_world : MemWorld := mem_world ∅ demo_ledger_rows (86400 * Second) [].
Definition demo_ledger_order : UserRaffleOrder := mkUserRaffleOrder "u" 100 "a" 7 "o1" 0 "create".
Definition demo_ledger_aggregate : CreatePartakeOrder :=
  mkCreatePartakeOrder "u" 100 None false None false None (Some demo_ledger_order).

#[local] Instance demo_sql : SqlOps MemSql := MemSqlOps (fun _ _ _ => false).
#[local] Instance demo_sql_laws : SqlLaws MemSql := MemSqlLaws (fun _ _ _ => false).

Definition demo_save (w : MemWorld) : res unit * MemWorld :=
  SaveCreatePartakeOrderAggregate demo_repository demo_ledger_aggregate w.

Lemma SaveCreate_all_or_nothing_witness :
  (demo_save demo_ledger_world).1 = Ret tt /\
  map aap_TotalCountSurplus ((demo_save demo_ledger_world).2.2 "db1"%string Traffle_activity_account) = [1] /\
  map adp_DayCountSurplus ((demo_save demo_ledger_world).2.2 "db1"%string Traffle_activity_account_day) = [1] /\
  w_redis (demo_save demo_ledger_world).2 = w_redis demo_ledger_world /\
  (rows (demo_save demo_ledger_world).2 = rows demo_ledger_world /\
   completed "db1" "000" "u" "o1" (rows demo_ledger_world) \/
   ledger_moved (E := MemEnv) "db1" "000" "u" "o1" (rows demo_ledger_world)
     (rows (demo_save demo_ledger_world).2)).
Proof.
  split; [vm_compute; reflexivity|]. split; [vm_compute; reflexivity|].
  split; [vm_compute; reflexivity|].
  refine (proj2 (SaveCreate_all_or_nothing demo_repository demo_ledger_aggregate demo_ledger_order
    "db1" "000" demo_ledger_world (Ret tt) (demo_save demo_ledger_world).2 eq_refl _ eq_refl _)).
  - discriminate.
  - apply injective_projections; [vm_compute; reflexivity|reflexivity].
Defined.

Lemma SaveCreate_idempotent_witness :
  rows (demo_save (demo_save demo_ledger_world).2).2 = rows (demo_save demo_ledger_world).2 /\
  w_redis (demo_save (demo_save demo_ledger_world).2).2 = w_redis (demo_save demo_ledger_world).2.
Proof.
  refine (SaveCreate_idempotent demo_repository demo_ledger_aggregate demo_ledger_order
    "db1" "000" demo_ledger_world (demo_save demo_ledger_world).2
    (demo_save (demo_save demo_ledger_world).2).2 tt
    (demo_save (demo_save demo_ledger_world).2).1 eq_refl _ eq_refl _ _).
  - discriminate.
  - apply injective_projections; [vm_compute; reflexivity|reflexivity].
  - apply surjective_pairing.
Defined.
