(* ===== verification/QuotaData.v ===== *)
(** * QuotaData: the repository of the activity quota

    [internal/data/activity_quota.go]: the cached configuration, the recharge
    transaction, the stock of a sku in Redis, and the assembly of the accounts'
    counters that taking part ([Quota]) consumes. *)
From Stdlib Require Import ZArith Lia List Ascii String.
From stdpp Require Import base gmap strings list numbers.
From S2P Require Import Prelude GoLib Model Po Env Logic Mem Keys Router Cache Event Quota PartakeData.
Open Scope Z_scope.

(** [Updates] of the recharge: an [int] column plus a count. *)
Definition recharge_account (total day month : Z) (now : time) (p : RaffleActivityAccountPO)
    : RaffleActivityAccountPO :=
  {| aap_ID := aap_ID p; aap_UserID := aap_UserID p; aap_ActivityID := aap_ActivityID p;
     aap_TotalCount := aap_TotalCount p + total;
     aap_TotalCountSurplus := aap_TotalCountSurplus p + total;
     aap_DayCount := aap_DayCount p + day;
     aap_DayCountSurplus := aap_DayCountSurplus p + day;
     aap_MonthCount := aap_MonthCount p + month;
     aap_MonthCountSurplus := aap_MonthCountSurplus p + month;
     aap_CreateTime := aap_CreateTime p; aap_UpdateTime := now |}.
Definition recharge_day (day : Z) (now : time) (p : RaffleActivityAccountDayPO)
    : RaffleActivityAccountDayPO :=
  {| adp_ID := adp_ID p; adp_UserID := adp_UserID p; adp_ActivityID := adp_ActivityID p;
     adp_Day := adp_Day p; adp_DayCount := adp_DayCount p + day;
     adp_DayCountSurplus := adp_DayCountSurplus p + day;
     adp_CreateTime := adp_CreateTime p; adp_UpdateTime := now |}.
Definition recharge_month (month : Z) (now : time) (p : RaffleActivityAccountMonthPO)
    : RaffleActivityAccountMonthPO :=
  {| amp_ID := amp_ID p; amp_UserID := amp_UserID p; amp_ActivityID := amp_ActivityID p;
     amp_Month := amp_Month p; amp_MonthCount := amp_MonthCount p + month;
     amp_MonthCountSurplus := amp_MonthCountSurplus p + month;
     amp_CreateTime := amp_CreateTime p; amp_UpdateTime := now |}.

(** [Update("stock_count_surplus", ...)] of the two stock tables. *)
Definition debit_sku (now : time) (p : RaffleActivitySkuPO) : RaffleActivitySkuPO :=
  {| rsp_ID := rsp_ID p; rsp_Sku := rsp_Sku p; rsp_ActivityID := rsp_ActivityID p;
     rsp_ActivityCountID := rsp_ActivityCountID p; rsp_StockCount := rsp_StockCount p;
     rsp_StockCountSurplus := rsp_StockCountSurplus p - 1;
     rsp_CreateTime := rsp_CreateTime p; rsp_UpdateTime := now |}.
Definition clear_sku_stock (p : SkuStockRow) : SkuStockRow := mkSkuStockRow (ssr_Sku p) 0.

(** The rows of a recharge. *)
Definition quota_order_po (o : ActivityOrder) : RaffleActivityOrderPO :=
  {| rop_ID := 0; rop_UserID := ao_UserID o; rop_Sku := ao_Sku o; rop_ActivityID := ao_ActivityID o;
     rop_ActivityName := ao_ActivityName o; rop_StrategyID := ao_StrategyID o;
     rop_OrderID := ao_OrderID o; rop_OrderTime := ao_OrderTime o;
     rop_TotalCount := ao_TotalCount o; rop_DayCount := ao_DayCount o;
     rop_MonthCount := ao_MonthCount o; rop_State := ao_State o;
     rop_OutBusinessNo := ao_OutBusinessNo o;
     rop_CreateTime := zero_time; rop_UpdateTime := zero_time |}.
Definition quota_account_po (q : CreateQuotaOrder) : RaffleActivityAccountPO :=
  mkRaffleActivityAccountPO 0 (qo_UserID q) (qo_ActivityID q) (qo_TotalCount q) (qo_TotalCount q)
    (qo_DayCount q) (qo_DayCount q) (qo_MonthCount q) (qo_MonthCount q) zero_time zero_time.
Definition quota_day_po (q : CreateQuotaOrder) (day : string) : RaffleActivityAccountDayPO :=
  mkRaffleActivityAccountDayPO 0 (qo_UserID q) (qo_ActivityID q) day (qo_DayCount q) (qo_DayCount q)
    zero_time zero_time.
Definition quota_month_po (q : CreateQuotaOrder) (month : string) : RaffleActivityAccountMonthPO :=
  mkRaffleActivityAccountMonthPO 0 (qo_UserID q) (qo_ActivityID q) month
    (qo_MonthCount q) (qo_MonthCount q) zero_time zero_time.

(** The shard of a user's result hash. *)
Definition shardCount : Z := 100.
Definition user_shard (userID : string) : Z :=
  fold_left (fun shard c => Z.rem (wrap64 (shard * 31 + c)) shardCount) (runes userID) 0.

(** ** The script of a sale *)
Definition quoted (s : string) : string := String "034" (s ++ String "034" EmptyString)%string.

(** [string.format('{u: .., s: .., r: .., t: ..}')] with its quotes. *)
Definition result_json (user_id status result current_time : string) : string :=
  ("{" ++ quoted "u" ++ ":" ++ quoted user_id ++ "," ++ quoted "s" ++ ":" ++ status ++ "," ++
   quoted "r" ++ ":" ++ quoted result ++ "," ++ quoted "t" ++ ":" ++ current_time ++ "}")%string.

Section StockScript.
Context {R : Type} `{RedisOps R}.

Definition stock_script (stock_key result_key user_id sku_id current_time points_result : string)
    : M R (Z * string) :=
  let! current_stock := rd_call (GET stock_key) in
  match current_stock with
  | None => ret (-1, "库存未初始化"%string)
  | Some current_stock =>
      let! empty := lua_check current_stock in
      if (empty : bool) then
        let json := result_json user_id "2" points_result current_time in
        rd_call (HSET result_key [(user_id, json)]) ;;;
        ret (2, json)
      else
        let! new_stock := rd_call (DECR stock_key) in
        let json := result_json user_id "1" ("SKU_" ++ sku_id) current_time in
        rd_call (HSET result_key [(user_id, json)]) ;;;
        if new_stock =? 0 then ret (0, json) else ret (1, json)
  end.
End StockScript.

(** ** The operations *)
Section QuotaData.
Context {R D E : Type} `{RedisOps R} `{SqlOps D} `{EnvOps E} `{LocalCacheOps E} `{PublisherMem E}.
Context `{Codec Activity} `{Codec ActivitySku} `{Codec ActivityCount} `{Codec ActivityAccount}
  `{Codec ActivityResult} `{Codec ActivitySkuStockKey} `{EventCodec Z}.
Notation World := (W R D E).
Variable r : Repository.
Variable fuel : nat.

Definition QueryActivitySkuByActivityID (activityID : Z) : M World (list ActivitySku) :=
  let! activitySkus := in_sql (sq_find (rp_db r) Traffle_activity_sku
                         (fun p => rsp_ActivityID p =? activityID)) in
  ret (map RaffleActivitySku_ToEntity activitySkus).

Definition QueryActivitySku (sku : Z) : M World (option ActivitySku) :=
  let! activitySku :=
    Once redis_only fuel
      (cached_item (GetActivitySkuKey sku) hour10days
         (let! p := first_or_nil (in_sql (sq_first (rp_db r) Traffle_activity_sku
                      (fun p => rsp_Sku p =? sku))) in
          ret (option_map RaffleActivitySku_ToEntity p)))
      (mkActivitySku 0 0 0 0 0) in
  if sku_Sku activitySku =? 0 then ret None else ret (Some activitySku).

Definition QueryRaffleActivityByActivityId (activityID : Z) : M World (option Activity) :=
  let! activity :=
    Once redis_only fuel
      (cached_item (GetActivityKey activityID) hour10days
         (let! p := first_or_nil (in_sql (sq_first (rp_db r) Traffle_activity
                      (fun p => rap_ActivityID p =? activityID))) in
          ret (option_map RaffleActivity_ToEntity p)))
      (mkActivity 0 "" "" zero_time zero_time 0 "") in
  if act_ActivityID activity =? 0 then ret None else ret (Some activity).

Definition QueryRaffleActivityCountByActivityCountId (activityCountID : Z)
    : M World (option ActivityCount) :=
  let! activityCount :=
    Once redis_only fuel
      (cached_item (GetActivityCountKey activityCountID) hour10days
         (let! p := first_or_nil (in_sql (sq_first (rp_db r) Traffle_activity_count
                      (fun p => rcp_ActivityCountID p =? activityCountID))) in
          ret (option_map RaffleActivityCount_ToEntity p)))
      (mkActivityCount 0 0 0 0) in
  if cnt_ActivityCountID activityCount =? 0 then ret None else ret (Some activityCount).

(** [Create], where a unique index that is hit gets the error of the business layer. *)
Definition create_unique (db : dbh) (t : tbl) (p : row t) : M World unit :=
  let! created := attempt (in_sql (sq_create db t p)) in
  match created with
  | inl _ => ret tt
  | inr err => if errors_is is_duplicated_key err then fail ErrDBIndexDuplicate else fail err
  end.

(** An update that inserts when it changed no row. *)
Definition update_or_create (db : dbh) (t : tbl) (p : row t -> bool) (f : time -> row t -> row t)
    (new : row t) : M World unit :=
  let! now := in_env ev_now in
  let! RowsAffected := in_sql (sq_update db t p (f now)) in
  if RowsAffected =? 0 then create_unique db t new else ret tt.

(** The function passed to [db.Transaction]. *)
Definition recharge_tx (db : dbh) (tableSuffix : string) (q : CreateQuotaOrder) (day month : string)
    : M World unit :=
  create_unique db (Traffle_activity_order tableSuffix) (quota_order_po (qo_ActivityOrder q)) ;;;
  update_or_create db Traffle_activity_account (is_account (qo_UserID q) (qo_ActivityID q))
    (recharge_account (qo_TotalCount q) (qo_DayCount q) (qo_MonthCount q)) (quota_account_po q) ;;;
  (if negb (qo_DayCount q =? 0)
   then update_or_create db Traffle_activity_account_day
          (is_account_day (qo_UserID q) (qo_ActivityID q) day)
          (recharge_day (qo_DayCount q)) (quota_day_po q day)
   else ret tt) ;;;
  (if negb (qo_MonthCount q =? 0)
   then update_or_create db Traffle_activity_account_month
          (is_account_month (qo_UserID q) (qo_ActivityID q) month)
          (recharge_month (qo_MonthCount q)) (quota_month_po q month)
   else ret tt) ;;;
  ret tt.

Definition SaveOrder (q : CreateQuotaOrder) : M World unit :=
  let! dbs := DBStrategy_ r (qo_UserID q) in
  match dbs.1 with
  | None => fail ErrDBRouterError
  | Some db =>
      let orderTime := ao_OrderTime (qo_ActivityOrder q) in
      sq_transaction (X := R * E) db
        (recharge_tx db dbs.2 q (Format_day (E := E) orderTime) (Format_month (E := E) orderTime))
  end.

(** A key that exists already is only logged. *)
Definition CacheActivitySkuStockCount (cacheKey : string) (stockCount : Z) : M World unit :=
  SetNX redis_only cacheKey (FormatInt stockCount) 0 ;;; ret tt.

(** The month account, made from the total account when it is missing. *)
Definition month_account (db : dbh) (userID : string) (activityID : Z) (accountPO : RaffleActivityAccountPO)
    : M World RaffleActivityAccountMonthPO :=
  let! t := now in
  let month := Format_month (E := E) t in
  let! found := attempt (in_sql (sq_first db Traffle_activity_account_month
                  (is_account_month userID activityID month))) in
  match found with
  | inl p => ret p
  | inr err =>
      if negb (errors_is is_not_found err) then fail err
      else
        let! created := attempt (in_sql (sq_create db Traffle_activity_account_month
              (mkRaffleActivityAccountMonthPO 0 (aap_UserID accountPO) (aap_ActivityID accountPO) month
                 (aap_MonthCount accountPO) (aap_MonthCountSurplus accountPO) zero_time zero_time))) in
        match created with
        | inl p => ret p
        | inr createErr =>
            if negb (is_duplicate_entry createErr) then fail createErr
            else in_sql (sq_first db Traffle_activity_account_month
                   (is_account_month userID activityID month))
        end
  end.

Definition day_account (db : dbh) (userID : string) (activityID : Z) (accountPO : RaffleActivityAccountPO)
    : M World RaffleActivityAccountDayPO :=
  let! t := now in
  let day := Format_day (E := E) t in
  let! found := attempt (in_sql (sq_first db Traffle_activity_account_day
                  (is_account_day userID activityID day))) in
  match found with
  | inl p => ret p
  | inr err =>
      if negb (errors_is is_not_found err) then fail err
      else
        let! created := attempt (in_sql (sq_create db Traffle_activity_account_day
              (mkRaffleActivityAccountDayPO 0 (aap_UserID accountPO) (aap_ActivityID accountPO) day
                 (aap_DayCount accountPO) (aap_DayCountSurplus accountPO) zero_time zero_time))) in
        match created with
        | inl p => ret p
        | inr createErr =>
            if negb (is_duplicate_entry createErr) then fail createErr
            else in_sql (sq_first db Traffle_activity_account_day
                   (is_account_day userID activityID day))
        end
  end.

Definition QueryActivityAccountEntity (userID : string) (activityID : Z) : M World ActivityAccount :=
  let! dbs := DBStrategy_ r userID in
  let! db := deref dbs.1 in
  let! accountPO :=
    with_err (fun err => if errors_is is_not_found err then ErrRecordNotFound else err)
      (in_sql (sq_first db Traffle_activity_account (is_account userID activityID))) in
  let! accountMonthPO := month_account db userID activityID accountPO in
  let! accountDayPO := day_account db userID activityID accountPO in
  ret {| acc_UserID := aap_UserID accountPO;
         acc_ActivityID := aap_ActivityID accountPO;
         acc_TotalCount := aap_TotalCount accountPO;
         acc_TotalCountSurplus := aap_TotalCountSurplus accountPO;
         acc_DayCount := if 0 <? adp_ID accountDayPO then adp_DayCount accountDayPO
                         else aap_DayCount accountPO;
         acc_DayCountSurplus := if 0 <? adp_ID accountDayPO then adp_DayCountSurplus accountDayPO
                                else aap_DayCount accountPO;
         acc_MonthCount := if 0 <? amp_ID accountMonthPO then amp_MonthCount accountMonthPO
                           else aap_MonthCount accountPO;
         acc_MonthCountSurplus := if 0 <? amp_ID accountMonthPO then amp_MonthCountSurplus accountMonthPO
                                  else aap_MonthCount accountPO |}.

(** [Set] of a value that is at hand. *)
Definition value_item {A} (key : string) (v : A) : Item (R := R) (D := D) (E := E) A :=
  mkItem key (Some v) Hour None false false false.

Definition cacheActivityAccountSnapshot (account : ActivityAccount) : M World unit :=
  let! t1 := now in
  let month := Format_month (E := E) t1 in
  let! t2 := now in
  let day := Format_day (E := E) t2 in
  Set_ redis_only (value_item (GetActivityAccountKey (acc_ActivityID account) (acc_UserID account)) account) ;;;
  Set_ redis_only (value_item (GetActivityAccountTotalSurplusKey (acc_ActivityID account) (acc_UserID account))
          (acc_TotalCountSurplus account)) ;;;
  Set_ redis_only (value_item (GetActivityAccountMonthSurplusKey (acc_ActivityID account) (acc_UserID account) month)
          (acc_MonthCountSurplus account)) ;;;
  Set_ redis_only (value_item (GetActivityAccountDaySurplusKey (acc_ActivityID account) (acc_UserID account) day)
          (acc_DayCountSurplus account)).

Definition AssembleActivityAccountByUserId (userID : string) (activityID : Z) : M World unit :=
  let! account := QueryActivityAccountEntity userID activityID in
  cacheActivityAccountSnapshot account.

(** One account of the bulk assembly; a failed query leaves a zero row. *)
Definition assemble_account (db : dbh) (activityID : Z) (account : RaffleActivityAccountPO) : M World unit :=
  let! t1 := now in
  let month := Format_month (E := E) t1 in
  let! monthPO := attempt (in_sql (sq_first db Traffle_activity_account_month
                    (is_account_month (aap_UserID account) activityID month))) in
  let! t2 := now in
  let day := Format_day (E := E) t2 in
  let! dayPO := attempt (in_sql (sq_first db Traffle_activity_account_day
                  (is_account_day (aap_UserID account) activityID day))) in
  let monthRow := match monthPO with inl p => if 0 <? amp_ID p then Some p else None | inr _ => None end in
  let dayRow := match dayPO with inl p => if 0 <? adp_ID p then Some p else None | inr _ => None end in
  let! _ := attempt (cacheActivityAccountSnapshot
    {| acc_UserID := aap_UserID account;
       acc_ActivityID := aap_ActivityID account;
       acc_TotalCount := aap_TotalCount account;
       acc_TotalCountSurplus := aap_TotalCountSurplus account;
       acc_DayCount := match dayRow with Some p => adp_DayCount p | None => aap_DayCount account end;
       acc_DayCountSurplus :=
         match dayRow with Some p => adp_DayCountSurplus p | None => aap_DayCountSurplus account end;
       acc_MonthCount := match monthRow with Some p => amp_MonthCount p | None => aap_MonthCount account end;
       acc_MonthCountSurplus :=
         match monthRow with Some p => amp_MonthCountSurplus p | None => aap_MonthCountSurplus account end |}) in
  ret tt.

(** The shards are visited in order; one that cannot be read is skipped. *)
Definition assemble_shard (activityID : Z) (i : Z) : M World unit :=
  match GetDB (rp_routerDB r) i with
  | None => ret tt
  | Some db =>
      let! accounts := attempt (in_sql (sq_find db Traffle_activity_account
                         (fun p => aap_ActivityID p =? activityID))) in
      match accounts with
      | inl accounts => for_each accounts (assemble_account db activityID)
      | inr _ => ret tt
      end
  end.

Definition AssembleActivityAccountByActivityId (activityID : Z) : M World unit :=
  for_each (map (fun i => Z.of_nat i) (seq 1 (Z.to_nat (GetDBCount (rp_routerDB r)))))
    (assemble_shard activityID).

(** [Update] returns a [*gorm.DB], which is compared with nil in place of its [Error]. *)
Definition ClearActivitySkuStock (sku : Z) : M World unit :=
  let! _ := attempt (in_sql (sq_update (rp_db r) Traffle_activity_sku_stock
              (fun p => ssr_Sku p =? sku) clear_sku_stock)) in
  fail ErrClearActivitySkuStockError.

Definition ClearQueueValue : M World unit :=
  if negb (rp_inspector r) then ret tt
  else
    let! x := attempt (in_env (ev_delete_queue QueueNameSkuStock)) in
    match x with
    | inl _ => ret tt
    | inr err => if negb (Contains (error_text err) "queue not found") then fail err else ret tt
    end.

Definition pointsResult : string := (ActivityResultPointsPrefix ++ "_" ++ FormatInt 100)%string.

Definition SubtractionActivitySkuStock (skuID activityID : Z) (userID : string) (endTime : time)
    : M World ActivityResult :=
  let stockKey := GetActivitySkuStockCountKey skuID in
  let shard := user_shard userID in
  let resultKey := GetActivityResultHashKey activityID shard in
  let! t := now in
  let! reply := Eval (stock_script stockKey resultKey userID (FormatInt skuID) (FormatInt (Unix t))
                        pointsResult) in
  let '(status, resultJSON) := reply in
  let! activityResult := lift_res (unmarshal resultJSON) in
  if status =? -1 then fail (ENew "库存未初始化")
  else if status =? 0 then
    let! stockZeroEvent := in_env (NewBaseEvent skuID) in
    let! _ := attempt (in_env (PublishStockZero (rp_stockZeroPublisher r) stockZeroEvent)) in
    ret activityResult
  else if status =? 1 then ret activityResult
  else if status =? 2 then ret activityResult
  else fail (ENew "未知结果").

Definition ActivitySkuStockConsumeSendQueue (skuStockKey : ActivitySkuStockKey) : M World unit :=
  let! payload := lift_res (marshal (Some skuStockKey)) in
  in_env (ev_enqueue TaskTypeActivitySkuStockConsume payload QueueNameSkuStock (3 * Second)).

Definition UpdateActivitySkuStock (sku : Z) : M World unit :=
  let! t := now in
  in_sql (sq_update (rp_db r) Traffle_activity_sku
    (fun p => (rsp_Sku p =? sku) && (0 <? rsp_StockCountSurplus p)) (debit_sku t)) ;;;
  ret tt.
End QuotaData.
