(* ===== verification/StockFacts.v ===== *)
(** * StockFacts: selling a sku

    The stock script of [QuotaData] under any number of sales: what one run does to the
    counter, and the invariant of every interleaving. *)
From Stdlib Require Import ZArith Lia List Ascii String.
From stdpp Require Import base gmap strings list numbers.
From S2P Require Import Prelude GoLib Model Po Env Logic Mem Keys Router Cache Event Quota PartakeData QuotaData.
Open Scope Z_scope.

(** ** The shard of a user *)
Lemma runes_nonneg n s : (String.length s <= n)%nat -> Forall (fun c => 0 <= c) (runes s).
Proof.
  revert s. induction n as [|n IH]; intros s Hl.
  { destruct s; [constructor|simpl in Hl; lia]. }
  destruct s as [|c1 s1]; [constructor|]. cbn [runes String.length] in *.
  pose proof (byte_val_range c1) as R1.
  assert (Hbad : Forall (fun c => 0 <= c) (65533 :: runes s1)) by (constructor; [lia|apply IH; lia]).
  destruct (byte_val c1 <? 128); [constructor; [lia|apply IH; lia]|].
  destruct s1 as [|c2 s2]; [exact Hbad|]. cbn [String.length] in Hl.
  destruct (between 194 223 (byte_val c1) && between 128 191 (byte_val c2)) eqn:E2.
  { apply andb_prop in E2 as [A B]. apply between_spec in A, B. constructor; [lia|apply IH; lia]. }
  destruct s2 as [|c3 s3]; [exact Hbad|]. cbn [String.length] in Hl.
  match goal with |- context [if ?b then _ else _] => destruct b eqn:E3 end.
  { apply andb_prop in E3 as [AB C]. apply andb_prop in AB as [A B]. apply between_spec in A, B, C.
    constructor; [|apply IH; lia]. destruct (byte_val c1 =? 224); lia. }
  destruct s3 as [|c4 s4]; [exact Hbad|]. cbn [String.length] in Hl.
  match goal with |- context [if ?b then _ else _] => destruct b eqn:E4 end; [|exact Hbad].
  apply andb_prop in E4 as [ABC G]. apply andb_prop in ABC as [AB C]. apply andb_prop in AB as [A B].
  apply between_spec in A, B, C, G. constructor; [|apply IH; lia].
  destruct (byte_val c1 =? 240); lia.
Qed.

(** ** One run of the script *)
Section StockRun.
Context {R : Type} `{RedisLaws R}.
Variables (stock_key result_key : string).
Hypothesis keys_differ : stock_key <> result_key.

(** What a sale promises of the counter: the status, and the counter after. *)
Definition sell (stock : option Z) : Z * option Z :=
  match stock with
  | None => (-1, None)
  | Some c => if c <=? 0 then (2, Some c)
              else (if c - 1 =? 0 then 0 else 1, Some (c - 1))
  end.

Definition stock_at (m : gmap string rval) (c : option Z) : Prop :=
  m !! stock_key = (fun z => RStr (FormatInt z)) <$> c.

(** The field a user reads back. *)
Definition result_at (m : gmap string rval) (user_id json : string) : Prop :=
  exists h, m !! result_key = Some (RHash h) /\ h !! user_id = Some json.

Lemma runs_stock user_id sku_id current_time points c p (r : R) :
  stock_at (rd_view r) c -> counter_ok c -> rd_view r !! result_key = RHash <$> p ->
  runs (stock_script stock_key result_key user_id sku_id current_time points) r (fun reply m' =>
    reply.1 = (sell c).1 /\ stock_at m' (sell c).2 /\
    same_outside [stock_key; result_key] (rd_view r) m' /\
    (c <> None -> result_at m' user_id reply.2 /\
       reply.2 = (if (sell c).1 =? 2 then result_json user_id "2" points current_time
                  else result_json user_id "1" ("SKU_" ++ sku_id)%string current_time))).
Proof using keys_differ.
  intros Hs Hok Hp. unfold stock_script, sell.
  unfold stock_at in Hs. destruct c as [z|]; cbn [fmap option_fmap option_map] in Hs;
    (eapply runs_call; [cbn [cmd_spec]; rewrite Hs; reflexivity|]; intros r1 V1).
  2: { apply runs_ret. rewrite V1. split_and!; [done|done|apply same_outside_refl|done]. }
  apply runs_check; [by apply Hok|]. destruct (Z.leb_spec z 0).
  - set (json := result_json user_id "2" points current_time).
    destruct (spec_hset result_key [(user_id, json)] (rd_view r1) p) as [n Hn];
      [by rewrite V1|done|].
    eapply runs_call; [exact Hn|]. intros r2 V2. apply runs_ret. rewrite V2, V1.
    split_and!; [done|unfold stock_at; by rewrite lookup_insert_ne|..].
    + intros k Hk. rewrite lookup_insert_ne by set_solver. done.
    + intros _. split; [|done]. eexists. rewrite lookup_insert_eq. split; [done|].
      simpl. by rewrite lookup_insert_eq.
  - eapply runs_call.
    { cbn [cmd_spec]. rewrite V1. apply (spec_incrby_some _ _ z); [exact Hs|by apply Hok|lia]. }
    intros r2 V2. set (json := result_json user_id "1" ("SKU_" ++ sku_id) current_time).
    destruct (spec_hset result_key [(user_id, json)] (rd_view r2) p) as [n Hn];
      [by rewrite V2, lookup_insert_ne|done|].
    eapply runs_call; [exact Hn|]. intros r3 V3.
    replace (z + -1) with (z - 1) in * by lia. rewrite V2 in V3.
    destruct (z - 1 =? 0) eqn:E1; apply runs_ret; rewrite V3; (split_and!; [done|..]).
    1, 4: unfold stock_at; rewrite lookup_insert_ne, lookup_insert_eq by done; done.
    1, 3: intros k Hk; rewrite !lookup_insert_ne by set_solver; done.
    all: intros _; (split; [|done]); eexists; rewrite lookup_insert_eq; (split; [done|]);
      simpl; by rewrite lookup_insert_eq.
Qed.

(** The counter is right whatever is stored at the result key, even when the script
    stops with an error. *)
Lemma stock_script_counter user_id sku_id current_time points c (r : R) :
  stock_at (rd_view r) c -> counter_ok c ->
  wp (stock_script stock_key result_key user_id sku_id current_time points) (fun x r' =>
    stock_at (rd_view r') (sell c).2 /\
    match x with Ret reply => reply.1 = (sell c).1 | Fail _ => True | Panic _ => False end) r.
Proof using keys_differ.
  assert (Hset : forall B (fvs : list (string * string)) (k : Z -> M R B) Q (r1 : R),
    (forall n r2, (forall key, key <> result_key -> rd_view r2 !! key = rd_view r1 !! key) -> wp (k n) Q r2) ->
    (forall e r2, rd_view r2 = rd_view r1 -> Q (Fail e) r2) ->
    wp (bind (rd_call (HSET result_key fvs)) k) Q r1).
  { intros B fvs k Q r1 Hok Hfail. apply wp_bind. unfold wp, then_.
    pose proof (rd_call_law _ (HSET result_key fvs) r1) as Hl. cbn [cmd_spec] in Hl.
    destruct fvs as [|fv fvs]; [destruct Hl as (e & r2 & -> & Hv); by apply Hfail|].
    destruct (get_hash result_key (rd_view r1)).
    - destruct Hl as (r2 & -> & Hv). cbn [fst snd]. apply Hok. intros key Hne. by rewrite Hv, lookup_insert_ne.
    - destruct Hl as (e & r2 & -> & Hv). by apply Hfail. }
  intros Hs Hok. unfold stock_script, sell. apply wp_bind. unfold wp at 1.
  pose proof (rd_call_law _ (GET stock_key) r) as Hl. cbn [cmd_spec] in Hl.
  unfold stock_at in Hs. rewrite Hs in Hl.
  destruct c as [z|]; cbn [fmap option_fmap option_map] in Hl;
    destruct Hl as (r1 & -> & V1); cbn [fst snd then_].
  2: { apply wp_ret. unfold stock_at. by rewrite V1. }
  apply wp_bind. unfold wp at 1, lua_check. rewrite lua_le0_law by (specialize (Hok z eq_refl); lia).
  cbn [fst snd then_ ret]. destruct (Z.leb_spec z 0).
  - apply Hset.
    + intros n r2 V2. apply wp_ret. split; [|done]. unfold stock_at. by rewrite V2, V1.
    + intros e r2 V2. split; [|done]. unfold stock_at. by rewrite V2, V1.
  - apply wp_bind. unfold wp at 1. pose proof (rd_call_law _ (DECR stock_key) r1) as Hl.
    cbn [cmd_spec] in Hl. rewrite V1, (spec_incrby_some _ _ z) in Hl; [|exact Hs|by apply Hok|lia].
    destruct Hl as (r2 & -> & V2). cbn [fst snd then_].
    replace (z + -1) with (z - 1) in * by lia. apply Hset.
    + intros n r3 V3. destruct (z - 1 =? 0) eqn:E1; apply wp_ret; (split; [|done]);
        unfold stock_at; rewrite V3, V2, lookup_insert_eq by done; done.
    + intros e r3 V3. split; [|done]. unfold stock_at. by rewrite V3, V2, lookup_insert_eq.
Qed.
End StockRun.

(** ** Any number of sales

    A state is the server, the number of sales that succeeded, and the number of them
    that reported the end of the stock. *)
Section Sales.
Context {R : Type} `{RedisLaws R}.
Variable stock_key : string.

Inductive sale_step : R * Z * Z -> R * Z * Z -> Prop :=
| step_sold result_key user_id sku_id t points r r' status json n z :
    stock_key <> result_key ->
    rd_eval (stock_script stock_key result_key user_id sku_id t points) r = (Ret (status, json), r') ->
    sale_step (r, n, z)
      (r', if (status =? 0) || (status =? 1) then n + 1 else n, if status =? 0 then z + 1 else z)
| step_error result_key user_id sku_id t points r r' e n z :
    stock_key <> result_key ->
    rd_eval (stock_script stock_key result_key user_id sku_id t points) r = (Fail e, r') ->
    sale_step (r, n, z) (r', n, z)
| step_elsewhere r r' n z :
    rd_view r' !! stock_key = rd_view r !! stock_key -> sale_step (r, n, z) (r', n, z).

(** [lost] units left the counter in runs whose reply did not arrive. *)
Definition sale_inv (stock : Z) (st : R * Z * Z) : Prop :=
  exists lost, 0 <= lost /\ 0 <= st.1.2 /\ st.1.2 + lost <= stock /\
    stock_at stock_key (rd_view st.1.1) (Some (stock - st.1.2 - lost)) /\
    0 <= st.2 <= 1 /\ (st.2 = 1 -> st.1.2 + lost = stock).

Lemma sell_some c : sell (Some c) =
  if c <=? 0 then (2, Some c) else (if c - 1 =? 0 then 0 else 1, Some (c - 1)).
Proof. done. Qed.

Lemma sale_step_inv stock st st' :
  0 <= stock < 2 ^ 53 -> sale_inv stock st -> sale_step st st' -> sale_inv stock st'.
Proof.
  intros Hst (lost & Hl & Hn & Hsum & Hat & Hz & Hz1) Hstep.
  assert (Hok : counter_ok (Some (stock - st.1.2 - lost))) by (intros x [= <-]; lia).
  destruct Hstep as [rk u sk t p r r' status json n z Hne E|rk u sk t p r r' e n z Hne E|r r' n z E];
    cbn [fst snd] in *.
  - pose proof (rd_eval_law _ (stock_script stock_key rk u sk t p) r) as Hv. rewrite E in Hv.
    destruct Hv as (r1 & E1 & Hv).
    destruct (wp_run _ _ _ _ _ (stock_script_counter stock_key rk Hne u sk t p _ r Hat Hok) E1)
      as [Ha Hr]. cbn [fst] in Hr. rewrite sell_some in Ha, Hr. rewrite <- Hv in Ha.
    destruct (Z.leb_spec (stock - n - lost) 0); cbn [fst snd] in *; subst status.
    + exists lost. cbn [fst snd Z.eqb Pos.eqb orb]; split_and!; try done; try lia.
    + destruct (Z.eqb_spec (stock - n - lost - 1) 0) as [E0|E0]; cbn [Z.eqb Pos.eqb orb].
      * exists lost. cbn [fst snd]. replace (stock - (n + 1) - lost) with (stock - n - lost - 1) by lia.
        split_and!; try done; try lia.
      * exists lost. cbn [fst snd]. replace (stock - (n + 1) - lost) with (stock - n - lost - 1) by lia.
        split_and!; try done; try lia.
  - pose proof (rd_eval_law _ (stock_script stock_key rk u sk t p) r) as Hv. rewrite E in Hv.
    destruct Hv as [Hv|Hv].
    + exists lost. cbn [fst snd]. rewrite Hv. cbn [fst snd]; split_and!; try done; try lia.
    + pose proof (stock_script_counter stock_key rk Hne u sk t p _ r Hat Hok) as [Ha _].
      rewrite <- Hv, sell_some in Ha. destruct (Z.leb_spec (stock - n - lost) 0); cbn [fst snd] in *.
      * exists lost. cbn [fst snd]; split_and!; try done; try lia.
      * exists (lost + 1). cbn [fst snd].
        replace (stock - n - (lost + 1)) with (stock - n - lost - 1) by lia. split_and!; try done; try lia.
  - exists lost. cbn [fst snd]. unfold stock_at in *. rewrite E. cbn [fst snd]; split_and!; try done; try lia.
Qed.

(** C19. A sku is never oversold: from a stock of [stock] units, after any interleaving of
    sales by any users -- failed ones and ones whose answer was lost included -- and of
    commands on other keys, at most [stock] sales succeeded, the counter never goes below
    zero nor above what is unsold, and at most one sale reports that the stock ran out. *)
Theorem sku_never_oversold (stock : Z) (r0 r : R) (n z : Z)
    (Hstock : 0 <= stock < 2 ^ 53)
    (Hstart : rd_view r0 !! stock_key = Some (RStr (FormatInt stock)))
    (Hreach : rtc sale_step (r0, 0, 0) (r, n, z)) :
  0 <= n <= stock /\ 0 <= z <= 1 /\
  exists left, 0 <= left <= stock - n /\ rd_view r !! stock_key = Some (RStr (FormatInt left)) /\
    (z = 1 -> left = 0).
Proof.
  assert (Hinv : sale_inv stock (r, n, z)).
  { remember (r0, 0, 0) as st0 eqn:E0. remember (r, n, z) as st1 eqn:E1.
    assert (H0i : sale_inv stock st0).
    { subst st0. exists 0. cbn [fst snd]. unfold stock_at. rewrite !Z.sub_0_r.
      split_and!; try done; try lia. }
    clear E0 E1 Hstart. induction Hreach as [|x y w Hs _ IH]; [done|].
    apply IH. by eapply sale_step_inv. }
  destruct Hinv as (lost & Hl & Hn & Hsum & Hat & Hz & Hz1). cbn [fst snd] in *.
  split; [lia|]. split; [done|]. exists (stock - n - lost). split; [lia|]. split; [exact Hat|]. lia.
Qed.
End Sales.

(** ** The operation *)
Section Subtraction.
Context {R D E : Type} `{RedisLaws R} `{EnvLaws E} `{PublisherMem E} `{Codec ActivityResult} `{EventCodec Z}.
Notation World := (W R D E).
Variable r : Repository.

Lemma stock_keys_differ skuID activityID shard :
  GetActivitySkuStockCountKey skuID <> GetActivityResultHashKey activityID shard.
Proof. intros E0. vm_compute in E0. discriminate E0. Qed.

(** What one sale leaves, by its result: [c] is the counter before. *)
Definition sold (skuID activityID : Z) (userID : string) (c : option Z) (w : World)
    (rr : res ActivityResult) (w' : World) : Prop :=
  let stockKey := GetActivitySkuStockCountKey skuID in
  let resultKey := GetActivityResultHashKey activityID (user_shard userID) in
  same_outside [stockKey; resultKey] (view w) (view w') /\
  match rr with
  | Ret result => exists z t json, c = Some z /\ unmarshal json = Ret result /\
      json = (if z <=? 0 then result_json userID "2" pointsResult t
              else result_json userID "1" ("SKU_" ++ FormatInt skuID)%string t) /\
      stock_at stockKey (view w') (Some (if z <=? 0 then z else z - 1)) /\
      result_at resultKey (view w') userID json
  | _ => stock_at stockKey (view w') c \/ stock_at stockKey (view w') (sell c).2
  end.

(** One sale: a unit is taken exactly when there is one left; the user's result is
    stored in the result hash, a SKU when a unit was taken and points when not, and it is
    what the caller gets back decoded; no other key changes.  A sku whose stock was never
    loaded fails without a result. *)
Theorem SubtractionActivitySkuStock_sells (skuID activityID : Z) (userID : string) (endTime : time)
    (c : option Z) (p : option (gmap string string)) (w w' : World) rr
    (Hc : stock_at (GetActivitySkuStockCountKey skuID) (view w) c) (Hok : counter_ok c)
    (Hp : view w !! GetActivityResultHashKey activityID (user_shard userID) = RHash <$> p)
    (Hrun : SubtractionActivitySkuStock r skuID activityID userID endTime w = (rr, w')) :
  sold skuID activityID userID c w rr w'.
Proof.
  eapply wp_run; [|exact Hrun]. clear Hrun.
  unfold SubtractionActivitySkuStock, now. apply wp_bind, wp_now. intros t w1 Q1 _. cbn [then_].
  assert (V1 : view w1 = view w) by (unfold view; by rewrite Q1).
  destruct (runs_stock _ _ (stock_keys_differ skuID activityID (user_shard userID)) userID
    (FormatInt skuID) (FormatInt (Unix t)) pointsResult c p (w_redis w1))
    as (reply & r1 & Er & Hst & Ha & Ho & Hres); [by rewrite <- V1 in Hc|done|by rewrite <- V1 in Hp|].
  apply wp_bind, wp_eval.
  2: { intros e w2 _ Hv _. cbn [then_]. rewrite Er in Hv. cbn [snd] in Hv. unfold sold. rewrite <- V1.
       rewrite <- V1 in Hc.
       destruct Hv as [->| ->]; [split; [apply same_outside_refl|by left]|split; [done|by right]]. }
  intros reply' r2 w2 Er2 Hv _. rewrite Er in Er2. injection Er2 as <- <-. cbn [then_].
  rewrite <- Hv in Ha, Ho, Hres. destruct reply as [status json]. cbn [fst snd] in *.
  assert (Hrest : forall rr (w3 : World), view w3 = view w2 ->
    match rr with Ret result => c <> None /\ unmarshal json = Ret result | _ => True end ->
    sold skuID activityID userID c w rr w3).
  { intros rr3 w3 V3 Hrr. unfold sold. rewrite V3, <- V1. split; [done|].
    destruct rr3 as [res|e|q]; [|by right..].
    destruct Hrr as [Hne Hu]. destruct (Hres Hne) as [Hra Hj]. destruct c as [z|]; [|done].
    exists z, (FormatInt (Unix t)), json. split; [done|]. split; [done|].
    rewrite sell_some in Hj, Ha. destruct (z <=? 0); cbn [fst snd] in Hj, Ha; [by split_and!|].
    split; [|by split_and!]. by destruct (z - 1 =? 0). }
  apply wp_lift. destruct (unmarshal json) as [res|e|q] eqn:Eu; cbn [then_];
    [|by apply (Hrest (Fail e))|by apply (Hrest (Panic q))].
  destruct (Z.eqb_spec status (-1)) as [|Hs1]; [by apply (Hrest (Fail _))|].
  assert (Hne : c <> None) by (intros ->; by rewrite Hst in Hs1).
  destruct (status =? 0); [|destruct (status =? 1); [by apply (Hrest (Ret _))|];
    destruct (status =? 2); [by apply (Hrest (Ret _))|by apply (Hrest (Fail _))] ].
  apply wp_bind, wp_env. intros [ev|e|q] w3 Q3 _; cbn [then_];
    [|apply (Hrest (Fail _)); [unfold view; by rewrite Q3|done]
     |apply (Hrest (Panic _)); [unfold view; by rewrite Q3|done] ].
  apply wp_attempt, wp_env. intros [u|e|q] w4 Q4 _.
  - apply wp_ret, Hrest; [unfold view; by rewrite Q4, Q3|done].
  - apply wp_ret, Hrest; [unfold view; by rewrite Q4, Q3|done].
  - apply (Hrest (Panic _)); [unfold view; by rewrite Q4, Q3|done].
Qed.
End Subtraction.

(** ** Witnesses *)
Definition demo_stock (n : Z) : MemRedis := <["s"%string := RStr (FormatInt n)]> ∅.
Definition demo_sale (user : string) (r : MemRedis) : res (Z * string) * MemRedis :=
  rd_eval (stock_script "s" "h" user "9" "0" "POINTS_100") r.
Definition demo_sold1 : MemRedis := (demo_sale "u1" (demo_stock 1)).2.
Definition demo_sold2 : MemRedis := (demo_sale "u2" demo_sold1).2.

(** One unit: the first sale takes it and reports the end, the second gets points. *)
Lemma sku_never_oversold_witness :
  (demo_sale "u1" (demo_stock 1)).1 = Ret (0, result_json "u1" "1" "SKU_9" "0") /\
  (demo_sale "u2" demo_sold1).1 = Ret (2, result_json "u2" "2" "POINTS_100" "0") /\
  (0 <= 1 <= 1 /\ 0 <= 1 <= 1 /\
   exists left, 0 <= left <= 1 - 1 /\ rd_view demo_sold2 !! "s"%string = Some (RStr (FormatInt left)) /\
     (1 = 1 -> left = 0)).
Proof.
  split; [vm_compute; reflexivity|]. split; [vm_compute; reflexivity|].
  refine (sku_never_oversold "s" 1 (demo_stock 1) demo_sold2 1 1 _ _ _).
  - split; [discriminate|reflexivity].
  - vm_compute. reflexivity.
  - eapply rtc_l with (demo_sold1, 1, 1); [|apply rtc_once].
    + apply (step_sold "s" "h" "u1" "9" "0" "POINTS_100" (demo_stock 1) demo_sold1 0
        (result_json "u1" "1" "SKU_9" "0") 0 0); [discriminate|vm_compute; reflexivity].
    + apply (step_sold "s" "h" "u2" "9" "0" "POINTS_100" demo_sold1 demo_sold2 2
        (result_json "u2" "2" "POINTS_100" "0") 1 1); [discriminate|vm_compute; reflexivity].
Defined.

(** A codec that keeps the text. *)
#[local] Instance demo_result_codec : Codec ActivityResult := {
  marshal := fun o => Ret match o with Some x => ar_Result x | None => "null"%string end;
  unmarshal := fun s => Ret (mkActivityResult "u" 1 s 0);
  zero_value := mkActivityResult "" 0 "" 0;
  encodable := fun _ => False }.
#[local] Instance demo_sku_event : EventCodec Z := { marshal_event := fun e => Ret (FormatInt (ev_Data e)) }.
#[local] Instance demo_publisher_mem : PublisherMem MemEnv := {
  declared := fun e t => existsb (String.eqb t) (me_exchanges e);
  declare := fun _ e => e }.

Definition demo_sale_repository : Repository :=
  mkRepository (mkDBRouter ∅ 1 1) "db" (mkPublisher "zero" "rebate" "award") true.
Definition demo_sale_world : MemWorld :=
  mem_world (<[GetActivitySkuStockCountKey 9 := RStr "1"]> (∅ : MemRedis)) mem_no_rows 0 [].
Definition demo_sale_run : res ActivityResult * MemWorld :=
  SubtractionActivitySkuStock demo_sale_repository 9 100 "u" 0 demo_sale_world.

Lemma SubtractionActivitySkuStock_sells_witness :
  demo_sale_run.1 = Ret (mkActivityResult "u" 1 (result_json "u" "1" "SKU_9" "0") 0) /\
  me_published (w_env demo_sale_run.2) <> [] /\
  sold 9 100 "u" (Some 1) demo_sale_world demo_sale_run.1 demo_sale_run.2.
Proof.
  split; [vm_compute; reflexivity|]. split; [vm_compute; discriminate|].
  refine (SubtractionActivitySkuStock_sells demo_sale_repository 9 100 "u" 0 (Some 1) None
    demo_sale_world demo_sale_run.2 demo_sale_run.1 _ _ _ _).
  - vm_compute. reflexivity.
  - intros z [= <-]. reflexivity.
  - vm_compute. reflexivity.
  - apply surjective_pairing.
Defined.
