(* ===== verification/Recharge.v ===== *)
(** * Recharge: what a quota order does to the accounts

    [SaveOrder] of [QuotaData] as one transaction: the order is added and the total, day
    and month accounts are credited or created, at most once for one business number. *)
From Stdlib Require Import ZArith Lia List Ascii String.
From stdpp Require Import base gmap strings list numbers.
From S2P Require Import Prelude GoLib Model Po Env Logic Mem Keys Router Cache Event Quota PartakeData QuotaData.
Open Scope Z_scope.

Section Recharge.
Context {R D E : Type} `{SqlLaws D} `{EnvLaws E}.
Notation World := (W R D E).
Notation tables := (dbh -> forall t, list (row t)).

(** The row that was found is credited, or the new one is there. *)
Definition credited {t} (p : row t -> bool) (f : time -> row t -> row t) (new : row t)
    (l l' : list (row t)) : Prop :=
  match List.find p l with
  | Some _ => exists now, updated p (f now) l l'
  | None => added new l l'
  end.

Lemma create_unique_spec db t p (w : World) :
  sets_defaults t p ->
  wp (create_unique db t p) (fun rr w' =>
    same_rest w w' /\
    match rr with
    | Ret _ => existsb (sq_conflict t p) (rows w db t) = false /\
        added p (rows w db t) (rows w' db t) /\ other_tables db t (rows w) (rows w')
    | Fail _ => True
    | Panic _ => False
    end) w.
Proof.
  intros Hst. unfold create_unique. apply wp_attempt, wp_create; [done|..].
  - intros w1 p' S1 C1 P1 A1 O1. apply wp_ret. split_and!; [done..|by eapply added_intro|done].
  - intros w1 e S1 _. by destruct (errors_is is_duplicated_key e).
Qed.

Lemma update_or_create_spec db t p (f : time -> row t -> row t) new (w : World) :
  sets_defaults t new ->
  (forall now x, In x (rows w db t) -> p x = true -> payload t (f now x) <> payload t x) ->
  wp (update_or_create db t p f new) (fun rr w' =>
    w_redis w' = w_redis w /\
    match rr with
    | Ret _ => credited p f new (rows w db t) (rows w' db t) /\ other_tables db t (rows w) (rows w')
    | Fail _ => True
    | Panic _ => False
    end) w.
Proof.
  intros Hnew Hch. unfold update_or_create.
  apply wp_bind, wp_now. intros now w1 Q1 D1. cbn [then_].
  assert (R1 : rows w1 = rows w) by (unfold rows; by rewrite D1).
  apply wp_bind, wp_update.
  2: { intros w2 e S2. cbn [then_]. split; [unfold w_redis in *; congruence|done]. }
  intros w2 n S2 U2 O2 B2 N2. cbn [then_]. rewrite R1 in U2, O2, B2, N2.
  assert (Q2 : w_redis w2 = w_redis w) by (unfold w_redis in *; congruence).
  unfold credited. destruct (List.find p (rows w db t)) as [x|] eqn:Ef.
  - apply List.find_some in Ef as [Hin Hp]. destruct (Z.eqb_spec n 0) as [En|].
    { by destruct (Hch now x Hin Hp (N2 En x Hin Hp)). }
    apply wp_ret. split; [done|]. split; [by exists now|done].
  - rewrite (filter_none p) in B2 by exact (List.find_none _ _ Ef). simpl in B2.
    assert (n = 0) as -> by lia. simpl.
    eapply wp_mono; [by apply create_unique_spec|].
    intros [[]|e|q] w3 [S3 H3]; (split; [unfold w_redis in *; congruence|]); [|done|done].
    destruct H3 as (_ & A3 & O3). rewrite (updated_none _ _ _ _ Ef U2) in A3. split; [done|].
    intros db' t' Hne. by rewrite O3, O2.
Qed.

(** The whole effect of a recharge; a count of zero leaves its day or month alone. *)
Definition recharged (db : dbh) (tableSuffix : string) (q : CreateQuotaOrder) (day month : string)
    (f f' : tables) : Prop :=
  added (t := Traffle_activity_order tableSuffix) (quota_order_po (qo_ActivityOrder q))
    (f db (Traffle_activity_order tableSuffix)) (f' db (Traffle_activity_order tableSuffix)) /\
  credited (t := Traffle_activity_account) (is_account (qo_UserID q) (qo_ActivityID q))
    (recharge_account (qo_TotalCount q) (qo_DayCount q) (qo_MonthCount q)) (quota_account_po q)
    (f db Traffle_activity_account) (f' db Traffle_activity_account) /\
  (if qo_DayCount q =? 0
   then f' db Traffle_activity_account_day = f db Traffle_activity_account_day
   else credited (t := Traffle_activity_account_day)
          (is_account_day (qo_UserID q) (qo_ActivityID q) day)
          (recharge_day (qo_DayCount q)) (quota_day_po q day)
          (f db Traffle_activity_account_day) (f' db Traffle_activity_account_day)) /\
  (if qo_MonthCount q =? 0
   then f' db Traffle_activity_account_month = f db Traffle_activity_account_month
   else credited (t := Traffle_activity_account_month)
          (is_account_month (qo_UserID q) (qo_ActivityID q) month)
          (recharge_month (qo_MonthCount q)) (quota_month_po q month)
          (f db Traffle_activity_account_month) (f' db Traffle_activity_account_month)) /\
  forall db' t', (db', t') <> (db, Traffle_activity_order tableSuffix) ->
    (db', t') <> (db, Traffle_activity_account) -> (db', t') <> (db, Traffle_activity_account_day) ->
    (db', t') <> (db, Traffle_activity_account_month) -> f' db' t' = f db' t'.

(** What it means to credit a row: its counts and surpluses grow by the order's counts, and a
    new row starts with them. *)
Definition counts_credited (q : CreateQuotaOrder) : Prop := forall now a m d day month,
  let a' := recharge_account (qo_TotalCount q) (qo_DayCount q) (qo_MonthCount q) now a in
  (aap_TotalCountSurplus a' = aap_TotalCountSurplus a + qo_TotalCount q /\
   aap_DayCountSurplus a' = aap_DayCountSurplus a + qo_DayCount q /\
   aap_MonthCountSurplus a' = aap_MonthCountSurplus a + qo_MonthCount q /\
   aap_TotalCount a' = aap_TotalCount a + qo_TotalCount q) /\
  (adp_DayCountSurplus (recharge_day (qo_DayCount q) now d) = adp_DayCountSurplus d + qo_DayCount q /\
   amp_MonthCountSurplus (recharge_month (qo_MonthCount q) now m) = amp_MonthCountSurplus m + qo_MonthCount q) /\
  (aap_TotalCountSurplus (quota_account_po q) = qo_TotalCount q /\
   adp_DayCountSurplus (quota_day_po q day) = qo_DayCount q /\
   amp_MonthCountSurplus (quota_month_po q month) = qo_MonthCount q).

(** A step that is skipped when its count is zero. *)
Lemma optional_credit_spec (c : Z) db t p (f : time -> row t -> row t) new (w : World) :
  sets_defaults t new ->
  (c <> 0 -> forall now x, payload t (f now x) <> payload t x) ->
  wp (if negb (c =? 0) then update_or_create db t p f new else ret tt) (fun rr w' =>
    w_redis w' = w_redis w /\
    match rr with
    | Ret _ => (if c =? 0 then rows w' db t = rows w db t
                else credited p f new (rows w db t) (rows w' db t)) /\
               other_tables db t (rows w) (rows w')
    | Fail _ => True
    | Panic _ => False
    end) w.
Proof.
  intros Hnew Hch. destruct (Z.eqb_spec c 0) as [|Hc]; simpl.
  - by apply wp_ret.
  - eapply wp_mono; [apply update_or_create_spec; [done|by intros; apply Hch]|].
    done.
Qed.

Lemma recharge_tx_spec db tableSuffix q day month (w : World) :
  ao_State (qo_ActivityOrder q) <> ""%string -> qo_TotalCount q <> 0 ->
  wp (recharge_tx db tableSuffix q day month) (fun rr w' =>
    w_redis w' = w_redis w /\
    match rr with
    | Ret _ => recharged db tableSuffix q day month (rows w) (rows w') /\
        existsb (sq_conflict (Traffle_activity_order tableSuffix) (quota_order_po (qo_ActivityOrder q)))
          (rows w db (Traffle_activity_order tableSuffix)) = false
    | Fail _ => True
    | Panic _ => False
    end) w.
Proof.
  intros Hst Htot. unfold recharge_tx.
  apply wp_bind. eapply wp_mono; [by apply create_unique_spec|].
  intros [[]|e|p] w1 [S1 H1']; cbn [then_]; [|split; [unfold w_redis; by rewrite S1|done]|done].
  destruct H1' as (C1 & A1 & O1). assert (Q1 : w_redis w1 = w_redis w) by (unfold w_redis; by rewrite S1).
  apply wp_bind. eapply wp_mono; [apply update_or_create_spec|].
  { exact I. }
  { intros now x _ _ Hp. apply (f_equal aap_TotalCount) in Hp. cbn in Hp. lia. }
  intros [[]|e|p] w2 [Q2 H2']; cbn [then_]; [|split; [congruence|done]|done].
  destruct H2' as (A2 & O2). rewrite O1 in A2 by done.
  apply wp_bind. eapply wp_mono; [apply optional_credit_spec|].
  { exact I. }
  { intros Hc now x Hp. apply (f_equal adp_DayCount) in Hp. cbn in Hp. lia. }
  intros [[]|e|p] w3 [Q3 H3']; cbn [then_]; [|split; [congruence|done]|done].
  destruct H3' as (A3 & O3). rewrite O2, O1 in A3 by done.
  apply wp_bind. eapply wp_mono; [apply optional_credit_spec|].
  { exact I. }
  { intros Hc now x Hp. apply (f_equal amp_MonthCount) in Hp. cbn in Hp. lia. }
  intros [[]|e|p] w4 [Q4 H4']; cbn [then_]; [|split; [congruence|done]|done].
  destruct H4' as (A4 & O4). rewrite O3, O2, O1 in A4 by done.
  apply wp_ret. split; [congruence|]. split; [|done]. unfold recharged. split_and!.
  - by rewrite O4, O3, O2.
  - by rewrite O4, O3.
  - by rewrite O4.
  - done.
  - intros db' t' N1 N2 N3 N4. by rewrite O4, O3, O2, O1.
Qed.

Variable r : Repository.
Notation order_day q := (Format_day (E := E) (ao_OrderTime (qo_ActivityOrder q))).
Notation order_month q := (Format_month (E := E) (ao_OrderTime (qo_ActivityOrder q))).

Lemma SaveOrder_run q db tableSuffix (w : World) rr w' :
  DBStrategy (rp_routerDB r) (qo_UserID q) = Ret (Some db, tableSuffix) -> qo_TotalCount q <> 0 ->
  ao_State (qo_ActivityOrder q) <> ""%string ->
  SaveOrder r q w = (rr, w') ->
  w_redis w' = w_redis w /\
  match rr with
  | Ret _ => recharged db tableSuffix q (order_day q) (order_month q) (rows w) (rows w') /\
      existsb (sq_conflict (Traffle_activity_order tableSuffix) (quota_order_po (qo_ActivityOrder q)))
        (rows w db (Traffle_activity_order tableSuffix)) = false
  | Fail _ => rows w' = rows w \/
      recharged db tableSuffix q (order_day q) (order_month q) (rows w) (rows w') /\
      existsb (sq_conflict (Traffle_activity_order tableSuffix) (quota_order_po (qo_ActivityOrder q)))
        (rows w db (Traffle_activity_order tableSuffix)) = false
  | Panic _ => False
  end.
Proof.
  intros Hroute Htot Hst Hrun. pattern rr, w'. eapply wp_run; [|exact Hrun]. clear Hrun.
  unfold SaveOrder, DBStrategy_. rewrite Hroute. apply wp_lift. cbn [then_ fst snd].
  apply wp_transaction.
  2: { intros w2 e S2 R2 _. split; [unfold w_redis; by rewrite S2|by left]. }
  intros w0 R0 S0. eapply wp_mono; [by apply recharge_tx_spec|].
  assert (Q0 : w_redis w0 = w_redis w) by (unfold w_redis; by rewrite S0).
  intros [[]|e|p] w1 [Q1 Hm]; [rewrite R0 in Hm; split| |done].
  - intros w2 S2 R2. rewrite R2. split; [unfold w_redis in *; rewrite S2; congruence|done].
  - intros w2 e S2 R2 _. split; [unfold w_redis in *; rewrite S2; congruence|].
    destruct R2 as [->| ->]; [by left|by right].
  - intros w2 S2 R2. split; [unfold w_redis in *; rewrite S2; congruence|by left].
Qed.

(** C14. A recharge is all or nothing: success means the order was added and the user's
    account -- and, for counts that are not zero, its day and its month -- credited with
    exactly the order's counts, or created with them when missing, and nothing else;
    failure leaves every table as it was, unless only the commit's answer was lost. *)
Theorem SaveOrder_credits (q : CreateQuotaOrder) (db tableSuffix : string) (w : World) rr w'
    (Hroute : DBStrategy (rp_routerDB r) (qo_UserID q) = Ret (Some db, tableSuffix))
    (Htot : qo_TotalCount q <> 0)
    (Hst : ao_State (qo_ActivityOrder q) <> ""%string)
    (Hrun : SaveOrder r q w = (rr, w')) :
  counts_credited q /\
  w_redis w' = w_redis w /\
  match rr with
  | Ret _ => recharged db tableSuffix q (order_day q) (order_month q) (rows w) (rows w')
  | Fail _ => rows w' = rows w \/
              recharged db tableSuffix q (order_day q) (order_month q) (rows w) (rows w')
  | Panic _ => False
  end.
Proof.
  destruct (SaveOrder_run _ _ _ _ _ _ Hroute Htot Hst Hrun) as [Hq Hr]. split; [done|]. split; [done|].
  destruct rr; [by destruct Hr|destruct Hr as [?|[? _] ]; auto|done].
Qed.

(** A business number recharges at most once: with a unique index on user and business
    number, after a recharge that succeeded any other order of the same user with the same
    number fails and changes no table. *)
Theorem SaveOrder_once (q q' : CreateQuotaOrder) (db tableSuffix : string) (w w1 w2 : World) u rr
    (Huniq : forall p p' : RaffleActivityOrderPO,
       rop_UserID p = rop_UserID p' -> rop_OutBusinessNo p = rop_OutBusinessNo p' ->
       sq_conflict (Traffle_activity_order tableSuffix) p p' = true)
    (Hroute : DBStrategy (rp_routerDB r) (qo_UserID q) = Ret (Some db, tableSuffix))
    (Hsame : qo_UserID q' = qo_UserID q /\
       ao_UserID (qo_ActivityOrder q') = ao_UserID (qo_ActivityOrder q) /\
       ao_OutBusinessNo (qo_ActivityOrder q') = ao_OutBusinessNo (qo_ActivityOrder q))
    (Htot : qo_TotalCount q <> 0) (Htot' : qo_TotalCount q' <> 0)
    (Hst : ao_State (qo_ActivityOrder q) <> ""%string)
    (Hst' : ao_State (qo_ActivityOrder q') <> ""%string)
    (Hrun1 : SaveOrder r q w = (Ret u, w1))
    (Hrun2 : SaveOrder r q' w1 = (rr, w2)) :
  (exists e, rr = Fail e) /\ rows w2 = rows w1.
Proof.
  destruct Hsame as (Hu & Hou & Hno).
  destruct (SaveOrder_run _ _ _ _ _ _ Hroute Htot Hst Hrun1) as [_ [Hr _] ].
  assert (Hconf : existsb (sq_conflict (Traffle_activity_order tableSuffix)
      (quota_order_po (qo_ActivityOrder q'))) (rows w1 db (Traffle_activity_order tableSuffix)) = true).
  { destruct Hr as ((p & Hp & Hl) & _). apply existsb_exists. exists p. split.
    - rewrite Hl. apply in_or_app. right. by left.
    - apply Huniq; [apply (f_equal rop_UserID) in Hp|apply (f_equal rop_OutBusinessNo) in Hp];
        cbn in Hp |- *; congruence. }
  assert (Hroute' : DBStrategy (rp_routerDB r) (qo_UserID q') = Ret (Some db, tableSuffix))
    by by rewrite Hu.
  destruct (SaveOrder_run _ _ _ _ _ _ Hroute' Htot' Hst' Hrun2) as [_ Hr2].
  destruct rr as [[]|e|p]; [destruct Hr2 as [_ Hc]; congruence| |done].
  destruct Hr2 as [Hr2|[_ Hc] ]; [|congruence]. split; [by exists e|done].
Qed.
End Recharge.

(** ** Witnesses

    A unique index on the user and the business number of the orders. *)
Definition demo_order_index : forall t, row t -> row t -> bool := fun t =>
  match t return row t -> row t -> bool with
  | Traffle_activity_order _ => fun p p' =>
      String.eqb (rop_UserID p) (rop_UserID p') &&
      String.eqb (rop_OutBusinessNo p) (rop_OutBusinessNo p')
  | _ => fun _ _ => false
  end.
#[local] Instance demo_recharge_sql : SqlOps MemSql := MemSqlOps demo_order_index.
#[local] Instance demo_recharge_laws : SqlLaws MemSql := MemSqlLaws demo_order_index.

Definition demo_recharge_repository : Repository :=
  mkRepository (mkDBRouter {["01"%string := "db1"%string]} 1 1) "db"
    (mkPublisher "zero" "rebate" "award") true.
Definition demo_quota_order (orderID : string) : CreateQuotaOrder :=
  mkCreateQuotaOrder "u" 100 3 0 2
    (mkActivityOrder "u" 9 100 "a" 7 orderID 0 3 0 2 ActivityOrderStateCompleted "no1").
Definition demo_recharge_world : MemWorld := mem_world ∅ mem_no_rows 0 [].
Definition demo_recharge : res unit * MemWorld :=
  SaveOrder demo_recharge_repository (demo_quota_order "o1") demo_recharge_world.
Definition demo_recharge_again : res unit * MemWorld :=
  SaveOrder demo_recharge_repository (demo_quota_order "o2") demo_recharge.2.

Lemma SaveOrder_credits_witness :
  map aap_TotalCountSurplus (demo_recharge.2.2 "db1"%string Traffle_activity_account) = [3] /\
  demo_recharge.2.2 "db1"%string Traffle_activity_account_day = [] /\
  map amp_MonthCount (demo_recharge.2.2 "db1"%string Traffle_activity_account_month) = [2] /\
  w_redis demo_recharge.2 = w_redis demo_recharge_world /\
  recharged "db1" "000" (demo_quota_order "o1") (format_day 28800 0) (format_month 28800 0)
    (rows demo_recharge_world) (rows demo_recharge.2).
Proof.
  split; [vm_compute; reflexivity|]. split; [vm_compute; reflexivity|].
  split; [vm_compute; reflexivity|].
  refine (proj2 (SaveOrder_credits demo_recharge_repository (demo_quota_order "o1") "db1" "000"
    demo_recharge_world (Ret tt) demo_recharge.2 eq_refl _ _ _)).
  - discriminate.
  - discriminate.
  - apply injective_projections; [vm_compute; reflexivity|reflexivity].
Defined.

Lemma SaveOrder_once_witness :
  demo_recharge_again.1 = Fail (EMySQL 1062 "Duplicate entry") /\
  (exists e, demo_recharge_again.1 = Fail e) /\ rows demo_recharge_again.2 = rows demo_recharge.2.
Proof.
  split; [vm_compute; reflexivity|].
  refine (SaveOrder_once demo_recharge_repository (demo_quota_order "o1") (demo_quota_order "o2")
    "db1" "000" demo_recharge_world demo_recharge.2 demo_recharge_again.2 tt demo_recharge_again.1
    _ eq_refl _ _ _ _ _ _ _).
  - intros p p' E1 E2. cbn. by rewrite E1, E2, !String.eqb_refl.
  - done.
  - discriminate.
  - discriminate.
  - discriminate.
  - discriminate.
  - apply injective_projections; [vm_compute; reflexivity|reflexivity].
  - apply surjective_pairing.
Defined.
