(* ===== verification/Assemble.v ===== *)
(** * Assemble: loading an account's counters into Redis

    [cacheActivityAccountSnapshot] of [QuotaData] writes the counters the quota script
    of [Quota] consumes; together they bound the draws of an assembled account. *)
From Stdlib Require Import ZArith Lia List Ascii String.
From stdpp Require Import base gmap strings list numbers.
From S2P Require Import Prelude GoLib Model Po Env Logic Mem Keys Router Cache CacheRules Event Quota PartakeData QuotaData.
Open Scope Z_scope.

Section Assemble.
Context {R D E : Type} `{RedisLaws R} `{EnvLaws E} `{LocalCacheOps E} `{CodecLaws ActivityAccount}.
Notation World := (W R D E).

(** Storing a value that is at hand. *)
Lemma wp_set_value {A} `{Codec A} (key : string) (v : A) b Q (w : World) :
  marshal (Some v) = Ret b ->
  (forall w', view w' = <[key := RStr b]> (view w) -> w_sql w' = w_sql w -> w_env w' = w_env w ->
     Q (Ret tt) w') ->
  (forall e w', w_sql w' = w_sql w -> Q (Fail e) w') ->
  wp (Set_ redis_only (value_item key v)) Q w.
Proof.
  intros Hm Hok Hfail. apply (wp_set_item (value_item key v) v b); try done. intros e w' _ Hd _. by apply Hfail.
Qed.

(** The keys a snapshot writes, with the clock's day and month. *)
Definition snapshot_keys (activityID : Z) (userID day month : string) : list string :=
  [GetActivityAccountKey activityID userID;
   GetActivityAccountTotalSurplusKey activityID userID;
   GetActivityAccountMonthSurplusKey activityID userID month;
   GetActivityAccountDaySurplusKey activityID userID day].

Definition loaded (account : ActivityAccount) (p : option (gmap string string)) : Quota.account :=
  mkAccount (Some (acc_TotalCountSurplus account)) (Some (acc_DayCountSurplus account))
    (Some (acc_MonthCountSurplus account)) p.

Lemma snapshot_spec (account : ActivityAccount) (p : option (gmap string string)) (w : World) :
  encodable account ->
  view w !! GetPendingRaffleOrderKey (acc_ActivityID account) (acc_UserID account) = RHash <$> p ->
  wp (cacheActivityAccountSnapshot account) (fun rr w' =>
    match rr with
    | Ret _ => exists t1 e1 t2 e2,
        ev_now (w_env w) = (Ret t1, e1) /\ ev_now e1 = (Ret t2, e2) /\ w_sql w' = w_sql w /\
        account_state w' (acc_ActivityID account) (acc_UserID account) t2 t1 (loaded account p) /\
        same_outside (snapshot_keys (acc_ActivityID account) (acc_UserID account)
          (Format_day (E := E) t2) (Format_month (E := E) t1)) (view w) (view w')
    | Fail _ => True
    | Panic _ => False
    end) w.
Proof.
  intros Henc Hp. unfold cacheActivityAccountSnapshot, now.
  destruct (marshal_some account Henc) as (ba & Ha & _).
  apply wp_bind, wp_clock. intros t1 w0 E1 Q0 D0. cbn [then_].
  apply wp_bind, wp_clock. intros t2 w1 E2 Q1 D1. cbn [then_].
  assert (V1 : view w1 = view w) by (unfold view; congruence). rewrite <- V1 in Hp.
  apply wp_bind. eapply (wp_set_value _ _ ba); [exact Ha| |done]. intros w2 V2 D2 _. cbn [then_].
  apply wp_bind. eapply wp_set_value; [reflexivity| |done]. intros w3 V3 D3 _. cbn [then_].
  apply wp_bind. eapply wp_set_value; [reflexivity| |done]. intros w4 V4 D4 _. cbn [then_].
  eapply wp_set_value; [reflexivity| |done]. intros w5 V5 D5 _.
  exists t1, (w_env w0), t2, (w_env w1). split; [done|]. split; [done|].
  split; [by rewrite D5, D4, D3, D2, D1|].
  unfold account_state, account_at, loaded. rewrite <- V1, V5, V4, V3, V2. cbn [qa_total qa_day qa_month qa_pending].
  pose proof (account_keys_NoDup (acc_ActivityID account) (acc_UserID account)
    (Format_day (E := E) t2) (Format_month (E := E) t1)) as Hnd.
  pose proof (keys_ne _ _ _ _ Hnd) as (N12 & N13 & N14 & N23 & N24 & N34).
  split.
  - split_and!.
    + by rewrite !lookup_insert_ne, lookup_insert_eq by done.
    + by rewrite lookup_insert_eq.
    + by rewrite lookup_insert_ne, lookup_insert_eq by done.
    + by rewrite !lookup_insert_ne by done.
  - intros k Hk. unfold snapshot_keys in Hk. rewrite !lookup_insert_ne by set_solver. done.
Qed.

(** The draws an account has left. *)
Definition draws_left (account : ActivityAccount) : Z :=
  Z.min (acc_TotalCountSurplus account) (Z.min (acc_DayCountSurplus account) (acc_MonthCountSurplus account)).

(** C22. From assembly to the last draw: once an account was assembled with no order
    pending, no interleaving of takes, compensations, award deletions and unrelated
    commands makes more orders, net of those given back, than the smallest of the total,
    day and month surpluses that were loaded. *)
Theorem assembled_never_oversold (account : ActivityAccount) (w w' : World) u
    (Henc : encodable account)
    (Hpending : view w !! GetPendingRaffleOrderKey (acc_ActivityID account) (acc_UserID account) = None)
    (Ht : 0 <= acc_TotalCountSurplus account < 2 ^ 53)
    (Hd : 0 <= acc_DayCountSurplus account < 2 ^ 53)
    (Hm : 0 <= acc_MonthCountSurplus account < 2 ^ 53)
    (Hrun : cacheActivityAccountSnapshot account w = (Ret u, w')) :
  exists t1 e1 t2 e2, ev_now (w_env w) = (Ret t1, e1) /\ ev_now e1 = (Ret t2, e2) /\
  forall (r : R) (n : Z),
    rtc (quota_step
           (GetActivityAccountTotalSurplusKey (acc_ActivityID account) (acc_UserID account))
           (GetActivityAccountDaySurplusKey (acc_ActivityID account) (acc_UserID account)
              (Format_day (E := E) t2))
           (GetActivityAccountMonthSurplusKey (acc_ActivityID account) (acc_UserID account)
              (Format_month (E := E) t1))
           (GetPendingRaffleOrderKey (acc_ActivityID account) (acc_UserID account)))
      (w_redis w', 0) (r, n) ->
    0 <= n <= draws_left account.
Proof.
  pose proof (wp_run _ _ _ _ _ (snapshot_spec account None w Henc Hpending) Hrun)
    as (t1 & e1 & t2 & e2 & E1 & E2 & _ & Hat & _).
  exists t1, e1, t2, e2. split; [done|]. split; [done|]. intros r n Hreach.
  exact (proj1 (quota_reach _ _ _ _ (account_keys_NoDup _ _ _ _) _ _ _ _ _ _ Ht Hd Hm Hat Hreach)).
Qed.
End Assemble.

(** ** Witness: an account with two draws left *)
#[local] Instance demo_account_codec : Codec ActivityAccount := {
  marshal := fun o => Ret match o with Some a => FormatInt (acc_TotalCount a) | None => "null"%string end;
  unmarshal := fun s => if String.eqb s "null" then Ret (mkActivityAccount "" 0 0 0 0 0 0 0)
    else match redis_int s with
         | Some z => Ret (mkActivityAccount "u" 100 z 2 3 2 3 2)
         | None => Fail (EExt "json")
         end;
  zero_value := mkActivityAccount "" 0 0 0 0 0 0 0;
  encodable := fun a => exists z, in_int64 z /\ a = mkActivityAccount "u" 100 z 2 3 2 3 2 }.
#[local] Instance demo_account_laws : CodecLaws ActivityAccount.
Proof.
  constructor.
  - intros a (z & Hz & ->). exists (FormatInt z). split; [done|]. split; [apply FormatInt_not_empty|].
    cbn [unmarshal demo_account_codec].
    destruct (String.eqb_spec (FormatInt z) "null") as [E|_]; [by destruct (FormatInt_not_null z)|].
    by rewrite redis_int_FormatInt.
  - exists "null"%string. done.
  - intros o s p. split; [done|]. cbn [unmarshal demo_account_codec].
    destruct (String.eqb s "null"); [done|]. by destruct (redis_int s).
Qed.

Definition demo_account : ActivityAccount := mkActivityAccount "u" 100 3 2 3 2 3 2.
Definition demo_assemble_world : MemWorld := mem_world ∅ mem_no_rows 0 [].
Definition demo_assembled : res unit * MemWorld :=
  cacheActivityAccountSnapshot demo_account demo_assemble_world.
Definition demo_drawn : res (UserRaffleOrder * bool) * MemWorld :=
  CacheGetOrCreateNoUsedRaffleOrder (mkUserRaffleOrder "u" 100 "a" 7 "o1" 0 "create") demo_assembled.2.

(** The counters that were loaded serve a draw. *)
Lemma assembled_never_oversold_witness :
  demo_drawn.1 = Ret (mkUserRaffleOrder "u" 100 "a" 7 "o1" 0 "create", false) /\
  exists t1 e1 t2 e2, ev_now (w_env demo_assemble_world) = (Ret t1, e1) /\ ev_now e1 = (Ret t2, e2) /\
  forall (r : MemRedis) (n : Z),
    rtc (quota_step
           (GetActivityAccountTotalSurplusKey 100 "u")
           (GetActivityAccountDaySurplusKey 100 "u" (Format_day (E := MemEnv) t2))
           (GetActivityAccountMonthSurplusKey 100 "u" (Format_month (E := MemEnv) t1))
           (GetPendingRaffleOrderKey 100 "u"))
      (w_redis demo_assembled.2, 0) (r, n) -> 0 <= n <= Z.min 2 (Z.min 2 2).
Proof.
  split; [vm_compute; reflexivity|].
  refine (assembled_never_oversold demo_account demo_assemble_world demo_assembled.2 tt _ _ _ _ _ _).
  - exists 3. split; [split; discriminate|reflexivity].
  - vm_compute. reflexivity.
  - split; [discriminate|reflexivity].
  - split; [discriminate|reflexivity].
  - split; [discriminate|reflexivity].
  - vm_compute. reflexivity.
Defined.
