(* ===== verification/ActivityWiring.v ===== *)
(** * ActivityWiring: the use cases on the repository

    [NewActivityRepository] makes the repository of [PartakeData], [PartakeLedger] and
    [QuotaData] the [ActivityRepo] of the use cases in [Activity]; the properties here
    run the one on the other. *)
From Stdlib Require Import ZArith Lia List Ascii String.
From stdpp Require Import base gmap strings list numbers.
From S2P Require Import Prelude GoLib Model Po Env Logic Mem Keys Router Cache Event Quota.
From S2P Require Import Activity PartakeData Frames PartakeLedger QuotaData.
Open Scope Z_scope.

(** A result that is a pointer and never nil. *)
Definition as_pointer {S A} (m : M S A) : M S (option A) := let! a := m in ret (Some a).

Section Wiring.
Context {R D E : Type} `{RedisOps R} `{SqlOps D} `{EnvOps E} `{LocalCacheOps E} `{PublisherMem E}.
Context `{Codec Activity} `{Codec ActivityAccount} `{Codec UserRaffleOrder} `{Codec ActivitySku}
  `{Codec ActivityCount} `{Codec ActivityResult} `{Codec ActivitySkuStockKey}
  `{Codec SaveOrderTaskMessage} `{EventCodec CreatePartakeOrder} `{EventCodec Z}.

Definition NewActivityRepository (r : Repository) (fuel : nat) : ActivityRepo (W R D E) := {|
  Activity.QueryActivitySku := QuotaData.QueryActivitySku r fuel;
  Activity.QueryRaffleActivityByActivityId := QuotaData.QueryRaffleActivityByActivityId r fuel;
  Activity.QueryRaffleActivityCountByActivityCountId :=
    QuotaData.QueryRaffleActivityCountByActivityCountId r fuel;
  Activity.SaveOrder := QuotaData.SaveOrder r;
  Activity.CacheActivitySkuStockCount := QuotaData.CacheActivitySkuStockCount;
  Activity.SubtractionActivitySkuStock := fun sku aid uid t =>
    as_pointer (QuotaData.SubtractionActivitySkuStock r sku aid uid t);
  Activity.ActivitySkuStockConsumeSendQueue := QuotaData.ActivitySkuStockConsumeSendQueue;
  Activity.ClearActivitySkuStock := QuotaData.ClearActivitySkuStock r;
  Activity.ClearQueueValue := QuotaData.ClearQueueValue r;
  Activity.QueryRaffleActivity := fun aid => as_pointer (PartakeData.QueryRaffleActivity r fuel aid);
  Activity.QueryNoUsedRaffleOrder := PartakeData.QueryNoUsedRaffleOrder r fuel;
  Activity.CacheGetOrCreateNoUsedRaffleOrder := fun order =>
    let! p := PartakeData.CacheGetOrCreateNoUsedRaffleOrder order in ret (Some p.1, p.2);
  Activity.SaveLiteUserRaffleOrder := PartakeData.SaveLiteUserRaffleOrder r;
  Activity.QueryActivityAccount := fun uid aid =>
    as_pointer (PartakeData.QueryActivityAccount r fuel uid aid);
  Activity.QueryActivityAccountDay := PartakeData.QueryActivityAccountDay r;
  Activity.QueryActivityAccountMonth := PartakeData.QueryActivityAccountMonth r;
  Activity.SaveCreatePartakeOrderAggregate := PartakeLedger.SaveCreatePartakeOrderAggregate r;
  Activity.AsyncSaveCreatePartakeOrderAggregate := PartakeData.AsyncSaveCreatePartakeOrderAggregate;
  Activity.UpdateActivitySkuStock := QuotaData.UpdateActivitySkuStock r;
  Activity.QueryActivitySkuByActivityID := QuotaData.QueryActivitySkuByActivityID r;
  Activity.QueryActivityAccountEntity := fun uid aid =>
    as_pointer (QuotaData.QueryActivityAccountEntity r uid aid);
  Activity.QueryRaffleActivityAccountPartakeCount :=
    PartakeLedger.QueryRaffleActivityAccountPartakeCount r;
  Activity.QueryRaffleActivityAccountDayPartakeCount :=
    PartakeLedger.QueryRaffleActivityAccountDayPartakeCount r;
  Activity.AssembleActivityAccountByActivityId := QuotaData.AssembleActivityAccountByActivityId r;
  Activity.AssembleActivityAccountByUserId := QuotaData.AssembleActivityAccountByUserId r |}.
End Wiring.

(** ** Taking part, end to end *)
Section EndToEnd.
Context {R D E : Type} `{RedisLaws R} `{SqlLaws D} `{EnvLaws E} `{LocalCacheOps E} `{PublisherMem E}.
Context `{Codec Activity} `{Codec ActivityAccount} `{Codec UserRaffleOrder} `{Codec ActivitySku}
  `{Codec ActivityCount} `{Codec ActivityResult} `{Codec ActivitySkuStockKey}
  `{CodecLaws SaveOrderTaskMessage} `{EventCodec CreatePartakeOrder} `{EventCodec Z}.
Notation World := (W R D E).
Variables (r : Repository) (fuel : nat).

Lemma reads_account_queries userID activityID t :
  reads (@doFilterAccount World (NewActivityRepository r fuel) _ userID activityID t).
Proof.
  unfold doFilterAccount, Activity.QueryActivityAccount, Activity.QueryActivityAccountDay,
    Activity.QueryActivityAccountMonth, NewActivityRepository, as_pointer,
    PartakeData.QueryActivityAccount, PartakeData.QueryActivityAccountDay,
    PartakeData.QueryActivityAccountMonth, DBStrategy_.
  solve_queries.
Qed.

Lemma reads_take order : reads (D := D) (PartakeData.CacheGetOrCreateNoUsedRaffleOrder (R := R) (E := E) order).
Proof.
  unfold PartakeData.CacheGetOrCreateNoUsedRaffleOrder, now, Eval, read_reply. solve_reads.
Qed.

Lemma off_newOrderID : off_redis (newOrderID (S := World)).
Proof. unfold newOrderID, ev_now, ev_int63n, WorldEnvOps. solve_off_redis. Qed.

(** The queries before an order is taken do not touch the pending order. *)
Lemma spares_activity k activityID :
  GetActivityKey activityID <> k -> spares k (PartakeData.QueryRaffleActivity (R := R) r fuel activityID).
Proof. intros Hne. apply spares_cached; [solve_off_redis|done]. Qed.

Lemma spares_account k userID activityID :
  GetActivityAccountKey activityID userID <> k ->
  spares k (PartakeData.QueryActivityAccount (R := R) (E := E) r fuel userID activityID).
Proof. intros Hne. apply spares_cached; [unfold DBStrategy_; solve_off_redis|done]. Qed.

Lemma off_day_month userID activityID d :
  off_redis (PartakeData.QueryActivityAccountDay (R := R) (E := E) r userID activityID d) /\
  off_redis (PartakeData.QueryActivityAccountMonth (R := R) (E := E) r userID activityID d).
Proof.
  unfold PartakeData.QueryActivityAccountDay, PartakeData.QueryActivityAccountMonth, DBStrategy_.
  split; solve_off_redis.
Qed.

Lemma spares_filter userID activityID t aid uid (w w' : World) agg :
  @doFilterAccount World (NewActivityRepository r fuel) _ userID activityID t w = (Ret agg, w') ->
  view w' !! GetPendingRaffleOrderKey aid uid = view w !! GetPendingRaffleOrderKey aid uid.
Proof.
  intros Hf. destruct (@doFilterAccount_inv World (NewActivityRepository r fuel) _ _ _ _ _ _ _ Hf)
    as (account & s1 & day & s2 & month & Ha & _ & Hday & _ & Hmonth & _).
  change (as_pointer (PartakeData.QueryActivityAccount r fuel userID activityID) w = (Ret (Some account), s1)) in Ha.
  change (PartakeData.QueryActivityAccountDay r userID activityID
    (format_day (ev_offset (E := World) t) t) s1 = (Ret day, s2)) in Hday.
  change (PartakeData.QueryActivityAccountMonth r userID activityID
    (format_month (ev_offset (E := World) t) t) s2 = (Ret month, w')) in Hmonth.
  unfold as_pointer in Ha. inv_bind Ha. injection Ha as <- <-.
  rewrite (spares_run _ _ _ _ _ (spares_off _ _ (proj2 (off_day_month _ _ _))) Hmonth).
  rewrite (spares_run _ _ _ _ _ (spares_off _ _ (proj1 (off_day_month _ _ _))) Hday).
  exact (spares_run _ _ _ _ _ (spares_account (GetPendingRaffleOrderKey aid uid) userID activityID ltac:(done)) Hm).
Qed.

(** What a run leaves.  An order the account already had pending comes back as it is and no
    table changes -- whether the call that made it had saved it is not looked at.  An
    account without a pending order gets a new one, which is pending now, and its row and
    its task are on the user's shard, added together with nothing else; only if one of the
    two tables held a row they collide with is neither added. *)
Definition order_on_disk (partake : PartakeRaffleActivity) (db tableSuffix : string) (agg : CreatePartakeOrder)
    (w w' : World) : Prop :=
  exists o (reused : bool),
    po_UserRaffleOrder agg = Some o /\ uo_UserID o = pra_UserID partake /\
    let pendingKey := GetPendingRaffleOrderKey (uo_ActivityID o) (uo_UserID o) in
    pending_at (view w') pendingKey (uo_OrderID o) /\
    if reused then pending_at (view w) pendingKey (uo_OrderID o) /\ rows w' = rows w
    else (forall oid, ~ pending_at (view w) pendingKey oid) /\
      String.length (uo_OrderID o) = 12%nat /\ uo_OrderState o = UserRaffleOrderStateCreate /\
      (order_and_task_saved db tableSuffix agg o (rows w) (rows w') \/
       rows w' = rows w /\
       (existsb (sq_conflict (Tuser_raffle_order tableSuffix) (lite_order_po o))
          (rows w db (Tuser_raffle_order tableSuffix)) = true \/
        exists messageID message t1 t2,
          existsb (sq_conflict Ttask (save_order_task (pra_UserID partake) messageID message t1 t2))
            (rows w db Ttask) = true)).

Lemma CreateOrder_run (partake : PartakeRaffleActivity) (db tableSuffix : string) (w w' : World) agg :
  DBStrategy (rp_routerDB r) (pra_UserID partake) = Ret (Some db, tableSuffix) ->
  @CreateOrder World (NewActivityRepository r fuel) _ partake w = (Ret agg, w') ->
  order_on_disk partake db tableSuffix agg w w'.
Proof.
  intros Hroute Hrun.
  destruct (@CreateOrder_inv World (NewActivityRepository r fuel) _ _ _ _ _ _ Hrun)
    as (t & s0 & activity & s1 & s2 & order & s3 & o & reused & s4 &
        Hnow & Hact & _ & _ & (filtered & Hf) & Hprop & (id & Hid) & Htake & Ho & Hu & Ha & Hs).
  assert (Hrd : forall A (m : M World A) x y z, reads m -> m x = (y, z) -> rows z = rows x).
  { intros A m x y z Hm E0. specialize (Hm x). by rewrite E0 in Hm. }
  assert (R0 : rows s0 = rows w) by (eapply Hrd; [apply reads_env|exact Hnow]).
  assert (R1 : rows s1 = rows s0).
  { eapply Hrd; [|exact Hact]. unfold Activity.QueryRaffleActivity, NewActivityRepository, as_pointer,
      PartakeData.QueryRaffleActivity. solve_queries. }
  assert (R2 : rows s2 = rows s1) by (eapply Hrd; [apply reads_account_queries|exact Hf]).
  assert (R3 : rows s3 = rows s2).
  { eapply Hrd; [|exact Hid]. unfold newOrderID, ev_now, ev_int63n, WorldEnvOps. solve_reads. }
  assert (V3 : forall aid uid, view s3 !! GetPendingRaffleOrderKey aid uid = view w !! GetPendingRaffleOrderKey aid uid).
  { intros aid uid. rewrite (spares_run _ _ _ _ _ (spares_off _ _ off_newOrderID) Hid).
    rewrite (spares_filter _ _ _ _ _ _ _ _ Hf).
    change (as_pointer (PartakeData.QueryRaffleActivity r fuel (pra_ActivityID partake)) s0
      = (Ret (Some activity), s1)) in Hact.
    unfold as_pointer in Hact. inv_bind Hact. injection Hact as _ <-.
    rewrite (spares_run _ _ _ _ _ (spares_activity (GetPendingRaffleOrderKey aid uid) _ ltac:(done)) Hm).
    exact (spares_run _ _ _ _ _ (spares_off _ _ (off_env _)) Hnow). }
  change (bind (PartakeData.CacheGetOrCreateNoUsedRaffleOrder order)
    (fun p => ret (Some p.1, p.2)) s3 = (Ret (o, reused), s4)) in Htake.
  inv_bind Htake. injection Htake as <- <- <-. destruct a as [o reused]. cbn [fst snd] in *.
  assert (R4 : rows s = rows s3) by (eapply Hrd; [apply reads_take|exact Hm]).
  destruct (take_answer _ _ _ _ _ Hm) as (Hown & Haid & Hst & Hpend & Hre).
  destruct Hprop as (Hpu & _ & _ & _ & Hlen & _). rewrite <- Hown, <- Haid in Hpend, Hre. rewrite Hpu in Hown.
  assert (Rs : rows s = rows w) by congruence.
  exists o, reused. split; [done|]. split; [done|]. cbn zeta. destruct reused.
  { subst s. unfold pending_at in *. rewrite Hre, V3 in Hpend. rewrite Hre, V3. auto. }
  change (PartakeData.SaveLiteUserRaffleOrder r agg s = (Ret tt, w')) in Hs.
  destruct Hre as [Hnum Hnone]. rewrite <- Hown in Hroute.
  assert (Hcreate : uo_OrderState o <> ""%string) by by rewrite Hst.
  destruct (SaveLite_run r agg o db tableSuffix s (Ret tt) w' Ho Hroute Hcreate Hs) as [Hq Hd].
  assert (Vw : view w' = view s) by (unfold view; by rewrite Hq).
  rewrite Vw. split; [done|]. split.
  { intros oid Hp. apply (Hnone oid). unfold pending_at in *. by rewrite V3. }
  rewrite Hnum. split_and!; [done..|]. rewrite <- Rs, <- Hu. exact Hd.
Qed.

End EndToEnd.

(** ** Witnesses

    A world with one open activity, one account with
    two draws left and their counters in Redis. *)
Definition demo_open_activity : Activity := mkActivity 100 "a" "d" 0 1000 7 ActivityStateOpen.
Definition demo_full_account : ActivityAccount := mkActivityAccount "u" 100 3 2 3 2 3 2.
#[local] Instance demo_c1 : Codec Activity := one_value_codec demo_open_activity (mkActivity 0 "" "" 0 0 0 "").
#[local] Instance demo_c2 : Codec ActivityAccount :=
  one_value_codec demo_full_account (mkActivityAccount "" 0 0 0 0 0 0 0).
#[local] Instance demo_c3 : Codec UserRaffleOrder :=
  one_value_codec (mkUserRaffleOrder "u" 100 "a" 7 "o" 0 "create") (mkUserRaffleOrder "" 0 "" 0 "" 0 "").
#[local] Instance demo_c4 : Codec ActivitySku := one_value_codec (mkActivitySku 9 100 1 5 5) (mkActivitySku 0 0 0 0 0).
#[local] Instance demo_c5 : Codec ActivityCount := one_value_codec (mkActivityCount 1 3 3 3) (mkActivityCount 0 0 0 0).
#[local] Instance demo_c6 : Codec ActivityResult :=
  one_value_codec (mkActivityResult "user_id" 1 "SKU_9" 0) (mkActivityResult "" 0 "" 0).
#[local] Instance demo_c7 : Codec ActivitySkuStockKey :=
  one_value_codec (mkActivitySkuStockKey 9 100) (mkActivitySkuStockKey 0 0).
#[local] Instance demo_c8 : Codec SaveOrderTaskMessage :=
  one_value_codec (mkSaveOrderTaskMessage "u" "000000000000") (mkSaveOrderTaskMessage "" "").
#[local] Instance demo_c8_laws : CodecLaws SaveOrderTaskMessage := one_value_laws _ _.
#[local] Instance demo_e1 : EventCodec CreatePartakeOrder := {| marshal_event := fun e => Ret (ev_ID e) |}.
#[local] Instance demo_e2 : EventCodec Z := {| marshal_event := fun e => Ret (ev_ID e) |}.
#[local] Instance demo_pm : PublisherMem MemEnv := {| declared := fun _ _ => false; declare := fun _ e => e |}.
#[local] Instance demo_wire_sql : SqlOps MemSql := MemSqlOps (fun _ _ _ => false).
#[local] Instance demo_wire_laws : SqlLaws MemSql := MemSqlLaws (fun _ _ _ => false).

Definition demo_wire_repository : Repository :=
  mkRepository (mkDBRouter {["01"%string := "db1"%string]} 1 1) "db"
    (mkPublisher "zero" "rebate" "award") true.
#[local] Instance demo_wired : ActivityRepo MemWorld := NewActivityRepository demo_wire_repository 2.

Definition demo_wire_rows : MemSql := fun _ t =>
  match t return list (row t) with
  | Traffle_activity => [mkRaffleActivityPO 1 100 "a" "d" 0 1000 7 "open" zero_time zero_time]
  | Traffle_activity_account => [mkRaffleActivityAccountPO 1 "u" 100 3 2 3 2 3 2 zero_time zero_time]
  | _ => []
  end.
Definition demo_wire_redis : MemRedis :=
  <[GetActivitySkuStockCountKey 9 := RStr "5"]>
  (<[GetActivityAccountTotalSurplusKey 100 "u" := RStr "2"]>
   (<[GetActivityAccountDaySurplusKey 100 "u" (format_day 28800 0) := RStr "2"]>
    (<[GetActivityAccountMonthSurplusKey 100 "u" (format_month 28800 0) := RStr "2"]> ∅))).
Definition demo_wire_world : MemWorld := mem_world demo_wire_redis demo_wire_rows 0 [].

Definition demo_created : res CreatePartakeOrder * MemWorld :=
  CreateOrder (S := MemWorld) (mkPartakeRaffleActivity "u" 100) demo_wire_world.
Definition demo_created_aggregate : CreatePartakeOrder :=
  mkCreatePartakeOrder "u" 100 (Some demo_full_account)
    false (Some (mkActivityAccountMonth "u" 100 "1970-01" 3 2))
    false (Some (mkActivityAccountDay "u" 100 "1970-01-01" 3 2))
    (Some (mkUserRaffleOrder "u" 100 "a" 7 "000000000000" 0 "create")).

Lemma demo_created_eq : demo_created = (Ret demo_created_aggregate, demo_created.2).
Proof. apply injective_projections; [vm_compute; reflexivity|reflexivity]. Qed.

Lemma CreateOrder_admits_witness :
  exists t s0 activity s1 account s2 day s3 month s4 order s5 o reused s6,
    ev_now demo_wire_world = (Ret t, s0) /\
    Activity.QueryRaffleActivity 100 s0 = (Ret (Some activity), s1) /\
    act_State activity = ActivityStateOpen /\
    act_BeginDateTime activity <= t <= act_EndDateTime activity /\
    Activity.QueryActivityAccount "u" 100 s1 = (Ret (Some account), s2) /\
    0 < acc_TotalCountSurplus account /\
    Activity.QueryActivityAccountDay "u" 100 (format_day (ev_offset (E := MemWorld) t) t) s2 = (Ret day, s3) /\
    (forall d, day = Some d -> 0 < ad_DayCountSurplus d) /\
    Activity.QueryActivityAccountMonth "u" 100 (format_month (ev_offset (E := MemWorld) t) t) s3 = (Ret month, s4) /\
    (forall m, month = Some m -> 0 < am_MonthCountSurplus m) /\
    proposed "u" activity t order /\
    Activity.CacheGetOrCreateNoUsedRaffleOrder order s5 = (Ret (o, reused), s6) /\
    po_UserRaffleOrder demo_created_aggregate = o /\
    (if (reused : bool) then demo_created.2 = s6
     else Activity.SaveLiteUserRaffleOrder demo_created_aggregate s6 = (Ret tt, demo_created.2)).
Proof.
  exact (CreateOrder_admits (S := MemWorld) (mkPartakeRaffleActivity "u" 100) demo_wire_world
    demo_created.2 demo_created_aggregate demo_created_eq).
Defined.


(** The chain sells one of five units and queues the debit. *)
Definition demo_chain : res bool * MemWorld :=
  Action (S := MemWorld) OpenLogicChain (mkActivitySku 9 100 1 5 5) demo_open_activity
    (mkActivityCount 1 3 3 3) demo_wire_world.

Lemma sku_chain_sells_witness :
  w_redis demo_chain.2 !! GetActivitySkuStockCountKey 9 = Some (RStr "4") /\
  map fst (me_queue (w_env demo_chain.2)) = [(TaskTypeActivitySkuStockConsume, "x"%string)] /\
  true = true /\ act_State demo_open_activity = ActivityStateOpen /\ 0 < 5 /\
  (exists t1 s1 t2 s2 result s3,
    ev_now demo_wire_world = (Ret t1, s1) /\ act_BeginDateTime demo_open_activity <= t1 /\
    ev_now s1 = (Ret t2, s2) /\ t2 <= act_EndDateTime demo_open_activity /\
    Activity.SubtractionActivitySkuStock 9 100 "user_id" 1000 s2 = (Ret (Some result), s3) /\
    ar_Status result = ActivityResultStatusSuccess /\
    Activity.ActivitySkuStockConsumeSendQueue (mkActivitySkuStockKey 9 100) s3 = (Ret tt, demo_chain.2)).
Proof.
  split; [vm_compute; reflexivity|]. split; [vm_compute; reflexivity|].
  refine (sku_chain_sells (S := MemWorld) (mkActivitySku 9 100 1 5 5) demo_open_activity
    (mkActivityCount 1 3 3 3) demo_wire_world demo_chain.2 true _).
  apply injective_projections; [vm_compute; reflexivity|reflexivity].
Defined.
