(* ===== verification/StrategyData.v ===== *)
(** * StrategyData: the repository of the strategies

    [internal/data/strategy.go]: the cached configuration of a strategy, the tree of an
    award's rules, the pools the armory stores, and the stock of an award. *)
From Stdlib Require Import ZArith Lia List Ascii String.
From stdpp Require Import base gmap strings list numbers.
From S2P Require Import Prelude GoLib Model Po Env Logic Mem Keys Router Cache Calls Event Quota PartakeData.
From S2P Require Import StrategyRepo Frames.
Open Scope Z_scope.

Record strategyRepository := mkStrategyRepository {
  sp_db : dbh;
  sp_routerDB : DBRouter }.

(** [Update("award_count_surplus", gorm.Expr("award_count_surplus - 1"))] *)
Definition debit_award (now : time) (p : StrategyAwardPO) : StrategyAwardPO :=
  {| sap_ID := sap_ID p; sap_StrategyID := sap_StrategyID p; sap_AwardID := sap_AwardID p;
     sap_AwardTitle := sap_AwardTitle p; sap_AwardSubtitle := sap_AwardSubtitle p;
     sap_AwardCount := sap_AwardCount p; sap_AwardCountSurplus := sap_AwardCountSurplus p - 1;
     sap_AwardRate := sap_AwardRate p; sap_RuleModels := sap_RuleModels p; sap_Sort := sap_Sort p;
     sap_CreateTime := sap_CreateTime p; sap_UpdateTime := now |}.

Definition is_award (strategyID awardID : Z) (p : StrategyAwardPO) : bool :=
  (sap_StrategyID p =? strategyID) && (sap_AwardID p =? awardID).
Definition is_rule (strategyID : Z) (ruleModel : string) (p : StrategyRulePO) : bool :=
  (srp_StrategyID p =? strategyID) && String.eqb (srp_RuleModel p) ruleModel.

(** ** Building a rule tree from its rows *)

(** [nodeLineMap]: the lines of each node, in the order of the rows. *)
Definition nodeLineMap (linePOs : list RuleTreeNodeLinePO) : gmap string (list RuleTreeNodeLine) :=
  fold_left (fun m po =>
    <[rlp_RuleNodeFrom po := default [] (m !! rlp_RuleNodeFrom po) ++ [RuleTreeNodeLine_ToEntity po]]> m)
    linePOs ∅.

(** [node.TreeNodeLine = lines], when the node has lines. *)
Definition attach_lines (lines : gmap string (list RuleTreeNodeLine)) (node : RuleTreeNode) : RuleTreeNode :=
  match lines !! rn_RuleKey node with
  | Some ls => {| rn_TreeID := rn_TreeID node; rn_RuleKey := rn_RuleKey node;
                  rn_RuleDesc := rn_RuleDesc node; rn_RuleValue := rn_RuleValue node;
                  rn_TreeNodeLine := ls |}
  | None => node
  end.

Definition nodeMap (lines : gmap string (list RuleTreeNodeLine)) (nodePOs : list RuleTreeNodePO)
    : gmap string RuleTreeNode :=
  fold_left (fun m po =>
    let node := attach_lines lines (RuleTreeNode_ToEntity po) in <[rn_RuleKey node := node]> m)
    nodePOs ∅.

Definition build_tree (treePO : RuleTreePO) (nodePOs : list RuleTreeNodePO)
    (linePOs : list RuleTreeNodeLinePO) : RuleTree :=
  let t := RuleTree_ToEntity treePO in
  {| rt_TreeID := rt_TreeID t; rt_TreeName := rt_TreeName t; rt_TreeDesc := rt_TreeDesc t;
     rt_TreeRootRuleNode := rt_TreeRootRuleNode t;
     rt_NodeMap := nodeMap (nodeLineMap linePOs) nodePOs |}.

(** ** Parsing a weight rule for display *)
Record parsedRule := mkParsedRule {
  pr_weightStr : string;
  pr_weight : Z;
  pr_awardIDs : list Z }.

(** Ids that are not numbers are skipped. *)
Definition parse_ids (idStrs : list string) : list Z :=
  flat_map (fun s => match Atoi s with Ret id => [id] | _ => [] end) idStrs.

Fixpoint parse_rules (groups : list string) : res (list parsedRule) :=
  match groups with
  | [] => Ret []
  | group :: rest =>
      if String.eqb group "" then parse_rules rest
      else match Split group COLON with
           | [weightStr; awardIDsStr] =>
               let? weight := Atoi weightStr in
               let awardIDs := parse_ids (Split awardIDsStr SPLIT) in
               let? rules := parse_rules rest in
               Ret (mkParsedRule group weight awardIDs :: rules)
           | _ => parse_rules rest
           end
  end.

(** [uniqueAwardIDs] *)
Definition unique_ids (rules : list parsedRule) : gset Z :=
  list_to_set (flat_map pr_awardIDs rules).

(** [awardTitleMap]: a later row of the same award replaces an earlier one. *)
Definition title_map (awardPOs : list StrategyAwardPO) : gmap Z string :=
  fold_left (fun m po => <[sap_AwardID po := sap_AwardTitle po]> m) awardPOs ∅.

Definition build_bucket (titles : gmap Z string) (rule : parsedRule) : WeightBucket :=
  {| wb_RuleValue := pr_weightStr rule;
     wb_Weight := pr_weight rule;
     wb_AwardIds := pr_awardIDs rule;
     wb_AwardList := map (fun id => mkAward id (default EmptyString (titles !! id))) (pr_awardIDs rule) |}.

(** ** The operations *)
Section StrategyData.
Context {R D E : Type} `{RedisOps R} `{SqlOps D} `{EnvOps E} `{LocalCacheOps E}.
Context `{Codec Strategy} `{Codec (list StrategyAward)} `{Codec string} `{Codec RuleTree}
  `{Codec StrategyAward} `{Codec (list WeightBucket)} `{Codec RaffleActivityPO} `{Codec ActivityAccount}
  `{Codec AwardStockConsumeMessage}.
Notation World := (W R D E).
Variable d : strategyRepository.
Variable fuel : nat.

Definition QueryStrategyIdByActivityId (activityID : Z) : M World Z :=
  Once redis_only fuel
    (cached_item (strategyIdByActivityKey activityID) hour10days
       (let! p := first_or_nil (in_sql (sq_first (sp_db d) Traffle_activity
                    (fun p => rap_ActivityID p =? activityID))) in
        ret (option_map rap_StrategyID p))) 0.

Definition QueryStrategyEntityByStrategyId (strategyID : Z) : M World Strategy :=
  Once redis_only fuel
    (cached_item (GetStrategyKey strategyID) hour10days
       (let! p := first_or_nil (in_sql (sq_first (sp_db d) Tstrategy
                    (fun p => stp_StrategyID p =? strategyID))) in
        ret (option_map Strategy_ToEntity p))) (mkStrategy 0 "" "").

Definition QueryStrategyAwardList (strategyID : Z) : M World (list StrategyAward) :=
  Once redis_only fuel
    (cached_item (GetStrategyAwardKey strategyID) hour10days
       (let! dbResult := in_sql (sq_find (sp_db d) Tstrategy_award
                           (fun p => sap_StrategyID p =? strategyID)) in
        ret (Some (map StrategyAward_ToEntity dbResult)))) [].

Definition QueryStrategyRule (strategyID : Z) (ruleModel : string) : M World (option StrategyRule) :=
  let! p := first_or_nil (in_sql (sq_first (sp_db d) Tstrategy_rule (is_rule strategyID ruleModel))) in
  ret (option_map StrategyRule_ToEntity p).

(** [Scan] of one column: no row leaves the empty string. *)
Definition scan_rule_value (strategyID : Z) (ruleModel : string) : M World (option string) :=
  let! rv := attempt (in_sql (sq_scan (sp_db d) Tstrategy_rule (is_rule strategyID ruleModel)
                        srp_RuleValue)) in
  match rv with
  | inl rv => ret (Some (default EmptyString rv))
  | inr err => if errors_is is_not_found err then ret (Some EmptyString) else fail err
  end.

Definition QueryStrategyValue (strategyID : Z) (ruleModel : RuleChainName) : M World string :=
  Once redis_only fuel
    (cached_item (GetStrategyRuleValueKey strategyID ruleModel) hour10days
       (scan_rule_value strategyID ruleModel)) EmptyString.

Definition QueryStrategyRuleValue (strategyID : Z) (ruleModel : RuleChainName) : M World string :=
  Once redis_only fuel
    (cached_item (GetStrategyRuleValueKey strategyID ruleModel) hour10days
       (scan_rule_value strategyID ruleModel)) EmptyString.

Definition QueryStrategyRuleModel (strategyID awardID : Z) : M World RuleTreeName :=
  Once redis_only fuel
    (cached_item (GetStrategyRuleModelKey strategyID awardID) hour10days
       (let! found := attempt (in_sql (sq_first (sp_db d) Tstrategy_award (is_award strategyID awardID))) in
        match found with
        | inl dbResult => ret (Some (sap_RuleModels dbResult))
        | inr err => if errors_is is_not_found err then ret (Some EmptyString) else fail err
        end)) EmptyString.

(** The loader of [QueryRuleTree]. *)
Definition load_tree (ruleModel : RuleTreeName) : M World (option RuleTree) :=
  let! treePO := first_or_nil (in_sql (sq_first (sp_db d) Trule_tree
                   (fun p => String.eqb (rtp_TreeID p) ruleModel))) in
  match treePO with
  | None => ret None
  | Some treePO =>
      let! nodePOs := in_sql (sq_find (sp_db d) Trule_tree_node
                        (fun p => String.eqb (rnp_TreeID p) ruleModel)) in
      let! linePOs := in_sql (sq_find (sp_db d) Trule_tree_node_line
                        (fun p => String.eqb (rlp_TreeID p) ruleModel)) in
      ret (Some (build_tree treePO nodePOs linePOs))
  end.

Definition QueryRuleTree (ruleModel : RuleTreeName) : M World RuleTree :=
  Once redis_only fuel (cached_item (GetRuleTreeKey ruleModel) hour10days (load_tree ruleModel))
    (mkRuleTree "" "" "" "" ∅).

Definition UpdateStrategyAwardStock (strategyID awardID : Z) : M World unit :=
  let! t := now in
  let! RowsAffected := in_sql (sq_update (sp_db d) Tstrategy_award
    (fun p => is_award strategyID awardID p && (0 <? sap_AwardCountSurplus p)) (debit_award t)) in
  if RowsAffected =? 0 then fail (ENew "no stock to consume or record not found") else ret tt.

Definition NewAwardStockConsumeHandler (msgs : list AwardStockConsumeMessage) : M World unit :=
  for_each msgs (fun m => UpdateStrategyAwardStock (ac_StrategyID m) (ac_AwardID m)).

Definition QueryStrategyAward (strategyID awardID : Z) : M World StrategyAward :=
  Once redis_only fuel
    (cached_item (strategyAwardOneKey strategyID awardID) hour10days
       (let! p := first_or_nil (in_sql (sq_first (sp_db d) Tstrategy_award (is_award strategyID awardID))) in
        ret (option_map StrategyAward_ToEntity p)))
    (mkStrategyAward 0 0 "" "" 0 0 (float_of_Z 0) 0 "").

(** The loader of [QueryAwardRuleWeight]; the order of the ids in the query does not
    matter to its rows. *)
Definition load_weights (strategyID : Z) : M World (option (list WeightBucket)) :=
  let! rulePO := first_or_nil (in_sql (sq_first (sp_db d) Tstrategy_rule (is_rule strategyID "rule_weight"))) in
  match rulePO with
  | None => ret None
  | Some rulePO =>
      let! parsedRules := lift_res (parse_rules (Split (srp_RuleValue rulePO) SPACE)) in
      let awardIDList := unique_ids parsedRules in
      let! awardTitleMap :=
        (if bool_decide (awardIDList = ∅) then ret ∅
         else
           let! awardPOs := in_sql (sq_find (sp_db d) Tstrategy_award
              (fun p => (sap_StrategyID p =? strategyID) && bool_decide (sap_AwardID p ∈ awardIDList))) in
           ret (title_map awardPOs)) in
      ret (Some (map (build_bucket awardTitleMap) parsedRules))
  end.

Definition QueryAwardRuleWeight (strategyID : Z) : M World (list WeightBucket) :=
  Once redis_only fuel
    (cached_item (GetStrategyRuleWeightKey strategyID) hour10days (load_weights strategyID)) [].

Definition QueryActivityAccountTotalUseCount (userID : string) (strategyID : Z) : M World Z :=
  let! activityPO :=
    Once redis_only fuel
      (cached_item (activityByStrategyKey strategyID) hour10days
         (first_or_nil (in_sql (sq_first (sp_db d) Traffle_activity
            (fun p => rap_StrategyID p =? strategyID)))))
      (mkRaffleActivityPO 0 0 "" "" zero_time zero_time 0 "" zero_time zero_time) in
  if rap_ActivityID activityPO =? 0 then ret 0
  else
    let! account := attempt
      (Once redis_only fuel
        (cached_item (GetActivityAccountKey (rap_ActivityID activityPO) userID) hour10days
           (let! dbs := lift_res (DBStrategy (sp_routerDB d) userID) in
            match dbs.1 with
            | None => fail (ENew "db router failed")
            | Some db =>
                let! p := first_or_nil (in_sql (sq_first db Traffle_activity_account
                            (is_account userID (rap_ActivityID activityPO)))) in
                ret (option_map RaffleActivityAccount_ToEntity p)
            end))
        (mkActivityAccount "" 0 0 0 0 0 0 0)) in
    match account with
    | inl account => ret (wrap64 (acc_TotalCount account - acc_TotalCountSurplus account))
    | inr err => if errors_is is_not_found err then ret 0 else fail err
    end.

(** A value stored for ten days. *)
Definition pool_item {A} (key : string) (v : A) : Item (R := R) (D := D) (E := E) A :=
  mkItem key (Some v) hour10days None false false false.

Definition StoreStrategyAwardPool (strategyID : string) (rateRange : Z) (idxToAwardIDMap : gmap Z Z)
    : M World unit :=
  Set_ redis_only (pool_item (GetStrategyRateRangeKey strategyID) rateRange) ;;;
  let values := list_to_map (map (fun kv => (FormatInt kv.1, FormatInt kv.2))
                               (map_to_list idxToAwardIDMap)) in
  HSetWithTTL redis_only (GetStrategyRateTableKey strategyID) values hour10days.

Definition GetRateRange (strategyID : string) : M World Z :=
  Get redis_only (GetStrategyRateRangeKey strategyID).

Definition GetStrategyAwardAssemble (strategyID : string) (randomVal : Z) : M World Z :=
  let! valStr := HGet redis_only (GetStrategyRateTableKey strategyID) (FormatInt randomVal) in
  lift_res (ParseInt valStr).

(** The lock of one unit: a surplus is only handed out while it is not locked. *)
Definition lock_unit (cacheKey : string) (surplus : Z) : prog bool :=
  let lockKey := stockLockKey cacheKey surplus in
  call! ok := send (SETNX lockKey "locked" (24 * Hour)) in
  Done (Ret ok).

(** The two round trips, each of which returns its error. *)
Definition SubtractionAwardStock (strategyID awardID : Z) : prog bool :=
  let cacheKey := GetStrategyAwardCountKey strategyID awardID in
  call! surplus := send (DECR cacheKey) in
  if surplus <? 0 then Done (Ret false)
  else lock_unit cacheKey surplus.

Definition AwardStockConsumeSendQueue (strategyID awardID : Z) : M World unit :=
  let! payload := lift_res (marshal (Some (mkAwardStockConsumeMessage strategyID awardID))) in
  in_env (ev_enqueue TaskTypeStrategyAwardStockConsume payload "critical" Second).

(** [NewStrategyRepository] *)
Definition NewStrategyRepository : StrategyRepo World := {|
  StrategyRepo.QueryStrategyAwardList := QueryStrategyAwardList;
  StrategyRepo.QueryStrategyEntityByStrategyId := fun sid =>
    let! s := QueryStrategyEntityByStrategyId sid in ret (Some s);
  StrategyRepo.QueryStrategyRule := QueryStrategyRule;
  StrategyRepo.QueryStrategyRuleValue := QueryStrategyRuleValue;
  StrategyRepo.QueryStrategyValue := QueryStrategyValue;
  StrategyRepo.QueryStrategyRuleModel := QueryStrategyRuleModel;
  StrategyRepo.QueryRuleTree := fun m => let! t := QueryRuleTree m in ret (Some t);
  StrategyRepo.QueryStrategyAward := fun sid aid =>
    let! a := QueryStrategyAward sid aid in ret (Some a);
  StrategyRepo.UpdateStrategyAwardStock := UpdateStrategyAwardStock;
  StrategyRepo.QueryStrategyIdByActivityId := QueryStrategyIdByActivityId;
  StrategyRepo.QueryAwardRuleWeight := QueryAwardRuleWeight;
  StrategyRepo.QueryActivityAccountTotalUseCount := QueryActivityAccountTotalUseCount;
  StrategyRepo.StoreStrategyAwardPool := StoreStrategyAwardPool;
  StrategyRepo.GetRateRange := GetRateRange;
  StrategyRepo.GetStrategyAwardAssemble := GetStrategyAwardAssemble;
  StrategyRepo.SubtractionAwardStock := fun sid aid => exec (SubtractionAwardStock sid aid);
  StrategyRepo.AwardStockConsumeSendQueue := AwardStockConsumeSendQueue |}.
End StrategyData.
