(* ===== verification/AwardStock.v ===== *)
(** * AwardStock: the stock of an award

    [SubtractionAwardStock] of [StrategyData] is two round trips to Redis, a [DECR] of the
    counter and a [SETNX] of the lock of the unit it returned; clients interleave between
    them, and an operator may put the counter back up.  What one call does, and what any
    number of them can hand out. *)
From Stdlib Require Import ZArith Lia List Ascii String.
From stdpp Require Import base gmap strings list numbers.
From S2P Require Import Prelude GoLib Model Po Env Logic Mem Keys Router Cache Calls Event Quota PartakeData.
From S2P Require Import StrategyRepo StrategyData.
Open Scope Z_scope.

(** Distinct integers of an interval. *)
Lemma NoDup_interval_length (l : list Z) (n : Z) :
  0 <= n -> NoDup l -> (forall x, x ∈ l -> 0 <= x < n) -> Z.of_nat (length l) <= n.
Proof.
  intros Hn Hnd Hin. rewrite <- (Z2Nat.id n) by done. apply inj_le.
  rewrite <- (length_seqZ 0 n). apply submseteq_length, NoDup_submseteq; [done|].
  intros x Hx. apply elem_of_seqZ. specialize (Hin x Hx). lia.
Qed.

Lemma stockLockKey_inj key a b : stockLockKey key a = stockLockKey key b -> a = b.
Proof. unfold stockLockKey. intros E. do 2 apply str_app_inj_l in E. by apply FormatInt_inj. Qed.

Lemma stockLockKey_ne key a : stockLockKey key a <> key.
Proof.
  unfold stockLockKey. intros E. apply (f_equal String.length) in E.
  rewrite !str_length_app in E. cbn [String.length] in E. lia.
Qed.

Lemma redis_int_range s z : redis_int s = Some z -> in_int64 z.
Proof.
  unfold redis_int. destruct (ParseInt s) as [x|e|p] eqn:Ep; try done.
  destruct (String.eqb _ _); [|done]. intros [= ->]. exact (parse_int_range _ _ _ Ep).
Qed.

Section AwardStock.
Context {R D E : Type} `{RedisLaws R} `{LocalCacheOps E}.
Notation World := (W R D E).
Variable cacheKey : string.

(** The counter, when it is one. *)
Definition counter_at (m : gmap string rval) : option Z :=
  match m !! cacheKey with Some (RStr s) => redis_int s | _ => None end.

Definition locked (m : gmap string rval) (unit : Z) : Prop :=
  is_Some (m !! stockLockKey cacheKey unit).

(** The counter is at most [bound], and never went below what an [int64] holds. *)
Definition counter_le (bound : Z) (m : gmap string rval) : Prop :=
  forall z, counter_at m = Some z -> z <= bound.

(** [DECR] takes one unit: the reply is the counter before, less one, and no lock is
    touched.  A missing counter counts as zero. *)
Lemma decr_effect (bound : Z) (m m' : gmap string rval) s :
  0 <= bound -> counter_le bound m -> cmd_spec (DECR cacheKey) m = Some (s, m') ->
  s < bound /\ counter_le bound m' /\ (forall k, k <> cacheKey -> m' !! k = m !! k) /\
  m' !! cacheKey = Some (RStr (FormatInt s)) /\
  (m !! cacheKey = None /\ s = -1 \/ exists z, counter_at m = Some z /\ s = z - 1).
Proof.
  intros Hb Hle. cbn [cmd_spec]. unfold spec_incrby, counter_le, counter_at in *.
  assert (Hnew : forall z, in_int64 z -> z <= bound -> forall y,
    match (<[cacheKey:=RStr (FormatInt z)]> m) !! cacheKey with Some (RStr s) => redis_int s | _ => None end = Some y ->
    y <= bound).
  { intros z Hz Hzb y. rewrite lookup_insert_eq, redis_int_FormatInt by done. by intros [= <-]. }
  destruct (m !! cacheKey) as [[t|h|l]|] eqn:Em; try done.
  - destruct (redis_int t) as [z|] eqn:Et; [|done].
    destruct (in_int64b (z + -1)) eqn:Ei; [|done]. apply in_int64b_spec in Ei.
    intros [= <- <-]. specialize (Hle z eq_refl). split_and!; [lia|by apply Hnew; [|lia]| | |].
    + intros k Hk. by rewrite lookup_insert_ne.
    + by rewrite lookup_insert_eq.
    + right. exists z. split; [done|lia].
  - intros [= <- <-]. split_and!; [lia|apply Hnew; [|lia]| | |by left].
    + unfold in_int64, int64_min, int64_max. lia.
    + intros k Hk. by rewrite lookup_insert_ne.
    + by rewrite lookup_insert_eq.
Qed.

(** [SETNX] of a lock succeeds once. *)
Lemma setnx_effect (m m' : gmap string rval) unit v t b :
  cmd_spec (SETNX (stockLockKey cacheKey unit) v t) m = Some (b, m') ->
  (b = true <-> ~ locked m unit) /\ locked m' unit /\
  (forall k, k <> stockLockKey cacheKey unit -> m' !! k = m !! k).
Proof.
  cbn [cmd_spec]. unfold locked. destruct (m !! stockLockKey cacheKey unit) eqn:Em; intros [= <- <-].
  - split; [split; [done|intros Hn; by destruct Hn]|]. rewrite Em. split; [eauto|done].
  - split; [split; [intros _ [? [=] ]|done]|]. rewrite lookup_insert_eq. split; [eauto|].
    intros k Hk. by rewrite lookup_insert_ne.
Qed.

(** ** Any number of calls

    A pool is the server with its clock, the calls that are waiting for a reply, each at
    what is left of [SubtractionAwardStock], the times at which calls returned true, and
    when the locks run out. *)
Variables strategyID awardID : Z.
Hypothesis cacheKey_eq : cacheKey = GetStrategyAwardCountKey strategyID awardID.

Definition day : Z := 24 * Hour.

Record pool := mkPool {
  pl_world : World;
  pl_now : time;
  pl_calls : list (prog bool);
  pl_sales : list time;
  pl_expiry : gmap string time }.

(** A key that [SETNX] makes runs out after its time to live. *)
Definition expiry_after {B} (c : rcmd B) (now : time) (m m' : gmap string rval)
    (ex : gmap string time) : gmap string time :=
  match c with
  | SETNX k _ t =>
      match m !! k, m' !! k with None, Some _ => <[k := now + t]> ex | _, _ => ex end
  | _ => ex
  end.

(** The server takes the command a call is waiting for and the call goes on with the
    reply. *)
Definition turn (p : prog bool) (w : World) (now : time) (ex : gmap string time)
    : option (prog bool * World * gmap string time) :=
  match p with
  | Done _ => None
  | Call c k =>
      let '(reply, w') := redis_cmd c w in
      Some (k reply, w', expiry_after c now (view w) (view w') ex)
  end.

(** A call without another command to send has returned. *)
Definition go_on (p : prog bool) (now : time) (before after : list (prog bool)) (sales : list time)
    : list (prog bool) * list time :=
  match p with
  | Done (Ret true) => (before ++ after, now :: sales)
  | Done _ => (before ++ after, sales)
  | Call _ _ => (before ++ p :: after, sales)
  end.

(** [bound] is the stock; with [restocking] an operator may set the counter to anything
    that is not more.  A key vanishes when its time is over, one without a recorded time at
    any moment; other commands leave the counter and the locks alone. *)
Variable bound : Z.
Hypothesis bound_nonneg : 0 <= bound.
Variable restocking : bool.

Inductive award_step : pool -> pool -> Prop :=
| step_call w now calls sales ex :
    award_step (mkPool w now calls sales ex)
      (mkPool w now (SubtractionAwardStock strategyID awardID :: calls) sales ex)
| step_turn w w' now before p p' after sales ex ex' :
    turn p w now ex = Some (p', w', ex') ->
    award_step (mkPool w now (before ++ p :: after) sales ex)
      (mkPool w' now (go_on p' now before after sales).1 (go_on p' now before after sales).2 ex')
| step_tick w now now' calls sales ex :
    now <= now' -> award_step (mkPool w now calls sales ex) (mkPool w now' calls sales ex)
| step_expire w w' now calls sales ex key :
    (forall t, ex !! key = Some t -> t <= now) -> view w' = delete key (view w) ->
    award_step (mkPool w now calls sales ex) (mkPool w' now calls sales (delete key ex))
| step_restock w w' now calls sales ex v :
    restocking = true -> v <= bound -> in_int64 v ->
    view w' = <[cacheKey := RStr (FormatInt v)]> (view w) ->
    award_step (mkPool w now calls sales ex) (mkPool w' now calls sales ex)
| step_elsewhere w w' now calls sales ex :
    view w' !! cacheKey = view w !! cacheKey ->
    (forall unit, view w' !! stockLockKey cacheKey unit = view w !! stockLockKey cacheKey unit) ->
    award_step (mkPool w now calls sales ex) (mkPool w' now calls sales ex).

(** The call in front has its turn. *)
Definition first_turn (p : pool) : pool :=
  match pl_calls p with
  | q :: rest =>
      match turn q (pl_world p) (pl_now p) (pl_expiry p) with
      | Some (q', w', ex') =>
          mkPool w' (pl_now p) (go_on q' (pl_now p) [] rest (pl_sales p)).1
            (go_on q' (pl_now p) [] rest (pl_sales p)).2 ex'
      | None => p
      end
  | [] => p
  end.

Lemma first_turn_step p :
  match pl_calls p with
  | q :: _ => turn q (pl_world p) (pl_now p) (pl_expiry p) <> None
  | [] => False
  end -> award_step p (first_turn p).
Proof using.
  destruct p as [w now [|q rest] sales ex]; [done|]. unfold first_turn. cbn.
  destruct (turn q w now ex) as [ [ [q' w'] ex']|] eqn:Et; [|done]. intros _.
  exact (step_turn w w' now [] q q' rest sales ex ex' Et).
Qed.

(** *** The invariant

    [stages] says where each call is: before its first command, or about to lock a unit;
    [handed] are the units the successful calls returned for, with their times, the
    latest first. *)
Definition at_stage (p : prog bool) (stage : option Z) : Prop :=
  match stage with
  | None => p = SubtractionAwardStock strategyID awardID
  | Some u => p = lock_unit cacheKey u /\ 0 <= u < bound
  end.

Definition lock_live (w : World) (now : time) (ex : gmap string time) (ut : Z * time) : Prop :=
  ut.2 + day <= now \/
  locked (view w) ut.1 /\ exists d, ex !! stockLockKey cacheKey ut.1 = Some d /\ ut.2 + day <= d.

Definition spaced (handed : list (Z * time)) : Prop :=
  ForallOrdPairs (fun a b => a.1 = b.1 -> b.2 + day <= a.2) handed.

Definition issued (handed : list (Z * time)) (stages : list (option Z)) : list Z :=
  map fst handed ++ omap id stages.

Record pool_inv (p : pool) (stages : list (option Z)) (handed : list (Z * time)) : Prop := {
  iv_counter : counter_le bound (view (pl_world p));
  iv_stages : Forall2 at_stage (pl_calls p) stages;
  iv_sales : map snd handed = pl_sales p;
  iv_units : forall ut, ut ∈ handed -> 0 <= ut.1 < bound;
  iv_live : forall ut, ut ∈ handed -> lock_live (pl_world p) (pl_now p) (pl_expiry p) ut;
  iv_spaced : spaced handed;
  iv_fresh : restocking = false -> NoDup (issued handed stages) /\
    forall u z, u ∈ issued handed stages -> counter_at (view (pl_world p)) = Some z -> z <= u }.

Lemma issued_range p stages handed u :
  pool_inv p stages handed -> u ∈ issued handed stages -> 0 <= u < bound.
Proof using.
  intros [_ Hs _ Hu _ _ _]. unfold issued. rewrite elem_of_app. intros [Hin|Hin].
  - apply list_elem_of_fmap in Hin as (ut & -> & Hin). by apply Hu.
  - apply list_elem_of_omap in Hin as (o & Hin & Ho). cbn in Ho. subst o.
    revert Hin. induction Hs as [|q o qs os Hq _ IH]; [by intros ?%elem_of_nil|].
    rewrite elem_of_cons. intros [<-|Hin]; [by destruct Hq|auto].
Qed.

(** Steps that are not a turn keep the calls and the sales. *)
Lemma inv_frame w w' now now' calls sales ex ex' stages handed :
  pool_inv (mkPool w now calls sales ex) stages handed ->
  counter_le bound (view w') ->
  (forall ut, ut ∈ handed -> lock_live w now ex ut -> lock_live w' now' ex' ut) ->
  (restocking = false -> forall z, counter_at (view w') = Some z ->
     z < 0 \/ exists z0, counter_at (view w) = Some z0 /\ z <= z0) ->
  pool_inv (mkPool w' now' calls sales ex') stages handed.
Proof using.
  intros Hinv Hc' Hl' Hz. pose proof Hinv as [Hc Hs Hsa Hu Hl Hsp Hf]. cbn in *. constructor; cbn; try done.
  - intros ut Hut. auto.
  - intros Hr. destruct (Hf Hr) as [Hnd Hle]. split; [done|]. intros u z Hin Hcz.
    pose proof (issued_range _ _ _ _ Hinv Hin).
    destruct (Hz Hr z Hcz) as [?|(z0 & Hz0 & ?)]; [lia|]. specialize (Hle u z0 Hin Hz0). lia.
Qed.

(** A call is added, moves to another stage or goes away, on the same server. *)
Lemma inv_calls w now calls calls' sales ex stages stages' handed :
  pool_inv (mkPool w now calls sales ex) stages handed -> Forall2 at_stage calls' stages' ->
  (restocking = false -> NoDup (issued handed stages') /\
     forall u z, u ∈ issued handed stages' -> counter_at (view w) = Some z -> z <= u) ->
  pool_inv (mkPool w now calls' sales ex) stages' handed.
Proof using. intros [Hc Hs Hsa Hu Hl Hsp Hf] Hs' Hf'. by constructor. Qed.

Lemma issued_drop handed s1 o s2 :
  issued handed (s1 ++ o :: s2) ≡ₚ default [] ((fun u => [u]) <$> o) ++ issued handed (s1 ++ s2).
Proof using.
  unfold issued. rewrite !omap_app. destruct o as [u|]; cbn; [|done].
  rewrite !(assoc_L (++)). symmetry. apply Permutation_middle.
Qed.

(** Forgetting a call. *)
Lemma inv_drop w now before p after sales ex s1 o s2 handed :
  pool_inv (mkPool w now (before ++ p :: after) sales ex) (s1 ++ o :: s2) handed ->
  Forall2 at_stage (before ++ after) (s1 ++ s2) ->
  pool_inv (mkPool w now (before ++ after) sales ex) (s1 ++ s2) handed.
Proof using.
  intros Hinv Hs. eapply inv_calls; [exact Hinv|done|]. intros Hr.
  destruct (iv_fresh _ _ _ Hinv Hr) as [Hnd Hle]. cbn in Hle. rewrite issued_drop in Hnd. split.
  - by apply list.NoDup_app in Hnd as (_ & _ & ?).
  - intros u z Hu. apply Hle. rewrite issued_drop, elem_of_app. auto.
Qed.

(** *** The first command *)
Lemma redis_int_printed z y : redis_int (FormatInt z) = Some y -> y = z.
Proof using.
  unfold redis_int. rewrite ParseInt_printed. destruct (in_int64b z); [|done].
  rewrite String.eqb_refl. by intros [= <-].
Qed.

Lemma decr_frame (w w' : World) s now calls sales ex stages handed :
  cmd_spec (DECR cacheKey) (view w) = Some (s, view w') ->
  pool_inv (mkPool w now calls sales ex) stages handed ->
  pool_inv (mkPool w' now calls sales ex) stages handed /\ s < bound /\
  (forall z, counter_at (view w') = Some z -> z = s) /\
  (0 <= s -> counter_at (view w) = Some (s + 1)).
Proof using bound_nonneg.
  intros Es Hinv. pose proof (iv_counter _ _ _ Hinv) as Hc. cbn in Hc.
  destruct (decr_effect bound _ _ _ bound_nonneg Hc Es) as (Hlt & Hc' & Hf & Hnew & Hold).
  assert (Hz : forall z, counter_at (view w') = Some z -> z = s).
  { intros z. unfold counter_at. rewrite Hnew. apply redis_int_printed. }
  split; [|split_and!; [done|done|] ].
  - eapply inv_frame; [exact Hinv|exact Hc'| |].
    + intros ut _ [?|[ [x Hx] Hd] ]; [by left|right]. split; [|done].
      exists x. by rewrite Hf by apply stockLockKey_ne.
    + intros _ z Ez. apply Hz in Ez as ->. destruct Hold as [ [_ ->]|(z0 & Hz0 & ->)]; [by left|right].
      exists z0. split; [done|lia].
  - intros Hpos. destruct Hold as [ [_ ->]|(z0 & Hz0 & ->)]; [lia|]. rewrite Hz0. f_equal. lia.
Qed.

Lemma decr_turn (w w' : World) reply now before after sales ex s1 s2 handed :
  redis_cmd (DECR cacheKey) w = (reply, w') ->
  pool_inv (mkPool w now (before ++ SubtractionAwardStock strategyID awardID :: after) sales ex)
    (s1 ++ None :: s2) handed ->
  Forall2 at_stage before s1 -> Forall2 at_stage after s2 ->
  match reply with
  | Ret s =>
      if s <? 0 then pool_inv (mkPool w' now (before ++ after) sales ex) (s1 ++ s2) handed
      else pool_inv (mkPool w' now (before ++ lock_unit cacheKey s :: after) sales ex)
             (s1 ++ Some s :: s2) handed
  | _ => pool_inv (mkPool w' now (before ++ after) sales ex) (s1 ++ s2) handed
  end.
Proof using bound_nonneg.
  intros Hrun Hinv Hs1 Hs2.
  assert (Hdrop : Forall2 at_stage (before ++ after) (s1 ++ s2)) by by apply Forall2_app.
  apply redis_cmd_spec in Hrun as (_ & _ & Hs). destruct reply as [s|e|q]; [| |done].
  - destruct (decr_frame _ _ _ _ _ _ _ _ _ Hs Hinv) as (Hinv' & Hlt & Hz & Hold).
    destruct (Z.ltb_spec s 0) as [|Hpos]; [by eapply inv_drop|].
    eapply inv_calls; [exact Hinv'|by apply Forall2_app; [|constructor]|]. intros Hr.
    destruct (iv_fresh _ _ _ Hinv Hr) as [Hnd Hle]. cbn in Hle. rewrite issued_drop in Hnd. cbn in Hnd.
    assert (Hnew : s ∉ issued handed (s1 ++ s2)).
    { intros Hin. assert (s + 1 <= s); [|lia]. apply Hle; [|by apply Hold]. by rewrite issued_drop. }
    split.
    + rewrite issued_drop. cbn. by constructor.
    + intros u z. rewrite issued_drop. cbn. rewrite elem_of_cons. intros Hu Ez. apply Hz in Ez as ->.
      destruct Hu as [->|Hu]; [lia|]. assert (s + 1 <= u); [|lia].
      apply Hle; [|by apply Hold]. by rewrite issued_drop.
  - destruct Hs as [Hv|[s Hs] ].
    + eapply inv_drop; [|done]. eapply inv_frame; [exact Hinv|rewrite Hv; apply (iv_counter _ _ _ Hinv)|..].
      * intros ut _. unfold lock_live, locked. by rewrite Hv.
      * intros _ z Ez. right. exists z. rewrite <- Hv. split; [done|lia].
    + eapply inv_drop; [|done]. by apply (decr_frame _ _ _ _ _ _ _ _ _ Hs).
Qed.

(** *** The second command *)
Lemma lock_frame (w w' : World) ok u now calls sales ex stages handed :
  cmd_spec (SETNX (stockLockKey cacheKey u) "locked" day) (view w) = Some (ok, view w') ->
  pool_inv (mkPool w now calls sales ex) stages handed ->
  let ex' := expiry_after (SETNX (stockLockKey cacheKey u) "locked" day) now (view w) (view w') ex in
  pool_inv (mkPool w' now calls sales ex') stages handed /\
  (ok = true -> (forall t, (u, t) ∈ handed -> t + day <= now) /\ lock_live w' now ex' (u, now)).
Proof using.
  intros Es Hinv. cbn zeta. pose proof (iv_counter _ _ _ Hinv) as Hc. cbn in Hc.
  destruct (setnx_effect _ _ _ _ _ _ Es) as (Hok & Hl & Hf).
  assert (Hcnt : counter_at (view w') = counter_at (view w)).
  { unfold counter_at. by rewrite Hf by apply not_eq_sym, stockLockKey_ne. }
  assert (Hkept : forall u', locked (view w) u' -> locked (view w') u').
  { intros u' Hu'. destruct (decide (u' = u)) as [->|Hne]; [done|]. unfold locked in *.
    rewrite Hf; [done|]. by intros ?%stockLockKey_inj. }
  split.
  - eapply inv_frame; [exact Hinv|unfold counter_le; by rewrite Hcnt| |].
    + intros ut _ [?|[Hlk (d & Hd & Hle)] ]; [by left|right]. split; [auto|]. exists d. split; [|done].
      unfold expiry_after. destruct (view w !! stockLockKey cacheKey u) eqn:Ew; [done|].
      destruct (view w' !! _); [|done]. rewrite lookup_insert_ne; [done|].
      intros E0%stockLockKey_inj. subst u. destruct Hlk as [x Hx]. congruence.
    + intros _ z Ez. right. exists z. rewrite <- Hcnt. split; [done|lia].
  - intros ->. assert (Hfree : ~ locked (view w) u) by by apply Hok. split.
    + intros t Hin. destruct (iv_live _ _ _ Hinv _ Hin) as [?|[Hlk _] ]; [done|]. by destruct Hfree.
    + right. split; [done|]. exists (now + day). cbn [fst snd]. split; [|lia].
      unfold expiry_after. destruct (view w !! _) eqn:Ew; [by destruct Hfree; exists r|].
      destruct Hl as [x Hx]. rewrite Hx. by apply lookup_insert_eq.
Qed.

Lemma lock_turn (w w' : World) reply u now before after sales ex s1 s2 handed :
  redis_cmd (SETNX (stockLockKey cacheKey u) "locked" day) w = (reply, w') ->
  pool_inv (mkPool w now (before ++ lock_unit cacheKey u :: after) sales ex) (s1 ++ Some u :: s2) handed ->
  Forall2 at_stage before s1 -> Forall2 at_stage after s2 -> 0 <= u < bound ->
  let ex' := expiry_after (SETNX (stockLockKey cacheKey u) "locked" day) now (view w) (view w') ex in
  match reply with
  | Ret true => pool_inv (mkPool w' now (before ++ after) (now :: sales) ex') (s1 ++ s2) ((u, now) :: handed)
  | _ => pool_inv (mkPool w' now (before ++ after) sales ex') (s1 ++ s2) handed
  end.
Proof using.
  intros Hrun Hinv Hs1 Hs2 Hu. cbn zeta.
  assert (Hdrop : Forall2 at_stage (before ++ after) (s1 ++ s2)) by by apply Forall2_app.
  apply redis_cmd_spec in Hrun as (_ & _ & Hs). destruct reply as [ok|e|q]; [| |done].
  - destruct (lock_frame _ _ _ _ _ _ _ _ _ _ Hs Hinv) as [Hinv' Hsold].
    destruct ok; [|by eapply inv_drop]. destruct (Hsold eq_refl) as [Hold Hlive]. clear Hsold Hinv.
    destruct Hinv' as [Hc _ Hsa Hun Hl Hsp Hf]. cbn in Hc, Hsa, Hun, Hl, Hsp, Hf. constructor; cbn; try done.
    + by rewrite Hsa.
    + intros ut [->|Hin]%elem_of_cons; [done|by apply Hun].
    + intros ut [->|Hin]%elem_of_cons; [done|by apply Hl].
    + constructor; [|done]. apply List.Forall_forall. intros [u' t] Hin Heq. cbn in Heq. subst u'.
      apply Hold. by apply list_elem_of_In.
    + intros Hr. destruct (Hf Hr) as [Hnd Hle]. rewrite issued_drop in Hnd. split; [exact Hnd|].
      intros u' z Hin. apply Hle. rewrite issued_drop. exact Hin.
  - assert (Hsame : view w' = view w -> pool_inv (mkPool w' now (before ++ after) sales ex) (s1 ++ s2) handed).
    { intros Hv. eapply inv_drop; [|done].
      eapply inv_frame; [exact Hinv|rewrite Hv; apply (iv_counter _ _ _ Hinv)|..].
      - intros ut _. unfold lock_live, locked. by rewrite Hv.
      - intros _ z Ez. right. exists z. rewrite <- Hv. split; [done|lia]. }
    destruct Hs as [Hv|[ok Hs] ].
    + replace (expiry_after _ _ _ _ _) with ex; [by apply Hsame|]. unfold expiry_after. rewrite Hv.
      by destruct (view w !! _).
    + eapply inv_drop; [|done]. by apply (lock_frame _ _ _ _ _ _ _ _ _ _ Hs).
Qed.

Lemma turn_inv (w w' : World) now before p p' after sales ex ex' stages handed :
  turn p w now ex = Some (p', w', ex') ->
  pool_inv (mkPool w now (before ++ p :: after) sales ex) stages handed ->
  exists stages' handed',
    pool_inv (mkPool w' now (go_on p' now before after sales).1 (go_on p' now before after sales).2 ex')
      stages' handed'.
Proof using bound_nonneg cacheKey_eq.
  intros Hturn Hinv. pose proof (iv_stages _ _ _ Hinv) as Hst. cbn in Hst.
  apply Forall2_app_inv_l in Hst as (s1 & s2' & Hs1 & Hs2 & ->).
  apply Forall2_cons_inv_l in Hs2 as (o & s2 & Hp & Hs2 & ->). destruct o as [u|]; cbn in Hp.
  - destruct Hp as [-> Hu]. unfold lock_unit, send, turn in Hturn. cbn [pbind] in Hturn.
    destruct (redis_cmd _ w) as [reply w1] eqn:Er. injection Hturn as <- <- <-.
    pose proof (lock_turn _ _ _ _ _ _ _ _ _ _ _ _ Er Hinv Hs1 Hs2 Hu) as Hl. cbn zeta in Hl.
    destruct reply as [ [] |e|q]; cbn [pbind go_on fst snd] in *; eauto.
  - subst p. unfold SubtractionAwardStock, send, turn in Hturn. cbn [pbind] in Hturn.
    rewrite <- cacheKey_eq in Hturn. destruct (redis_cmd _ w) as [reply w1] eqn:Er.
    injection Hturn as <- <- <-.
    pose proof (decr_turn _ _ _ _ _ _ _ _ _ _ _ Er Hinv Hs1 Hs2) as Hl.
    destruct reply as [s|e|q]; cbn [pbind expiry_after go_on fst snd] in *; [|eauto..].
    destruct (s <? 0); cbn [go_on fst snd]; eauto.
Qed.

Lemma award_step_inv p p' stages handed :
  pool_inv p stages handed -> award_step p p' -> exists stages' handed', pool_inv p' stages' handed'.
Proof using bound_nonneg cacheKey_eq.
  intros Hinv Hstep. destruct Hstep as [w now calls sales ex|w w' now before p p' after sales ex ex' Ht
    |w now now' calls sales ex Hn|w w' now calls sales ex key Hex Hv|w w' now calls sales ex v Hr Hv Hi Ec
    |w w' now calls sales ex E1 E2].
  - exists (None :: stages), handed. eapply inv_calls; [exact Hinv| |].
    + constructor; [done|exact (iv_stages _ _ _ Hinv)].
    + intros Hr. exact (iv_fresh _ _ _ Hinv Hr).
  - by eapply turn_inv.
  - exists stages, handed. eapply inv_frame; [exact Hinv|apply (iv_counter _ _ _ Hinv)|..].
    + intros ut _ [?|?]; [left; lia|by right].
    + intros _ z Ez. right. exists z. split; [done|lia].
  - assert (Hc : forall z, counter_at (view w') = Some z -> counter_at (view w) = Some z).
    { intros z. unfold counter_at. rewrite Hv. destruct (decide (key = cacheKey)) as [->|Hne].
      - by rewrite lookup_delete_eq.
      - by rewrite lookup_delete_ne. }
    exists stages, handed. eapply inv_frame; [exact Hinv| | |].
    + intros z Ez. by apply (iv_counter _ _ _ Hinv), Hc.
    + intros ut _ [?|(Hlk & d & Hd & Hle)]; [by left|].
      destruct (decide (key = stockLockKey cacheKey ut.1)) as [->|Hne].
      * left. specialize (Hex d Hd). lia.
      * right. unfold locked in *. rewrite Hv, !lookup_delete_ne by done. split; [done|by exists d].
    + intros _ z Ez. right. exists z. split; [by apply Hc|lia].
  - exists stages, handed. eapply inv_frame; [exact Hinv| | |].
    + intros z. unfold counter_at. rewrite Ec, lookup_insert_eq, redis_int_FormatInt by done. by intros [= <-].
    + intros ut _. unfold lock_live, locked. by rewrite Ec, lookup_insert_ne by apply not_eq_sym, stockLockKey_ne.
    + intros Hr'. congruence.
  - exists stages, handed. eapply inv_frame; [exact Hinv| | |].
    + unfold counter_le, counter_at. rewrite E1. apply (iv_counter _ _ _ Hinv).
    + intros ut _. unfold lock_live, locked. by rewrite E2.
    + intros _ z. unfold counter_at. rewrite E1. intros Ez. right. exists z. split; [done|lia].
Qed.

(** Sales at least a day apart: a window of a day has one of each unit. *)
Definition within (t : time) (ut : Z * time) : bool := (t <=? ut.2) && (ut.2 <? t + day).

Lemma spaced_window t handed :
  spaced handed -> NoDup (map fst (List.filter (within t) handed)).
Proof using.
  induction 1 as [|ut handed Hall _ IH]; [constructor|]. cbn [List.filter].
  destruct (within t ut) eqn:Ew; [|done]. cbn [map]. constructor; [|done].
  intros (b & Eb & Hin)%list_elem_of_fmap. apply list_elem_of_In, filter_In in Hin as [Hin Hb].
  rewrite List.Forall_forall in Hall. specialize (Hall b Hin Eb).
  unfold within in Ew, Hb. apply andb_true_iff in Ew as [_ Ew], Hb as [Hb _].
  apply Z.ltb_lt in Ew. apply Z.leb_le in Hb. lia.
Qed.

Lemma window_units t handed :
  (forall ut, ut ∈ handed -> 0 <= ut.1 < bound) -> spaced handed ->
  Z.of_nat (length (List.filter (fun s => (t <=? s) && (s <? t + day)) (map snd handed))) <= bound.
Proof using bound_nonneg.
  intros Hu Hsp.
  assert (El : List.filter (fun s => (t <=? s) && (s <? t + day)) (map snd handed) =
    map snd (List.filter (within t) handed)).
  { clear Hu Hsp. induction handed as [|ut handed IH]; [done|]. cbn [map List.filter]. unfold within at 1.
    destruct ((t <=? ut.2) && (ut.2 <? t + day)); cbn [map]; by rewrite IH. }
  rewrite El, length_map, <- (length_map fst). apply NoDup_interval_length; [done|by apply spaced_window|].
  intros u (ut & -> & Hin)%list_elem_of_fmap. apply list_elem_of_In, filter_In in Hin as [Hin _].
  by apply Hu, list_elem_of_In.
Qed.

(** C15. The stock of an award is not oversold, whatever happens between the two round
    trips of the calls to [SubtractionAwardStock]: the counter shows at most [bound] at the
    start, and then any number of calls start, the server takes their commands in any
    order, answers get lost, the operator puts the counter back to anything up to [bound],
    keys run out at their time -- a lock after the day its command asks for -- and other
    commands do not touch the locks.  Then in every window of 24 hours at most [bound]
    calls return true; and if the counter is never put back, at most [bound] do in all,
    however many locks have run out. *)
Theorem award_never_oversold (w0 : World) (t0 : time) (p : pool)
    (Hstart : counter_le bound (view w0))
    (Hreach : rtc award_step (mkPool w0 t0 [] [] ∅) p) :
  (forall t, Z.of_nat (length (List.filter (fun s => (t <=? s) && (s <? t + day)) (pl_sales p))) <= bound) /\
  (restocking = false -> Z.of_nat (length (pl_sales p)) <= bound).
Proof using bound_nonneg cacheKey_eq.
  assert (Hinv : exists stages handed, pool_inv p stages handed).
  { remember (mkPool w0 t0 [] [] ∅) as p0 eqn:E0.
    assert (Hi : exists stages handed, pool_inv p0 stages handed).
    { subst p0. exists [], []. constructor; cbn; try done; try (intros ut Hin; by apply elem_of_nil in Hin).
      - constructor.
      - intros _. split; [constructor|]. intros u z Hin. by apply elem_of_nil in Hin. }
    clear E0 Hstart. induction Hreach as [|x y z Hs _ IH]; [done|]. apply IH.
    destruct Hi as (s & h & Hi). by eapply award_step_inv. }
  destruct Hinv as (stages & handed & Hinv). pose proof Hinv as [_ _ <- Hu _ Hsp Hf]. split.
  - intros t. by apply window_units.
  - intros Hr. destruct (Hf Hr) as [Hnd _]. rewrite length_map, <- (length_map fst).
    apply NoDup_interval_length; [done|by apply list.NoDup_app in Hnd as [? _]|].
    intros u (ut & -> & Hin)%list_elem_of_fmap. by apply Hu.
Qed.
End AwardStock.

(** ** One call *)
Section OneCall.
Context {R D E : Type} `{RedisLaws R} `{LocalCacheOps E}.
Notation World := (W R D E).

(** What one call does to a stock of [c] units: it takes one when there is one, and the
    caller has it when nobody locked that unit before. *)
Definition award_sold (cacheKey : string) (c : option Z) (w : World) (r : res bool) (w' : World) : Prop :=
  let left := default 0 c - 1 in
  let lockKey := stockLockKey cacheKey left in
  same_outside [cacheKey; lockKey] (view w) (view w') /\
  match r with
  | Ret ok => view w' !! cacheKey = Some (RStr (FormatInt left)) /\
      (if left <? 0 then ok = false /\ view w' !! lockKey = view w !! lockKey
       else (ok = true <-> view w !! lockKey = None) /\ is_Some (view w' !! lockKey))
  | Fail _ => view w' !! cacheKey = view w !! cacheKey \/
      view w' !! cacheKey = Some (RStr (FormatInt left))
  | Panic _ => False
  end.

(** One call to [SubtractionAwardStock]: it takes one unit off the counter and returns
    true exactly when a unit was left and its lock was free, and then the lock is held; an
    empty stock -- also one whose counter was never loaded -- returns false, and every
    other key is left alone. *)
Theorem SubtractionAwardStock_sells (strategyID awardID : Z) (c : option Z) (w w' : World) r
    (Hc : view w !! GetStrategyAwardCountKey strategyID awardID = (fun z => RStr (FormatInt z)) <$> c)
    (Hrange : int64_min < default 0 c <= int64_max)
    (Hrun : exec (SubtractionAwardStock strategyID awardID) w = (r, w')) :
  award_sold (GetStrategyAwardCountKey strategyID awardID) c w r w'.
Proof.
  set (cacheKey := GetStrategyAwardCountKey strategyID awardID) in *.
  assert (Hdec : cmd_spec (DECR cacheKey) (view w) = Some (default 0 c - 1,
    <[cacheKey := RStr (FormatInt (default 0 c - 1))]> (view w))).
  { cbn [cmd_spec]. unfold spec_incrby. rewrite Hc. destruct c as [z|]; cbn [fmap option_fmap option_map default id] in *; [|done].
    unfold int64_min, int64_max in Hrange.
    rewrite redis_int_FormatInt by (unfold in_int64, int64_min, int64_max; lia).
    replace (in_int64b (z + -1)) with true
      by (symmetry; apply in_int64b_spec; unfold in_int64, int64_min, int64_max; lia). done. }
  assert (Hne : stockLockKey cacheKey (default 0 c - 1) <> cacheKey) by apply stockLockKey_ne.
  unfold SubtractionAwardStock, send in Hrun. fold cacheKey in Hrun. cbn [pbind exec] in Hrun.
  destruct (redis_cmd (DECR cacheKey) w) as [rd w1] eqn:Ed.
  apply redis_cmd_spec in Ed as (_ & _ & Hs). rewrite Hdec in Hs. unfold award_sold. cbv zeta.
  set (left := default 0 c - 1) in *. set (lockKey := stockLockKey cacheKey left) in *.
  destruct rd as [s|e|p]; [| |done].
  2: { injection Hrun as <- <-. destruct Hs as [->|[a Ha] ]; [by split; [|left]|].
       injection Ha as _ <-. split; [|right; by rewrite lookup_insert_eq].
       intros k Hk. rewrite lookup_insert_ne; [done|set_solver]. }
  injection Hs as Hs1 Hs. subst s.
  destruct (Z.ltb_spec left 0).
  { injection Hrun as <- <-. rewrite <- Hs. split; [|split; [by rewrite lookup_insert_eq|] ].
    - intros k Hk. rewrite lookup_insert_ne; [done|set_solver].
    - split; [done|]. by rewrite lookup_insert_ne. }
  unfold lock_unit, send in Hrun. cbn [pbind exec] in Hrun. fold left in Hrun. fold lockKey in Hrun.
  destruct (redis_cmd (SETNX lockKey "locked" (24 * Hour)) w1) as [rl w2] eqn:El.
  apply redis_cmd_spec in El as (_ & _ & Hl).
  assert (Heff : forall ok m', cmd_spec (SETNX lockKey "locked" (24 * Hour)) (view w1) = Some (ok, m') ->
    m' !! cacheKey = Some (RStr (FormatInt left)) /\ same_outside [cacheKey; lockKey] (view w) m' /\
    (ok = true <-> view w !! lockKey = None) /\ is_Some (m' !! lockKey)).
  { intros ok m'. cbn [cmd_spec]. rewrite <- Hs, lookup_insert_ne by done.
    destruct (view w !! lockKey) as [x|] eqn:Ex; intros [= <- <-].
    - rewrite lookup_insert_eq. split_and!; [done| |done|rewrite lookup_insert_ne, Ex by done; eauto].
      intros k Hk. rewrite lookup_insert_ne; [done|set_solver].
    - rewrite (lookup_insert_ne (<[cacheKey := _]> _)), !lookup_insert_eq by done. split_and!; [done| |done|eauto].
      intros k Hk. rewrite !lookup_insert_ne by set_solver. done. }
  destruct rl as [ok|e|p]; [| |done]; injection Hrun as <- <-.
  - destruct (Heff ok _ Hl) as (A & B & C & D0). by split_and!.
  - destruct Hl as [->|[ok Hl] ]; [|destruct (Heff ok _ Hl) as (A & B & _); split; [done|by right] ].
    rewrite <- Hs, lookup_insert_eq. split; [|by right].
    intros k Hk. rewrite lookup_insert_ne; [done|set_solver].
Qed.
End OneCall.

(** ** Witnesses: one unit, put back by hand after it was sold, and again a day later *)
Definition demo_award_key : string := GetStrategyAwardCountKey 1 7.
Definition demo_award_world (n : Z) : MemWorld :=
  mem_world (<[demo_award_key := RStr (FormatInt n)]> (∅ : MemRedis)) mem_no_rows 0 [].
Notation demo_pool := (pool (R := MemRedis) (D := MemSql) (E := MemEnv)).
Definition demo_step (p p' : demo_pool) : Prop :=
  award_step demo_award_key 1 7 1 true p p'.

(** A call on its own, with the counter set to one before it. *)
Definition demo_restock (p : demo_pool) : demo_pool :=
  mkPool (mem_world (<[demo_award_key := RStr "1"]> (w_redis (pl_world p))) mem_no_rows 0 [])
    (pl_now p) (pl_calls p) (pl_sales p) (pl_expiry p).
Definition demo_call (p : demo_pool) : demo_pool :=
  mkPool (pl_world p) (pl_now p) [SubtractionAwardStock 1 7] (pl_sales p) (pl_expiry p).
Definition demo_round (p : demo_pool) : demo_pool := first_turn (first_turn (demo_call (demo_restock p))).

Definition demo_pool1 : demo_pool := demo_round (mkPool (demo_award_world 1) 0 [] [] ∅).
Definition demo_pool2 : demo_pool := demo_round demo_pool1.
Definition demo_next_day : demo_pool :=
  mkPool (mem_world (delete (stockLockKey demo_award_key 0) (w_redis (pl_world demo_pool2))) mem_no_rows 0 [])
    day [] (pl_sales demo_pool2) (delete (stockLockKey demo_award_key 0) (pl_expiry demo_pool2)).
Definition demo_pool3 : demo_pool := demo_round demo_next_day.

Lemma view_mem_world m d t rnd : view (mem_world m d t rnd) = m.
Proof. reflexivity. Qed.

Lemma demo_round_steps (p : demo_pool) :
  pl_calls p = [] ->
  turn (SubtractionAwardStock 1 7) (pl_world (demo_restock p)) (pl_now p) (pl_expiry p) <> None ->
  match pl_calls (first_turn (demo_call (demo_restock p))) with
  | q :: _ => turn q (pl_world (first_turn (demo_call (demo_restock p)))) (pl_now p)
                (pl_expiry (first_turn (demo_call (demo_restock p)))) <> None
  | [] => False
  end ->
  pl_now (first_turn (demo_call (demo_restock p))) = pl_now p ->
  rtc demo_step p (demo_round p).
Proof.
  intros Hc H1 H2 Hn.
  apply (rtc_l demo_step _ (demo_restock p)).
  { destruct p as [w now calls sales ex]. cbn in Hc. subst calls.
    apply (step_restock demo_award_key 1 7 1 true w (pl_world (demo_restock (mkPool w now [] sales ex)))
      now [] sales ex 1 eq_refl); [lia|by split|reflexivity]. }
  apply (rtc_l demo_step _ (demo_call (demo_restock p))).
  { destruct p as [w now calls sales ex]. cbn in Hc. subst calls. apply step_call. }
  apply (rtc_l demo_step _ (first_turn (demo_call (demo_restock p)))); [by apply first_turn_step|].
  apply rtc_once, first_turn_step. rewrite Hn. exact H2.
Qed.

(** The second call finds the unit locked; a day later its lock has run out. *)
Lemma award_never_oversold_witness :
  pl_sales demo_pool1 = [0] /\ pl_sales demo_pool2 = [0] /\ pl_sales demo_pool3 = [day; 0] /\
  (forall t, Z.of_nat (length (List.filter (fun s => (t <=? s) && (s <? t + day)) (pl_sales demo_pool3))) <= 1).
Proof.
  split; [vm_compute; reflexivity|]. split; [vm_compute; reflexivity|]. split; [vm_compute; reflexivity|].
  refine (proj1 (award_never_oversold demo_award_key 1 7 eq_refl 1 ltac:(lia) true (demo_award_world 1) 0
    demo_pool3 _ _)).
  - intros z. vm_compute. intros [= <-]. discriminate.
  - etrans; [|etrans; [|eapply rtc_l; [|eapply rtc_l] ] ].
    + apply (demo_round_steps (mkPool (demo_award_world 1) 0 [] [] ∅));
        [vm_compute; reflexivity|vm_compute; discriminate|vm_compute; discriminate|vm_compute; reflexivity].
    + apply (demo_round_steps demo_pool1); [vm_compute; reflexivity|vm_compute; discriminate|vm_compute; discriminate|vm_compute; reflexivity].
    + apply (step_tick demo_award_key 1 7 1 true (pl_world demo_pool2) 0 day [] (pl_sales demo_pool2)
        (pl_expiry demo_pool2)). done.
    + apply (step_expire demo_award_key 1 7 1 true (pl_world demo_pool2) (pl_world demo_next_day) day []
        (pl_sales demo_pool2) (pl_expiry demo_pool2) (stockLockKey demo_award_key 0)).
      * assert (El : pl_expiry demo_pool2 !! stockLockKey demo_award_key 0 = Some day)
          by (vm_compute; reflexivity).
        intros t Et. rewrite El in Et. injection Et as <-. lia.
      * exact (view_mem_world (delete _ (w_redis (pl_world demo_pool2))) mem_no_rows 0 []).
    + apply (demo_round_steps demo_next_day); [vm_compute; reflexivity|vm_compute; discriminate|vm_compute; discriminate|vm_compute; reflexivity].
Defined.

(** A counter that was never loaded: the first call makes it -1. *)
Definition demo_unloaded : MemWorld := mem_world ∅ mem_no_rows 0 [].
Definition demo_unloaded_run : res bool * MemWorld := exec (SubtractionAwardStock 1 7) demo_unloaded.

Lemma SubtractionAwardStock_sells_witness :
  demo_unloaded_run.1 = Ret false /\
  award_sold demo_award_key None demo_unloaded demo_unloaded_run.1 demo_unloaded_run.2 /\
  (exec (SubtractionAwardStock 1 7) (demo_award_world 1)).1 = Ret true.
Proof.
  split; [vm_compute; reflexivity|]. split; [|vm_compute; reflexivity].
  refine (SubtractionAwardStock_sells 1 7 None demo_unloaded demo_unloaded_run.2 demo_unloaded_run.1 _ _ _).
  - vm_compute. reflexivity.
  - split; [reflexivity|discriminate].
  - apply surjective_pairing.
Defined.
