(* ===== verification/StrategyTables.v ===== *)
(** * StrategyTables: what the tables of a strategy hold

    The tree [StrategyData] builds from the rows of its nodes and lines, and the stock
    column the queue consumer debits. *)
From Stdlib Require Import ZArith Lia List Ascii String.
From stdpp Require Import base gmap strings list numbers.
From S2P Require Import Prelude GoLib Model Po Env Logic Mem Keys Router Cache Event Quota PartakeData.
From S2P Require Import StrategyRepo StrategyData.
Open Scope Z_scope.

(** ** The tree of the rows *)

(** The lines of the rows that leave a node. *)
Definition lines_from (k : string) (linePOs : list RuleTreeNodeLinePO) : list RuleTreeNodeLine :=
  map RuleTreeNodeLine_ToEntity (List.filter (fun po => String.eqb (rlp_RuleNodeFrom po) k) linePOs).

Lemma nodeLineMap_lookup linePOs k :
  default [] (nodeLineMap linePOs !! k) = lines_from k linePOs.
Proof.
  unfold nodeLineMap, lines_from. induction linePOs as [|po l IH] using rev_ind; [done|].
  rewrite fold_left_app, List.filter_app, map_app, <- IH. cbn [fold_left List.filter map].
  destruct (String.eqb_spec (rlp_RuleNodeFrom po) k) as [<-|Hne].
  - by rewrite lookup_insert_eq.
  - by rewrite lookup_insert_ne, app_nil_r.
Qed.

(** The last row of a key is the one that counts. *)
Definition node_row (k : string) (nodePOs : list RuleTreeNodePO) : option RuleTreeNodePO :=
  List.find (fun po => String.eqb (rnp_RuleKey po) k) (rev nodePOs).

Lemma attach_lines_key lines node : rn_RuleKey (attach_lines lines node) = rn_RuleKey node.
Proof. unfold attach_lines. by destruct (lines !! rn_RuleKey node). Qed.

Lemma nodeMap_lookup lines nodePOs k :
  nodeMap lines nodePOs !! k =
  option_map (fun po => attach_lines lines (RuleTreeNode_ToEntity po)) (node_row k nodePOs).
Proof.
  unfold nodeMap, node_row. induction nodePOs as [|po l IH] using rev_ind; [done|].
  rewrite fold_left_app, rev_unit. cbn [fold_left List.find].
  rewrite attach_lines_key. cbn [RuleTreeNode_ToEntity rn_RuleKey].
  destruct (String.eqb_spec (rnp_RuleKey po) k) as [<-|Hne].
  - by rewrite lookup_insert_eq.
  - by rewrite lookup_insert_ne.
Qed.

(** [tree] is the tree of the rows: a node for every key that has a row, made from its
    last row and the lines that leave it, in their order. *)
Definition tree_of (treePO : RuleTreePO) (nodePOs : list RuleTreeNodePO)
    (linePOs : list RuleTreeNodeLinePO) (tree : RuleTree) : Prop :=
  rt_TreeID tree = rtp_TreeID treePO /\ rt_TreeRootRuleNode tree = rtp_TreeNodeRuleKey treePO /\
  forall k, rt_NodeMap tree !! k =
    option_map (fun po => mkRuleTreeNode (rnp_TreeID po) k (rnp_RuleDesc po) (rnp_RuleValue po)
                            (lines_from k linePOs)) (node_row k nodePOs).

Lemma build_tree_of treePO nodePOs linePOs : tree_of treePO nodePOs linePOs (build_tree treePO nodePOs linePOs).
Proof.
  split; [done|]. split; [done|]. intros k. cbn [build_tree rt_NodeMap]. rewrite nodeMap_lookup.
  destruct (node_row k nodePOs) as [po|] eqn:Er; [|done]. cbn [option_map]. f_equal.
  apply List.find_some in Er as [_ Hk%String.eqb_eq]. pose proof (nodeLineMap_lookup linePOs k) as Hl.
  unfold attach_lines. cbn [RuleTreeNode_ToEntity rn_RuleKey rn_TreeID rn_RuleDesc rn_RuleValue].
  rewrite Hk. destruct (nodeLineMap linePOs !! k) as [ls|]; cbn [default] in Hl; rewrite <- Hl; [done|].
  unfold RuleTreeNode_ToEntity. by rewrite Hk.
Qed.

Section Tables.
Context {R D E : Type} `{SqlLaws D} `{EnvLaws E}.
Notation World := (W R D E).
Variable d : strategyRepository.

Definition tree_rows (w : World) (m : string) : list RuleTreePO :=
  List.filter (fun p => String.eqb (rtp_TreeID p) m) (rows w (sp_db d) Trule_tree).
Definition node_rows (w : World) (m : string) : list RuleTreeNodePO :=
  List.filter (fun p => String.eqb (rnp_TreeID p) m) (rows w (sp_db d) Trule_tree_node).
Definition line_rows (w : World) (m : string) : list RuleTreeNodeLinePO :=
  List.filter (fun p => String.eqb (rlp_TreeID p) m) (rows w (sp_db d) Trule_tree_node_line).

(** Loading a rule tree reads the tables as they are: a tree that is found has its root
    from a row of the tree, exactly one node per rule key of the tree's node rows -- made
    from the last such row -- and on each node exactly the lines of the tree that leave it,
    in the order of the rows; it answers nothing only when the tree has no row. *)
Theorem load_tree_rows (ruleModel : RuleTreeName) (w w' : World) r
    (Hrun : load_tree d ruleModel w = (r, w')) :
  rows w' = rows w /\
  match r with
  | Ret (Some t) => exists treePO, List.find (fun p => String.eqb (rtp_TreeID p) ruleModel)
                      (rows w (sp_db d) Trule_tree) = Some treePO /\
      tree_of treePO (node_rows w ruleModel) (line_rows w ruleModel) t
  | Ret None => tree_rows w ruleModel = []
  | Fail _ => True
  | Panic _ => False
  end.
Proof using H0.
  pattern r, w'. eapply wp_run; [|exact Hrun]. clear Hrun.
  assert (Hnone : List.find (fun p => String.eqb (rtp_TreeID p) ruleModel) (rows w (sp_db d) Trule_tree) = None ->
    tree_rows w ruleModel = []).
  { intros Hf. apply filter_none. exact (List.find_none _ _ Hf). }
  unfold load_tree, first_or_nil. apply wp_bind, wp_attempt, wp_first. intros w1 Q1 R1.
  split; [|intros e He; destruct (errors_is is_not_found e) eqn:En;
    [apply wp_ret; cbn [then_]; apply wp_ret; by auto|by apply wp_fail] ].
  intros treePO Hf. apply wp_ret. cbn [then_]. apply wp_bind, wp_find. intros w2 Q2 R2.
  split; [cbn [then_]|intros e; cbn [then_]; by rewrite R2]. apply wp_bind, wp_find. intros w3 Q3 R3.
  split; [cbn [then_]|intros e; cbn [then_]; by rewrite R3, R2]. apply wp_ret. split; [congruence|].
  exists treePO. split; [exact Hf|]. rewrite R2, R1. apply build_tree_of.
Qed.

(** ** The stock column *)

(** No award of the table has a negative surplus. *)
Definition surplus_ok (w : World) : Prop :=
  forall p, In p (rows w (sp_db d) Tstrategy_award) -> 0 <= sap_AwardCountSurplus p.

(** The condition of the update. *)
Definition in_stock (strategyID awardID : Z) (p : StrategyAwardPO) : bool :=
  is_award strategyID awardID p && (0 <? sap_AwardCountSurplus p).

Lemma debit_updated strategyID awardID t (l l' : list StrategyAwardPO) :
  updated (t := Tstrategy_award) (in_stock strategyID awardID) (debit_award t) l l' ->
  Forall2 (fun p p' => sap_AwardCountSurplus p' =
    if in_stock strategyID awardID p then sap_AwardCountSurplus p - 1 else sap_AwardCountSurplus p) l l'.
Proof using.
  intros Hu. eapply Forall2_impl; [|exact Hu]. intros p p' Hp. cbv beta in Hp.
  destruct (in_stock strategyID awardID p); [|by rewrite Hp].
  exact (f_equal sap_AwardCountSurplus Hp).
Qed.

(** One debit, on every outcome. *)
Lemma debit_spec strategyID awardID (w : World) :
  wp (UpdateStrategyAwardStock d strategyID awardID) (fun r w' =>
    other_tables (sp_db d) Tstrategy_award (rows w) (rows w') /\
    (Forall2 (fun p p' => sap_AwardCountSurplus p' =
       if in_stock strategyID awardID p then sap_AwardCountSurplus p - 1 else sap_AwardCountSurplus p)
       (rows w (sp_db d) Tstrategy_award) (rows w' (sp_db d) Tstrategy_award) \/
     rows w' = rows w /\ r <> Ret tt) /\
    (r = Ret tt -> exists p, In p (rows w (sp_db d) Tstrategy_award) /\ in_stock strategyID awardID p = true) /\
    (forall p, r <> Panic p)) w.
Proof using H0 H2.
  unfold UpdateStrategyAwardStock, now.
  apply wp_bind, wp_now. intros t w1 _ D1. cbn [then_].
  assert (R1 : rows w1 = rows w) by (unfold rows; by rewrite D1). rewrite <- R1.
  change (fun p : row Tstrategy_award => is_award strategyID awardID p && (0 <? sap_AwardCountSurplus p))
    with (in_stock strategyID awardID : row Tstrategy_award -> bool).
  apply wp_bind, wp_update_lost.
  - intros w2 n _ Hu Ho Hn _. cbn [then_]. destruct (Z.eqb_spec n 0) as [->|Hne].
    + apply wp_fail. split_and!; [exact Ho|left; by apply (debit_updated _ _ t)|done|done].
    + apply wp_ret. split_and!; [exact Ho|left; by apply (debit_updated _ _ t)| |done]. intros _.
      destruct (List.filter _ (rows w1 (sp_db d) Tstrategy_award)) as [|p l] eqn:Ef in Hn; [cbn in Hn; lia|].
      exists p. apply (proj1 (filter_In _ _ _)). rewrite Ef. by left.
  - intros w2 e _ Hl. cbn [then_]. destruct Hl as [Hr|[Hu Ho] ].
    + split_and!; [by intros db' t' _; rewrite Hr|by right|done|done].
    + split_and!; [exact Ho|left; by apply (debit_updated _ _ t)|done|done].
Qed.

(** The consumer of the award-stock queue never drives a surplus below zero: whatever
    messages it handles, repeated ones and ones it fails on included, every award of the
    table keeps a surplus of at least zero, and no other table changes. *)
Lemma award_surplus_invariant (msgs : list AwardStockConsumeMessage) (w w' : World) r
    (Hok : surplus_ok w)
    (Hrun : NewAwardStockConsumeHandler d msgs w = (r, w')) :
  surplus_ok w' /\ other_tables (sp_db d) Tstrategy_award (rows w) (rows w').
Proof using H0 H2.
  unfold NewAwardStockConsumeHandler in Hrun.
  refine (for_each_inv (fun w1 => surplus_ok w1 /\
    other_tables (sp_db d) Tstrategy_award (rows w) (rows w1)) msgs _ _ w r w' _ Hrun).
  2: { split; [done|]. by intros db' t' _. }
  intros m w1 r1 w2 [Hs Ho] Hm. cbv beta in Hm.
  destruct (wp_run _ _ _ _ _ (debit_spec (ac_StrategyID m) (ac_AwardID m) w1) Hm) as (Ho2 & Hrows & _).
  split.
  - destruct Hrows as [Hu|[Hr _] ]; [|unfold surplus_ok; by rewrite Hr]. intros p' Hin.
    apply list_elem_of_In, list_elem_of_lookup in Hin as [i Hi].
    destruct (Forall2_lookup_r _ _ _ _ _ Hu Hi) as (p & Hp & Heq).
    assert (Hpin : In p (rows w1 (sp_db d) Tstrategy_award))
      by (apply list_elem_of_In; by eapply list_elem_of_lookup_2).
    specialize (Hs p Hpin). rewrite Heq. unfold in_stock.
    destruct (is_award _ _ p); cbn [andb]; [|done]. destruct (Z.ltb_spec 0 (sap_AwardCountSurplus p)); lia.
  - intros db' t' Hne. by rewrite Ho2, Ho.
Qed.
End Tables.

(** ** Witnesses *)
#[local] Instance demo_t_sql : SqlOps MemSql := MemSqlOps (fun _ _ _ => false).
#[local] Instance demo_t_laws : SqlLaws MemSql := MemSqlLaws (fun _ _ _ => false).
Definition demo_t_repository : strategyRepository := mkStrategyRepository "db" (mkDBRouter ∅ 1 1).

(** A tree whose luck node has two rows. *)
Definition demo_t_rows : MemSql := fun _ t =>
  match t return list (row t) with
  | Trule_tree => [mkRuleTreePO 1 "tree" "t" "" "rule_stock" zero_time zero_time]
  | Trule_tree_node =>
      [mkRuleTreeNodePO 1 "tree" "rule_stock" "" "" zero_time zero_time;
       mkRuleTreeNodePO 2 "tree" "rule_luck_award" "" "103:1" zero_time zero_time;
       mkRuleTreeNodePO 3 "tree" "rule_luck_award" "" "104:1" zero_time zero_time]
  | Trule_tree_node_line =>
      [mkRuleTreeNodeLinePO 1 "tree" "rule_stock" "rule_luck_award" "EQUAL" "TAKE_OVER" zero_time zero_time;
       mkRuleTreeNodeLinePO 2 "tree" "rule_stock" "" "EQUAL" "ALLOW" zero_time zero_time]
  | Tstrategy_award =>
      [mkStrategyAwardPO 1 1 7 "award" "" 1 1 (float_of_Z 1) "" 1 zero_time zero_time]
  | _ => []
  end.
Definition demo_t_world : MemWorld := mem_world ∅ demo_t_rows 0 [].
Definition demo_t_run : res (option RuleTree) * MemWorld := load_tree demo_t_repository "tree" demo_t_world.

Lemma load_tree_rows_witness :
  exists t, demo_t_run.1 = Ret (Some t) /\
    option_map rn_RuleValue (rt_NodeMap t !! "rule_luck_award"%string) = Some "104:1"%string /\
    exists treePO, List.find (fun p => String.eqb (rtp_TreeID p) "tree") (demo_t_rows "db"%string Trule_tree)
        = Some treePO /\
      tree_of treePO (node_rows demo_t_repository demo_t_world "tree")
        (line_rows demo_t_repository demo_t_world "tree") t.
Proof.
  eexists. split; [vm_compute; reflexivity|]. split; [vm_compute; reflexivity|].
  refine (proj2 (load_tree_rows (R := MemRedis) (E := MemEnv) demo_t_repository "tree" demo_t_world
    demo_t_run.2 (Ret (Some _)) _)).
  apply injective_projections; [vm_compute; reflexivity|reflexivity].
Defined.

(** One unit, two messages: the second one fails. *)
Definition demo_t_debited : res unit * MemWorld :=
  NewAwardStockConsumeHandler demo_t_repository
    [mkAwardStockConsumeMessage 1 7; mkAwardStockConsumeMessage 1 7] demo_t_world.

Lemma award_surplus_invariant_witness :
  demo_t_debited.1 = Fail (ENew "no stock to consume or record not found") /\
  map sap_AwardCountSurplus (w_sql demo_t_debited.2 "db"%string Tstrategy_award) = [0] /\
  surplus_ok demo_t_repository demo_t_debited.2.
Proof.
  split; [vm_compute; reflexivity|]. split; [vm_compute; reflexivity|].
  refine (proj1 (award_surplus_invariant (R := MemRedis) demo_t_repository
    [mkAwardStockConsumeMessage 1 7; mkAwardStockConsumeMessage 1 7] demo_t_world demo_t_debited.2
    demo_t_debited.1 _ _)).
  - intros p [<-|[] ]. discriminate.
  - apply surjective_pairing.
Defined.
