(* ===== verification/StrategyPools.v ===== *)
(** * StrategyPools: the award pools in Redis

    The repository of [StrategyData] keeps a pool as a string with its range and a hash
    from indexes to award ids.  Read back as integers they satisfy the contract
    [PoolLaws] of the armory, so the properties of [Armory] hold of the real repository. *)
From Stdlib Require Import ZArith Lia List Ascii String.
From stdpp Require Import base gmap strings list numbers.
From S2P Require Import Prelude GoLib Model Po Env Logic Mem Keys Router Cache CacheRules Event Quota PartakeData.
From S2P Require Import StrategyRepo Armory StrategyData.
Open Scope Z_scope.

(** ** Hashes of integers *)

(** What an integer field holds for [ParseInt]; what was printed is read back whatever
    its size. *)
Definition int_of (s : string) : option Z :=
  match ParseInt s with Ret z => Some z | _ => printed s end.

Lemma int_of_FormatInt z : int_of (FormatInt z) = Some z.
Proof. unfold int_of. rewrite ParseInt_printed. destruct (in_int64b z); [done|apply printed_FormatInt]. Qed.

Definition int_field (fv : string * string) : option (Z * Z) :=
  match printed fv.1, int_of fv.2 with Some i, Some a => Some (i, a) | _, _ => None end.

Definition int_hash (h : gmap string string) : gmap Z Z :=
  list_to_map (omap int_field (map_to_list h)).

Lemma int_hash_lookup h i : int_hash h !! i = h !! FormatInt i ≫= int_of.
Proof.
  assert (Hiff : forall a, (i, a) ∈ omap int_field (map_to_list h) <-> h !! FormatInt i ≫= int_of = Some a).
  { intros a. rewrite list_elem_of_omap. split.
    - intros ([f v] & Hin & Hf). apply elem_of_map_to_list in Hin. unfold int_field in Hf. cbn [fst snd] in Hf.
      destruct (printed f) as [j|] eqn:Ej; [|done]. destruct (int_of v) as [b|] eqn:Ev; [|done].
      injection Hf as -> ->. apply printed_spec in Ej as ->. by rewrite Hin.
    - intros Hb. destruct (h !! FormatInt i) as [v|] eqn:Eh; [|done]. exists (FormatInt i, v).
      split; [by apply elem_of_map_to_list|]. unfold int_field. cbn [fst snd]. cbn [mbind option_bind] in Hb. by rewrite printed_FormatInt, Hb. }
  unfold int_hash. destruct (h !! FormatInt i ≫= int_of) as [a|] eqn:Ea.
  - apply elem_of_list_to_map_1'; [|by apply Hiff]. intros b Hb. apply Hiff in Hb. congruence.
  - apply not_elem_of_list_to_map_1. intros Hin. apply list_elem_of_fmap in Hin as ([j a] & -> & Hin).
    apply Hiff in Hin. congruence.
Qed.

(** The hash a table is stored as. *)
Definition table_values (tab : gmap Z Z) : gmap string string :=
  list_to_map (map (fun kv => (FormatInt kv.1, FormatInt kv.2)) (map_to_list tab)).

Lemma table_values_lookup tab i : table_values tab !! FormatInt i = FormatInt <$> tab !! i.
Proof.
  assert (Hiff : forall s, (FormatInt i, s) ∈ map (fun kv => (FormatInt kv.1, FormatInt kv.2)) (map_to_list tab)
    <-> FormatInt <$> tab !! i = Some s).
  { intros s. rewrite list_elem_of_fmap. split.
    - intros ([j a] & [= E ->] & Hin). apply FormatInt_inj in E as ->. apply elem_of_map_to_list in Hin.
      by rewrite Hin.
    - destruct (tab !! i) as [a|] eqn:Ea; [|done]. intros [= <-]. exists (i, a).
      split; [done|]. by apply elem_of_map_to_list. }
  unfold table_values. destruct (FormatInt <$> tab !! i) as [s|] eqn:Es.
  - apply elem_of_list_to_map_1'; [|by apply Hiff]. intros y Hy. apply Hiff in Hy. congruence.
  - apply not_elem_of_list_to_map_1. intros Hin. apply list_elem_of_fmap in Hin as ([j s] & Ej & Hin).
    simpl in Ej. subst j. apply Hiff in Hin. congruence.
Qed.

Lemma hset_lookup (l : list (string * string)) (h : gmap string string) f :
  NoDup (map fst l) ->
  foldl (fun acc fv => <[fv.1 := fv.2]> acc) h l !! f =
  ((list_to_map l : gmap string string) ∪ h) !! f.
Proof.
  revert h. induction l as [|[k v] l IH]; intros h Hnd; simpl; [by rewrite lookup_union, lookup_empty; destruct (h !! f)|].
  inversion_clear Hnd as [|? ? Hk Hnd']. rewrite IH by done. rewrite !lookup_union.
  destruct (decide (f = k)) as [->|Hne].
  - rewrite !lookup_insert_eq, (not_elem_of_list_to_map_1 l k); [by destruct (h !! k)|].
    done.
  - by rewrite !lookup_insert_ne.
Qed.

(** Storing a table overwrites its indexes and keeps the others. *)
Lemma int_hash_stored tab h :
  int_hash (foldl (fun acc fv => <[fv.1 := fv.2]> acc) h (map_to_list (table_values tab)))
  = tab ∪ int_hash h.
Proof.
  apply map_eq. intros i. rewrite int_hash_lookup, hset_lookup, list_to_map_to_list
    by apply NoDup_fst_map_to_list.
  rewrite !lookup_union, table_values_lookup, int_hash_lookup.
  destruct (tab !! i) as [a|]; simpl.
  - destruct (h !! FormatInt i) as [s|]; simpl; rewrite int_of_FormatInt; [|done].
    by destruct (int_of s).
  - by destruct (h !! FormatInt i) as [s|]; simpl; [destruct (int_of s)|].
Qed.

(** ** The contract *)
Section Pools.
Context {R D E : Type} `{RedisLaws R} `{SqlOps D} `{EnvLaws E} `{LocalCacheOps E}.
Notation World := (W R D E).

(** The range and the table of a pool, as the keyspace has them. *)
Definition range_at (m : gmap string rval) (key : string) : option Z :=
  match m !! GetStrategyRateRangeKey key with
  | Some (RStr s) => if String.eqb s "null" then Some 0 else printed s
  | _ => None
  end.
Definition table_at (m : gmap string rval) (key : string) : gmap Z Z :=
  match m !! GetStrategyRateTableKey key with Some (RHash h) => int_hash h | _ => ∅ end.

Lemma pool_keys_ne key key' : GetStrategyRateRangeKey key <> GetStrategyRateTableKey key'.
Proof. key_ne. Qed.

Lemma pool_keys_inj key key' :
  (GetStrategyRateRangeKey key = GetStrategyRateRangeKey key' -> key = key') /\
  (GetStrategyRateTableKey key = GetStrategyRateTableKey key' -> key = key').
Proof. split; apply str_app_inj_l. Qed.

(** What the two commands of a pipeline that stores a table leave. *)
Lemma pipe_store_all k values t m m' :
  pipe_all [existT _ (HSET k values); existT _ (EXPIRE k t)] m = Some m' ->
  exists h, get_hash k m = Some h /\
    m' = <[k := RHash (foldl (fun acc fv => <[fv.1 := fv.2]> acc) h values)]> m.
Proof.
  cbn [pipe_all cmd_spec]. destruct values as [|v l]; [done|].
  destruct (get_hash k m) as [h|]; [|done]. rewrite lookup_insert_eq. intros [= <-]. by exists h.
Qed.

Lemma pipe_store_some k values t m m' :
  pipe_some [existT _ (HSET k values); existT _ (EXPIRE k t)] m m' ->
  forall k', k' <> k -> m' !! k' = m !! k'.
Proof.
  assert (Hexp : forall m1, pipe_some [existT _ (EXPIRE k t)] m1 m' -> m' = m1).
  { intros m1. cbn [pipe_some cmd_spec]. intros [?|(a & m2 & Hc & ->)]; [done|].
    by destruct (m1 !! k); injection Hc as _ <-. }
  intros [Hp|(a & m1 & Hc & Hp)] k' Hk; apply Hexp in Hp as ->; [done|].
  cbn [cmd_spec] in Hc. destruct values as [|v l]; [done|].
  destruct (get_hash k m); [|done]. injection Hc as _ <-. by rewrite lookup_insert_ne.
Qed.

Lemma wp_hset_ttl k (values : gmap string string) t Q (w : World) :
  0 < t ->
  (forall w' h, get_hash k (view w) = Some h ->
     view w' = <[k := RHash (foldl (fun acc fv => <[fv.1 := fv.2]> acc) h (map_to_list values))]> (view w) ->
     Q (Ret tt) w') ->
  (forall e w', (forall k', k' <> k -> view w' !! k' = view w !! k') -> Q (Fail e) w') ->
  wp (HSetWithTTL redis_only k values t) Q w.
Proof using H0.
  intros Ht Hok Hfail. unfold HSetWithTTL. cbn [opt_Redis redis_only negb].
  replace (0 <? t) with true by (symmetry; by apply Z.ltb_lt).
  destruct w as [[r e] d]. unfold wp, in_redis.
  match goal with |- context [rd_pipeline ?l] => pose proof (rd_pipeline_law l r) as Hl;
    destruct (rd_pipeline l r) as [x r'] end.
  cbn [fst snd]. destruct x as [[]|err|p]; [| |done].
  - apply pipe_store_all in Hl as (h & Hh & Hv). by apply (Hok ((r', e), d) h).
  - apply Hfail. by apply (pipe_store_some _ _ _ _ _ Hl).
Qed.

Lemma store_pool_spec key n tab (w : World) :
  wp (StrategyData.StoreStrategyAwardPool key n tab) (fun r w' =>
    (r = Ret tt -> range_at (view w') key = Some n /\
       table_at (view w') key = tab ∪ table_at (view w) key) /\
    (forall key', key' <> key -> range_at (view w') key' = range_at (view w) key' /\
       table_at (view w') key' = table_at (view w) key') /\
    (forall p, r <> Panic p)) w.
Proof using H0.
  assert (Hother : forall w' : World,
    (forall k', k' <> GetStrategyRateRangeKey key -> k' <> GetStrategyRateTableKey key ->
       view w' !! k' = view w !! k') ->
    forall key', key' <> key -> range_at (view w') key' = range_at (view w) key' /\
       table_at (view w') key' = table_at (view w) key').
  { intros w' Hk key' Hne. unfold range_at, table_at. rewrite !Hk; [done|..].
    - apply not_eq_sym, pool_keys_ne.
    - by intros ?%pool_keys_inj.
    - by intros ?%pool_keys_inj.
    - apply pool_keys_ne. }
  unfold StrategyData.StoreStrategyAwardPool. apply wp_bind.
  eapply wp_set_item with (v := n) (b := FormatInt n); try done; cbn [it_Key pool_item].
  2: { intros e w1 V1 _ _. cbn [then_]. split_and!; [done| |done]. apply Hother.
       intros k' K1 _. destruct V1 as [->| ->]; [done|by rewrite lookup_insert_ne]. }
  intros w1 V1 _ _. cbn [then_]. fold (table_values tab). apply wp_hset_ttl; [done| |].
  - intros w2 h Hh V2. split_and!; [intros _|apply Hother|done].
    + unfold range_at, table_at. rewrite V2, lookup_insert_eq, lookup_insert_ne
        by (apply not_eq_sym, pool_keys_ne).
      rewrite V1, lookup_insert_eq, printed_FormatInt, int_hash_stored.
      destruct (String.eqb_spec (FormatInt n) "null") as [Hn|_]; [by destruct (FormatInt_not_null n)|].
      split; [done|]. f_equal. revert Hh. unfold get_hash.
      rewrite V1, lookup_insert_ne by apply pool_keys_ne.
      destruct (view w !! GetStrategyRateTableKey key) as [[s|h'|l]|]; try done; by intros [= <-].
    + intros k' K1 K2. by rewrite V2, lookup_insert_ne, V1, lookup_insert_ne.
  - intros e w2 V2. split_and!; [done| |done]. apply Hother. intros k' K1 K2.
    by rewrite V2, V1, lookup_insert_ne.
Qed.

Lemma get_rate_range_spec key (w : World) :
  wp (StrategyData.GetRateRange key) (fun r w' => view w' = view w /\
    match r with Ret n => range_at (view w) key = Some n | Fail _ => True | Panic _ => False end) w.
Proof using H0.
  apply wp_intro. intros r w'. unfold StrategyData.GetRateRange, Get, get, bind. rewrite getBytes_eq.
  destruct (redis_cmd (GET (GetStrategyRateRangeKey key)) w) as [x w1] eqn:Eg.
  apply get_spec in Eg as (_ & _ & Hv & Hg).
  destruct x as [[s|]|e|p]; [|by intros [= <- <-]..|done].
  unfold lift_res. intros [= <- <-]. split; [done|]. unfold range_at. rewrite Hg.
  cbn [unmarshal IntCodec]. destruct (String.eqb s "null"); [done|].
  destruct (redis_int s) as [z|] eqn:Es; [|done]. apply printed_spec. unfold redis_int in Es.
  destruct (ParseInt s) as [y|e|p]; try done. destruct (String.eqb_spec (FormatInt y) s); [|done].
  by injection Es as <-.
Qed.

Lemma get_award_spec key i (w : World) :
  wp (StrategyData.GetStrategyAwardAssemble key i) (fun r w' => view w' = view w /\
    match r with
    | Ret a => table_at (view w) key !! i = Some a
    | Fail e => is_redis_nil e = true -> table_at (view w) key !! i = None
    | Panic _ => False
    end) w.
Proof using H0.
  assert (Hview : forall m a, cmd_spec (HGET (GetStrategyRateTableKey key) (FormatInt i)) (view w) = Some (a, m) ->
    m = view w /\ exists h, get_hash (GetStrategyRateTableKey key) (view w) = Some h /\ a = h !! FormatInt i).
  { intros m a. cbn [cmd_spec]. destruct (get_hash _ _) as [h|]; [|done]. intros [= <- <-]. eauto. }
  assert (Htab : forall h, get_hash (GetStrategyRateTableKey key) (view w) = Some h ->
    table_at (view w) key !! i = h !! FormatInt i ≫= int_of).
  { intros h. unfold get_hash, table_at. destruct (view w !! _) as [[s|h'|l]|]; try done; intros [= <-];
      [by rewrite int_hash_lookup|by rewrite !lookup_empty]. }
  unfold StrategyData.GetStrategyAwardAssemble, HGet. cbn [opt_Redis redis_only negb].
  apply wp_bind, wp_bind, wp_redis.
  - intros a w1 Hs _ _. destruct (Hview _ _ Hs) as (Hv & h & Hh & ->). specialize (Htab h Hh).
    cbn [then_]. destruct (h !! FormatInt i) as [s|]; [|by apply wp_fail].
    apply wp_ret. cbn [then_]. unfold wp, lift_res. cbn [fst snd]. split; [done|]. rewrite Htab.
    cbn [mbind option_bind]. unfold int_of.
    destruct (ParseInt s) as [z|e|p] eqn:Ep; [done| |by destruct (ParseInt_no_panic s p)].
    revert Ep. unfold ParseInt, parse_int. repeat case_match; intros [= <-]; done.
  - intros e w1 Hv _ _ Hnil. cbn [then_]. split; [|congruence].
    destruct Hv as [?|[a Hs] ]; [done|]. by destruct (Hview _ _ Hs).
Qed.
End Pools.

(** ** The real repository keeps the contract *)
Section Instance_.
Context {R D E : Type} `{RedisLaws R} `{SqlOps D} `{EnvLaws E} `{LocalCacheOps E}.
Context `{Codec Strategy} `{Codec (list StrategyAward)} `{Codec string} `{Codec RuleTree}
  `{Codec StrategyAward} `{Codec (list WeightBucket)} `{Codec RaffleActivityPO} `{Codec ActivityAccount}
  `{Codec AwardStockConsumeMessage}.
Notation World := (W R D E).
Variables (d : strategyRepository) (fuel : nat).

Lemma env_pools {A} (m : M E A) (w : World) r w' : in_env m w = (r, w') -> view w' = view w.
Proof using. destruct w as [[r0 e0] d0]. unfold in_env. destruct (m e0). by intros [= _ <-]. Qed.

Lemma rule_query_pools sid m (w : World) r w' :
  StrategyData.QueryStrategyRule d sid m w = (r, w') -> view w' = view w.
Proof using.
  unfold StrategyData.QueryStrategyRule, first_or_nil, bind, attempt, in_sql. destruct w as [x d0].
  destruct (sq_first (sp_db d) Tstrategy_rule (is_rule sid m) d0) as [[p|e|p] d1]; [by intros [= _ <-]| |by intros [= _ <-] ].
  destruct (errors_is is_not_found e); by intros [= _ <-].
Qed.

Definition StrategyPoolLaws : @PoolLaws World (NewStrategyRepository d fuel) _.
Proof using H0 H3.
  refine (@Build_PoolLaws World (NewStrategyRepository d fuel) _
    (fun w key => range_at (view w) key) (fun w key => table_at (view w) key) _ _ _ _ _ _).
  - intros key n tab s r s' Hrun. exact (wp_run _ _ _ _ _ (store_pool_spec key n tab s) Hrun).
  - intros key s r s' Hrun. destruct (wp_run _ _ _ _ _ (get_rate_range_spec key s) Hrun) as [-> Hr].
    split_and!; [done..|]. by destruct r.
  - intros key i s r s' Hrun. destruct (wp_run _ _ _ _ _ (get_award_spec key i s) Hrun) as [-> Hr].
    split_and!; [done..|]. by destruct r.
  - intros sid m s r s' Hrun. by rewrite (rule_query_pools _ _ _ _ _ Hrun).
  - intros A l s r s' Hrun. by rewrite (env_pools _ _ _ _ Hrun).
  - intros n s r s' Hrun. by rewrite (env_pools _ _ _ _ Hrun).
Defined.
End Instance_.
