(* ===== verification/StrategyWiring.v ===== *)
(** * StrategyWiring: the armory on the real repository

    The pools of [Armory] are assembled from the tables of [StrategyData] and stored in
    the Redis of [StrategyPools]: what a draw returns is an award the database configures. *)
From Stdlib Require Import ZArith Lia List Ascii String.
From stdpp Require Import base gmap strings list numbers.
From S2P Require Import Prelude GoLib Model Po Env Logic Mem Keys Router Cache CacheRules Event Quota PartakeData.
From S2P Require Import StrategyRepo Armory Frames StrategyData StrategyPools.
Open Scope Z_scope.

Section Wiring.
Context {R D E : Type} `{RedisLaws R} `{SqlLaws D} `{EnvLaws E} `{LocalCacheOps E}.
Context `{Codec Strategy} `{CodecLaws (list StrategyAward)} `{Codec string} `{Codec RuleTree}
  `{Codec StrategyAward} `{Codec (list WeightBucket)} `{Codec RaffleActivityPO} `{Codec ActivityAccount}
  `{Codec AwardStockConsumeMessage}.
Notation World := (W R D E).
Variables (d : strategyRepository) (fuel : nat).
#[local] Instance repo : StrategyRepo World := NewStrategyRepository d fuel.
#[local] Instance repo_laws : PoolLaws World := StrategyPoolLaws d fuel.

(** The awards the table has for a strategy. *)
Definition configured (w : World) (sid : Z) : list StrategyAward :=
  map StrategyAward_ToEntity
    (List.filter (fun p => sap_StrategyID p =? sid) (rows w (sp_db d) Tstrategy_award)).

Lemma strategy_keys_ne sid : GetStrategyAwardKey sid <> GetStrategyKey sid.
Proof using.
  unfold GetStrategyAwardKey, GetStrategyKey.
  change ("big_market_strategy_award_key_" ++ FormatInt sid)%string
    with ("big_market_strategy_" ++ ("award_key_" ++ FormatInt sid))%string.
  intros Ek%str_app_inj_l. pose proof (FormatInt_no_char "a" sid eq_refl) as Hn.
  rewrite <- Ek in Hn. discriminate Hn.
Qed.

(** The query of a strategy changes its own cache entry only. *)
Lemma strategy_query_frame sid (w w' : World) r :
  StrategyData.QueryStrategyEntityByStrategyId d fuel sid w = (r, w') ->
  rows w' = rows w /\ only_key (GetStrategyKey sid) w w'.
Proof using H0 H2.
  intros Hrun.
  assert (Hr : reads (StrategyData.QueryStrategyEntityByStrategyId d fuel sid)) by
    (unfold StrategyData.QueryStrategyEntityByStrategyId; solve_queries).
  split; [specialize (Hr w); by rewrite Hrun in Hr|].
  replace w' with (StrategyData.QueryStrategyEntityByStrategyId d fuel sid w).2 by (by rewrite Hrun).
  apply (Once_frame (cached_item (GetStrategyKey sid) hour10days _)).
  intros [x d0]. cbn [item_value it_Do cached_item]. unfold first_or_nil, bind, attempt, in_sql.
  destruct (sq_first _ _ _ d0) as [[p|e|q] d1]; try done. by destruct (errors_is is_not_found e).
Qed.

(** The query of the awards returns what the table has, or what the entry holds. *)
Lemma award_query_value sid (w w' : World) awards :
  encodable (configured w sid) -> coherent w (GetStrategyAwardKey sid) (configured w sid) ->
  StrategyData.QueryStrategyAwardList d fuel sid w = (Ret awards, w') -> awards = configured w sid.
Proof using H0 H2 H8.
  intros Henc Hcoh Hrun. symmetry.
  refine (Once_value (cached_item (GetStrategyAwardKey sid) hour10days _) (eq (configured w sid)) fuel []
    w w' awards _ _ Hrun); [by apply coherent_entry_ok|].
  intros w1 o w2 Hd Hl. cbn [item_value it_Do cached_item] in Hl.
  inv_bind Hl. injection Hl as <- <-. destruct w1 as [x d1]. unfold in_sql in Hm.
  pose proof (sq_find_law (sp_db d) Tstrategy_award (fun p => sap_StrategyID p =? sid) d1) as Hf.
  destruct (sq_find (sp_db d) Tstrategy_award _ d1) as [rf d2]. injection Hm as -> <-.
  destruct Hf as [-> _]. assert (Ec : configured w sid = map StrategyAward_ToEntity
    (List.filter (fun p => sap_StrategyID p =? sid) (sq_rows d1 (sp_db d) Tstrategy_award)))
    by (unfold configured, rows; by rewrite <- Hd).
  split; [intros x' [= <-]; exact (eq_ind _ encodable Henc _ Ec)|exact Ec].
Qed.

(** C37. A draw gives an award the database configures: when a strategy was assembled on
    the repository, and the keys of its default pool -- the one no weight rule chooses --
    were left alone since, a draw from that pool returns
    an award that is a row of [strategy_award] for that strategy and whose rate earns it
    a place -- provided the cached award list, if there was one, was that of the table. *)
Theorem assembled_draw_configured (sid a : Z) (w w1 w2 w3 : World)
    (Henc : encodable (configured w sid))
    (Hcoh : coherent w (GetStrategyAwardKey sid) (configured w sid))
    (Hassemble : assembleLotteryStrategy sid w = (Ret true, w1))
    (Hrange : view w2 !! GetStrategyRateRangeKey (FormatInt sid) = view w1 !! GetStrategyRateRangeKey (FormatInt sid))
    (Htable : view w2 !! GetStrategyRateTableKey (FormatInt sid) = view w1 !! GetStrategyRateTableKey (FormatInt sid))
    (Hdraw : getRandomAwardIDWithWeight sid "" w2 = (Ret a, w3)) :
  exists p, In p (rows w (sp_db d) Tstrategy_award) /\ sap_StrategyID p = sid /\ sap_AwardID p = a /\
    0 < award_count (configured w sid) (StrategyAward_ToEntity p).
Proof.
  destruct (assemble_strategy_run _ _ _ Hassemble) as (entity & awards & s1 & s2 & He & Ha & Hp & _).
  change (bind (StrategyData.QueryStrategyEntityByStrategyId d fuel sid) (fun s => ret (Some s)) w
    = (Ret (Some entity), s1)) in He.
  inv_bind He. injection He as _ <-.
  destruct (strategy_query_frame _ _ _ _ Hm) as [Hrows Hkey].
  change (StrategyData.QueryStrategyAwardList d fuel sid s = (Ret awards, s2)) in Ha.
  assert (Hc : configured s sid = configured w sid) by (unfold configured; by rewrite Hrows).
  assert (Hcoh' : coherent s (GetStrategyAwardKey sid) (configured s sid)).
  { rewrite Hc. unfold coherent in *. rewrite Hkey by apply strategy_keys_ne. exact Hcoh. }
  rewrite <- Hc in Henc. pose proof (award_query_value _ _ _ _ Henc Hcoh' Ha) as ->. rewrite Hc in Hp.
  unfold getRandomAwardIDWithWeight in Hdraw. cbn [String.eqb negb] in Hdraw.
  apply getRandomAwardID_spec in Hdraw as [_ (n & i & Hn & Hi & Hai)].
  change (range_at (view w2) (FormatInt sid) = Some n) in Hn.
  change (table_at (view w2) (FormatInt sid) !! i = Some a) in Hai.
  unfold range_at in Hn. unfold table_at in Hai. rewrite Hrange in Hn. rewrite Htable in Hai.
  destruct (Hp n Hn i Hi) as (a' & Ha' & (x & Hx & <- & Hcount)).
  assert (Heq : sa_AwardID x = a) by (change (table_at (view w1) (FormatInt sid) !! i = Some (sa_AwardID x)) in Ha';
    unfold table_at in Ha'; congruence).
  unfold configured in Hx. apply list_elem_of_In, in_map_iff in Hx as (p & <- & Hin).
  apply filter_In in Hin as [Hin Hs]. apply Z.eqb_eq in Hs. exists p. by split_and!.
Qed.
End Wiring.

(** ** Witness: two awards, a draw a day later *)
Definition demo_row (aid : Z) (rate : float64) : StrategyAwardPO :=
  mkStrategyAwardPO aid 1 aid "award" "" 10 10 rate "" aid zero_time zero_time.
Definition demo_award_rows : list StrategyAwardPO :=
  [demo_row 101 (float_of_decimal 5 1); demo_row 102 (float_of_decimal 5 1); demo_row 103 (float_of_Z 0)].
Definition demo_strategy_rows : MemSql := fun _ t =>
  match t return list (row t) with
  | Tstrategy => [mkStrategyPO 1 1 "s" "" zero_time zero_time]
  | Tstrategy_award => demo_award_rows
  | _ => []
  end.
#[local] Instance demo_s1 : Codec Strategy := one_value_codec (mkStrategy 1 "s" "") (mkStrategy 0 "" "").
#[local] Instance demo_s2 : Codec (list StrategyAward) :=
  one_value_codec (map StrategyAward_ToEntity demo_award_rows) [].
#[local] Instance demo_s2_laws : CodecLaws (list StrategyAward) := one_value_laws _ _.
#[local] Instance demo_s3 : Codec string := one_value_codec "s"%string EmptyString.
#[local] Instance demo_s4 : Codec RuleTree := one_value_codec (mkRuleTree "" "" "" "" ∅) (mkRuleTree "" "" "" "" ∅).
#[local] Instance demo_s5 : Codec StrategyAward :=
  let a := StrategyAward_ToEntity (demo_row 101 (float_of_Z 0)) in one_value_codec a a.
#[local] Instance demo_s6 : Codec (list WeightBucket) := one_value_codec [] [].
#[local] Instance demo_s7 : Codec RaffleActivityPO :=
  let p := mkRaffleActivityPO 0 0 "" "" 0 0 0 "" 0 0 in one_value_codec p p.
#[local] Instance demo_s8 : Codec ActivityAccount :=
  let a := mkActivityAccount "" 0 0 0 0 0 0 0 in one_value_codec a a.
#[local] Instance demo_s9 : Codec AwardStockConsumeMessage :=
  let m := mkAwardStockConsumeMessage 0 0 in one_value_codec m m.
#[local] Instance demo_s_sql : SqlOps MemSql := MemSqlOps (fun _ _ _ => false).
#[local] Instance demo_s_laws : SqlLaws MemSql := MemSqlLaws (fun _ _ _ => false).

Definition demo_strategy_repository : strategyRepository := mkStrategyRepository "db" (mkDBRouter ∅ 1 1).
#[local] Instance demo_strategy_repo : StrategyRepo MemWorld := NewStrategyRepository demo_strategy_repository 2.
Definition demo_strategy_world : MemWorld := mem_world ∅ demo_strategy_rows 0 [7].
Definition demo_strategy_assembled : res bool * MemWorld := assembleLotteryStrategy 1 demo_strategy_world.
Definition demo_strategy_draw : res Z * MemWorld :=
  getRandomAwardIDWithWeight 1 "" demo_strategy_assembled.2.

Lemma assembled_draw_configured_witness :
  demo_strategy_draw.1 = Ret 102 /\
  exists p, In p demo_award_rows /\ sap_StrategyID p = 1 /\ sap_AwardID p = 102 /\
    0 < award_count (map StrategyAward_ToEntity demo_award_rows) (StrategyAward_ToEntity p).
Proof.
  split; [vm_compute; reflexivity|].
  refine (assembled_draw_configured demo_strategy_repository 2 1 102 demo_strategy_world
    demo_strategy_assembled.2 demo_strategy_assembled.2 demo_strategy_draw.2 _ _ _ eq_refl eq_refl _).
  - reflexivity.
  - vm_compute. exact I.
  - apply injective_projections; [vm_compute; reflexivity|reflexivity].
  - apply injective_projections; [vm_compute; reflexivity|reflexivity].
Defined.
