(* ===== verification/Award.v ===== *)
(** * Award: recording what a user won

    [internal/biz/award/award.go] and its repository [internal/data/award.go]: the award
    record, the task that will send the award and the order's new state are written in
    one transaction, and the user's pending order is dropped from Redis. *)
From Stdlib Require Import ZArith Lia List Ascii String.
From stdpp Require Import base gmap strings list numbers.
From S2P Require Import Prelude GoLib Model Po Env Logic Mem Keys Router Cache CacheRules Event Quota PartakeData.
Open Scope Z_scope.

(** ** The use case *)

(** The interface [award.Repo]. *)
Class AwardRepo (S : Type) := { SaveUserAwardRecord_ : UserAwardTaskInfo -> M S unit }.

Section Usecase.
Context {S : Type} `{AwardRepo S} `{EnvOps S}.

Definition Usecase_SaveUserAwardRecord (userAwardRecord : UserAwardRecord) : M S unit :=
  let sendAwardMessage :=
    mkSendAwardMessage (ua_UserID userAwardRecord) (ua_AwardID userAwardRecord)
      (ua_AwardTitle userAwardRecord) in
  let! baseEvent := NewBaseEvent sendAwardMessage in
  let task := mkAwardTask (ua_UserID userAwardRecord) SendAwardTopic (ev_ID baseEvent)
                sendAwardMessage TaskStateCreate in
  SaveUserAwardRecord_ (mkUserAwardTaskInfo userAwardRecord task).
End Usecase.

(** ** The repository *)

(** [UserAwardRecord] of the data package; its publisher is not used. *)
Record AwardRepository := mkAwardRepository { ar_routerDB : DBRouter }.

Definition award_record_po (entity : UserAwardRecord) (t1 t2 : time) : UserAwardRecordPO :=
  {| uap_ID := 0; uap_UserID := ua_UserID entity; uap_ActivityID := ua_ActivityID entity;
     uap_StrategyID := ua_StrategyID entity; uap_OrderID := ua_OrderID entity;
     uap_AwardID := ua_AwardID entity; uap_AwardTitle := ua_AwardTitle entity;
     uap_AwardTime := ua_AwardTime entity; uap_AwardState := ua_AwardState entity;
     uap_CreateTime := t1; uap_UpdateTime := t2 |}.

(** [Update("order_state", "used")] *)
Definition use_order (p : UserRaffleOrderPO) : UserRaffleOrderPO :=
  {| uop_ID := uop_ID p; uop_UserID := uop_UserID p; uop_ActivityID := uop_ActivityID p;
     uop_ActivityName := uop_ActivityName p; uop_StrategyID := uop_StrategyID p;
     uop_OrderID := uop_OrderID p; uop_OrderTime := uop_OrderTime p;
     uop_OrderState := UserRaffleOrderStateUsed; uop_AccountSyncState := uop_AccountSyncState p;
     uop_CreateTime := uop_CreateTime p; uop_UpdateTime := uop_UpdateTime p |}.

Definition has_order_id (orderID : string) (p : UserRaffleOrderPO) : bool :=
  String.eqb (uop_OrderID p) orderID.

Definition is_duplicate (e : gerr) : bool := errors_is is_duplicated_key e || is_duplicate_entry e.

Section Repository.
Context {R D E : Type} `{RedisOps R} `{SqlOps D} `{EnvOps E} `{LocalCacheOps E} `{Codec SendAwardMessage}.
Notation World := (W R D E).
Variable r : AwardRepository.

Definition convertToUserAwardRecordPO (entity : UserAwardRecord) : M World UserAwardRecordPO :=
  let! createTime := now in
  let! updateTime := now in
  ret (award_record_po entity createTime updateTime).

Definition convertToTaskPO (entity : AwardTask) : M World TaskPO :=
  let! msgBytes := with_err (WithCause ErrorTaskPayloadMarshal) (lift_res (marshal (Some (at_Message entity)))) in
  let! createTime := now in
  let! updateTime := now in
  ret (mkTaskPO 0 (at_UserID entity) (at_Topic entity) (at_MessageID entity) msgBytes (at_State entity)
         createTime updateTime).

(** The function of the transaction; the result is the flag [duplicate]. *)
Definition award_tx (db : dbh) (tableSuffix : string) (userAwardRecordPO : UserAwardRecordPO)
    (taskPO : TaskPO) : M World bool :=
  let! created := attempt (in_sql (sq_create db (Tuser_award_record tableSuffix) userAwardRecordPO)) in
  match created with
  | inr createAwardErr =>
      if is_duplicate createAwardErr then ret true else fail createAwardErr
  | inl _ =>
      in_sql (sq_create db Ttask taskPO) ;;;
      in_sql (sq_update db (Tuser_raffle_order tableSuffix)
                (has_order_id (uap_OrderID userAwardRecordPO)) use_order) ;;;
      ret false
  end.

Definition SaveUserAwardRecord (aggregate : UserAwardTaskInfo) : M World unit :=
  let record := ut_UserAwardRecord aggregate in
  let! userAwardRecordPO := convertToUserAwardRecordPO record in
  let! taskPO := convertToTaskPO (ut_Task aggregate) in
  let! dbs := lift_res (DBStrategy (ar_routerDB r) (ua_UserID record)) in
  let! db := deref dbs.1 in
  sq_transaction (X := R * E) db (award_tx db dbs.2 userAwardRecordPO taskPO) ;;;
  let pendingOrderKey := GetPendingRaffleOrderKey (ua_ActivityID record) (ua_UserID record) in
  let! _ := attempt (Delete redis_only pendingOrderKey) in
  ret tt.

Definition NewUserAwardRecordRepository : AwardRepo World := {| SaveUserAwardRecord_ := SaveUserAwardRecord |}.
End Repository.

(** ** What a save leaves *)
Section AwardFacts.
Context {R D E : Type} `{RedisLaws R} `{SqlLaws D} `{EnvLaws E} `{LocalCacheOps E} `{CodecLaws SendAwardMessage}.
Notation World := (W R D E).
Notation tables := (dbh -> forall t, list (row t)).
Variable r : AwardRepository.

Definition award_task_po (task : AwardTask) (message : string) (t1 t2 : time) : TaskPO :=
  mkTaskPO 0 (at_UserID task) (at_Topic task) (at_MessageID task) message (at_State task) t1 t2.

(** The record and its task were added, the orders with its number are used, and no other
    table changed. *)
Definition award_saved (db : dbh) (tableSuffix : string) (agg : UserAwardTaskInfo) (f f' : tables) : Prop :=
  let record := ut_UserAwardRecord agg in
  exists t1 t2 t3 t4 message,
    marshal (Some (at_Message (ut_Task agg))) = Ret message /\
    existsb (sq_conflict (Tuser_award_record tableSuffix) (award_record_po record t1 t2))
      (f db (Tuser_award_record tableSuffix)) = false /\
    added (t := Tuser_award_record tableSuffix) (award_record_po record t1 t2)
      (f db (Tuser_award_record tableSuffix)) (f' db (Tuser_award_record tableSuffix)) /\
    added (t := Ttask) (award_task_po (ut_Task agg) message t3 t4) (f db Ttask) (f' db Ttask) /\
    updated (t := Tuser_raffle_order tableSuffix) (has_order_id (ua_OrderID record)) use_order
      (f db (Tuser_raffle_order tableSuffix)) (f' db (Tuser_raffle_order tableSuffix)) /\
    forall db' t', (db', t') <> (db, Tuser_award_record tableSuffix) -> (db', t') <> (db, Ttask) ->
      (db', t') <> (db, Tuser_raffle_order tableSuffix) -> f' db' t' = f db' t'.

(** A record the new one collides with was there. *)
Definition award_conflict (db : dbh) (tableSuffix : string) (record : UserAwardRecord) (f : tables) : Prop :=
  exists t1 t2, existsb (sq_conflict (Tuser_award_record tableSuffix) (award_record_po record t1 t2))
                  (f db (Tuser_award_record tableSuffix)) = true.

(** The record and the task come with their states. *)
Definition award_states (agg : UserAwardTaskInfo) : Prop :=
  ua_AwardState (ut_UserAwardRecord agg) <> ""%string /\ at_State (ut_Task agg) <> ""%string.

Lemma award_tx_spec db tableSuffix agg message t1 t2 t3 t4 (w : World) :
  marshal (Some (at_Message (ut_Task agg))) = Ret message -> award_states agg ->
  wp (award_tx db tableSuffix (award_record_po (ut_UserAwardRecord agg) t1 t2)
        (award_task_po (ut_Task agg) message t3 t4)) (fun rr w' =>
    w_redis w' = w_redis w /\
    match rr with
    | Ret false => award_saved db tableSuffix agg (rows w) (rows w')
    | Ret true => rows w' = rows w /\ award_conflict db tableSuffix (ut_UserAwardRecord agg) (rows w)
    | Fail _ => True
    | Panic _ => False
    end) w.
Proof.
  intros Hm [Hst1 Hst2]. unfold award_tx.
  apply wp_attempt, wp_create_duplicate; [exact Hst1|..].
  2: { intros w1 e S1 _ Hd. assert (Q1 : w_redis w1 = w_redis w) by (unfold w_redis; by rewrite S1).
       unfold is_duplicate. destruct (errors_is is_duplicated_key e || is_duplicate_entry e).
       - destruct (Hd eq_refl) as [Hc Hr]. apply wp_ret. split; [done|]. split; [done|]. by exists t1, t2.
       - by apply wp_fail. }
  intros w1 p1 S1 C1 P1 A1 O1.
  apply wp_bind, wp_create; [exact Hst2|..].
  2: { intros w2 e S2 _. cbn [then_]. split; [unfold w_redis; by rewrite S2, S1|done]. }
  intros w2 p2 S2 _ P2 A2 O2. cbn [then_].
  apply wp_bind, wp_update.
  2: { intros w3 e S3. cbn [then_]. split; [unfold w_redis; by rewrite S3, S2, S1|done]. }
  intros w3 n S3 U3 O3 _ _. cbn [then_]. apply wp_ret.
  split; [unfold w_redis; by rewrite S3, S2, S1|].
  exists t1, t2, t3, t4, message. rewrite O2, O1 in U3 by done. rewrite O1 in A2 by done.
  split_and!; [done|exact C1|exists p1|exists p2|exact U3|].
  - split; [exact P1|]. by rewrite O3, O2.
  - split; [exact P2|]. by rewrite O3.
  - intros db' t' N1 N2 N3. by rewrite O3, O2, O1.
Qed.

(** What a run leaves: the three changes or none, and the pending order. *)
Definition award_outcome (db : dbh) (tableSuffix : string) (agg : UserAwardTaskInfo) (w : World)
    (rr : res unit) (w' : World) : Prop :=
  let record := ut_UserAwardRecord agg in
  let pending := GetPendingRaffleOrderKey (ua_ActivityID record) (ua_UserID record) in
  match rr with
  | Ret _ => (award_saved db tableSuffix agg (rows w) (rows w') \/
              rows w' = rows w /\ award_conflict db tableSuffix record (rows w)) /\
      (view w' = view w \/ view w' = delete pending (view w))
  | Fail _ => view w' = view w /\
      (rows w' = rows w \/ award_saved db tableSuffix agg (rows w) (rows w'))
  | Panic _ => False
  end.

Lemma delete_effect key (w w' : World) x :
  Delete redis_only key w = (x, w') ->
  w_sql w' = w_sql w /\ (view w' = view w \/ view w' = delete key (view w)) /\ forall p, x <> Panic p.
Proof using H0.
  unfold Delete. cbn [opt_LocalCache opt_Redis redis_only negb]. rewrite bind_ret_l. unfold bind.
  destruct (redis_cmd (DEL key) w) as [rd w1] eqn:Ed.
  pose proof (redis_cmd_spec _ _ _ _ Ed) as (Hs & _ & Hv). cbn [cmd_spec] in Hv.
  assert (Hd : forall n m, match view w !! key with
      | None => Some (0, view w) | Some _ => Some (1, delete key (view w)) end = Some (n, m) ->
      m = view w \/ m = delete key (view w)).
  { intros n m. destruct (view w !! key); intros [= _ <-]; auto. }
  destruct rd as [n|e|p]; [| |done]; intros [= <- <-]; split_and!; try done; [by eapply Hd|].
  destruct Hv as [->|[n Hv] ]; [by left|by eapply Hd].
Qed.

Lemma SaveUserAwardRecord_run (agg : UserAwardTaskInfo) (db tableSuffix : string) (w : World) rr w' :
  DBStrategy (ar_routerDB r) (ua_UserID (ut_UserAwardRecord agg)) = Ret (Some db, tableSuffix) ->
  award_states agg ->
  SaveUserAwardRecord r agg w = (rr, w') -> award_outcome db tableSuffix agg w rr w'.
Proof.
  intros Hroute Hst Hrun. pattern rr, w'. eapply wp_run; [|exact Hrun]. clear Hrun.
  unfold SaveUserAwardRecord, convertToUserAwardRecordPO, convertToTaskPO, now.
  apply wp_bind, wp_bind, wp_now. intros t1 w1 Q1 D1. cbn [then_].
  apply wp_bind, wp_now. intros t2 w2 Q2 D2. cbn [then_]. apply wp_ret. cbn [then_].
  assert (E2 : view w2 = view w /\ rows w2 = rows w)
    by (unfold view, rows; rewrite Q2, Q1, D2, D1; done).
  apply wp_bind, wp_bind, wp_with_err. unfold wp at 1, lift_res. cbn [fst snd].
  destruct (marshal (Some (at_Message (ut_Task agg)))) as [message|e|p] eqn:Em; cbn [then_];
    [|split; [by apply E2|left; by apply E2]|by destruct (proj1 (codec_no_panic _ EmptyString p) Em)].
  apply wp_bind, wp_now. intros t3 w3 Q3 D3. cbn [then_].
  apply wp_bind, wp_now. intros t4 w4 Q4 D4. cbn [then_]. apply wp_ret. cbn [then_].
  assert (E4 : view w4 = view w /\ rows w4 = rows w)
    by (destruct E2 as [<- <-]; unfold view, rows; rewrite Q4, Q3, D4, D3; done).
  rewrite Hroute. apply wp_lift. cbn [then_ fst snd]. apply wp_deref; [|done]. intros db0 [= <-].
  destruct E4 as [Ev Er]. change (mkTaskPO 0 (at_UserID (ut_Task agg)) (at_Topic (ut_Task agg))
    (at_MessageID (ut_Task agg)) message (at_State (ut_Task agg)) t3 t4)
    with (award_task_po (ut_Task agg) message t3 t4).
  assert (Hview : forall w5 w6 : World, w_redis w5 = w_redis w4 -> same_rest w5 w6 -> view w6 = view w).
  { intros w5 w6 Q5 S6. rewrite <- Ev. unfold view, w_redis in *. by rewrite S6, Q5. }
  apply wp_bind, wp_transaction.
  2: { intros w5 e S5 R5 _. cbn [then_]. split; [by apply (Hview w4)|left; congruence]. }
  intros w5 R5 S5. assert (Q5 : w_redis w5 = w_redis w4) by (unfold w_redis; by rewrite S5).
  eapply wp_mono; [by apply award_tx_spec|].
  intros x w6 [Q6 Hx]. rewrite R5, Er in Hx. rewrite Er.
  assert (Q6' : w_redis w6 = w_redis w4) by congruence.
  assert (Hend : forall w7, view w7 = view w ->
    award_saved db tableSuffix agg (rows w) (rows w7) \/
      rows w7 = rows w /\ award_conflict db tableSuffix (ut_UserAwardRecord agg) (rows w) ->
    wp (let! _ := attempt (Delete redis_only (GetPendingRaffleOrderKey
          (ua_ActivityID (ut_UserAwardRecord agg)) (ua_UserID (ut_UserAwardRecord agg)))) in ret tt)
      (award_outcome db tableSuffix agg w) w7).
  { intros w7 V7 R7. apply wp_attempt, wp_intro. intros y w8 Ey.
    destruct (delete_effect _ _ _ _ Ey) as (D8 & V8 & Hp). rewrite V7 in V8.
    assert (R8 : rows w8 = rows w7) by (unfold rows; by rewrite D8).
    destruct y as [u|e|p]; [| |by destruct (Hp p)]; apply wp_ret; split; rewrite ?R8; done. }
  destruct x as [dup|e|p]; [split| |done].
  - intros w7 S7 R7. cbn [then_]. apply Hend; [by apply (Hview w6)|].
    rewrite R7. destruct dup; [by right|by left].
  - intros w7 e S7 R7 _. cbn [then_]. split; [by apply (Hview w6)|].
    destruct R7 as [->| ->]; [left; congruence|]. destruct dup; [left; by destruct Hx|by right].
  - intros w7 S7 R7. cbn [then_]. split; [by apply (Hview w6)|left; congruence].
Qed.

(** C16. Winning is recorded as one fact: saving an award adds the record and the task that
    will send it and marks the order used, in one transaction on the user's shard -- or
    finds a record it collides with and changes no table -- and then drops the pending
    order and no other key; a failed save changes nothing, unless only the commit's
    answer was lost. *)
Theorem SaveUserAwardRecord_outbox (agg : UserAwardTaskInfo) (db tableSuffix : string) (w : World) rr w'
    (Hroute : DBStrategy (ar_routerDB r) (ua_UserID (ut_UserAwardRecord agg)) = Ret (Some db, tableSuffix))
    (Hst : award_states agg)
    (Hrun : SaveUserAwardRecord r agg w = (rr, w')) :
  award_outcome db tableSuffix agg w rr w'.
Proof. by apply SaveUserAwardRecord_run. Qed.

(** The records of an order. *)
Definition records_of (orderID : string) (l : list UserAwardRecordPO) : list UserAwardRecordPO :=
  List.filter (fun p => String.eqb (uap_OrderID p) orderID) l.

(** C36. An order wins once: with a unique index on the order number, after an award was
    saved for an order, saving another award for it -- the same or a different one --
    succeeds and changes no table, so the order keeps the record it has; and the only
    other answer is an error, with the tables unchanged as well. *)
Theorem SaveUserAwardRecord_once (agg agg' : UserAwardTaskInfo) (db tableSuffix : string)
    (w w1 w2 : World) u rr
    (Huniq : forall p p' : UserAwardRecordPO, uap_OrderID p = uap_OrderID p' ->
       sq_conflict (Tuser_award_record tableSuffix) p p' = true)
    (Hroute : DBStrategy (ar_routerDB r) (ua_UserID (ut_UserAwardRecord agg)) = Ret (Some db, tableSuffix))
    (Hsame : ua_UserID (ut_UserAwardRecord agg') = ua_UserID (ut_UserAwardRecord agg) /\
       ua_OrderID (ut_UserAwardRecord agg') = ua_OrderID (ut_UserAwardRecord agg))
    (Hst : award_states agg) (Hst' : award_states agg')
    (Hfresh : records_of (ua_OrderID (ut_UserAwardRecord agg)) (rows w db (Tuser_award_record tableSuffix)) = [])
    (Hrun1 : SaveUserAwardRecord r agg w = (Ret u, w1))
    (Hsaved : rows w1 <> rows w)
    (Hrun2 : SaveUserAwardRecord r agg' w1 = (rr, w2)) :
  rows w2 = rows w1 /\
  exists p, records_of (ua_OrderID (ut_UserAwardRecord agg)) (rows w2 db (Tuser_award_record tableSuffix)) = [p] /\
    uap_AwardID p = ua_AwardID (ut_UserAwardRecord agg).
Proof.
  destruct Hsame as [Hu Ho].
  destruct (SaveUserAwardRecord_run _ _ _ _ _ _ Hroute Hst Hrun1) as [ [Hs|[? _] ] _]; [|done].
  assert (Hroute' : DBStrategy (ar_routerDB r) (ua_UserID (ut_UserAwardRecord agg')) = Ret (Some db, tableSuffix))
    by by rewrite Hu.
  pose proof (SaveUserAwardRecord_run _ _ _ _ _ _ Hroute' Hst' Hrun2) as Hout.
  destruct Hs as (t1 & t2 & t3 & t4 & message & _ & _ & (p & Hp & Hl) & _).
  assert (Hpo : uap_OrderID p = ua_OrderID (ut_UserAwardRecord agg)) by exact (f_equal uap_OrderID Hp).
  assert (Hno : forall f, ~ award_saved db tableSuffix agg' (rows w1) f).
  { intros f (s1 & s2 & s3 & s4 & m & _ & Hc & _).
    apply Bool.not_true_iff_false in Hc. apply Hc, existsb_exists. exists p. split.
    - rewrite Hl. apply in_or_app. right. by left.
    - apply Huniq. cbn [award_record_po uap_OrderID]. congruence. }
  assert (Hrows : rows w2 = rows w1).
  { destruct rr as [[]|e|q]; [|destruct Hout as [_ [?|?] ]; [done|by destruct (Hno (rows w2))]|done].
    destruct Hout as [ [?|[? _] ] _]; [by destruct (Hno (rows w2))|done]. }
  split; [done|]. exists p. rewrite Hrows. split; [|exact (f_equal uap_AwardID Hp)].
  assert (Hf : forall l, records_of (ua_OrderID (ut_UserAwardRecord agg)) (l ++ [p])
    = records_of (ua_OrderID (ut_UserAwardRecord agg)) l ++ [p]).
  { intros l. unfold records_of. rewrite List.filter_app. cbn [List.filter]. by rewrite Hpo, String.eqb_refl. }
  exact (eq_trans (f_equal (records_of _) Hl) (eq_trans (Hf _) (f_equal (fun l => l ++ [p]) Hfresh))).
Qed.
End AwardFacts.

(** ** Witnesses: a user draws twice for one order *)
#[local] Instance demo_award_codec : Codec SendAwardMessage := {
  marshal := fun o => Ret match o with Some m => FormatInt (sm_AwardID m) | None => "null"%string end;
  unmarshal := fun s => match redis_int s with
                        | Some z => Ret (mkSendAwardMessage "u" z "t")
                        | None => Ret (mkSendAwardMessage "" 0 "")
                        end;
  zero_value := mkSendAwardMessage "" 0 "";
  encodable := fun m => exists z, in_int64 z /\ m = mkSendAwardMessage "u" z "t" }.
#[local] Instance demo_award_laws : CodecLaws SendAwardMessage.
Proof.
  constructor.
  - intros a (z & Hz & ->). exists (FormatInt z). split; [done|]. split; [apply FormatInt_not_empty|].
    cbn [unmarshal demo_award_codec]. by rewrite redis_int_FormatInt.
  - exists "null"%string. done.
  - intros o s p. split; [done|]. cbn [unmarshal demo_award_codec]. by destruct (redis_int s).
Qed.

(** One record per order number. *)
Definition demo_award_uniq (t : tbl) : row t -> row t -> bool :=
  match t return row t -> row t -> bool with
  | Tuser_award_record _ => fun p p' => String.eqb (uap_OrderID p) (uap_OrderID p')
  | _ => fun _ _ => false
  end.
#[local] Instance demo_award_sql : SqlOps MemSql := MemSqlOps demo_award_uniq.
#[local] Instance demo_award_sql_laws : SqlLaws MemSql := MemSqlLaws demo_award_uniq.

Definition demo_award_repository : AwardRepository :=
  mkAwardRepository (mkDBRouter {["01"%string := "db1"%string]} 1 1).
Definition demo_won (awardID : Z) : UserAwardTaskInfo :=
  mkUserAwardTaskInfo (mkUserAwardRecord "u" 100 7 "o1" awardID "t" 0 AwardStateCreate)
    (mkAwardTask "u" SendAwardTopic "m1" (mkSendAwardMessage "u" awardID "t") TaskStateCreate).
Definition demo_award_rows : MemSql := fun _ t =>
  match t return list (row t) with
  | Tuser_raffle_order _ => [mkUserRaffleOrderPO 1 "u" 100 "a" 7 "o1" 0 "create" "create" 0 0]
  | _ => []
  end.
Definition demo_award_world : MemWorld :=
  mem_world (<[GetPendingRaffleOrderKey 100 "u" := RHash ∅]> (∅ : MemRedis)) demo_award_rows 0 [].
Definition demo_award_saved : res unit * MemWorld :=
  SaveUserAwardRecord demo_award_repository (demo_won 101) demo_award_world.
Definition demo_award_again : res unit * MemWorld :=
  SaveUserAwardRecord demo_award_repository (demo_won 102) demo_award_saved.2.

Lemma demo_award_states n : award_states (demo_won n).
Proof. by split. Qed.

Lemma SaveUserAwardRecord_outbox_witness :
  demo_award_saved.1 = Ret tt /\ w_redis demo_award_saved.2 = ∅ /\
  map uop_OrderState (w_sql demo_award_saved.2 "db1"%string (Tuser_raffle_order "000")) = ["used"%string] /\
  award_outcome "db1" "000" (demo_won 101) demo_award_world demo_award_saved.1 demo_award_saved.2.
Proof.
  split; [vm_compute; reflexivity|]. split; [vm_compute; reflexivity|]. split; [vm_compute; reflexivity|].
  refine (SaveUserAwardRecord_outbox demo_award_repository (demo_won 101) "db1" "000" demo_award_world
    demo_award_saved.1 demo_award_saved.2 _ (demo_award_states _) _).
  - vm_compute. reflexivity.
  - apply surjective_pairing.
Defined.

(** The second draw is told it won award 102; the order keeps award 101. *)
Lemma SaveUserAwardRecord_once_witness :
  demo_award_again.1 = Ret tt /\
  rows demo_award_again.2 = rows demo_award_saved.2 /\
  exists p, records_of "o1" (rows demo_award_again.2 "db1"%string (Tuser_award_record "000")) = [p] /\
    uap_AwardID p = 101.
Proof.
  split; [vm_compute; reflexivity|].
  refine (SaveUserAwardRecord_once demo_award_repository (demo_won 101) (demo_won 102) "db1" "000"
    demo_award_world demo_award_saved.2 demo_award_again.2 tt demo_award_again.1
    _ _ _ (demo_award_states _) (demo_award_states _) _ _ _ _).
  - intros p p' Hp. cbn. by apply String.eqb_eq.
  - vm_compute. reflexivity.
  - done.
  - reflexivity.
  - apply injective_projections; [vm_compute; reflexivity|reflexivity].
  - intros Hsame. apply (f_equal (fun f => f "db1"%string (Tuser_award_record "000"))) in Hsame.
    vm_compute in Hsame. discriminate Hsame.
  - apply surjective_pairing.
Defined.
