(* ===== verification/Rebate.v ===== *)
(** * Rebate: orders that reward a behaviour

    [internal/biz/rebate/rebate.go] and its repository [internal/data/rebate.go]: a
    behaviour (a daily sign-in, a payment) earns one order per open configuration; the
    orders are written in one transaction and a message is published for each. *)
From Stdlib Require Import ZArith Lia List Ascii String.
From stdpp Require Import base gmap strings list numbers.
From S2P Require Import Prelude GoLib Model Po Env Logic Mem Keys Router Cache Event Quota PartakeData Frames.
Open Scope Z_scope.

(** ** The use case *)

(** The interface [rebate.Repo]. *)
Class RebateRepo (S : Type) := {
  QueryDailyBehaviorRebateConfig_ : BehaviorType -> M S (list DailyBehaviorRebate);
  SaveUserRebateOrder_ : string -> BehaviorRebate -> M S unit;
  QueryUserRebateOrder_ : string -> string -> M S (list BehaviorRebateOrder) }.

(** The order of one configuration. *)
Definition rebate_order (behavior : Behavior) (config : DailyBehaviorRebate) (orderId : string)
    : BehaviorRebateOrder :=
  {| bo_UserID := bh_UserID behavior; bo_OrderID := orderId;
     bo_BehaviorType := db_BehaviorType config; bo_RebateDesc := db_RebateDesc config;
     bo_RebateType := db_RebateType config; bo_OutBusinessNo := bh_OutBusinessNo behavior;
     bo_RebateConfig := db_RebateConfig config;
     bo_BizID := (bh_UserID behavior ++ "_" ++ db_RebateType config ++ "_" ++ bh_OutBusinessNo behavior)%string |}.

Section Usecase.
Context {S : Type} `{RebateRepo S} `{EnvOps S}.

(** The loop of [CreateOrder]. *)
Fixpoint rebate_orders (behavior : Behavior) (configs : list DailyBehaviorRebate)
    : M S (list BehaviorRebateOrder) :=
  match configs with
  | [] => ret []
  | config :: rest =>
      let! orderId := RandomNumeric 12 in
      let! orders := rebate_orders behavior rest in
      ret (rebate_order behavior config orderId :: orders)
  end.

Definition Rebate_CreateOrder (behavior : Behavior) : M S (list string) :=
  let! rebateConfigs := QueryDailyBehaviorRebateConfig_ (bh_BehaviorType behavior) in
  if (length rebateConfigs =? 0)%nat then ret []
  else
    let! orders := rebate_orders behavior rebateConfigs in
    let agg := mkBehaviorRebate (bh_UserID behavior) behavior orders in
    SaveUserRebateOrder_ (bh_UserID behavior) agg ;;;
    ret (map bo_OrderID orders).

Definition QueryOrderByOutBusinessNo (userID outBusinessNo : string) : M S (list BehaviorRebateOrder) :=
  QueryUserRebateOrder_ userID outBusinessNo.
End Usecase.

(** ** The repository *)
Record rebateRepository := mkRebateRepository {
  rr_db : string;
  rr_routerDB : DBRouter;
  rr_publisher : Publisher }.

Definition rebate_order_po (o : BehaviorRebateOrder) (t1 t2 : time) : UserBehaviorRebateOrderPO :=
  {| ubp_ID := 0; ubp_UserID := bo_UserID o; ubp_OrderID := bo_OrderID o;
     ubp_BehaviorType := bo_BehaviorType o; ubp_OutBusinessNo := bo_OutBusinessNo o;
     ubp_RebateDesc := bo_RebateDesc o; ubp_RebateType := bo_RebateType o;
     ubp_RebateConfig := bo_RebateConfig o; ubp_BizID := bo_BizID o;
     ubp_CreateTime := t1; ubp_UpdateTime := t2 |}.

Definition rebate_message (o : BehaviorRebateOrder) : RebateMessage :=
  {| rm_UserID := bo_UserID o; rm_RebateDesc := bo_RebateDesc o; rm_RebateType := bo_RebateType o;
     rm_RebateConfig := bo_RebateConfig o; rm_BizID := bo_BizID o |}.

(** [behavior_type = ? AND state = 'open'] *)
Definition is_open_config (behaviorType : BehaviorType) (p : DailyBehaviorRebatePO) : bool :=
  String.eqb (dbp_BehaviorType p) behaviorType && String.eqb (dbp_State p) "open".

Section Repository.
Context {R D E : Type} `{RedisOps R} `{SqlOps D} `{EnvOps E} `{PublisherMem E} `{EventCodec RebateMessage}.
Notation World := (W R D E).
Variable r : rebateRepository.

Definition QueryDailyBehaviorRebateConfig (behaviorType : BehaviorType) : M World (list DailyBehaviorRebate) :=
  let! l := in_sql (sq_find (rr_db r) Tdaily_behavior_rebate (is_open_config behaviorType)) in
  ret (map DailyBehaviorRebate_ToEntity l).

(** The function of the transaction: a duplicate ends the loop without an error. *)
Fixpoint rebate_tx (db : dbh) (tableSuffix : string) (orders : list BehaviorRebateOrder) : M World unit :=
  match orders with
  | [] => ret tt
  | order :: rest =>
      let! createTime := in_env ev_now in
      let! updateTime := in_env ev_now in
      let! created := attempt (in_sql (sq_create db (Tuser_behavior_rebate_order tableSuffix)
                                         (rebate_order_po order createTime updateTime))) in
      match created with
      | inr err => if errors_is is_duplicated_key err then ret tt else fail err
      | inl _ => rebate_tx db tableSuffix rest
      end
  end.

(** The messages, best effort. *)
Definition publish_rebate (order : BehaviorRebateOrder) : M World unit :=
  let! event := in_env (NewBaseEvent (rebate_message order)) in
  let! _ := attempt (in_env (PublishSendRebate (rr_publisher r) event)) in
  ret tt.

Definition SaveUserRebateOrder (userId : string) (aggregate : BehaviorRebate) : M World unit :=
  let! dbs := lift_res (DBStrategy (rr_routerDB r) userId) in
  match dbs.1 with
  | None => fail ErrDBRouterNotFound
  | Some db =>
      sq_transaction (X := R * E) db (rebate_tx db dbs.2 (br_BehaviorRebateOrders aggregate)) ;;;
      for_each (br_BehaviorRebateOrders aggregate) publish_rebate
  end.

Definition QueryUserRebateOrder (userId outBusinessNo : string) : M World (list BehaviorRebateOrder) :=
  let! dbs := lift_res (DBStrategy (rr_routerDB r) userId) in
  let! db := deref dbs.1 in
  let! l := in_sql (sq_find db (Tuser_behavior_rebate_order dbs.2) (fun p =>
              String.eqb (ubp_UserID p) userId && sql_like (ubp_BizID p) (outBusinessNo ++ "%")%string)) in
  ret (map UserBehaviorRebateOrder_ToEntity l).

#[export] Instance NewRebateRepository : RebateRepo World := {
  QueryDailyBehaviorRebateConfig_ := QueryDailyBehaviorRebateConfig;
  SaveUserRebateOrder_ := SaveUserRebateOrder;
  QueryUserRebateOrder_ := QueryUserRebateOrder }.
End Repository.

(** ** What a save leaves *)
Section RebateFacts.
Context {R D E : Type} `{RedisOps R} `{SqlLaws D} `{EnvLaws E} `{PublisherMem E} `{EventCodec RebateMessage}.
Notation World := (W R D E).
Notation tables := (dbh -> forall t, list (row t)).
Variable r : rebateRepository.

(** The orders were appended, none of them against a row that was there, and no other
    table changed. *)
Definition orders_recorded (db : dbh) (tableSuffix : string) (orders : list BehaviorRebateOrder)
    (f f' : tables) : Prop :=
  (exists ps : list UserBehaviorRebateOrderPO,
    f' db (Tuser_behavior_rebate_order tableSuffix) = f db (Tuser_behavior_rebate_order tableSuffix) ++ ps /\
    Forall2 (fun o p => payload_ubp (setid_ubp 0 p) = payload_ubp (rebate_order_po o 0 0)) orders ps) /\
  Forall (fun o => exists t1 t2, existsb (sq_conflict (Tuser_behavior_rebate_order tableSuffix)
    (rebate_order_po o t1 t2)) (f db (Tuser_behavior_rebate_order tableSuffix)) = false) orders /\
  other_tables db (Tuser_behavior_rebate_order tableSuffix) f f'.

(** gorm hands the driver's error on as it is, unless it was opened with
    [TranslateError]; [data.go] opens it without. *)
Definition untranslated : Prop :=
  forall db t (p : row t) (d : D) e d',
    sq_create db t p d = (Fail e, d') -> errors_is is_duplicated_key e = false.

(** All of them were, or, had gorm translated its error, those before one that a row
    collides with. *)
Definition rebate_saved (db : dbh) (tableSuffix : string) (orders : list BehaviorRebateOrder)
    (f f' : tables) : Prop :=
  exists recorded rest, orders = recorded ++ rest /\
    orders_recorded db tableSuffix recorded f f' /\
    match rest with
    | [] => True
    | o :: _ => ~ untranslated /\
        exists t1 t2, existsb (sq_conflict (Tuser_behavior_rebate_order tableSuffix)
          (rebate_order_po o t1 t2)) (f' db (Tuser_behavior_rebate_order tableSuffix)) = true
    end.

Lemma rebate_tx_spec db tableSuffix orders : forall w : World,
  wp (rebate_tx db tableSuffix orders) (fun rr w' =>
    w_redis w' = w_redis w /\
    match rr with
    | Ret _ => rebate_saved db tableSuffix orders (rows w) (rows w')
    | Fail _ => True
    | Panic _ => False
    end) w.
Proof.
  induction orders as [|o rest IH]; intros w; cbn [rebate_tx].
  { apply wp_ret. split; [done|]. exists [], []. split; [done|]. split; [|done].
    split; [|split; [constructor|done] ]. exists []. by rewrite app_nil_r. }
  apply wp_bind, wp_now. intros t1 w1 Q1 D1. cbn [then_].
  apply wp_bind, wp_now. intros t2 w2 Q2 D2. cbn [then_].
  assert (R2 : rows w2 = rows w) by (unfold rows; by rewrite D2, D1).
  apply wp_attempt, wp_create_duplicate; [exact I|..].
  - intros w3 p S3 C3 P3 A3 O3. eapply wp_mono; [apply IH|].
    intros rr w' [Q4 Hrr]. split; [rewrite Q4; unfold w_redis in *; by rewrite S3, Q2, Q1|].
    destruct rr as [u|e|q]; [|done|done].
    destruct Hrr as (done' & rest' & -> & ( (ps & Hps & HF) & Hfree & Ho) & Hrest).
    exists (o :: done'), rest'. split; [done|]. split; [|done].
    rewrite <- R2. split_and!.
    + exists (p :: ps). split; [|by constructor].
      exact (eq_trans Hps (eq_trans (f_equal (fun l => l ++ ps) A3) (eq_sym (app_assoc _ _ _)))).
    + constructor; [by exists t1, t2|]. eapply Forall_impl; [|exact Hfree].
      intros o' (s1 & s2 & Hc). exists s1, s2.
      rewrite (f_equal (existsb _) A3), existsb_app in Hc.
      by apply orb_false_iff in Hc as [? _].
    + intros db' t' N. by rewrite Ho, O3.
  - intros w3 e S3 Ec Hd. assert (Q3 : w_redis w3 = w_redis w) by (unfold w_redis in *; by rewrite S3, Q2, Q1).
    destruct (errors_is is_duplicated_key e) eqn:Edup; [|by apply wp_fail]. destruct (Hd eq_refl) as [Hc Hr].
    apply wp_ret. split; [done|]. exists [], (o :: rest). split; [done|]. rewrite Hr, R2 in *.
    split; [|split; [intros Hu; by rewrite (Hu _ _ _ _ _ _ Ec) in Edup|exists t1, t2; exact Hc] ]. split; [|split; [constructor|done] ]. exists []. by rewrite app_nil_r.
Qed.

Lemma publish_rebate_quiet o : quiet (R := R) (D := D) (publish_rebate r o).
Proof. unfold publish_rebate. solve_quiet. Qed.


Lemma SaveUserRebateOrder_run userId (agg : BehaviorRebate) (db tableSuffix : string) (w : World) rr w' :
  DBStrategy (rr_routerDB r) userId = Ret (Some db, tableSuffix) ->
  SaveUserRebateOrder r userId agg w = (rr, w') ->
  w_redis w' = w_redis w /\
  (rebate_saved db tableSuffix (br_BehaviorRebateOrders agg) (rows w) (rows w') \/
   rows w' = rows w /\ exists e, rr = Fail e).
Proof.
  intros Hroute Hrun. pattern rr, w'. eapply wp_run; [|exact Hrun]. clear Hrun.
  unfold SaveUserRebateOrder. rewrite Hroute. apply wp_lift. cbn [then_ fst snd].
  apply wp_bind, wp_transaction.
  2: { intros w1 e S1 R1 _. cbn [then_]. split; [unfold w_redis; by rewrite S1|right; by eauto]. }
  intros w1 R1 S1. eapply wp_mono; [apply rebate_tx_spec|]. intros x w2 [Q2 Hx].
  assert (Q2' : w_redis w2 = w_redis w) by (rewrite Q2; unfold w_redis; by rewrite S1).
  rewrite R1 in Hx.
  assert (Q3 : forall w3 : World, same_rest w2 w3 -> w_redis w3 = w_redis w)
    by (intros w3 S3; rewrite <- Q2'; unfold w_redis; by rewrite S3).
  destruct x as [u|e|p]; [split| |done].
  - intros w3 S3 R3. cbn [then_]. apply wp_quiet; [apply quiet_for_each; apply publish_rebate_quiet|].
    intros x w4 _ Q4 D4. split; [rewrite Q4; by apply Q3|left]. unfold rows in *. by rewrite D4, R3.
  - intros w3 e S3 R3 _. cbn [then_]. split; [by apply Q3|].
    destruct R3 as [->| ->]; [right; by eauto|by left].
  - intros w3 S3 R3. cbn [then_]. split; [by apply Q3|right; by eauto].
Qed.

(** C20. Saving the orders of a behaviour is all or nothing: gorm is opened without
    [TranslateError], so an order that collides with a row is an error that rolls all of
    them back -- every order is recorded, or the call fails and no table changed; a call
    that fails with the orders recorded lost only the answer of its commit.  Were gorm to
    translate the error, a call that succeeds could instead have committed exactly the
    orders before the first one that collides.  An unroutable user is the error
    [ErrDBRouterNotFound]. *)
Theorem SaveUserRebateOrder_atomic (userId : string) (agg : BehaviorRebate) (db : option dbh)
    (tableSuffix : string) (w : World) rr w'
    (Hroute : DBStrategy (rr_routerDB r) userId = Ret (db, tableSuffix))
    (Hrun : SaveUserRebateOrder r userId agg w = (rr, w')) :
  w_redis w' = w_redis w /\
  match db with
  | None => rr = Fail ErrDBRouterNotFound /\ rows w' = rows w
  | Some db' =>
      (untranslated ->
         rows w' = rows w /\ (exists e, rr = Fail e) \/
         orders_recorded db' tableSuffix (br_BehaviorRebateOrders agg) (rows w) (rows w')) /\
      (rows w' = rows w /\ (exists e, rr = Fail e) \/
       rebate_saved db' tableSuffix (br_BehaviorRebateOrders agg) (rows w) (rows w'))
  end.
Proof.
  destruct db as [db'|].
  - destruct (SaveUserRebateOrder_run _ _ _ _ _ _ _ Hroute Hrun) as [Hq Hs]. split; [done|].
    split; [|by destruct Hs; auto]. intros Hu. destruct Hs as [Hs|Hs]; [right|by left].
    destruct Hs as (recorded & [|o rest] & -> & Hr & Hrest); [by rewrite app_nil_r|by destruct Hrest].
  - unfold SaveUserRebateOrder in Hrun. rewrite Hroute in Hrun. by injection Hrun as <- <-.
Qed.

Lemma rebate_orders_spec behavior configs : forall w : World,
  wp (rebate_orders behavior configs) (fun rr w' => w_redis w' = w_redis w /\ w_sql w' = w_sql w /\
    match rr with
    | Ret orders => Forall2 (fun c o => exists id, o = rebate_order behavior c id) configs orders
    | _ => True
    end) w.
Proof.
  induction configs as [|c rest IH]; intros w; cbn [rebate_orders]; [apply wp_ret; split_and!; by try constructor|].
  apply wp_bind, wp_quiet; [apply (quiet_random (E := E))|]. intros x w1 _ Q1 D1.
  destruct x as [id|e|p]; cbn [then_]; [|done..].
  apply wp_bind. eapply wp_mono; [apply IH|]. intros x w2 (Q2 & D2 & Hx).
  rewrite <- Q1, <- D1. destruct x as [orders|e|p]; cbn [then_]; [|done..].
  apply wp_ret. split_and!; [done..|]. constructor; [by exists id|done].
Qed.

(** The open configurations of a behaviour, as the tables have them. *)
Definition open_configs (behavior : Behavior) (f : tables) : list DailyBehaviorRebate :=
  map DailyBehaviorRebate_ToEntity
    (List.filter (is_open_config (bh_BehaviorType behavior)) (f (rr_db r) Tdaily_behavior_rebate)).

(** What a run leaves: nothing, or the orders of the open configurations. *)
Lemma rebate_order_run (behavior : Behavior) (db tableSuffix : string) (w : World) rr w' :
  DBStrategy (rr_routerDB r) (bh_UserID behavior) = Ret (Some db, tableSuffix) ->
  Rebate_CreateOrder (H := NewRebateRepository r) behavior w = (rr, w') ->
  rows w' = rows w \/
  exists orders, Forall2 (fun c o => exists id, o = rebate_order behavior c id) (open_configs behavior (rows w)) orders /\
    open_configs behavior (rows w) <> [] /\
    rebate_saved db tableSuffix orders (rows w) (rows w') /\
    (forall ids, rr = Ret ids -> ids = map bo_OrderID orders).
Proof.
  intros Hroute Hrun. pattern rr, w'. eapply wp_run; [|exact Hrun]. clear Hrun.
  unfold Rebate_CreateOrder. cbn [QueryDailyBehaviorRebateConfig_ SaveUserRebateOrder_ NewRebateRepository].
  apply wp_bind. unfold QueryDailyBehaviorRebateConfig. apply wp_bind, wp_find. intros w1 S1 R1.
  split; [|intros e; by left]. cbn [then_]. apply wp_ret. cbn [then_].
  set (cs := map DailyBehaviorRebate_ToEntity _).
  assert (Hc : cs = open_configs behavior (rows w)) by done. clearbody cs. subst cs.
  destruct (open_configs behavior (rows w)) as [|c configs]; [apply wp_ret; by left|].
  cbn [length Nat.eqb]. apply wp_bind. eapply wp_mono; [apply rebate_orders_spec|].
  intros x w2 (Q2 & D2 & Hx). assert (R2 : rows w2 = rows w) by (rewrite <- R1; unfold rows; by rewrite D2).
  destruct x as [orders|e|p]; cbn [then_]; [|left; done..].
  apply wp_bind, wp_intro. intros y w3 E3.
  destruct (SaveUserRebateOrder_run _ _ _ _ _ _ _ Hroute E3) as [_ [Hs|[Hr _] ] ];
    rewrite R2 in *; cbn [br_BehaviorRebateOrders] in *;
    destruct y as [u|e|p]; cbn [then_]; try (by left); right; exists orders; (split_and!; [done|done|done|]);
    intros ids; by intros [= <-].
Qed.

(** A behaviour is rewarded once: when [biz_id] is unique, after the orders of a
    business number were recorded, creating its orders again changes no table, whether
    the second call answers with new numbers, an error or a panic; and what the first
    call recorded starts with the order of the first open configuration. *)
Theorem CreateOrder_once (behavior : Behavior) (db tableSuffix : string) (w w1 w2 : World) r1 r2
    (Huniq : forall p p' : UserBehaviorRebateOrderPO, ubp_BizID p = ubp_BizID p' ->
       sq_conflict (Tuser_behavior_rebate_order tableSuffix) p p' = true)
    (Hroute : DBStrategy (rr_routerDB r) (bh_UserID behavior) = Ret (Some db, tableSuffix))
    (Hrun1 : Rebate_CreateOrder (H := NewRebateRepository r) behavior w = (r1, w1))
    (Hsome : rows w1 db (Tuser_behavior_rebate_order tableSuffix) <> rows w db (Tuser_behavior_rebate_order tableSuffix))
    (Hrun2 : Rebate_CreateOrder (H := NewRebateRepository r) behavior w1 = (r2, w2)) :
  exists c configs (p : UserBehaviorRebateOrderPO) ps,
    open_configs behavior (rows w) = c :: configs /\
    rows w1 db (Tuser_behavior_rebate_order tableSuffix)
      = rows w db (Tuser_behavior_rebate_order tableSuffix) ++ p :: ps /\
    ubp_BizID p = (bh_UserID behavior ++ "_" ++ db_RebateType c ++ "_" ++ bh_OutBusinessNo behavior)%string /\
    forall db' t', rows w2 db' t' = rows w1 db' t'.
Proof.
  destruct (rebate_order_run _ _ _ _ _ _ Hroute Hrun1) as [Hr|(orders & HF & _ & Hs & _)];
    [by rewrite Hr in Hsome|].
  destruct Hs as (recorded & rest & -> & ( (ps & Hps & HP) & _ & Ho) & _).
  destruct recorded as [|o recorded].
  { inversion HP; subst. destruct Hsome. exact (eq_trans Hps (app_nil_r _)). }
  inversion HP as [|? p ? ps' Hp HP']; subst.
  cbn [app] in HF. inversion HF as [|c ? configs ? [id ->] HF' Hcs]; subst.
  assert (Hbiz : ubp_BizID p = bo_BizID (rebate_order behavior c id)) by exact (f_equal ubp_BizID Hp).
  exists c, configs, p, ps'. split; [done|]. split; [exact Hps|]. split; [exact Hbiz|].
  assert (Hconf : open_configs behavior (rows w1) = c :: configs).
  { rewrite Hcs. unfold open_configs. by rewrite Ho by congruence. }
  destruct (rebate_order_run _ _ _ _ _ _ Hroute Hrun2) as [Hr|(orders2 & HF2 & _ & Hs2 & _)];
    [by rewrite Hr|].
  rewrite Hconf in HF2. inversion HF2 as [|? ? ? orders2' [id2 ->] ]; subst.
  destruct Hs2 as (recorded2 & rest2 & E2 & ( (ps2 & Hps2 & HP2) & Hfree & Ho2) & _).
  destruct recorded2 as [|o2 recorded2].
  { inversion HP2; subst. intros db' t'. destruct (decide ((db', t') = (db, Tuser_behavior_rebate_order tableSuffix))) as [ [= -> ->]|N].
    - exact (eq_trans Hps2 (app_nil_r _)).
    - by apply Ho2. }
  injection E2 as <- _. inversion Hfree as [|? ? (t1 & t2 & Hc) _]; subst.
  apply Bool.not_true_iff_false in Hc. destruct Hc. apply existsb_exists. exists p. split.
  - rewrite Hps. apply in_or_app. right. by left.
  - apply Huniq. by rewrite Hbiz.
Qed.
End RebateFacts.

(** ** Witnesses: a user signs in twice on one day *)
#[local] Instance demo_rebate_event : EventCodec RebateMessage := {
  marshal_event := fun e => Ret (rm_BizID (ev_Data e)) }.
#[local] Instance demo_rebate_publisher : PublisherMem MemEnv := {
  declared := fun _ _ => true; declare := fun _ e => e }.
Definition demo_rebate_uniq (t : tbl) : row t -> row t -> bool :=
  match t return row t -> row t -> bool with
  | Tuser_behavior_rebate_order _ => fun p p' => String.eqb (ubp_BizID p) (ubp_BizID p')
  | _ => fun _ _ => false
  end.
#[local] Instance demo_rebate_sql : SqlOps MemSql := MemSqlOps demo_rebate_uniq.
#[local] Instance demo_rebate_sql_laws : SqlLaws MemSql := MemSqlLaws demo_rebate_uniq.

Definition demo_rebate_repository : rebateRepository :=
  mkRebateRepository "db" (mkDBRouter {["01"%string := "db1"%string]} 1 1) (mkPublisher "zero" "rebate" "award").
Definition demo_rebate_rows : MemSql := fun db t =>
  match t return list (row t) with
  | Tdaily_behavior_rebate =>
      [mkDailyBehaviorRebatePO 1 "sign" "a draw" "sku" "9011" "open" 0 0;
       mkDailyBehaviorRebatePO 2 "sign" "points" "integral" "10" "open" 0 0;
       mkDailyBehaviorRebatePO 3 "sign" "old" "sku" "1" "close" 0 0]
  | _ => []
  end.
Definition demo_rebate_world : MemWorld := mem_world ∅ demo_rebate_rows 0 [1; 2; 3; 4; 5; 6; 7; 8; 9; 0; 1; 2].
Definition demo_signed : res (list string) * MemWorld :=
  Rebate_CreateOrder (H := NewRebateRepository demo_rebate_repository)
    (mkBehavior "u" Sign "20250101") demo_rebate_world.
Definition demo_signed_again : res (list string) * MemWorld :=
  Rebate_CreateOrder (H := NewRebateRepository demo_rebate_repository)
    (mkBehavior "u" Sign "20250101") demo_signed.2.
Definition demo_biz_ids (w : MemWorld) : list string :=
  map ubp_BizID (rows w "db1"%string (Tuser_behavior_rebate_order "000") : list UserBehaviorRebateOrderPO).

Definition demo_rebate_order : BehaviorRebateOrder :=
  mkBehaviorRebateOrder "u" "o1" "sign" "a draw" "sku" "20250101" "9011" "u_sku_20250101".
Definition demo_rebate_save (orders : list BehaviorRebateOrder) : res unit * MemWorld :=
  SaveUserRebateOrder demo_rebate_repository "u" (mkBehaviorRebate "u" (mkBehavior "u" Sign "20250101") orders)
    demo_rebate_world.

(** The second of two orders with one business number makes the whole save fail. *)
Lemma SaveUserRebateOrder_atomic_witness :
  (demo_rebate_save [demo_rebate_order; demo_rebate_order]).1 = Fail (EMySQL 1062 "Duplicate entry") /\
  demo_biz_ids (demo_rebate_save [demo_rebate_order; demo_rebate_order]).2 = [] /\
  (rows (demo_rebate_save [demo_rebate_order; demo_rebate_order]).2 = rows demo_rebate_world /\
   (exists e, (demo_rebate_save [demo_rebate_order; demo_rebate_order]).1 = Fail e) \/
   orders_recorded "db1" "000" [demo_rebate_order; demo_rebate_order] (rows demo_rebate_world)
     (rows (demo_rebate_save [demo_rebate_order; demo_rebate_order]).2)).
Proof.
  split; [vm_compute; reflexivity|]. split; [vm_compute; reflexivity|].
  refine (proj1 (proj2 (SaveUserRebateOrder_atomic demo_rebate_repository "u"
    (mkBehaviorRebate "u" (mkBehavior "u" Sign "20250101") [demo_rebate_order; demo_rebate_order])
    (Some "db1"%string) "000" demo_rebate_world _ _ _ (surjective_pairing _))) _).
  - vm_compute. reflexivity.
  - intros db t p d e d'. cbn [sq_create demo_rebate_sql MemSqlOps]. unfold mem_create.
    destruct (existsb _ _); [|discriminate]. by intros [= <- _].
Defined.

Lemma CreateOrder_once_witness :
  demo_signed.1 = Ret ["123456789012"; "000000000000"]%string /\
  demo_biz_ids demo_signed.2 = ["u_sku_20250101"; "u_integral_20250101"]%string /\
  exists c configs (p : UserBehaviorRebateOrderPO) ps,
    open_configs demo_rebate_repository (mkBehavior "u" Sign "20250101") (rows demo_rebate_world) = c :: configs /\
    rows demo_signed.2 "db1"%string (Tuser_behavior_rebate_order "000")
      = rows demo_rebate_world "db1"%string (Tuser_behavior_rebate_order "000") ++ p :: ps /\
    ubp_BizID p = ("u" ++ "_" ++ db_RebateType c ++ "_" ++ "20250101")%string /\
    forall db' t', rows demo_signed_again.2 db' t' = rows demo_signed.2 db' t'.
Proof.
  split; [vm_compute; reflexivity|]. split; [vm_compute; reflexivity|].
  refine (CreateOrder_once demo_rebate_repository (mkBehavior "u" Sign "20250101") "db1" "000"
    demo_rebate_world demo_signed.2 demo_signed_again.2 demo_signed.1 demo_signed_again.1
    _ _ (surjective_pairing _) _ (surjective_pairing _)).
  - intros p p' Hp. by apply String.eqb_eq.
  - vm_compute. reflexivity.
  - intros Hs. apply (f_equal (@length _)) in Hs. vm_compute in Hs. discriminate Hs.
Defined.
