(* ===== verification/Tasks.v ===== *)
(** * Tasks: the outbox and the job that empties it

    [internal/biz/task/task.go], its repository [internal/data/task.go] and the job
    [internal/job/send_award_message.go].  The job reads the unsent tasks of every
    database and handles each in a goroutine of its own; a goroutine is a [thread] whose
    [phase] says which call it makes next, and a schedule chooses whose turn it is. *)
From Stdlib Require Import ZArith Lia List Ascii String.
From stdpp Require Import base gmap strings list numbers.
From S2P Require Import Prelude GoLib Model Po Env Logic Mem Keys Router Cache Event Activity.
Open Scope Z_scope.

(** ** The use case *)

(** The interface [task.Repo]; [J] is what [encoding/json] reads into an [interface{}]. *)
Class TaskRepo (S J : Type) := {
  QueryNoSendMessageTaskList_ : Z -> M S (list Task);
  UpdateTaskSendMessageCompleted_ : string -> string -> M S unit;
  UpdateTaskSendMessageFail_ : string -> string -> M S unit;
  SendMessage_ : string -> BaseEvent J -> M S unit }.

(** A JSON value that is a string. *)
Class JsonString (J : Type) := { json_string : string -> J }.

Section Usecase.
Context {S J : Type} `{TaskRepo S J} `{EnvOps S} `{Codec J} `{JsonString J}.

Definition QueryNoSendMessageTaskList (dbIndx : Z) : M S (list Task) := QueryNoSendMessageTaskList_ dbIndx.

Definition SendMessage (task : Task) : M S unit :=
  let! parsed := attempt (lift_res (unmarshal (tk_Message task))) in
  let data := match parsed with inl data => data | inr _ => json_string (tk_Message task) end in
  let! timestamp := ev_now in
  SendMessage_ (tk_Topic task) (mkBaseEvent (tk_MessageID task) timestamp data).

Definition UpdateTaskSendMessageCompleted (userID messageID : string) : M S unit :=
  UpdateTaskSendMessageCompleted_ userID messageID.
Definition UpdateTaskSendMessageFail (userID messageID : string) : M S unit :=
  UpdateTaskSendMessageFail_ userID messageID.
End Usecase.

(** ** The repository *)
Record TaskRepository := mkTaskRepository { tr_routerDB : DBRouter; tr_publisher : Publisher }.

Definition task_limit : nat := 10.

(** [Select(columns)]: the other fields keep their zero values. *)
Definition select_columns (p : TaskPO) : TaskPO :=
  mkTaskPO 0 (tkp_UserID p) (tkp_Topic p) (tkp_MessageID p) (tkp_Message p) "" zero_time zero_time.

(** [Order("update_time ASC, id ASC")] *)
Definition task_le (p q : TaskPO) : bool :=
  (tkp_UpdateTime p <? tkp_UpdateTime q) || ((tkp_UpdateTime p =? tkp_UpdateTime q) && (tkp_ID p <=? tkp_ID q)).

Definition task_state_is (state : string) (p : TaskPO) : bool := String.eqb (tkp_State p) state.
Definition task_overdue (timeoutAt : time) (p : TaskPO) : bool :=
  task_state_is "create" p && (tkp_UpdateTime p <? timeoutAt).
Definition is_task (userID messageID : string) (p : TaskPO) : bool :=
  String.eqb (tkp_UserID p) userID && String.eqb (tkp_MessageID p) messageID.

(** [Update("state", state)] on the model, which also renews [update_time]. *)
Definition set_task_state (state : string) (updateTime : time) (p : TaskPO) : TaskPO :=
  mkTaskPO (tkp_ID p) (tkp_UserID p) (tkp_Topic p) (tkp_MessageID p) (tkp_Message p) state
    (tkp_CreateTime p) updateTime.

Section Repository.
Context {R D E J : Type} `{SqlOps D} `{EnvOps E} `{PublisherMem E} `{EventCodec J}.
Notation World := (W R D E).
Variable r : TaskRepository.

Definition data_QueryNoSendMessageTaskList (dbIndx : Z) : M World (list Task) :=
  let! db := deref (GetDB (tr_routerDB r) dbIndx) in
  let! now := in_env ev_now in
  let timeoutAt := now - 6 * Minute in
  let! failed := in_sql (sq_find_ordered db Ttask (task_state_is "fail") task_le task_limit) in
  let tasks := map select_columns failed in
  let! tasks :=
    if (length tasks <? task_limit)%nat then
      let! createTasks := in_sql (sq_find_ordered db Ttask (task_overdue timeoutAt) task_le
                                    (task_limit - length tasks)) in
      ret (tasks ++ map select_columns createTasks)
    else ret tasks in
  ret (map Task_ToEntity tasks).

Definition update_task_state (state userID messageID : string) : M World unit :=
  let! dbs := lift_res (DBStrategy (tr_routerDB r) userID) in
  let! db := deref dbs.1 in
  let! updateTime := in_env ev_now in
  in_sql (sq_update db Ttask (is_task userID messageID) (set_task_state state updateTime)) ;;;
  ret tt.

Definition data_UpdateTaskSendMessageCompleted (userID messageID : string) : M World unit :=
  update_task_state "completed" userID messageID.
Definition data_UpdateTaskSendMessageFail (userID messageID : string) : M World unit :=
  update_task_state "fail" userID messageID.

Definition data_SendMessage (topic : string) (event : BaseEvent J) : M World unit :=
  in_env (PublishTopic topic event).

Definition NewTaskRepository : TaskRepo World J := {|
  QueryNoSendMessageTaskList_ := data_QueryNoSendMessageTaskList;
  UpdateTaskSendMessageCompleted_ := data_UpdateTaskSendMessageCompleted;
  UpdateTaskSendMessageFail_ := data_UpdateTaskSendMessageFail;
  SendMessage_ := data_SendMessage |}.
End Repository.

(** ** The job *)

(** The next call of a goroutine. *)
Inductive phase := Route | Complete | MarkFail | Finished.

Notation thread := (Task * phase)%type (only parsing).

Section Job.
Context {S J : Type} `{TaskRepo S J} `{ActivityRepo S} `{EnvOps S} `{Codec J} `{JsonString J}.
Context `{Codec SaveOrderTaskMessage}.

Definition routeTaskByTopic (t : Task) : M S unit :=
  if String.eqb (tk_Topic t) SendAwardTopic then SendMessage t
  else if String.eqb (tk_Topic t) SaveOrderRecordTopic then
    let! message := with_err (EWrap "unmarshal save order task failed: ")
                      (lift_res (unmarshal (tk_Message t) : res SaveOrderTaskMessage)) in
    SaveOrderRecord (ToCreatePartakeOrder message)
  else fail (ENew ("unsupported task topic: " ++ tk_Topic t)).

Definition dispatchSingleTask (t : Task) : M S unit :=
  let! routed := attempt (routeTaskByTopic t) in
  match routed with
  | inr _ =>
      let! _ := attempt (UpdateTaskSendMessageFail (tk_UserID t) (tk_MessageID t)) in ret tt
  | inl _ =>
      let! updated := attempt (UpdateTaskSendMessageCompleted (tk_UserID t) (tk_MessageID t)) in
      match updated with
      | inr _ =>
          let! _ := attempt (UpdateTaskSendMessageFail (tk_UserID t) (tk_MessageID t)) in ret tt
      | inl _ => ret tt
      end
  end.

(** One call of [dispatchSingleTask]: where a goroutine can be interrupted. *)
Definition dispatch_step (t : Task) (ph : phase) : M S phase :=
  match ph with
  | Route =>
      let! routed := attempt (routeTaskByTopic t) in
      ret match routed with inl _ => Complete | inr _ => MarkFail end
  | Complete =>
      let! updated := attempt (UpdateTaskSendMessageCompleted (tk_UserID t) (tk_MessageID t)) in
      ret match updated with inl _ => Finished | inr _ => MarkFail end
  | MarkFail =>
      let! _ := attempt (UpdateTaskSendMessageFail (tk_UserID t) (tk_MessageID t)) in ret Finished
  | Finished => ret Finished
  end.

(** Thread [k] makes its next call. *)
Definition turn (k : nat) (pool : list thread) : M S (list thread) :=
  match pool !! k with
  | None => ret pool
  | Some (t, ph) =>
      let! ph' := dispatch_step t ph in
      ret (<[k := (t, ph')]> pool)
  end.

Fixpoint turns (schedule : list nat) (pool : list thread) : M S (list thread) :=
  match schedule with
  | [] => ret pool
  | k :: schedule' => let! pool' := turn k pool in turns schedule' pool'
  end.

(** [wg.Wait()]: every goroutine runs to its end, which takes it three calls at most. *)
Definition wait (pool : list thread) : M S (list thread) :=
  turns (flat_map (fun k => [k; k; k]) (seq 0 (length pool))) pool.

(** The loop over the databases; the goroutines started so far take the turns of the
    schedule's next entry before the next database is read.  The second component is
    the error that ends the loop. *)
Fixpoint scan_dbs (n : nat) (i : Z) (schedule : list (list nat)) (pool : list thread)
    : M S (list thread * option gerr) :=
  match n with
  | O => ret (pool, None)
  | Datatypes.S n' =>
      let! tasks := attempt (QueryNoSendMessageTaskList i) in
      match tasks with
      | inr err => ret (pool, Some err)
      | inl tasks =>
          let! pool' := turns (hd [] schedule) (pool ++ map (fun t => (t, Route)) tasks) in
          scan_dbs n' (i + 1) (tl schedule) pool'
      end
  end.

(** [ProcessTask], with the goroutines it leaves behind when a query fails run to their
    end too; [last] are the turns between the loop and [wg.Wait()]. *)
Definition SendAwardMessage_ProcessTask (dbCount : nat) (schedule : list (list nat)) (last : list nat)
    : M S unit :=
  let! scanned := scan_dbs dbCount 1 schedule [] in
  let! pool := turns last scanned.1 in
  wait pool ;;;
  match scanned.2 with
  | Some err => fail err
  | None => ret tt
  end.
End Job.
