(* ===== verification/Outbox.v ===== *)
(** * Outbox: the job empties the table of tasks

    While the services answer, every run of the job sends and completes the ten oldest
    failed tasks of each database, whatever the goroutines' schedule, so the backlog of
    failed tasks runs out.  A run makes a fixed number of calls and always ends. *)
From Stdlib Require Import ZArith Lia List Ascii String Permutation.
From stdpp Require Import base gmap strings list numbers.
From S2P Require Import Prelude GoLib Model Po Env Logic Mem Keys Router Cache Event Activity Frames Tasks.
Open Scope Z_scope.

(** ** Goroutines end *)

(** The calls a goroutine has left. *)
Definition phase_rank (ph : phase) : nat :=
  match ph with Route => 3 | Complete => 2 | MarkFail => 1 | Finished => 0 end.

Section Turns.
Context {S J : Type} `{TaskRepo S J} `{ActivityRepo S} `{EnvOps S} `{Codec J} `{JsonString J}.
Context `{Codec SaveOrderTaskMessage}.

Lemma dispatch_step_rank t ph (s : S) ph' s' :
  dispatch_step (J := J) t ph s = (Ret ph', s') -> (phase_rank ph' <= phase_rank ph - 1)%nat.
Proof.
  destruct ph; cbn [dispatch_step]; intros E; try (by injection E as <- _);
    inv_bind E; injection E as <- _; try destruct a; cbn; lia.
Qed.

(** The threads keep their tasks and only advance. *)
Lemma turn_rank k pool (s : S) pool' s' :
  turn (J := J) k pool s = (Ret pool', s') ->
  length pool' = length pool /\
  forall i t ph, pool !! i = Some (t, ph) -> exists ph', pool' !! i = Some (t, ph') /\
    (phase_rank ph' <= phase_rank ph - (if Nat.eqb i k then 1 else 0))%nat.
Proof.
  unfold turn. destruct (pool !! k) as [ [t0 ph0]|] eqn:Ek.
  - intros E. inv_bind E. injection E as <- _. split; [by rewrite length_insert|].
    intros i t ph Hi. apply dispatch_step_rank in Hm.
    destruct (Nat.eqb_spec i k) as [->|N].
    + rewrite Ek in Hi. injection Hi as <- <-. exists a. split; [|done].
      apply list_lookup_insert_eq. by eapply lookup_lt_Some.
    + exists ph. split; [|lia]. by rewrite list_lookup_insert_ne.
  - intros [= <- _]. split; [done|]. intros i t ph Hi. exists ph. split; [done|].
    destruct (Nat.eqb_spec i k) as [->|]; [by rewrite Hi in Ek|lia].
Qed.

Lemma turns_rank schedule : forall pool (s : S) pool' s',
  turns (J := J) schedule pool s = (Ret pool', s') ->
  length pool' = length pool /\
  forall i t ph, pool !! i = Some (t, ph) -> exists ph', pool' !! i = Some (t, ph') /\
    (phase_rank ph' <= phase_rank ph - count_occ Nat.eq_dec schedule i)%nat.
Proof.
  induction schedule as [|k schedule IH]; intros pool s pool' s' E; cbn [turns count_occ] in *.
  { injection E as <- _. split; [done|]. intros i t ph Hi. exists ph. split; [done|lia]. }
  inv_bind E. destruct (turn_rank _ _ _ _ _ Hm) as [L1 H1']. destruct (IH _ _ _ _ E) as [L2 H2'].
  split; [congruence|]. intros i t ph Hi. destruct (H1' _ _ _ Hi) as (ph1 & Hi1 & R1).
  destruct (H2' _ _ _ Hi1) as (ph2 & Hi2 & R2). exists ph2. split; [done|].
  destruct (Nat.eq_dec k i) as [->|N]; [rewrite Nat.eqb_refl in R1; lia|].
  destruct (Nat.eqb_spec i k); [by subst|lia].
Qed.

Lemma three_turns n : forall m i, (m <= i < m + n)%nat ->
  (3 <= count_occ Nat.eq_dec (flat_map (fun k => [k; k; k]) (seq m n)) i)%nat.
Proof.
  induction n as [|n IH]; intros m i Hi; [lia|]. cbn [seq flat_map app].
  destruct (Nat.eq_dec m i) as [->|N].
  - cbn [count_occ]. destruct (Nat.eq_dec i i); [lia|done].
  - rewrite !count_occ_cons_neq by done. apply IH. lia.
Qed.

(** After [wg.Wait()] every goroutine has ended. *)
Lemma wait_finishes pool (s : S) pool' s' :
  wait (J := J) pool s = (Ret pool', s') ->
  length pool' = length pool /\
  forall i t ph, pool !! i = Some (t, ph) -> pool' !! i = Some (t, Finished).
Proof.
  intros E. destruct (turns_rank _ _ _ _ _ E) as [L Hr]. split; [done|]. intros i t ph Hi.
  destruct (Hr _ _ _ Hi) as (ph' & Hi' & R).
  assert (Hlt : (i < length pool)%nat) by (by eapply lookup_lt_Some).
  pose proof (three_turns (length pool) 0 i ltac:(lia)). destruct ph, ph'; cbn [phase_rank] in R; done || lia.
Qed.

(** A goroutine that is never interrupted runs [dispatchSingleTask]. *)
Lemma turns_dispatch t (s : S) :
  (let! _ := turns (J := J) [0; 0; 0]%nat [(t, Route)] in ret tt) s = dispatchSingleTask (J := J) t s.
Proof.
  unfold dispatchSingleTask. cbn [turns]. unfold turn, bind, attempt, ret. simpl.
  unfold bind, attempt, ret.
  destruct (routeTaskByTopic t s) as [[u|e|p] s1]; simpl; [| |done]; unfold bind, attempt, ret.
  - destruct (UpdateTaskSendMessageCompleted (tk_UserID t) (tk_MessageID t) s1) as [[u1|e1|p1] s2];
      simpl; [done| |done]; unfold bind, attempt, ret.
    by destruct (UpdateTaskSendMessageFail (tk_UserID t) (tk_MessageID t) s2) as [[] s3].
  - by destruct (UpdateTaskSendMessageFail (tk_UserID t) (tk_MessageID t) s1) as [[] s3].
Qed.
End Turns.

(** ** Services that answer *)
Class SqlAnswers (D : Type) `{SqlOps D} := {
  find_ordered_answers : forall db t p le n d, exists l d', sq_find_ordered db t p le n d = (Ret l, d');
  update_answers : forall db t p f d, exists n d', sq_update db t p f d = (Ret n, d') }.

Class BrokerAnswers (E J : Type) `{EnvOps E} `{EventCodec J} := {
  exchange_answers : forall t e, exists e', ev_exchange_declare t e = (Ret tt, e');
  publish_answers : forall t b e, exists e', ev_amqp_publish t b e = (Ret tt, e');
  event_marshals : forall ev : BaseEvent J, exists s, marshal_event ev = Ret s }.

(** ** The table of tasks *)

(** The failed tasks. *)
Definition backlog (l : list TaskPO) : nat := length (List.filter (task_state_is "fail") l).

(** The tasks [done] names are completed, the others are as they were. *)
Definition swept (done : string -> string -> bool) (l l' : list TaskPO) : Prop :=
  Forall2 (fun p p' => payload_tkp p' =
    payload_tkp (if done (tkp_UserID p) (tkp_MessageID p) then set_task_state "completed" 0 p else p)) l l'.

Lemma payload_tkp_fields p q : payload_tkp p = payload_tkp q ->
  tkp_UserID p = tkp_UserID q /\ tkp_MessageID p = tkp_MessageID q /\ tkp_Topic p = tkp_Topic q /\
  tkp_State p = tkp_State q.
Proof.
  intros Hp. repeat split.
  - exact (f_equal tkp_UserID Hp).
  - exact (f_equal tkp_MessageID Hp).
  - exact (f_equal tkp_Topic Hp).
  - exact (f_equal tkp_State Hp).
Qed.

(** A swept row keeps its owner, number and topic, and its state unless it is done. *)
Lemma swept_row (b : bool) p p' :
  payload_tkp p' = payload_tkp (if b then set_task_state "completed" 0 p else p) ->
  tkp_UserID p' = tkp_UserID p /\ tkp_MessageID p' = tkp_MessageID p /\ tkp_Topic p' = tkp_Topic p /\
  tkp_State p' = (if b then "completed"%string else tkp_State p).
Proof. intros Hp. apply payload_tkp_fields in Hp. by destruct b. Qed.

Lemma swept_refl l : swept (fun _ _ => false) l l.
Proof. induction l; by constructor. Qed.

Lemma swept_ext d d' l l' : (forall u m, d u m = d' u m) -> swept d l l' -> swept d' l l'.
Proof.
  intros Hd Hs. eapply Forall2_impl; [|exact Hs]. intros p p' Hp. by rewrite <- Hd.
Qed.

Lemma swept_trans d1 d2 l l1 l2 :
  swept d1 l l1 -> swept d2 l1 l2 -> swept (fun u m => d1 u m || d2 u m) l l2.
Proof.
  intros H1. revert l2. induction H1 as [|p p1 l l1 Hp H1 IH]; intros l2 H2; inversion H2 as [|? p2 ? ? Hp2 H2']; subst;
    constructor; [|by apply IH].
  pose proof (swept_row _ _ _ Hp) as (Hu & Hm & _ & _). rewrite Hu, Hm in Hp2.
  destruct p2 as [i2 u2 t2 m2 b2 s2 c2 v2], p1 as [i1 u1 t1 m1 b1 s1 c1 v1], p as [i u t m b s c v].
  cbn in *. destruct (d1 u m), (d2 u m); cbn in *; injection Hp; injection Hp2; intros; by subst.
Qed.

(** An update of one task is a sweep. *)
Lemma updated_swept userID messageID now (l l' : list TaskPO) :
  updated (t := Ttask) (is_task userID messageID) (set_task_state "completed" now) l l' ->
  swept (fun u m => String.eqb u userID && String.eqb m messageID) l l'.
Proof.
  intros Hu. eapply Forall2_impl; [|exact Hu]. intros p p' Hp. unfold is_task in Hp. cbn beta in Hp.
  destruct (String.eqb (tkp_UserID p) userID && String.eqb (tkp_MessageID p) messageID); [exact Hp|by subst].
Qed.

Lemma swept_in d l l' p' : swept d l l' -> In p' l' ->
  exists p, In p l /\ tkp_UserID p' = tkp_UserID p /\ tkp_Topic p' = tkp_Topic p.
Proof.
  induction 1 as [|p q l l' Hp Hs IH]; intros Hin; [done|]. destruct Hin as [->|Hin].
  - exists p. pose proof (swept_row _ _ _ Hp). split; [by left|tauto].
  - destruct (IH Hin) as (p0 & Hp0 & He). exists p0. split; [by right|done].
Qed.

Lemma swept_backlog d l l' : swept d l l' ->
  backlog l' = length (List.filter (fun p => task_state_is "fail" p && negb (d (tkp_UserID p) (tkp_MessageID p))) l).
Proof.
  unfold backlog. induction 1 as [|p q l l' Hp Hs IH]; [done|]. cbn [List.filter].
  pose proof (swept_row _ _ _ Hp) as (_ & _ & _ & Hst). unfold task_state_is in *. rewrite Hst.
  destruct (d (tkp_UserID p) (tkp_MessageID p)); cbn [negb andb]; [by rewrite andb_false_r|].
  rewrite andb_true_r. destruct (String.eqb (tkp_State p) "fail"); cbn [length]; by rewrite IH.
Qed.

(** Completing the first [n] of the failed tasks, in any order, leaves that many fewer. *)
Lemma batch_backlog d l l' s n :
  swept d l l' -> Permutation s (List.filter (task_state_is "fail") l) ->
  (forall p, In p (firstn n s) -> d (tkp_UserID p) (tkp_MessageID p) = true) ->
  (backlog l' <= backlog l - n)%nat.
Proof.
  intros Hs Hp Hd. rewrite (swept_backlog _ _ _ Hs). unfold backlog.
  set (g := fun p => negb (d (tkp_UserID p) (tkp_MessageID p))).
  assert (Hff : forall k, List.filter (fun p => task_state_is "fail" p && negb (d (tkp_UserID p) (tkp_MessageID p))) k
    = List.filter g (List.filter (task_state_is "fail") k)).
  { intros k. induction k as [|p k IHk]; [done|]. cbn [List.filter]. destruct (task_state_is "fail" p); cbn [andb List.filter]; [|done].
    unfold g at 1. destruct (negb (d (tkp_UserID p) (tkp_MessageID p))); by rewrite IHk. }
  rewrite Hff, <- (Permutation_length Hp).
  assert (Hg : length (List.filter g (List.filter (task_state_is "fail") l)) = length (List.filter g s)).
  { clear -Hp. apply Permutation_length. induction Hp as [|x l1 l2 ? IH|x y l1|]; cbn [List.filter];
      [done|by destruct (g x); [constructor|]|destruct (g x), (g y); try done; by constructor|by etrans]. }
  rewrite Hg, <- (firstn_skipn n s) at 1. rewrite List.filter_app, length_app.
  rewrite (filter_none g (firstn n s)).
  - pose proof (filter_length_le g (skipn n s)). rewrite length_skipn in *. cbn [length]. lia.
  - intros p Hin. unfold g. by rewrite Hd.
Qed.

(** The order of the query is total. *)
Lemma task_le_total x y : task_le x y = true \/ task_le y x = true.
Proof.
  unfold task_le.
  destruct (Z.ltb_spec (tkp_UpdateTime x) (tkp_UpdateTime y)), (Z.ltb_spec (tkp_UpdateTime y) (tkp_UpdateTime x)),
    (Z.eqb_spec (tkp_UpdateTime x) (tkp_UpdateTime y)), (Z.eqb_spec (tkp_UpdateTime y) (tkp_UpdateTime x)),
    (Z.leb_spec (tkp_ID x) (tkp_ID y)), (Z.leb_spec (tkp_ID y) (tkp_ID x)); cbn; auto; lia.
Qed.

(** ** The job *)
Section Drain.
Context {R D E J : Type} `{SqlLaws D} `{!SqlAnswers D} `{EnvLaws E} `{PublisherMem E} `{EventCodec J}
  `{!BrokerAnswers E J} `{CodecLaws J} `{JsonString J} `{Codec SaveOrderTaskMessage}.
Notation World := (W R D E).
Context `{ActivityRepo World}.
Variable r : TaskRepository.
#[local] Instance drain_tasks : TaskRepo World J := NewTaskRepository r.

Notation sweep d w w' := (forall db, swept d (rows w db Ttask) (rows w' db Ttask)).

(** Every task is an award to send and lies in the database of its user. *)
Definition placed (f : dbh -> forall t, list (row t)) : Prop := forall db (p : TaskPO), In p (f db Ttask) ->
  tkp_Topic p = SendAwardTopic /\ exists suffix, DBStrategy (tr_routerDB r) (tkp_UserID p) = Ret (Some db, suffix).
Definition routed (t : Task) : Prop :=
  tk_Topic t = SendAwardTopic /\ exists db suffix, DBStrategy (tr_routerDB r) (tk_UserID t) = Ret (Some db, suffix).

Lemma placed_sweep d (w w' : World) : placed (rows w) -> sweep d w w' -> placed (rows w').
Proof.
  intros Hp Hs db p Hin. destruct (swept_in _ _ _ _ (Hs db) Hin) as (p0 & Hin0 & Hu & Ht).
  rewrite Hu, Ht. by apply Hp.
Qed.

Lemma routing_answers (t : Task) (w : World) : tk_Topic t = SendAwardTopic ->
  wp (routeTaskByTopic t) (fun rr w' => rr = Ret tt /\ rows w' = rows w) w.
Proof.
  intros Ht. unfold routeTaskByTopic. rewrite Ht. cbn [String.eqb Ascii.eqb Bool.eqb].
  unfold SendMessage. apply wp_attempt. unfold wp at 1, lift_res. cbn [fst snd].
  destruct (unmarshal (tk_Message t)) as [data|e|p] eqn:Eu;
    [| |by destruct (proj2 (codec_no_panic None (tk_Message t) p) Eu)].
  all: apply wp_bind, wp_now; intros ts w1 _ D1; cbn [then_];
    destruct w1 as [[q e1] d]; unfold wp, SendMessage_, drain_tasks, NewTaskRepository, data_SendMessage,
      in_env, PublishTopic, Publish, rows; rewrite <- D1;
    unfold bind, with_err, lift_res; destruct (declared e1 (tk_Topic t));
    [|destruct (exchange_answers (J := J) (tk_Topic t) e1) as [e2 He]; rewrite He];
    (match goal with |- context [marshal_event ?ev] => destruct (event_marshals (E := E) ev) as [s Hs] end);
    rewrite Hs; cbn [ret];
    (match goal with |- context [ev_amqp_publish ?tp ?b ?en] => destruct (publish_answers (J := J) tp b en) as [e3 Hp] end);
    rewrite Hp; done.
Qed.

Lemma wp_update_answers db t p f Q (w : World) :
  (forall w' n, updated p f (rows w db t) (rows w' db t) -> other_tables db t (rows w) (rows w') -> Q (Ret n) w') ->
  wp (in_sql (sq_update db t p f)) Q w.
Proof.
  intros HQ. assert (Hx : exists n, (in_sql (E := E) (R := R) (sq_update db t p f) w).1 = Ret n).
  { destruct w as [x d]. unfold in_sql. destruct (update_answers db t p f d) as (n & d' & ->). by exists n. }
  destruct Hx as [n Hn].
  assert (Hw : wp (in_sql (sq_update db t p f)) (fun x w' => forall n', x = Ret n' ->
    updated p f (rows w db t) (rows w' db t) /\ other_tables db t (rows w) (rows w')) w)
    by (apply wp_update_lost; [by intros w' n' _ ? ? _ _ ? _|by intros w' e _ _ n' [=] ]).
  unfold wp in *. rewrite Hn in *. destruct (Hw n eq_refl). by apply HQ.
Qed.

Lemma completion_answers (u m : string) (w : World) :
  placed (rows w) ->
  (exists db suffix, DBStrategy (tr_routerDB r) u = Ret (Some db, suffix)) ->
  wp (UpdateTaskSendMessageCompleted (J := J) u m) (fun rr w' => rr = Ret tt /\
    sweep (fun u' m' => String.eqb u' u && String.eqb m' m) w w') w.
Proof.
  intros Hp (db & suffix & Hroute).
  unfold UpdateTaskSendMessageCompleted. cbn [UpdateTaskSendMessageCompleted_ drain_tasks NewTaskRepository].
  unfold data_UpdateTaskSendMessageCompleted, update_task_state. rewrite Hroute. apply wp_lift. cbn [then_ fst].
  apply wp_deref; [|done]. intros db0 [= <-].
  apply wp_bind, wp_now. intros now w1 _ D1. cbn [then_].
  assert (R1 : rows w1 = rows w) by (unfold rows; by rewrite D1).
  apply wp_bind, wp_update_answers.
  intros w3 n3 U3 O3. cbn [then_]. apply wp_ret. split; [done|]. intros db'.
    rewrite R1 in *. destruct (decide (db' = db)) as [->|N]; [by eapply updated_swept|].
    assert (Eq : rows w3 db' Ttask = rows w db' Ttask) by (apply O3; congruence).
    enough (Hs : swept (fun u' m' => String.eqb u' u && String.eqb m' m) (rows w db' Ttask) (rows w db' Ttask))
      by exact (eq_ind_r (fun l => swept _ _ l) Hs Eq).
    assert (Hall : forall p, In p (rows w db' Ttask : list TaskPO) -> tkp_UserID p <> u).
    { intros p Hin Hu. destruct (Hp _ _ Hin) as (_ & sx & Hr). rewrite Hu in Hr. congruence. }
    clear -Hall. induction (rows w db' Ttask : list TaskPO) as [|p l IH]; constructor.
    + destruct (String.eqb_spec (tkp_UserID p) u) as [Hu|]; [|done]. by destruct (Hall p (or_introl eq_refl)).
    + apply IH. intros q Hq. apply Hall. by right.
Qed.

Notation names := (string -> string -> bool).
Definition included (d d' : names) : Prop := forall u m, d u m = true -> d' u m = true.

Lemma included_refl d : included d d.
Proof. by intros u m. Qed.

(** Since [w0] the tasks of [d] were completed and nothing else happened to the tables of
    tasks; [d] has the tasks of all goroutines that ended, and none has failed. *)
Definition running (w0 : World) (d : names) (pool : list thread) (w : World) : Prop :=
  sweep d w0 w /\
  forall i t ph, pool !! i = Some (t, ph) ->
    routed t /\ ph <> MarkFail /\ (ph = Finished -> d (tk_UserID t) (tk_MessageID t) = true).

Lemma running_same w0 d pool (w w' : World) :
  rows w' = rows w -> running w0 d pool w -> running w0 d pool w'.
Proof. intros Hr [Hs Hp]. split; [by rewrite Hr|done]. Qed.

Lemma turn_answers w0 d k pool (w : World) : placed (rows w0) -> running w0 d pool w ->
  wp (turn (J := J) k pool) (fun rr w' => exists pool' d', rr = Ret pool' /\
    running w0 d' pool' w' /\ included d d') w.
Proof using All.
  intros Hpl [Hs Hp]. unfold turn. destruct (pool !! k) as [ [t ph]|] eqn:Ek.
  2: { apply wp_ret. exists pool, d. split_and!; [done|split; [exact Hs|exact Hp]|apply included_refl]. }
  destruct (Hp _ _ _ Ek) as (Hr & Hm & Hf).
  assert (Hold : forall i t' ph' ph1, <[k := (t, ph1)]> pool !! i = Some (t', ph') ->
    (i = k /\ t' = t /\ ph' = ph1) \/ pool !! i = Some (t', ph')).
  { intros i t' ph' ph1 Hi. apply list_lookup_insert_Some in Hi as [(-> & [= -> ->] & _)|[_ Hi] ]; tauto. }
  destruct ph; cbn [dispatch_step]; [| |done|].
  - apply wp_bind, wp_attempt. eapply wp_mono; [by apply routing_answers, Hr|].
    intros x w1 [-> R1]. apply wp_ret. cbn [then_]. apply wp_ret. exists (<[k := (t, Complete)]> pool), d.
    split; [done|]. split; [|apply included_refl]. eapply running_same; [done|]. split; [done|].
    intros i t' ph' [(-> & -> & ->)|Hi]%Hold; [done|by apply (Hp i)].
  - apply wp_bind, wp_attempt. eapply wp_mono; [apply completion_answers; [|by apply Hr]|].
    { by eapply placed_sweep. }
    intros x w1 [-> S1]. apply wp_ret. cbn [then_]. apply wp_ret. exists (<[k := (t, Finished)]> pool).
    eexists. split; [done|]. split; [split|].
    + intros db. exact (swept_trans _ _ _ _ _ (Hs db) (S1 db)).
    + intros i t' ph' [(-> & -> & ->)|Hi]%Hold; cbn beta.
      * rewrite !String.eqb_refl. by rewrite orb_true_r.
      * destruct (Hp i _ _ Hi) as (? & ? & Hf'). split_and!; [done..|]. intros Hph. by rewrite Hf'.
    + intros u m Hd. by rewrite Hd.
  - apply wp_bind, wp_ret. cbn [then_]. apply wp_ret. exists (<[k := (t, Finished)]> pool), d.
    split; [done|]. split; [|apply included_refl]. split; [done|].
    intros i t' ph' [(-> & -> & ->)|Hi]%Hold; [done|by apply (Hp i)].
Qed.

Lemma turns_answer w0 schedule : forall d pool (w : World), placed (rows w0) -> running w0 d pool w ->
  wp (turns (J := J) schedule pool) (fun rr w' => exists pool' d', rr = Ret pool' /\
    running w0 d' pool' w' /\ included d d') w.
Proof using All.
  induction schedule as [|k schedule IH]; intros d pool w Hpl Hrun; cbn [turns].
  { apply wp_ret. exists pool, d. split_and!; [done|done|apply included_refl]. }
  apply wp_bind. eapply wp_mono; [by eapply turn_answers|].
  intros x w1 (pool1 & d1 & -> & Hrun1 & Hd1). cbn [then_].
  eapply wp_mono; [by eapply IH|]. intros x w2 (pool2 & d2 & -> & Hrun2 & Hd2).
  exists pool2, d2. split_and!; [done..|]. intros u m Hu. by apply Hd2, Hd1.
Qed.

(** What a query of one database answers: the oldest failed tasks are among its tasks. *)
Lemma query_answers i db (w : World) :
  GetDB (tr_routerDB r) i = Some db -> placed (rows w) ->
  wp (QueryNoSendMessageTaskList (J := J) i) (fun rr w' => rows w' = rows w /\ exists tasks s,
    rr = Ret tasks /\ Forall routed tasks /\
    Permutation s (List.filter (task_state_is "fail") (rows w db Ttask)) /\
    forall p, In p (firstn task_limit s) -> exists t, In t tasks /\
      tk_UserID t = tkp_UserID p /\ tk_MessageID t = tkp_MessageID p) w.
Proof using All.
  intros Hdb Hpl. unfold QueryNoSendMessageTaskList.
  cbn [QueryNoSendMessageTaskList_ drain_tasks NewTaskRepository]. unfold data_QueryNoSendMessageTaskList.
  rewrite Hdb. apply wp_deref; [|done]. intros db0 [= <-].
  pose proof task_le_total as Htot.
  assert (Hrouted : forall (q : TaskPO -> bool) n s, Permutation s (List.filter q (rows w db Ttask)) ->
    Forall routed (map Task_ToEntity (map select_columns (firstn n s)))).
  { intros q n s Hperm. rewrite !List.Forall_map. apply List.Forall_forall. intros p Hin.
    apply firstn_In_subset in Hin. apply (Permutation_in _ Hperm), filter_In in Hin as [Hin _].
    destruct (Hpl db p Hin) as (Ht & suffix & Hroute). split; [exact Ht|]. by exists db, suffix. }
  apply wp_bind, wp_now. intros now w1 _ D1. cbn [then_].
  assert (R1 : rows w1 = rows w) by (unfold rows; by rewrite D1).
  apply wp_bind, wp_find_ordered; [done| |].
  2: { intros w2 e He. destruct (find_ordered_answers db Ttask (task_state_is "fail") task_le task_limit (w_sql w1))
         as (l & d' & Hl). congruence. }
  intros w2 s S2 R2 P2. cbn [then_]. rewrite R1 in *.
  assert (Hin : forall rest p, In p (firstn task_limit s) -> exists t,
    In t (map Task_ToEntity (map select_columns (firstn task_limit s) ++ rest)) /\
    tk_UserID t = tkp_UserID p /\ tk_MessageID t = tkp_MessageID p).
  { intros rest p Hp. exists (Task_ToEntity (select_columns p)). split; [|done].
    apply in_map, in_or_app. left. by apply in_map. }
  destruct (length (map select_columns (firstn task_limit s)) <? task_limit)%nat.
  - apply wp_bind, wp_bind, wp_find_ordered; [done| |].
    2: { intros w3 e He. destruct (find_ordered_answers db Ttask (task_overdue (now - 6 * Minute)) task_le
           (task_limit - length (map select_columns (firstn task_limit s))) (w_sql w2)) as (l & d' & Hl). congruence. }
    intros w3 s3 S3 R3 P3. cbn [then_]. apply wp_ret. cbn [then_]. apply wp_ret. rewrite R2 in *.
    split; [done|]. eexists _, s. split; [done|]. split; [|split; [exact P2|apply Hin] ].
    rewrite map_app. apply Forall_app. split; by eapply Hrouted.
  - apply wp_bind, wp_ret. cbn [then_]. apply wp_ret. split; [done|]. eexists _, s. split; [done|].
    split; [by eapply Hrouted|]. split; [exact P2|]. specialize (Hin []). by rewrite app_nil_r in Hin.
Qed.

(** The ten oldest failed tasks of a database were read and have goroutines. *)
Definition covered (w0 : World) (db : dbh) (d : names) (pool : list thread) : Prop :=
  exists l s d0, swept d0 (rows w0 db Ttask) l /\ included d0 d /\
    Permutation s (List.filter (task_state_is "fail") l) /\
    forall p, In p (firstn task_limit s) -> exists i t ph, pool !! i = Some (t, ph) /\
      tk_UserID t = tkp_UserID p /\ tk_MessageID t = tkp_MessageID p.

(** Goroutines keep their tasks, so what is covered stays covered. *)
Definition advances (pool pool' : list thread) : Prop :=
  forall i t ph, pool !! i = Some (t, ph) -> exists ph', pool' !! i = Some (t, ph').

Lemma covered_mono w0 db d d' pool pool' :
  included d d' -> advances pool pool' -> covered w0 db d pool -> covered w0 db d' pool'.
Proof.
  intros Hd Ha (l & s & d0 & Hs & Hd0 & Hp & Hin). exists l, s, d0. split_and!; [done| |done|].
  - intros u m Hu. by apply Hd, Hd0.
  - intros p Hp'. destruct (Hin p Hp') as (i & t & ph & Hi & Hk). destruct (Ha _ _ _ Hi) as [ph' Hi'].
    by exists i, t, ph'.
Qed.

Lemma turns_advance schedule pool (w : World) pool' w' :
  turns (J := J) schedule pool w = (Ret pool', w') -> advances pool pool'.
Proof.
  intros Hrun i t ph Hi. destruct (turns_rank _ _ _ _ _ Hrun) as [_ Hr].
  destruct (Hr _ _ _ Hi) as (ph' & Hi' & _). by exists ph'.
Qed.

(** The tasks of a query get goroutines. *)
Lemma running_spawn w0 d pool tasks (w : World) :
  Forall routed tasks -> running w0 d pool w -> running w0 d (pool ++ map (fun t => (t, Route)) tasks) w.
Proof.
  intros Ht [Hs Hp]. split; [done|]. intros i t ph [Hi|[_ Hi] ]%lookup_app_Some; [by eapply Hp|].
  apply list_elem_of_lookup_2, list_elem_of_In, in_map_iff in Hi as (t' & [= <- <-] & Hin).
  rewrite List.Forall_forall in Ht. split_and!; [by apply Ht|done|done].
Qed.

Lemma covered_spawn w0 db d pool tasks (w : World) s :
  running w0 d pool w -> Permutation s (List.filter (task_state_is "fail") (rows w db Ttask)) ->
  (forall p, In p (firstn task_limit s) -> exists t, In t tasks /\
     tk_UserID t = tkp_UserID p /\ tk_MessageID t = tkp_MessageID p) ->
  covered w0 db d (pool ++ map (fun t => (t, Route)) tasks).
Proof.
  intros [Hs _] Hperm Hin. exists (rows w db Ttask), s, d. split_and!; [apply Hs|apply included_refl|done|].
  intros p Hp. destruct (Hin p Hp) as (t & Ht & Hk).
  apply (in_map (fun t => (t, Route))), list_elem_of_In, list_elem_of_lookup_1 in Ht as [i Hi].
  exists (length pool + i)%nat, t, Route. split; [|done]. rewrite lookup_app_r by lia.
  by replace (length pool + i - length pool)%nat with i by lia.
Qed.

Lemma scan_answers w0 n : forall i schedule d pool (w : World), placed (rows w0) -> running w0 d pool w ->
  (forall j, i <= j < i + Z.of_nat n -> exists db, GetDB (tr_routerDB r) j = Some db) ->
  wp (scan_dbs (J := J) n i schedule pool) (fun rr w' => exists pool' d', rr = Ret (pool', None) /\
    running w0 d' pool' w' /\ included d d' /\ advances pool pool' /\
    forall j db, i <= j < i + Z.of_nat n -> GetDB (tr_routerDB r) j = Some db -> covered w0 db d' pool') w.
Proof using All.
  induction n as [|n IH]; intros i schedule d pool w Hpl Hrun Hdbs; cbn [scan_dbs].
  { apply wp_ret. exists pool, d. split_and!; [done|done|apply included_refl|intros k t ph Hk; by exists ph|lia]. }
  destruct (Hdbs i ltac:(lia)) as [db Hdb].
  apply wp_attempt. eapply wp_mono; [eapply query_answers; [done|by eapply placed_sweep, Hrun]|].
  intros x w1 (R1 & tasks & s & -> & Ht & Hperm & Hin).
  pose proof (running_same _ _ _ _ _ R1 Hrun) as Hrun1. rewrite <- R1 in Hperm.
  pose proof (covered_spawn _ _ _ _ _ _ _ Hrun1 Hperm Hin) as Hcov.
  apply wp_bind, wp_intro. intros y w2 E2.
  destruct (wp_run _ _ _ _ _ (turns_answer _ _ _ _ _ Hpl (running_spawn _ _ _ _ _ Ht Hrun1)) E2)
    as (pool2 & d2 & -> & Hrun2 & Hd2). apply turns_advance in E2. cbn [then_].
  eapply wp_mono; [eapply IH; [done|exact Hrun2|intros j Hj; apply Hdbs; lia]|].
  intros y w3 (pool3 & d3 & -> & Hrun3 & Hd3 & Ha3 & Hcov3). exists pool3, d3.
  split_and!; [done|done|intros u m Hu; by apply Hd3, Hd2| |].
  - intros k t ph Hk. destruct (E2 k t ph) as [ph2 Hk2]; [by apply lookup_app_l_Some|]. by eapply Ha3.
  - intros j db' Hj Hdb'. destruct (Z.eq_dec j i) as [->|N]; [|apply (Hcov3 j); [lia|done] ].
    rewrite Hdb in Hdb'. injection Hdb' as <-. by eapply covered_mono, covered_mono.
Qed.

(** Two sweeps of one table, the second of more tasks: what happened in between. *)
Lemma swept_between d0 d l l0 l1 : included d0 d -> swept d0 l l0 -> swept d l l1 -> swept d l0 l1.
Proof.
  intros Hd H0'. revert l1. induction H0' as [|p p0 l l0 Hp H0' IH]; intros l1 H1'; inversion H1' as [|? p1 ? ? Hp1 H1'']; subst;
    constructor; [|by apply IH].
  pose proof (swept_row _ _ _ Hp) as (Hu & Hm & _ & _). rewrite Hu, Hm.
  specialize (Hd (tkp_UserID p) (tkp_MessageID p)).
  destruct p1 as [i1 u1 t1 m1 b1 s1 c1 v1], p0 as [i2 u2 t2 m2 b2 s2 c2 v2], p as [i u t m b s c v]. cbn in *.
  destruct (d0 u m), (d u m); cbn in *; try (specialize (Hd eq_refl); done);
    injection Hp; injection Hp1; intros; by subst.
Qed.

(** One run of the job. *)
Lemma ProcessTask_run dbCount schedule last (w : World) :
  placed (rows w) -> (forall j, 1 <= j <= Z.of_nat dbCount -> exists db, GetDB (tr_routerDB r) j = Some db) ->
  wp (SendAwardMessage_ProcessTask (J := J) dbCount schedule last) (fun rr w' => rr = Ret tt /\
    placed (rows w') /\
    forall j db, 1 <= j <= Z.of_nat dbCount -> GetDB (tr_routerDB r) j = Some db ->
      (backlog (rows w' db Ttask) <= backlog (rows w db Ttask) - task_limit)%nat) w.
Proof using All.
  intros Hpl Hdbs. unfold SendAwardMessage_ProcessTask.
  assert (Hstart : running w (fun _ _ => false) [] w) by (split; [intros db; apply swept_refl|done]).
  apply wp_bind. eapply wp_mono; [eapply scan_answers; [done|exact Hstart|intros j Hj; apply Hdbs; lia]|].
  intros x w1 (pool1 & d1 & -> & Hrun1 & _ & _ & Hcov1). cbn [then_ fst snd].
  apply wp_bind, wp_intro. intros x w2 E2.
  destruct (wp_run _ _ _ _ _ (turns_answer _ _ _ _ _ Hpl Hrun1) E2) as (pool2 & d2 & -> & Hrun2 & Hd2).
  apply turns_advance in E2. cbn [then_].
  apply wp_bind, wp_intro. intros x w3 E3.
  destruct (wp_run _ _ _ _ _ (turns_answer _ _ _ _ _ Hpl Hrun2) E3) as (pool3 & d3 & -> & Hrun3 & Hd3).
  destruct (wait_finishes _ _ _ _ E3) as [_ Hend]. apply turns_advance in E3. cbn [then_]. apply wp_ret.
  split; [done|]. split; [by eapply placed_sweep, Hrun3|]. intros j db Hj Hdb.
  assert (Hcov : covered w db d2 pool2) by (eapply covered_mono; [done..|]; apply (Hcov1 j); [lia|done]).
  destruct Hcov as (l & s & d0 & Hs & Hd0 & Hperm & Hin). destruct Hrun3 as [Hs3 Hp3].
  assert (Hb : (backlog (rows w3 db Ttask) <= backlog l - task_limit)%nat).
  { eapply (batch_backlog d3); [|exact Hperm|].
    - eapply swept_between; [|exact Hs|apply Hs3]. intros u m Hu. by apply Hd3, Hd0.
    - intros p Hp. destruct (Hin p Hp) as (i & t & ph & Hi & <- & <-).
      destruct (Hp3 i t Finished) as (_ & _ & Hf); [by eapply Hend|]. by apply Hf. }
  assert (Hl : (backlog l <= backlog (rows w db Ttask))%nat).
  { rewrite (swept_backlog _ _ _ Hs). unfold backlog. clear.
    induction (rows w db Ttask : list TaskPO) as [|p k IH]; [done|]. cbn [List.filter].
    destruct (task_state_is "fail" p), (negb (d0 (tkp_UserID p) (tkp_MessageID p))); cbn [andb length]; lia. }
  lia.
Qed.

End Drain.

(** ** Witness: a backlog of twelve tasks is gone after two runs *)
#[local] Instance demo_json : Codec Z := IntCodec.
#[local] Instance demo_json_string : JsonString Z := {| json_string := fun _ => 0 |}.
#[local] Instance demo_json_event : EventCodec Z := {| marshal_event := fun e => Ret (FormatInt (ev_Data e)) |}.
#[local] Instance demo_outbox_publisher : PublisherMem MemEnv := {
  declared := fun e t => existsb (String.eqb t) (me_exchanges e); declare := fun _ e => e }.
#[local] Instance demo_outbox_sql : SqlOps MemSql := MemSqlOps (fun _ _ _ => false).
#[local] Instance demo_outbox_sql_laws : SqlLaws MemSql := MemSqlLaws (fun _ _ _ => false).
#[local] Instance demo_sql_answers : SqlAnswers MemSql.
Proof. constructor; intros; by eexists _, _. Defined.
#[local] Instance demo_broker_answers : BrokerAnswers MemEnv Z.
Proof. constructor; intros; by eexists. Defined.
#[local] Instance demo_order_codec : Codec SaveOrderTaskMessage := {
  marshal := fun _ => Fail (EExt "json"); unmarshal := fun _ => Fail (EExt "json");
  zero_value := mkSaveOrderTaskMessage "" "";
  encodable := fun _ => False }.
(** The award tasks do not reach the activity repository. *)
#[local] Instance demo_no_activity : ActivityRepo MemWorld.
Proof. constructor; intros; exact (fail (EExt "down")). Defined.

Definition demo_outbox_repository : TaskRepository :=
  mkTaskRepository (mkDBRouter {["01"%string := "db1"%string]} 1 1) (mkPublisher "zero" "rebate" "award").
Definition demo_task (i : Z) : TaskPO :=
  mkTaskPO i "u" SendAwardTopic ("m" ++ FormatInt i) "100" "fail" 0 (100 - i).
Definition demo_backlog : list TaskPO := map demo_task [1; 2; 3; 4; 5; 6; 7; 8; 9; 10; 11; 12].
Definition demo_outbox_rows : MemSql := fun db t =>
  match t return list (row t) with
  | Ttask => if String.eqb db "db1" then demo_backlog else []
  | _ => []
  end.
Definition demo_outbox_world : MemWorld := mem_world ∅ demo_outbox_rows 1000 [].
(** In the second run the goroutines are interleaved. *)
Definition demo_rounds : list (list (list nat) * list nat) := [([], []); ([ [1; 0; 1] ], [0])]%nat.
Definition demo_drained : res unit * MemWorld :=
  for_each demo_rounds (fun x => SendAwardMessage_ProcessTask (H := NewTaskRepository demo_outbox_repository)
    1 x.1 x.2) demo_outbox_world.

