(* ===== verification/Consumers.v ===== *)
(** * Consumers: the handlers of queued messages

    The jobs of [internal/job], the listeners of [internal/listener] and the acknowledgement
    rules of [internal/server/rabbitmq_server.go].  A listener answers whether to retry and
    an error, which the server turns into a verdict on the delivery. *)
From Stdlib Require Import ZArith Lia List Ascii String.
From stdpp Require Import base gmap strings list numbers.
From S2P Require Import Prelude GoLib Model Po Env Logic Mem Keys Router Cache Event Quota.
From S2P Require Import StrategyRepo Raffle Activity PartakeData Frames PartakeLedger QuotaData Recharge ActivityWiring.
Open Scope Z_scope.

(** ** The pass-throughs of [quota.go] *)
Section QuotaUsecase.
Context {S : Type} `{ActivityRepo S}.
Definition Usecase_ClearActivitySkuStock (sku : Z) : M S unit := Activity.ClearActivitySkuStock sku.
Definition Usecase_ClearQueueValue : M S unit := Activity.ClearQueueValue.
Definition Usecase_UpdateActivitySkuStock (sku : Z) : M S unit := Activity.UpdateActivitySkuStock sku.
Definition Usecase_QueryActivityAccountEntity (userID : string) (activityID : Z) : M S (option ActivityAccount) :=
  Activity.QueryActivityAccountEntity userID activityID.
Definition Usecase_QueryRaffleActivityAccountPartakeCount (userID : string) (activityID : Z) : M S Z :=
  Activity.QueryRaffleActivityAccountPartakeCount userID activityID.
Definition Usecase_QueryRaffleActivityAccountDayPartakeCount (userID : string) (activityID : Z) : M S Z :=
  Activity.QueryRaffleActivityAccountDayPartakeCount userID activityID.
Definition Usecase_AssembleActivityAccountByActivityId (activityID : Z) : M S unit :=
  Activity.AssembleActivityAccountByActivityId activityID.
Definition Usecase_AssembleActivityAccountByUserId (userID : string) (activityID : Z) : M S unit :=
  Activity.AssembleActivityAccountByUserId userID activityID.
End QuotaUsecase.

(** ** The asynq jobs *)
Section Jobs.
Context {S : Type} `{ActivityRepo S} `{StrategyRepo S} `{Codec ActivitySkuStockKey} `{Codec AwardStockConsumeMessage}.

Definition ActivitySkuStockConsumeJob_ProcessTask (payload : string) : M S unit :=
  let! skuStockKey := with_err (EWrap "failed to unmarshal payload: ")
                        (lift_res (unmarshal payload : res ActivitySkuStockKey)) in
  with_err (EWrap "failed to update activity sku stock: ")
    (Usecase_UpdateActivitySkuStock (sk_Sku skuStockKey)).

Definition StrategyAwardStockConsumeJob_ProcessTask (payload : string) : M S unit :=
  let! msg := with_err (fun err => EWrap ("json.Unmarshal failed: " ++ error_text err ++ ": ") ESkipRetry)
                (lift_res (unmarshal payload : res AwardStockConsumeMessage)) in
  Usecase_UpdateStrategyAwardStock (ac_StrategyID msg) (ac_AwardID msg).
End Jobs.

(** What asynq does with the result of a task: done, archived, or retried later.  The
    labels are those of the metrics. *)
Definition asynqTaskResult (err : gerr) : string :=
  if errors_is is_skip_retry err then "skip_retry" else "error".

(** ** The listeners *)

(** What [encoding/json] leaves in an [interface{}], as far as a type switch looks. *)
Inductive any :=
| AnyFloat64 (v : float64)
| AnyInt64 (v : Z)
| AnyOther (type_name text : string).

(** [Handle(ctx, body) (retry bool, err error)] *)
Notation reply := (bool * option gerr)%type (only parsing).

Section Listeners.
Context {S : Type} `{ActivityRepo S} `{EnvOps S} `{Codec any} `{Codec (BaseEvent any)}
  `{Codec (BaseEvent RebateMessage)} `{Codec CreatePartakeOrder}.

Definition ActivityStockListener_Handle (body : string) : M S reply :=
  match (unmarshal body : res (BaseEvent any)) with
  | Panic p => panic p
  | Fail err => ret (false, Some (EWrap "unmarshal failed: " err))
  | Ret req =>
      let sku :=
        match ev_Data req with
        | AnyFloat64 v => inl (float_to_int v)
        | AnyInt64 v => inl v
        | AnyOther ty _ => inr ty
        end in
      match sku with
      | inr ty => ret (false, Some (ENew ("invalid data type for sku: " ++ ty)))
      | inl sku =>
          let! cleared := attempt (Usecase_ClearActivitySkuStock sku) in
          match cleared with
          | inr err => ret (true, Some err)
          | inl _ =>
              let! emptied := attempt Usecase_ClearQueueValue in
              match emptied with
              | inr err => ret (true, Some err)
              | inl _ => ret (false, None)
              end
          end
      end
  end.

Definition AwardSendListener_Handle (body : string) : M S reply := ret (false, None).

Definition RebateListener_Handle (body : string) : M S reply :=
  match (unmarshal body : res (BaseEvent RebateMessage)) with
  | Panic p => panic p
  | Fail err => ret (false, Some (EWrap "unmarshal failed: " err))
  | Ret event =>
      let rebateMsg := ev_Data event in
      if String.eqb (rm_RebateType rebateMsg) RebateTypeSku then
        match ParseInt (rm_RebateConfig rebateMsg) with
        | Ret sku =>
            let skuRecharge := mkSkuRecharge (rm_UserID rebateMsg) sku (rm_BizID rebateMsg) in
            let! created := attempt (CreateRaffleActivityOrder skuRecharge) in
            match created with
            | inl orderID => ret (false, None)
            | inr err =>
                if errors_is (same_kratos ErrDBIndexDuplicate) err then ret (false, None)
                else ret (true, Some err)
            end
        | _ => ret (false, None)
        end
      else if String.eqb (rm_RebateType rebateMsg) RebateTypeIntegral then ret (false, None)
      else ret (false, None)
  end.

Definition SaveOrderListener_Handle (body : string) : M S reply :=
  match (unmarshal body : res (BaseEvent any)) with
  | Panic p => panic p
  | Fail err => ret (false, Some (EWrap "unmarshal failed: " err))
  | Ret req =>
      match marshal (Some (ev_Data req)) with
      | Panic p => panic p
      | Fail err => ret (false, Some (EWrap "marshal data failed: " err))
      | Ret dataBytes =>
          match (unmarshal dataBytes : res CreatePartakeOrder) with
          | Panic p => panic p
          | Fail err => ret (false, Some (EWrap "unmarshal aggregate failed: " err))
          | Ret aggregate =>
              let! saved := attempt (SaveOrderRecord aggregate) in
              match saved with
              | inr err => ret (true, Some err)
              | inl _ => ret (false, None)
              end
          end
      end
  end.
End Listeners.

(** ** The RabbitMQ server *)

(** What happens to a delivery: [Ack], [Nack] with requeue, [Reject] without. *)
Inductive verdict := Acked | Requeued | Rejected.

Section Server.
Context {S : Type}.

(** The body of the loop of [handle], with its [recover]; a listener returns its error in
    the pair, so the [Fail] of the model does not occur. *)
Definition handle_delivery (Handle : string -> M S reply) (body : string) : M S verdict := fun s =>
  match Handle body s with
  | (Ret (retry, Some _), s') => (Ret (if (retry : bool) then Requeued else Rejected), s')
  | (Ret (_, None), s') => (Ret Acked, s')
  | (Panic _, s') => (Ret Requeued, s')
  | (Fail err, s') => (Fail err, s')
  end.

Fixpoint handle (Handle : string -> M S reply) (msgs : list string) : M S (list verdict) :=
  match msgs with
  | [] => ret []
  | body :: msgs' =>
      let! v := handle_delivery Handle body in
      let! vs := handle Handle msgs' in
      ret (v :: vs)
  end.

(** [RegisterListener]: one listener per topic. *)
Definition RegisterListener {L} (topic : string) (l : L) (listeners : gmap string L) : gmap string L :=
  <[topic := l]> listeners.
End Server.

Section Topics.
Context {S : Type} `{ActivityRepo S} `{EnvOps S} `{Codec any} `{Codec (BaseEvent any)}
  `{Codec (BaseEvent RebateMessage)} `{Codec CreatePartakeOrder}.

(** The listeners [NewRabbitMQServer] registers. *)
Definition NewRabbitMQServer_listeners : gmap string (string -> M S reply) :=
  RegisterListener SaveOrderRecordTopic SaveOrderListener_Handle
    (RegisterListener ActivityAwardSendTopic RebateListener_Handle
      (RegisterListener ActivitySkuStockZeroTopic ActivityStockListener_Handle ∅)).

(** Nothing listens on the topic of [configs/config.yaml] that rebates are published on. *)
Example rebate_topic_unheard : NewRabbitMQServer_listeners !! "send_rebate"%string = None.
Proof. reflexivity. Qed.
End Topics.

(** The queues [NewAsynqServer] consumes, with their priorities. *)
Definition NewAsynqServer_queues : gmap string Z :=
  <["low"%string := 1]> (<["default"%string := 3]> {[TaskTypeActivitySkuStockConsume := 6]}).

(** The debits of both stocks are enqueued where the server does not look. *)
Example stock_debits_unserved :
  NewAsynqServer_queues !! QueueNameSkuStock = None /\ NewAsynqServer_queues !! "critical"%string = None.
Proof. split; vm_compute; reflexivity. Qed.

(** ** Deliveries to the real repository *)
Section ConsumerFacts.
Context {R D E : Type} `{RedisLaws R} `{SqlLaws D} `{EnvLaws E} `{LocalCacheOps E} `{PublisherMem E}.
Context `{Codec Activity} `{Codec ActivityAccount} `{Codec UserRaffleOrder} `{Codec ActivitySku}
  `{Codec ActivityCount} `{Codec ActivityResult} `{Codec ActivitySkuStockKey}
  `{Codec SaveOrderTaskMessage} `{EventCodec CreatePartakeOrder} `{EventCodec Z}.
Context `{Codec any} `{Codec (BaseEvent any)} `{Codec (BaseEvent RebateMessage)}.
Notation World := (W R D E).
Variable r : Repository.
Variable fuel : nat.
#[local] Instance consumer_repository : ActivityRepo World := NewActivityRepository r fuel.

(** C40. No message that a sku is sold out is ever acknowledged: whatever its body and
    whatever the state, the server requeues the delivery -- after setting the stock to
    zero once more -- or rejects it, because clearing the stock reports an error even
    when the update succeeded. *)
Theorem stock_zero_never_acknowledged (body : string) (w w' : World) v
    (Hrun : handle_delivery ActivityStockListener_Handle body w = (Ret v, w')) :
  v <> Acked.
Proof.
  revert Hrun. unfold handle_delivery, ActivityStockListener_Handle.
  destruct (unmarshal body) as [req|e|p]; [|by intros [= <- _]..].
  assert (Hclear : forall sku (w0 : World) u, (Usecase_ClearActivitySkuStock sku w0).1 <> Ret u).
  { intros sku w0 u. unfold Usecase_ClearActivitySkuStock.
    cbn [Activity.ClearActivitySkuStock consumer_repository NewActivityRepository].
    unfold QuotaData.ClearActivitySkuStock, bind, attempt, fail. by destruct (in_sql _ w0) as [[n|e|p] w1]. }
  assert (Hv : forall sku, (match (let! cleared := attempt (Usecase_ClearActivitySkuStock sku) in
      match cleared with
      | inr err => ret (true, Some err)
      | inl _ =>
          let! emptied := attempt Usecase_ClearQueueValue in
          match emptied with inr err => ret (true, Some err) | inl _ => ret (false, None) end
      end) w with
    | (Ret (retry, Some _), s') => (Ret (if (retry : bool) then Requeued else Rejected), s')
    | (Ret (_, None), s') => (Ret Acked, s')
    | (Panic _, s') => (Ret Requeued, s')
    | (Fail err, s') => (Fail err, s')
    end) = (Ret v, w') -> v <> Acked).
  { intros sku. specialize (Hclear sku w). unfold bind, attempt.
    destruct (Usecase_ClearActivitySkuStock sku w) as [[u|e|p] w1]; [by destruct (Hclear u)|..];
      cbn [ret]; by intros [= <- _]. }
  destruct (ev_Data req) as [x|z|ty text]; [apply Hv|apply Hv|]. by intros [= <- _].
Qed.

(** An order of the user with the business number is there. *)
Definition order_recorded (db : dbh) (tableSuffix userID outBusinessNo : string) (w : World) : Prop :=
  exists p : RaffleActivityOrderPO, In p (rows w db (Traffle_activity_order tableSuffix)) /\
    rop_UserID p = userID /\ rop_OutBusinessNo p = outBusinessNo.

Lemma SaveOrder_conflict q db tableSuffix (w : World) :
  DBStrategy (rp_routerDB r) (qo_UserID q) = Ret (Some db, tableSuffix) ->
  ao_State (qo_ActivityOrder q) <> EmptyString ->
  existsb (sq_conflict (Traffle_activity_order tableSuffix) (quota_order_po (qo_ActivityOrder q)))
    (rows w db (Traffle_activity_order tableSuffix)) = true ->
  wp (QuotaData.SaveOrder r q) (fun rr w' => rows w' = rows w /\ exists e, rr = Fail e) w.
Proof.
  intros Hroute Hst Hc. unfold QuotaData.SaveOrder, DBStrategy_. rewrite Hroute. apply wp_lift. cbn [then_ fst snd].
  apply wp_transaction; [|intros w2 e S2 R2 _; by eauto].
  intros w0 R0 S0. unfold recharge_tx. apply wp_bind. eapply wp_mono; [by apply create_unique_spec|].
  intros x w1 [S1 Hx]. destruct x as [u|e|p]; cbn [then_]; [|intros w2 S2 R2; by eauto|done].
  destruct Hx as [Hc' _]. rewrite R0 in Hc'. exfalso. clear -Hc Hc'. congruence.
Qed.

Lemma reads_order_queries :
  (forall sku, reads (D := D) (QuotaData.QueryActivitySku (R := R) (E := E) r fuel sku)) /\
  (forall activityID, reads (D := D) (QuotaData.QueryRaffleActivityByActivityId (R := R) (E := E) r fuel activityID)) /\
  (forall countID, reads (D := D) (QuotaData.QueryRaffleActivityCountByActivityCountId (R := R) (E := E) r fuel countID)).
Proof.
  split_and!; intros; unfold QuotaData.QueryActivitySku, QuotaData.QueryRaffleActivityByActivityId,
    QuotaData.QueryRaffleActivityCountByActivityCountId; solve_queries.
Qed.

Lemma wp_reads {A} (m : M World A) Q (w : World) :
  reads m -> (forall x w', rows w' = rows w -> Q x w') -> wp m Q w.
Proof. intros Hm HQ. unfold wp. apply HQ. by rewrite Hm. Qed.

(** A repeated recharge fails and changes no table. *)
Lemma CreateRaffleActivityOrder_again skuRecharge db tableSuffix (w : World) :
  DBStrategy (rp_routerDB r) (rc_UserID skuRecharge) = Ret (Some db, tableSuffix) ->
  (forall p p' : RaffleActivityOrderPO, rop_UserID p = rop_UserID p' -> rop_OutBusinessNo p = rop_OutBusinessNo p' ->
     sq_conflict (Traffle_activity_order tableSuffix) p p' = true) ->
  order_recorded db tableSuffix (rc_UserID skuRecharge) (rc_OutBusinessNo skuRecharge) w ->
  wp (CreateRaffleActivityOrder skuRecharge) (fun rr w' => rows w' = rows w /\ forall id, rr <> Ret id) w.
Proof.
  intros Hroute Huniq (p & Hin & Hu & Hn). unfold CreateRaffleActivityOrder.
  destruct (String.eqb (rc_UserID skuRecharge) "" || String.eqb (rc_OutBusinessNo skuRecharge) ""); [done|].
  destruct reads_order_queries as (Hq1 & Hq2 & Hq3).
  apply wp_bind, wp_reads; [apply Hq1|]. intros [sku|e|q] w1 R1; cbn [then_]; [|done..].
  apply wp_deref; [|done]. intros activitySku _.
  apply wp_bind, wp_reads; [apply Hq2|]. intros [act|e|q] w2 R2; cbn [then_]; [|split; [congruence|done]..].
  apply wp_bind, wp_reads; [apply Hq3|]. intros [cnt|e|q] w3 R3; cbn [then_]; [|split; [congruence|done]..].
  apply wp_deref; [|intros _; split; [congruence|done] ]. intros activity _.
  apply wp_deref; [|intros _; split; [congruence|done] ]. intros activityCount _.
  assert (Hrows : rows w3 = rows w) by congruence.
  unfold buildOrderAggregate, newOrderID. apply wp_bind, wp_bind, wp_bind.
  apply wp_env. intros x w4 _ D4. destruct x as [t|e|q]; cbn [then_];
    [|by (split; [unfold rows in *; rewrite D4|])..].
  apply wp_bind, wp_env. intros x w5 _ D5. destruct x as [n|e|q]; cbn [then_];
    [|by (split; [unfold rows in *; rewrite D5, D4|])..].
  apply wp_ret. cbn [then_]. apply wp_bind, wp_env. intros x w6 _ D6. destruct x as [orderTime|e|q]; cbn [then_];
    [|by (split; [unfold rows in *; rewrite D6, D5, D4|])..].
  apply wp_ret. cbn [then_]. assert (R6 : rows w6 = rows w) by (unfold rows in *; by rewrite D6, D5, D4).
  apply wp_bind. eapply wp_mono; [eapply SaveOrder_conflict; [exact Hroute|done|]|].
  - rewrite R6. apply existsb_exists. exists p. split; [done|]. by apply Huniq.
  - intros x w7 [R7 [e ->] ]. cbn [then_]. by rewrite R7.
Qed.

(** C39. A rebate is paid once however often its message is delivered: when the recharge of
    a message is on record, each of any number of deliveries of it changes no table, and
    each is acknowledged or requeued, never rejected and never an end of the consumer. *)
Theorem rebate_redelivery (body : string) (event : BaseEvent RebateMessage) (n : nat)
    (db tableSuffix : string) (w : World)
    (Hbody : unmarshal body = Ret event)
    (Hroute : DBStrategy (rp_routerDB r) (rm_UserID (ev_Data event)) = Ret (Some db, tableSuffix))
    (Huniq : forall p p' : RaffleActivityOrderPO, rop_UserID p = rop_UserID p' ->
       rop_OutBusinessNo p = rop_OutBusinessNo p' -> sq_conflict (Traffle_activity_order tableSuffix) p p' = true)
    (Hpaid : order_recorded db tableSuffix (rm_UserID (ev_Data event)) (rm_BizID (ev_Data event)) w) :
  exists verdicts w', handle RebateListener_Handle (repeat body n) w = (Ret verdicts, w') /\
    rows w' = rows w /\ length verdicts = n /\ Forall (fun v => v = Acked \/ v = Requeued) verdicts.
Proof.
  assert (Hone : forall w0 : World, rows w0 = rows w -> exists v w1,
    handle_delivery RebateListener_Handle body w0 = (Ret v, w1) /\ rows w1 = rows w /\ (v = Acked \/ v = Requeued)).
  { intros w0 R0. unfold handle_delivery, RebateListener_Handle. rewrite Hbody.
    destruct (String.eqb (rm_RebateType (ev_Data event)) RebateTypeSku).
    2: { destruct (String.eqb (rm_RebateType (ev_Data event)) RebateTypeIntegral); exists Acked, w0; auto. }
    destruct (ParseInt (rm_RebateConfig (ev_Data event))) as [sku|e|p]; [|exists Acked, w0; auto..].
    unfold bind, attempt.
    pose proof (CreateRaffleActivityOrder_again (mkSkuRecharge (rm_UserID (ev_Data event)) sku (rm_BizID (ev_Data event)))
      db tableSuffix w0 Hroute Huniq) as Hw.
    unfold wp in Hw. unfold order_recorded in Hw. rewrite R0 in Hw. specialize (Hw Hpaid).
    destruct (CreateRaffleActivityOrder _ w0) as [[id|e|p] w1]; cbn [fst snd] in Hw; destruct Hw as [R1 Hno].
    - by destruct (Hno id).
    - destruct (errors_is (same_kratos ErrDBIndexDuplicate) e); cbn [ret]; eauto 10.
    - eauto 10. }
  assert (Hmany : forall w0 : World, rows w0 = rows w -> exists verdicts w',
    handle RebateListener_Handle (repeat body n) w0 = (Ret verdicts, w') /\
    rows w' = rows w /\ length verdicts = n /\ Forall (fun v => v = Acked \/ v = Requeued) verdicts).
  { induction n as [|m IH]; intros w0 R0; cbn [repeat handle].
    { exists [], w0. by repeat split. }
    destruct (Hone w0 R0) as (v & w1 & E1 & R1 & Hv). destruct (IH w1 R1) as (vs & w2 & E2 & R2 & Hl & Hvs).
    exists (v :: vs), w2. rewrite (bind_eq _ _ _ _ _ E1), (bind_eq _ _ _ _ _ E2).
    split_and!; [done|done|cbn [length]; by rewrite Hl|by constructor]. }
  by apply Hmany.
Qed.
End ConsumerFacts.

(** ** Witnesses: one rebate message, delivered four times *)
#[local] Existing Instances demo_c1 demo_c2 demo_c3 demo_c4 demo_c5 demo_c6 demo_c7 demo_c8 demo_e1 demo_e2 demo_pm
  demo_recharge_sql demo_recharge_laws.
#[local] Instance demo_any : Codec any :=
  one_value_codec (AnyFloat64 (float_of_Z 9)) (AnyOther "<nil>" "null").
#[local] Instance demo_any_event : Codec (BaseEvent any) :=
  one_value_codec (mkBaseEvent "e" 0 (AnyFloat64 (float_of_Z 9))) (mkBaseEvent "" 0 (AnyOther "<nil>" "null")).
Definition demo_rebate_event_value : BaseEvent RebateMessage :=
  mkBaseEvent "e" 0 (mkRebateMessage "u" "a draw" "sku" "9" "u_sku_20250101").
#[local] Instance demo_rebate_codec : Codec (BaseEvent RebateMessage) :=
  one_value_codec demo_rebate_event_value (mkBaseEvent "" 0 (mkRebateMessage "" "" "" "" "")).

Definition demo_consumer_rows : MemSql := fun _ t =>
  match t return list (row t) with
  | Traffle_activity => [mkRaffleActivityPO 1 100 "a" "d" 0 1000 7 "open" zero_time zero_time]
  | Traffle_activity_sku => [mkRaffleActivitySkuPO 1 9 100 1 5 5 zero_time zero_time]
  | Traffle_activity_count => [mkRaffleActivityCountPO 1 1 3 3 3 zero_time zero_time]
  | Traffle_activity_sku_stock => [mkSkuStockRow 9 5]
  | _ => []
  end.
Definition demo_consumer_world : MemWorld := mem_world ∅ demo_consumer_rows 0 [].
#[local] Instance demo_consumer : ActivityRepo MemWorld := NewActivityRepository demo_recharge_repository 2.

Definition demo_stock_zero : res verdict * MemWorld :=
  handle_delivery ActivityStockListener_Handle "x" demo_consumer_world.
Definition demo_paid : res verdict * MemWorld :=
  handle_delivery RebateListener_Handle "x" demo_consumer_world.

(** The stock is cleared, and the message stays in the queue. *)
Lemma stock_zero_never_acknowledged_witness :
  demo_stock_zero.1 = Ret Requeued /\
  map ssr_StockCountSurplus (w_sql demo_stock_zero.2 "db"%string Traffle_activity_sku_stock) = [0] /\
  Requeued <> Acked.
Proof.
  split; [vm_compute; reflexivity|]. split; [vm_compute; reflexivity|].
  refine (stock_zero_never_acknowledged demo_recharge_repository 2 "x" demo_consumer_world demo_stock_zero.2 Requeued _).
  apply injective_projections; [vm_compute; reflexivity|reflexivity].
Defined.

(** MySQL reports the duplicate with its own error, so the listener keeps asking for
    another delivery. *)
Lemma rebate_redelivery_witness :
  demo_paid.1 = Ret Acked /\
  (handle RebateListener_Handle (repeat "x"%string 3) demo_paid.2).1 = Ret [Requeued; Requeued; Requeued] /\
  map aap_TotalCountSurplus (w_sql demo_paid.2 "db1"%string Traffle_activity_account) = [3] /\
  exists verdicts w', handle RebateListener_Handle (repeat "x"%string 3) demo_paid.2 = (Ret verdicts, w') /\
    rows w' = rows demo_paid.2 /\ length verdicts = 3%nat /\ Forall (fun v => v = Acked \/ v = Requeued) verdicts.
Proof.
  split; [vm_compute; reflexivity|]. split; [vm_compute; reflexivity|]. split; [vm_compute; reflexivity|].
  refine (rebate_redelivery demo_recharge_repository 2 "x" demo_rebate_event_value 3 "db1" "000" demo_paid.2
    eq_refl _ _ _).
  - vm_compute. reflexivity.
  - intros p p' E1 E2. cbn. by rewrite E1, E2, !String.eqb_refl.
  - eexists. split; [vm_compute; left; reflexivity|]. split; reflexivity.
Defined.
