(* ===== verification/OutboxSafety.v ===== *)
(** * OutboxSafety: a task is completed only after it was served

    The job of [internal/job/send_award_message.go] marks a task [completed]; this file
    shows that it only does so for tasks it has served in the same run -- the message is
    among those the broker accepted, or the order it names is completed in the ledger --
    whatever fails and in whatever order the goroutines take their turns. *)
From Stdlib Require Import ZArith Lia List Ascii String Permutation.
From stdpp Require Import base gmap strings list numbers.
From S2P Require Import Prelude GoLib Model Po Env Logic Mem Keys Router Cache Event Quota Activity PartakeData.
From S2P Require Import Frames PartakeLedger ActivityWiring Tasks Outbox.
Open Scope Z_scope.

(** ** What the broker accepted *)
Class PublishLog (E : Type) `{EnvOps E} `{PublisherMem E} := {
  publish_log : E -> list (string * string);
  log_now : forall e, publish_log (ev_now e).2 = publish_log e;
  log_exchange : forall t e, publish_log (ev_exchange_declare t e).2 = publish_log e;
  log_declare : forall t e, publish_log (declare t e) = publish_log e;
  log_publish : forall t b e, publish_log e `prefix_of` publish_log (ev_amqp_publish t b e).2;
  log_accepts : forall t b e u e', ev_amqp_publish t b e = (Ret u, e') -> In (t, b) (publish_log e') }.

Section Logs.
Context {R D E : Type} `{SqlLaws D} `{PublishLog E}.
Notation World := (W R D E).

(** [m] forgets nothing the broker accepted. *)
Definition logs {A} (m : M World A) : Prop :=
  forall w, publish_log (w_env w) `prefix_of` publish_log (w_env (m w).2).

Lemma logs_ret {A} (a : A) : logs (ret a).
Proof. intros w. reflexivity. Qed.
Lemma logs_fail {A} e : logs (A := A) (fail e).
Proof. intros w. reflexivity. Qed.
Lemma logs_lift {A} (x : res A) : logs (lift_res x).
Proof. intros w. reflexivity. Qed.
Lemma logs_deref {A} (o : option A) : logs (deref o).
Proof. intros w. destruct o; reflexivity. Qed.
Lemma logs_bind {A B} (m : M World A) (k : A -> M World B) : logs m -> (forall a, logs (k a)) -> logs (bind m k).
Proof.
  intros Hm Hk w. unfold bind. specialize (Hm w). destruct (m w) as [ [a|e|p] w1]; cbn [snd] in *; [|exact Hm..].
  etrans; [exact Hm|apply Hk].
Qed.
Lemma logs_attempt {A} (m : M World A) : logs m -> logs (attempt m).
Proof. intros Hm w. specialize (Hm w). unfold attempt. by destruct (m w) as [ [] w1]. Qed.
Lemma logs_with_err {A} f (m : M World A) : logs m -> logs (with_err f m).
Proof. intros Hm w. specialize (Hm w). unfold with_err. by destruct (m w) as [ [] w1]. Qed.
Lemma logs_sql {A} (m : M D A) : logs (in_sql m).
Proof. intros [ [r e] d]. unfold in_sql. destruct (m d). reflexivity. Qed.
Lemma logs_env {A} (m : M E A) : (forall e, publish_log e `prefix_of` publish_log (m e).2) -> logs (in_env m).
Proof. intros Hm [ [r e] d]. unfold in_env. specialize (Hm e). by destruct (m e). Qed.
Lemma logs_clock : logs (in_env ev_now).
Proof. apply logs_env. intros e. by rewrite log_now. Qed.

Lemma logs_transaction {A} db (m : M World A) : logs m -> logs (sq_transaction (X := R * E) db m).
Proof.
  intros Hm w. change (wp (sq_transaction (X := R * E) db m) (fun _ w' => publish_log (w_env w) `prefix_of` publish_log (w_env w')) w).
  apply wp_transaction.
  - intros w0 R0 S0. unfold wp. specialize (Hm w0). unfold w_env in *. rewrite S0 in Hm.
    destruct (m w0) as [ [a|e|p] w1]; cbn [fst snd] in *; [split|..]; intros; unfold same_rest in *; congruence.
  - intros w2 e S2 _ _. unfold w_env. by rewrite S2.
Qed.
End Logs.

Create HintDb logs.
#[export] Hint Resolve logs_ret logs_fail logs_lift logs_deref logs_sql logs_clock : logs.

(** Follow the shape of a computation. *)
Ltac solve_logs :=
  repeat (cbv zeta;
    match goal with
    | |- logs (bind _ _) => apply logs_bind; [|intros]
    | |- logs (attempt _) => apply logs_attempt
    | |- logs (with_err _ _) => apply logs_with_err
    | |- logs (sq_transaction _ _) => apply logs_transaction
    | |- logs (match ?x with _ => _ end) => destruct x
    | |- logs _ => solve [eauto 4 with logs]
    end).

(** ** What the job is promised of the orders

    Saving an order again and again is the activity's business; the job relies on this. *)
Class OrderRecorder (R D E : Type) `{SqlLaws D} `{PublishLog E} `{ActivityRepo (W R D E)} := {
  order_recorded : CreatePartakeOrder -> (dbh -> forall t, list (row t)) -> Prop;
  save_logs : forall a, logs (SaveOrderRecord (S := W R D E) a);
  save_keeps_tasks : forall a (w : W R D E) db, rows (SaveOrderRecord (S := W R D E) a w).2 db Ttask = rows w db Ttask;
  save_keeps_orders : forall a b (w : W R D E), order_recorded b (rows w) ->
    order_recorded b (rows (SaveOrderRecord (S := W R D E) a w).2);
  save_records : forall a (w : W R D E) u w', SaveOrderRecord (S := W R D E) a w = (Ret u, w') -> order_recorded a (rows w');
  recorded_elsewhere : forall a f f', (forall db t, t <> Ttask -> f' db t = f db t) ->
    order_recorded a f -> order_recorded a f' }.

(** The ledger keeps the promise. *)
Section Ledger.
Context {R D E : Type} `{RedisLaws R} `{SqlLaws D} `{EnvLaws E} `{LocalCacheOps E} `{PublisherMem E} `{!PublishLog E}.
Context `{Codec Activity} `{Codec ActivityAccount} `{Codec UserRaffleOrder} `{Codec ActivitySku}
  `{Codec ActivityCount} `{Codec ActivityResult} `{Codec ActivitySkuStockKey} `{Codec SaveOrderTaskMessage}
  `{EventCodec CreatePartakeOrder} `{EventCodec Z}.
Notation World := (W R D E).
Variables (r : Repository) (fuel : nat).
#[local] Instance ledger_activities : ActivityRepo World := NewActivityRepository r fuel.

(** The order is completed in the ledger of its user's shard. *)
Definition ledger_recorded (a : CreatePartakeOrder) (f : dbh -> forall t, list (row t)) : Prop :=
  exists order db tableSuffix, po_UserRaffleOrder a = Some order /\
    DBStrategy (rp_routerDB r) (po_UserID a) = Ret (Some db, tableSuffix) /\
    completed db tableSuffix (po_UserID a) (uo_OrderID order) f.

(** A run touches no ledger, or moves that of its user. *)
Lemma save_cases (a : CreatePartakeOrder) (w : World) rr w' : SaveOrderRecord a w = (rr, w') ->
  (rows w' = rows w /\ (forall u, rr = Ret u -> ledger_recorded a (rows w))) \/
  exists order db tableSuffix, po_UserRaffleOrder a = Some order /\ uo_OrderID order <> EmptyString /\
    DBStrategy (rp_routerDB r) (po_UserID a) = Ret (Some db, tableSuffix) /\
    ledger_moved db tableSuffix (po_UserID a) (uo_OrderID order) (rows w) (rows w').
Proof.
  unfold SaveOrderRecord. cbn [Activity.SaveCreatePartakeOrderAggregate ledger_activities NewActivityRepository].
  intros Hrun. destruct (po_UserRaffleOrder a) as [order|] eqn:Ho.
  2: { left. unfold SaveCreatePartakeOrderAggregate in Hrun. rewrite Ho in Hrun. by injection Hrun as <- <-. }
  destruct (String.eqb_spec (uo_OrderID order) "") as [Hid|Hid].
  { left. unfold SaveCreatePartakeOrderAggregate in Hrun. rewrite Ho, Hid in Hrun. by injection Hrun as <- <-. }
  destruct (DBStrategy (rp_routerDB r) (po_UserID a)) as [ [ [db|] tableSuffix]|e|p] eqn:Er.
  2-4: left; unfold SaveCreatePartakeOrderAggregate in Hrun; rewrite Ho in Hrun; apply String.eqb_neq in Hid;
    rewrite Hid in Hrun; unfold DBStrategy_, bind, lift_res in Hrun; rewrite Er in Hrun; by injection Hrun as <- <-.
  destruct (SaveCreate_run r a order db tableSuffix w rr w' Ho Hid Er Hrun) as [_ Hc].
  destruct rr as [u|e|p]; [|destruct Hc as [Hc|Hc]|done].
  - destruct Hc as [ [Hc Hd]|Hc]; [left; split; [done|intros _ _; by exists order, db, tableSuffix]|].
    right. by exists order, db, tableSuffix.
  - left. by split.
  - right. by exists order, db, tableSuffix.
Qed.

(** A completed order stays completed when a ledger moves. *)
Lemma moved_keeps_completed db tableSuffix u o db' tableSuffix' u' o' f f' :
  ledger_moved (E := E) db tableSuffix u o f f' -> completed db' tableSuffix' u' o' f -> completed db' tableSuffix' u' o' f'.
Proof.
  intros (order & acc & t & _ & _ & _ & _ & _ & _ & _ & _ & _ & Hu & Hoth) (x & Hf & Hc).
  destruct (decide (db' = db /\ tableSuffix' = tableSuffix)) as [ [-> ->]|N].
  2: { exists x. split; [|done]. rewrite Hoth by congruence || naive_solver. exact Hf. }
  destruct (updated_find (t := Tuser_raffle_order tableSuffix) _ (is_order u' o') _ _ _ x Hu) as (x' & Hf' & Hp).
  - intros [] []; cbn; unfold is_order; simpl. intros [= -> -> -> -> -> -> _ -> ->]. done.
  - done.
  - exact Hf.
  - exists x'. split; [exact Hf'|]. destruct (is_order u o x); [exact (f_equal uop_AccountSyncState Hp)|by subst].
Qed.

Lemma save_keeps_recorded a b (w : World) rr w' :
  SaveOrderRecord a w = (rr, w') -> ledger_recorded b (rows w) -> ledger_recorded b (rows w').
Proof.
  intros E1 (order & db & sx & Ho & Hr & Hc). exists order, db, sx. split_and!; [done..|].
  apply save_cases in E1 as [ [-> _]|(? & ? & ? & _ & _ & _ & Hm)]; [done|]. by eapply moved_keeps_completed.
Qed.

Lemma logs_ledger_tx db tableSuffix u o : logs (ledger_tx (R := R) (D := D) (E := E) db tableSuffix u o).
Proof. unfold ledger_tx, first_or_record_not_found, debit_month_account, debit_day_account, now. solve_logs. Qed.

#[local] Instance ledger_recorder : OrderRecorder R D E.
Proof.
  refine {| order_recorded := ledger_recorded |}.
  - intros a. unfold SaveOrderRecord. cbn [Activity.SaveCreatePartakeOrderAggregate ledger_activities NewActivityRepository].
    unfold SaveCreatePartakeOrderAggregate, DBStrategy_. pose proof logs_ledger_tx. solve_logs.
  - intros a w db. destruct (SaveOrderRecord a w) as [rr w'] eqn:E1. cbn [snd].
    apply save_cases in E1 as [ [-> _]|(order & db' & sx & _ & _ & _ & Hm)]; [done|].
    destruct Hm as (o & acc & t & _ & _ & _ & _ & _ & _ & _ & _ & _ & _ & Hoth). by apply Hoth.
  - intros a b w. destruct (SaveOrderRecord a w) as [rr w'] eqn:E1. by apply (save_keeps_recorded a b w rr w').
  - intros a w u w' E1. apply save_cases in E1 as [ [-> Hd]|(order & db & sx & Ho & _ & Hr & Hm)]; [by eapply Hd|].
    exists order, db, sx. split_and!; [done..|]. by eapply ledger_moved_completed.
  - intros a f f' Hf (order & db & sx & Ho & Hr & x & Hx & Hc). exists order, db, sx. split_and!; [done..|].
    exists x. split; [|done]. by rewrite Hf.
Defined.
End Ledger.

(** ** The job *)
Section Safety.
Context {R D E J : Type} `{SqlLaws D} `{EnvLaws E} `{PublisherMem E} `{!PublishLog E} `{EventCodec J} `{CodecLaws J} `{JsonString J}
  `{Codec SaveOrderTaskMessage}.
Notation World := (W R D E).
Context `{ActivityRepo World} `{!OrderRecorder R D E}.
Variable r : TaskRepository.
#[local] Instance safety_tasks : TaskRepo World J := NewTaskRepository r.

(** What [SendMessage] puts in the event: the message as JSON, or as a string. *)
Definition message_data (message : string) : J :=
  match unmarshal message with Ret data => data | _ => json_string message end.

(** The broker accepted the task's message, or its order is recorded. *)
Definition task_served (t : Task) (w : World) : Prop :=
  (tk_Topic t = SendAwardTopic /\ exists timestamp body,
     marshal_event (mkBaseEvent (tk_MessageID t) timestamp (message_data (tk_Message t))) = Ret body /\
     In (SendAwardTopic, body) (publish_log (w_env w))) \/
  (tk_Topic t = SaveOrderRecordTopic /\ exists message, unmarshal (tk_Message t) = Ret message /\
     order_recorded (ToCreatePartakeOrder message) (rows w)).

(** Nothing that was served is undone. *)
Definition later (w w' : World) : Prop :=
  publish_log (w_env w) `prefix_of` publish_log (w_env w') /\
  forall a, order_recorded a (rows w) -> order_recorded a (rows w').

#[local] Instance later_preorder : PreOrder later.
Proof.
  split; [intros w; split; [reflexivity|done]|]. intros w1 w2 w3 [P1 R1] [P2 R2]. split; [by etrans|auto].
Qed.

Lemma served_later t w w' : later w w' -> task_served t w -> task_served t w'.
Proof.
  intros [Hp Hr] [(Ht & ts & body & Hb & Hin)|(Ht & message & Hm & Hrec)]; [left|right].
  - split; [done|]. exists ts, body. split; [done|]. destruct Hp as [k ->]. apply in_or_app. by left.
  - split; [done|]. exists message. auto.
Qed.

(** The tables of tasks are as they were. *)
Definition same_tasks (w w' : World) : Prop := forall db, rows w' db Ttask = rows w db Ttask.

(** Publishing: the tables stay, and an answer means the broker has the message. *)
Lemma publish_serves t timestamp (w : World) :
  wp (SendMessage_ (S := World) (tk_Topic t) (mkBaseEvent (tk_MessageID t) timestamp (message_data (tk_Message t))))
    (fun rr w' => rows w' = rows w /\ later w w' /\ forall u, rr = Ret u -> exists body,
       marshal_event (mkBaseEvent (tk_MessageID t) timestamp (message_data (tk_Message t))) = Ret body /\
       In (tk_Topic t, body) (publish_log (w_env w'))) w.
Proof.
  destruct w as [ [q e] d]. unfold wp, SendMessage_, safety_tasks, NewTaskRepository, data_SendMessage, in_env, PublishTopic, Publish.
  set (event := mkBaseEvent _ _ _).
  assert (Hlater : forall e', publish_log e `prefix_of` publish_log e' -> later ((q, e), d) ((q, e'), d)) by (by split).
  unfold bind, with_err, lift_res.
  destruct (declared e (tk_Topic t)); [|pose proof (log_exchange (tk_Topic t) e) as Hx;
    destruct (ev_exchange_declare (tk_Topic t) e) as [ [u|err|p] e1]; cbn [snd] in Hx].
  all: try (split; [done|]; split; [apply Hlater; by rewrite Hx|done]).
  all: (destruct (marshal_event event) as [body|err|p] eqn:Eb; cbn [ret];
    [|split; [done|]; split; [apply Hlater; rewrite ?log_declare, ?Hx; reflexivity|done]..]).
  all: match goal with |- context [ev_amqp_publish ?a ?b ?en] =>
    pose proof (log_publish a b en) as Hp; destruct (ev_amqp_publish a b en) as [x e3] eqn:Ep end; cbn [snd] in Hp.
  all: rewrite ?log_declare, ?Hx in Hp; split; [done|]; split; [by apply Hlater|].
  all: cbn [fst snd]; intros u0 ->; exists body; split; [done|]; by eapply log_accepts.
Qed.

Lemma routing_serves t (w : World) :
  wp (routeTaskByTopic (J := J) t) (fun rr w' => same_tasks w w' /\ later w w' /\
    forall u, rr = Ret u -> task_served t w') w.
Proof.
  assert (Hstay : forall w1 : World, w_sql w1 = w_sql w -> publish_log (w_env w) = publish_log (w_env w1) ->
    same_tasks w w1 /\ later w w1).
  { intros w1 S1 L1. unfold same_tasks, later, rows. by rewrite S1, L1. }
  unfold routeTaskByTopic. destruct (String.eqb_spec (tk_Topic t) SendAwardTopic) as [Ht|_].
  { unfold SendMessage. apply wp_attempt. unfold wp at 1, lift_res. cbn [fst snd].
    assert (Hsend : wp (let! timestamp := ev_now in SendMessage_ (S := World) (tk_Topic t)
      (mkBaseEvent (tk_MessageID t) timestamp (message_data (tk_Message t)))) (fun rr w' => same_tasks w w' /\ later w w' /\
      forall u, rr = Ret u -> task_served t w') w).
    { apply wp_bind, wp_clock. intros ts w1 Et _ D1. cbn [then_].
      assert (L1 : publish_log (w_env w) = publish_log (w_env w1)) by (rewrite <- (log_now (w_env w)), Et; done).
      destruct (Hstay w1 D1 L1) as [St1 La1]. eapply wp_mono; [apply publish_serves|].
      intros rr w' (R2 & La2 & Hs). split; [intros db; rewrite R2; apply St1|]. split; [by etrans|].
      intros u ->. destruct (Hs u eq_refl) as (body & Hb & Hin). left. split; [done|]. rewrite Ht in Hin. by exists ts, body. }
    unfold message_data in Hsend. destruct (unmarshal (tk_Message t)) as [data|e|p] eqn:Eu; [exact Hsend|exact Hsend|].
    by destruct (proj2 (codec_no_panic None (tk_Message t) p) Eu). }
  destruct (String.eqb_spec (tk_Topic t) SaveOrderRecordTopic) as [Ht|_].
  2: { apply wp_fail. destruct (Hstay w eq_refl eq_refl). done. }
  apply wp_bind, wp_with_err. unfold wp at 1, lift_res. cbn [fst snd].
  destruct (unmarshal (tk_Message t)) as [message|e|p] eqn:Eu; cbn [then_]; [|destruct (Hstay w eq_refl eq_refl); done..].
  apply wp_intro. intros rr w' E1.
  pose proof (save_keeps_tasks (ToCreatePartakeOrder message) w) as Hk.
  pose proof (save_logs (ToCreatePartakeOrder message) w) as Hl.
  pose proof (fun b => save_keeps_orders (ToCreatePartakeOrder message) b w) as Ho.
  rewrite E1 in Hk, Hl, Ho. cbn [snd] in *. split; [exact Hk|]. split; [by split|]. intros u ->. right. split; [done|].
  exists message. split; [done|]. by apply save_records in E1.
Qed.

(** Marking a task changes the state of its rows, or nothing. *)
Lemma marking_safe state u m (w : World) :
  wp (update_task_state r state u m) (fun rr w' => later w w' /\ forall db,
    rows w' db Ttask = rows w db Ttask \/ exists now,
    updated (t := Ttask) (is_task u m) (set_task_state state now) (rows w db Ttask) (rows w' db Ttask)) w.
Proof.
  unfold update_task_state. destruct (DBStrategy (tr_routerDB r) u) as [ [ [db|] suffix]|e|p];
    apply wp_lift; cbn [then_ fst deref]; try (split; [reflexivity|intros; by left]).
  apply wp_bind, wp_ret. cbn [then_].
  apply wp_bind, wp_clock. intros now w1 Et _ D1. cbn [then_].
  assert (R1 : rows w1 = rows w) by (unfold rows; by rewrite D1).
  assert (La1 : later w w1).
  { split; [rewrite <- (log_now (w_env w)), Et; reflexivity|by rewrite R1]. }
  assert (Hcase : forall w2 : World, same_rest w1 w2 ->
    rows w2 = rows w1 \/ (updated (t := Ttask) (is_task u m) (set_task_state state now) (rows w1 db Ttask) (rows w2 db Ttask) /\
                          other_tables db Ttask (rows w1) (rows w2)) ->
    later w w2 /\ forall db', rows w2 db' Ttask = rows w db' Ttask \/ exists now,
      updated (t := Ttask) (is_task u m) (set_task_state state now) (rows w db' Ttask) (rows w2 db' Ttask)).
  { intros w2 S2 Hc. rewrite R1 in Hc. assert (La2 : later w1 w2).
    { split; [unfold w_env; rewrite S2; reflexivity|]. intros a. apply recorded_elsewhere. intros db' t Ht. rewrite R1.
      destruct Hc as [->|[_ Ho] ]; [done|]. apply Ho. congruence. }
    split; [by etrans|]. intros db'. destruct Hc as [->|[Hu Ho] ]; [by left|].
    destruct (decide (db' = db)) as [->|N]; [right; by exists now|left; apply Ho; congruence]. }
  apply wp_bind, wp_update_lost.
  - intros w2 n S2 U2 O2 _ _. cbn [then_]. apply wp_ret. apply Hcase; [done|by right].
  - intros w2 e S2 Hc. cbn [then_]. by apply Hcase.
Qed.

(** ** What a run keeps *)
Lemma Forall2_with_in {A B} (Q : A -> B -> Prop) l k : Forall2 Q l k -> Forall2 (fun x y => In x l /\ Q x y) l k.
Proof.
  induction 1 as [|x y l k Hxy Hlk IH]; constructor; [split; [by left|done]|].
  eapply Forall2_impl; [|exact IH]. intros a b [Ha Hb]. split; [by right|done].
Qed.
Lemma Forall2_in_r {A B} (Q : A -> B -> Prop) l k y : Forall2 Q l k -> In y k -> exists x, In x l /\ Q x y.
Proof.
  induction 1 as [|a b l k Hab Hlk IH]; intros Hin; [done|]. destruct Hin as [<-|Hin]; [exists a; split; [by left|done]|].
  destruct (IH Hin) as (x & Hx & Hq). exists x. split; [by right|done].
Qed.

Definition from_table (w0 : World) (t : Task) : Prop :=
  exists db p, In p (rows w0 db Ttask) /\ t = Task_ToEntity (select_columns p).

Definition same_task (p p' : TaskPO) : Prop :=
  tkp_UserID p' = tkp_UserID p /\ tkp_MessageID p' = tkp_MessageID p /\
  tkp_Topic p' = tkp_Topic p /\ tkp_Message p' = tkp_Message p.

(** Since [w0] a row kept its state, failed, or was completed for a task that is served. *)
Definition marked (w0 w : World) (p p' : TaskPO) : Prop :=
  same_task p p' /\
  (tkp_State p' = tkp_State p \/ tkp_State p' = "fail"%string \/
   (tkp_State p' = "completed"%string /\ exists t, from_table w0 t /\ tk_UserID t = tkp_UserID p /\
      tk_MessageID t = tkp_MessageID p /\ task_served t w)).
Definition tables_safe (w0 w : World) : Prop := forall db, Forall2 (marked w0 w) (rows w0 db Ttask) (rows w db Ttask).
Definition threads_safe (w0 : World) (pool : list (Task * phase)) (w : World) : Prop :=
  forall i t ph, pool !! i = Some (t, ph) -> from_table w0 t /\ (ph = Complete -> task_served t w).

Lemma marked_later w0 w w' p p' : later w w' -> marked w0 w p p' -> marked w0 w' p p'.
Proof.
  intros Hl [Hs Hst]. split; [done|]. destruct Hst as [?|[?|(? & t & ? & ? & ? & ?)] ]; [by left|right; by left|].
  right; right. split; [done|]. exists t. split_and!; [done..|]. by eapply served_later.
Qed.

Lemma tables_later w0 w w' : tables_safe w0 w -> same_tasks w w' -> later w w' -> tables_safe w0 w'.
Proof.
  intros Ht Hs Hl db. rewrite Hs. eapply Forall2_impl; [|exact (Ht db)]. intros p p'. by eapply marked_later.
Qed.

Lemma threads_later w0 pool w w' : later w w' -> threads_safe w0 pool w -> threads_safe w0 pool w'.
Proof. intros Hl Ht i t ph Hi. destruct (Ht i t ph Hi) as [? Hc]. split; [done|]. intros ->. by eapply served_later, Hc. Qed.

(** Thread [k] moves on. *)
Lemma threads_insert w0 pool w k t ph : threads_safe w0 pool w -> from_table w0 t ->
  (ph = Complete -> task_served t w) -> threads_safe w0 (<[k := (t, ph)]> pool) w.
Proof.
  intros Ht Hf Hc i t' ph' Hi. apply list_lookup_insert_Some in Hi as [(_ & [= <- <-] & _)|[_ Hi] ]; [done|by eapply Ht].
Qed.

Lemma marked_set w0 w u m state now p p' q :
  marked w0 w p p' ->
  (state = "fail"%string \/ state = "completed"%string /\ exists t, from_table w0 t /\ tk_UserID t = u /\
     tk_MessageID t = m /\ task_served t w) ->
  (if is_task u m p' then payload_tkp q = payload_tkp (set_task_state state now p') else q = p') ->
  marked w0 w p q.
Proof.
  intros [Hs Hst] Hstate Hq. destruct (is_task u m p') eqn:Ei; [|subst; by split].
  apply andb_true_iff in Ei as [Eu Em]. apply String.eqb_eq in Eu, Em. destruct Hs as (S1 & S2 & S3 & S4).
  pose proof (payload_tkp_fields _ _ Hq) as (Q1 & Q2 & Q3 & Q5). pose proof (f_equal tkp_Message Hq) as Q4.
  cbn [set_task_state tkp_UserID tkp_MessageID tkp_Topic tkp_Message tkp_State payload_tkp] in *.
  split; [split_and!; congruence|]. right. destruct Hstate as [->|(-> & t & Hf & Hu & Hm & Hserved)]; [by left|right].
  split; [done|]. exists t. split_and!; [done|congruence|congruence|done].
Qed.

Lemma tables_marking w0 w w' state u m :
  tables_safe w0 w -> later w w' ->
  (state = "fail"%string \/ state = "completed"%string /\ exists t, from_table w0 t /\ tk_UserID t = u /\
     tk_MessageID t = m /\ task_served t w) ->
  (forall db, rows w' db Ttask = rows w db Ttask \/ exists now,
     updated (t := Ttask) (is_task u m) (set_task_state state now) (rows w db Ttask) (rows w' db Ttask)) ->
  tables_safe w0 w'.
Proof.
  intros Ht Hl Hstate Hrows db. specialize (Ht db).
  assert (Hstate' : state = "fail"%string \/ state = "completed"%string /\ exists t, from_table w0 t /\ tk_UserID t = u /\
    tk_MessageID t = m /\ task_served t w').
  { destruct Hstate as [?|(? & t & ? & ? & ? & ?)]; [by left|right]. split; [done|]. exists t. split_and!; [done..|].
    by eapply served_later. }
  destruct (Hrows db) as [->|[now Hu] ].
  { eapply Forall2_impl; [|exact Ht]. intros p p'. by eapply marked_later. }
  revert Hu. generalize (rows w' db Ttask). induction Ht as [|p p' l l' Hp Ht IH]; intros l2 Hu; inversion Hu; subst; constructor.
  - eapply marked_set; [by eapply marked_later|exact Hstate'|done].
  - by apply IH.
Qed.

(** The state a run reaches: whatever a call answers, the tables are safe; an answer
    leaves the threads safe too. *)
Definition kept {A} (w0 : World) (threads : A -> World -> Prop) (w : World) (rr : res A) (w' : World) : Prop :=
  tables_safe w0 w' /\ later w w' /\ forall a, rr = Ret a -> threads a w'.

Lemma kept_weaken {A} w0 (th th' : A -> World -> Prop) w w1 rr w' :
  later w w1 -> (forall a v, th a v -> th' a v) -> kept w0 th w1 rr w' -> kept w0 th' w rr w'.
Proof. intros Hl Hth (? & ? & Ha). split_and!; [done|by etrans|]. intros a Hr. by apply Hth, Ha. Qed.

Lemma mark_step w0 pool k t ph' state (w : World) :
  tables_safe w0 w -> threads_safe w0 pool w -> from_table w0 t ->
  (state = "fail"%string \/ state = "completed"%string /\ task_served t w) ->
  ph' <> Complete ->
  forall rr w', update_task_state r state (tk_UserID t) (tk_MessageID t) w = (rr, w') ->
  tables_safe w0 w' /\ later w w' /\ threads_safe w0 (<[k := (t, ph')]> pool) w'.
Proof.
  intros Htab Hth Hf Hstate Hph rr w' E1.
  pose proof (wp_run _ _ _ _ _ (marking_safe state (tk_UserID t) (tk_MessageID t) w) E1) as [Hl Hrows].
  split_and!; [|done|].
  - eapply tables_marking; [done|done| |exact Hrows]. destruct Hstate as [?|[? ?] ]; [by left|right]. split; [done|]. by exists t.
  - apply threads_insert; [by eapply threads_later|done|done].
Qed.

Lemma turn_safe w0 k pool (w : World) : tables_safe w0 w -> threads_safe w0 pool w ->
  wp (turn (J := J) k pool) (kept w0 (threads_safe w0) w) w.
Proof.
  intros Htab Hth. unfold turn. destruct (pool !! k) as [ [t ph]|] eqn:Ek.
  2: { apply wp_ret. split_and!; [done|reflexivity|]. by intros a [= <-]. }
  destruct (Hth _ _ _ Ek) as [Hf Hc]. destruct ph; cbn [dispatch_step].
  - apply wp_bind, wp_attempt. eapply wp_mono; [apply routing_serves|].
    intros rr w1 (Hs & Hl & Hserved).
    assert (Htab1 : tables_safe w0 w1) by (by eapply tables_later).
    assert (Hth1 : threads_safe w0 pool w1) by (by eapply threads_later).
    destruct rr as [u|e|p]; [..|by split_and!]; apply wp_ret; cbn [then_]; apply wp_ret;
      (split_and!; [done|done|]); intros a [= <-]; apply threads_insert; try done. intros _. by eapply Hserved.
  - apply wp_bind, wp_attempt, wp_intro. intros rr w1 E1.
    destruct (mark_step w0 pool k t Finished "completed" w Htab Hth Hf
      (or_intror (conj eq_refl (Hc eq_refl))) ltac:(done) rr w1 E1) as (Htab1 & Hl1 & Hth1).
    assert (Hth2 : threads_safe w0 (<[k := (t, MarkFail)]> pool) w1)
      by (apply threads_insert; [by eapply threads_later|done|done]).
    destruct rr as [u|e|p]; [..|by split_and!]; apply wp_ret; cbn [then_]; apply wp_ret;
      (split_and!; [done|done|]); by intros a [= <-].
  - apply wp_bind, wp_attempt, wp_intro. intros rr w1 E1.
    destruct (mark_step w0 pool k t Finished "fail" w Htab Hth Hf
      (or_introl eq_refl) ltac:(done) rr w1 E1) as (Htab1 & Hl1 & Hth1).
    destruct rr as [u|e|p]; [..|by split_and!]; apply wp_ret; cbn [then_]; apply wp_ret;
      (split_and!; [done|done|]); by intros a [= <-].
  - apply wp_bind, wp_ret. cbn [then_]. apply wp_ret. split_and!; [done|reflexivity|]. intros a [= <-].
    by apply threads_insert.
Qed.

Lemma turns_safe w0 schedule : forall pool (w : World), tables_safe w0 w -> threads_safe w0 pool w ->
  wp (turns (J := J) schedule pool) (kept w0 (threads_safe w0) w) w.
Proof.
  induction schedule as [|k schedule IH]; intros pool w Htab Hth; cbn [turns].
  { apply wp_ret. split_and!; [done|reflexivity|]. by intros a [= <-]. }
  apply wp_bind. eapply wp_mono; [by apply turn_safe|]. intros rr w1 (Htab1 & Hl1 & Hth1).
  destruct rr as [pool1|e|p]; cbn [then_]; [|by split_and!..].
  eapply wp_mono; [by apply IH; [|apply Hth1]|]. intros rr w2 Hk. by eapply kept_weaken.
Qed.

(** A query reads tasks of the table. *)
Lemma query_safe w0 i (w : World) : tables_safe w0 w ->
  wp (QueryNoSendMessageTaskList (J := J) i) (kept w0 (fun tasks _ => Forall (from_table w0) tasks) w) w.
Proof.
  intros Htab. unfold QueryNoSendMessageTaskList. cbn [QueryNoSendMessageTaskList_ safety_tasks NewTaskRepository].
  unfold data_QueryNoSendMessageTaskList. apply wp_deref; [|intros _; split_and!; [done|reflexivity|done] ]. intros db _.
  pose proof task_le_total as Htot.
  apply wp_bind, wp_clock. intros now w1 Et _ D1. cbn [then_].
  assert (Hl1 : later w w1) by (split; [rewrite <- (log_now (w_env w)), Et; reflexivity|unfold rows; by rewrite D1]).
  assert (Hsame : forall w2 : World, same_rest w1 w2 -> rows w2 = rows w1 -> tables_safe w0 w2 /\ later w w2).
  { intros w2 S2 R2. assert (R3 : rows w2 = rows w) by (rewrite R2; unfold rows; by rewrite D1).
    split; [intros db'; rewrite R3|].
    - eapply Forall2_impl; [|exact (Htab db')]. intros p p'. apply marked_later. split; [|by rewrite R3].
      unfold w_env. rewrite S2. apply Hl1.
    - split; [unfold w_env; rewrite S2; apply Hl1|by rewrite R3]. }
  assert (Hread : forall (w2 : World) (q : TaskPO -> bool) n s, rows w2 = rows w1 ->
    Permutation s (List.filter q (rows w2 db Ttask)) ->
    Forall (from_table w0) (map Task_ToEntity (map select_columns (firstn n s)))).
  { intros w2 q n s R2 Hperm. rewrite !List.Forall_map. apply List.Forall_forall. intros p' Hin.
    apply firstn_In_subset in Hin. apply (Permutation_in _ Hperm), filter_In in Hin as [Hin _].
    assert (R3 : rows w2 = rows w) by (rewrite R2; unfold rows; by rewrite D1). rewrite R3 in Hin.
    destruct (Forall2_in_r _ _ _ _ (Htab db) Hin) as (p & Hp & (S1' & S2' & S3' & S4') & _).
    exists db, p. split; [done|]. unfold select_columns, Task_ToEntity. cbn. congruence. }
  apply wp_bind, wp_find_ordered; [done| |].
  2: { intros w2 e _ S2 R2. cbn [then_]. destruct (Hsame w2 S2 R2). by split_and!. }
  intros w2 s S2 R2 P2. cbn [then_].
  destruct (Hsame w2 S2 R2) as [Htab2 Hl2]. rewrite <- R2 in P2.
  destruct (length (map select_columns (firstn task_limit s)) <? task_limit)%nat.
  - apply wp_bind, wp_bind, wp_find_ordered; [done| |].
    + intros w3 s3 S3 R3 P3. cbn [then_]. apply wp_ret. cbn [then_]. apply wp_ret.
      assert (S13 : same_rest w1 w3) by (unfold same_rest in *; congruence).
      assert (R13 : rows w3 = rows w1) by congruence. rewrite <- R3 in P3.
      destruct (Hsame w3 S13 R13). split_and!; [done|done|]. intros a [= <-]. rewrite map_app.
      apply Forall_app. split; [exact (Hread _ _ _ _ R2 P2)|exact (Hread _ _ _ _ R13 P3)].
    + intros w3 e _ S3 R3. cbn [then_].
      destruct (Hsame w3 ltac:(unfold same_rest in *; congruence) ltac:(congruence)). by split_and!.
  - apply wp_bind, wp_ret. cbn [then_]. apply wp_ret. split_and!; [done|done|]. intros a [= <-]. exact (Hread _ _ _ _ R2 P2).
Qed.

Lemma threads_spawn w0 pool tasks w : threads_safe w0 pool w -> Forall (from_table w0) tasks ->
  threads_safe w0 (pool ++ map (fun t => (t, Route)) tasks) w.
Proof.
  intros Hth Hf i t ph [Hi|[_ Hi] ]%lookup_app_Some; [by eapply Hth|].
  apply list_elem_of_lookup_2, list_elem_of_In, in_map_iff in Hi as (t' & [= <- <-] & Hin).
  rewrite List.Forall_forall in Hf. split; [by apply Hf|done].
Qed.

Lemma scan_safe w0 n : forall i schedule pool (w : World), tables_safe w0 w -> threads_safe w0 pool w ->
  wp (scan_dbs (J := J) n i schedule pool) (kept w0 (fun x => threads_safe w0 x.1) w) w.
Proof.
  induction n as [|n IH]; intros i schedule pool w Htab Hth; cbn [scan_dbs].
  { apply wp_ret. split_and!; [done|reflexivity|]. by intros a [= <-]. }
  apply wp_attempt. eapply wp_mono; [by apply query_safe|]. intros rr w1 (Htab1 & Hl1 & Hf).
  assert (Hth1 : threads_safe w0 pool w1) by (by eapply threads_later).
  destruct rr as [tasks|e|p]; [|apply wp_ret; split_and!; [done|done|by intros a [= <-] ]|by split_and!].
  apply wp_bind. eapply wp_mono; [apply turns_safe; [done|apply threads_spawn; [exact Hth1|by apply Hf] ]|].
  intros rr w2 (Htab2 & Hl2 & Hth2).
  destruct rr as [pool2|e|p]; cbn [then_]; [|split_and!; [done|by etrans|done]..].
  eapply wp_mono; [by apply IH; [|apply Hth2]|]. intros rr w3 Hk.
  refine (kept_weaken _ _ _ _ w2 _ _ _ (fun a v Ha => Ha) Hk). by etrans.
Qed.

Lemma tables_start w : tables_safe w w.
Proof.
  intros db. induction (rows w db Ttask : list TaskPO) as [|p l IH]; constructor; [|done]. split; [done|by left].
Qed.

(** A run of the job, whatever it answers. *)
Lemma ProcessTask_safe dbCount schedule last (w : World) :
  wp (SendAwardMessage_ProcessTask (J := J) dbCount schedule last) (fun _ w' => tables_safe w w') w.
Proof.
  unfold SendAwardMessage_ProcessTask. apply wp_bind.
  eapply wp_mono; [apply scan_safe; [apply tables_start|by intros i t ph Hi]|].
  intros rr w1 (Htab1 & _ & Hth1). destruct rr as [x|e|p]; cbn [then_]; [|done..].
  apply wp_bind. eapply wp_mono; [by apply turns_safe; [|apply Hth1]|].
  intros rr w2 (Htab2 & _ & Hth2). destruct rr as [pool|e|p]; cbn [then_]; [|done..].
  apply wp_bind. unfold wait. eapply wp_mono; [by apply turns_safe; [|apply Hth2]|].
  intros rr w3 (Htab3 & _ & _). destruct rr as [pool3|e|p]; cbn [then_]; [|done..]. by destruct x.2.
Qed.

(** C6. Nothing is lost from the outbox: one run of the job -- under any schedule of its
    goroutines, with any call failing or panicking, and any number of databases -- keeps
    every row of the tables of tasks with its owner, topic and message, and a row that it
    turns into [completed] was served: the broker accepted its message, or the order it
    names is completed in the ledger.  A user's message numbers are taken to be distinct. *)
Theorem completed_tasks_were_served (dbCount : nat) (schedule : list (list nat)) (last : list nat) (w : World) rr w'
    (Hids : forall db db' (p q : TaskPO), In p (rows w db Ttask) -> In q (rows w db' Ttask) ->
       tkp_UserID p = tkp_UserID q -> tkp_MessageID p = tkp_MessageID q ->
       tkp_Topic p = tkp_Topic q /\ tkp_Message p = tkp_Message q)
    (Hrun : SendAwardMessage_ProcessTask (J := J) dbCount schedule last w = (rr, w')) :
  forall db, Forall2 (fun p p' => same_task p p' /\
      (tkp_State p' = "completed"%string -> tkp_State p = "completed"%string \/ task_served (Task_ToEntity p) w'))
    (rows w db Ttask) (rows w' db Ttask).
Proof.
  intros db. pose proof (wp_run _ _ _ _ _ (ProcessTask_safe dbCount schedule last w) Hrun db) as Hsafe.
  apply Forall2_with_in in Hsafe. eapply Forall2_impl; [|exact Hsafe]. intros p p' (Hin & Hsame & Hst).
  split; [done|]. intros Hc. destruct Hst as [Hst|[Hst|(_ & t & (db' & q & Hq & ->) & Hu & Hm & Hserved)] ];
    [left; congruence|congruence|right].
  destruct (Hids db db' p q Hin Hq) as [Et Em]; [done|done|].
  unfold task_served in *. cbn [Task_ToEntity select_columns tk_Topic tk_MessageID tk_Message tkp_Topic tkp_MessageID
    tkp_Message tk_UserID tkp_UserID] in *. by rewrite Et, Em, <- Hm.
Qed.
End Safety.

(** ** Witness: a failed award message and an order that was not recorded *)
#[local] Existing Instances demo_c1 demo_c2 demo_c3 demo_c4 demo_c5 demo_c6 demo_c7 demo_e1.
#[local] Instance demo_safe_order : Codec SaveOrderTaskMessage :=
  one_value_codec (mkSaveOrderTaskMessage "u" "o1") (mkSaveOrderTaskMessage "" "").
#[local] Instance demo_safe_json : JsonString Z := {| json_string := fun _ => 0 |}.
#[local] Instance demo_safe_event : EventCodec Z := {| marshal_event := fun e => Ret (ev_ID e ++ ":" ++ FormatInt (ev_Data e))%string |}.
#[local] Instance demo_safe_publisher : PublisherMem MemEnv := {| declared := fun _ _ => false; declare := fun _ e => e |}.
#[local] Instance demo_safe_sql : SqlOps MemSql := MemSqlOps (fun _ _ _ => false).
#[local] Instance demo_safe_sql_laws : SqlLaws MemSql := MemSqlLaws (fun _ _ _ => false).
#[local] Instance demo_publish_log : PublishLog MemEnv.
Proof.
  refine {| publish_log := me_published |}; try (intros; reflexivity).
  - intros t b e. by eexists.
  - intros t b e u e' [= _ <-]. cbn [me_published]. apply in_or_app. right. by left.
Defined.
#[local] Instance demo_safe_activities : ActivityRepo MemWorld := NewActivityRepository demo_wire_repository 2.
#[local] Instance demo_recorder : OrderRecorder MemRedis MemSql MemEnv :=
  ledger_recorder demo_wire_repository 2.

Definition demo_safe_rows : MemSql := fun db t =>
  match t return list (row t) with
  | Ttask => if String.eqb db "db1" then
      [mkTaskPO 1 "u" SendAwardTopic "m1" "7" "fail" zero_time zero_time;
       mkTaskPO 2 "u" SaveOrderRecordTopic "o1" "json" "fail" zero_time zero_time] else []
  | Traffle_activity_account => [mkRaffleActivityAccountPO 1 "u" 100 3 2 3 2 3 2 zero_time zero_time]
  | Tuser_raffle_order _ =>
      [mkUserRaffleOrderPO 1 "u" 100 "a" 7 "o1" 0 "create" AccountSyncStateCreate zero_time zero_time]
  | _ => []
  end.
Definition demo_safe_world : MemWorld := mem_world ∅ demo_safe_rows (86400 * Second) [].
Definition demo_safe_repository : TaskRepository :=
  mkTaskRepository (rp_routerDB demo_wire_repository) (mkPublisher "zero" "rebate" "award").
Definition demo_safe_run : res unit * MemWorld :=
  SendAwardMessage_ProcessTask (H := NewTaskRepository demo_safe_repository) (J := Z) 1 [ [1; 0; 1] ]%nat [0; 1]%nat demo_safe_world.

Lemma completed_tasks_were_served_witness :
  demo_safe_run.1 = Ret tt /\
  map tkp_State (rows demo_safe_run.2 "db1"%string Ttask) = ["completed"; "completed"]%string /\
  publish_log (w_env demo_safe_run.2) = [(SendAwardTopic, "m1:7"%string)] /\
  forall db, Forall2 (fun p p' => same_task p p' /\
      (tkp_State p' = "completed"%string -> tkp_State p = "completed"%string \/
        task_served (J := Z) (Task_ToEntity p) demo_safe_run.2))
    (rows demo_safe_world db Ttask) (rows demo_safe_run.2 db Ttask).
Proof.
  split; [vm_compute; reflexivity|]. split; [vm_compute; reflexivity|]. split; [vm_compute; reflexivity|].
  refine (completed_tasks_were_served (J := Z) demo_safe_repository 1 [ [1; 0; 1] ]%nat [0; 1]%nat demo_safe_world
    demo_safe_run.1 demo_safe_run.2 _ _).
  - intros db db' p q Hp Hq. cbn in Hp, Hq. destruct (String.eqb db "db1"), (String.eqb db' "db1"); try done.
    cbn in Hp, Hq. intuition subst; try done.
  - apply surjective_pairing.
Defined.
