(* ===== verification/Deliveries.v ===== *)
(** * Deliveries: the ledger behind the queue of saved orders

    [internal/listener/save_order_listener.go] on the real repository: however often the
    broker delivers the message of one order, and whatever fails on the way, the ledger
    moves once. *)
From Stdlib Require Import ZArith Lia List Ascii String.
From stdpp Require Import base gmap strings list numbers.
From S2P Require Import Prelude GoLib Model Po Env Logic Mem Keys Router Cache Event Quota Activity PartakeData.
From S2P Require Import Frames PartakeLedger ActivityWiring Tasks Outbox OutboxSafety Consumers.
Open Scope Z_scope.

Section Deliveries.
Context {R D E : Type} `{RedisLaws R} `{SqlLaws D} `{EnvLaws E} `{LocalCacheOps E} `{PublisherMem E}.
Context `{Codec Activity} `{Codec ActivityAccount} `{Codec UserRaffleOrder} `{Codec ActivitySku}
  `{Codec ActivityCount} `{Codec ActivityResult} `{Codec ActivitySkuStockKey} `{Codec SaveOrderTaskMessage}
  `{EventCodec CreatePartakeOrder} `{EventCodec Z}.
Context `{Codec any} `{Codec (BaseEvent any)} `{Codec CreatePartakeOrder}.
Notation World := (W R D E).
Variables (r : Repository) (fuel : nat).
#[local] Instance delivery_activities : ActivityRepo World := NewActivityRepository r fuel.

(** The order a body names. *)
Definition body_order (body : string) : option CreatePartakeOrder :=
  match (unmarshal body : res (BaseEvent any)) with
  | Ret req =>
      match marshal (Some (ev_Data req)) with
      | Ret dataBytes => match (unmarshal dataBytes : res CreatePartakeOrder) with Ret a => Some a | _ => None end
      | _ => None
      end
  | _ => None
  end.

(** The ledger of the order's user moved for it. *)
Definition moved_for (a : CreatePartakeOrder) (f f' : dbh -> forall t, list (row t)) : Prop :=
  exists order db tableSuffix, po_UserRaffleOrder a = Some order /\ uo_OrderID order <> EmptyString /\
    DBStrategy (rp_routerDB r) (po_UserID a) = Ret (Some db, tableSuffix) /\
    ledger_moved (E := E) db tableSuffix (po_UserID a) (uo_OrderID order) f f'.

(** One delivery is one save. *)
Lemma delivery_saves body a (w : World) : body_order body = Some a ->
  handle_delivery SaveOrderListener_Handle body w =
  let '(rr, w') := SaveOrderRecord a w in (Ret match rr with Ret _ => Acked | _ => Requeued end, w').
Proof.
  unfold body_order, handle_delivery, SaveOrderListener_Handle. intros Hb.
  destruct (unmarshal body) as [req|e|p]; [|done..]. destruct (marshal (Some (ev_Data req))) as [bytes|e|p]; [|done..].
  destruct (unmarshal bytes) as [a'|e|p]; [|done..]. injection Hb as <-.
  unfold bind, attempt. by destruct (SaveOrderRecord a' w) as [ [u|e|p] w1].
Qed.

(** The next delivery finds the ledger as it was at the first, or moved once. *)
Lemma save_again a (f0 : dbh -> forall t, list (row t)) (w : World) rr w' :
  rows w = f0 \/ moved_for a f0 (rows w) -> SaveOrderRecord a w = (rr, w') ->
  (rows w' = f0 \/ moved_for a f0 (rows w')) /\ (forall u, rr = Ret u -> ledger_recorded r a (rows w')).
Proof.
  intros Hw E1. destruct (save_cases r fuel a w rr w' E1) as [ [R1 Hd]|(order & db & sx & Ho & Hid & Hr & Hm)].
  { rewrite R1. split; [exact Hw|exact Hd]. }
  split; [|intros _ _; exists order, db, sx; split_and!; [done|done|by eapply ledger_moved_completed] ].
  destruct Hw as [<-|(order0 & db0 & sx0 & Ho0 & Hid0 & Hr0 & Hm0)]; [right; by exists order, db, sx|].
  destruct (SaveCreate_completed r a order0 db0 sx0 w rr w' Ho0 Hid0 Hr0 (ledger_moved_completed _ _ _ _ _ _ Hm0) E1) as [R1 _].
  rewrite R1. right. by exists order0, db0, sx0.
Qed.

(** C3. However often the message of an order is delivered, the ledger moves once: after
    any number of deliveries, with any of them failing or losing its answer, the tables
    are as they were or exactly one debit of account, month and day away, with the order
    completed; an acknowledged delivery has the order recorded, and none is thrown away. *)
Theorem saved_order_moves_once (body : string) (a : CreatePartakeOrder) (k : nat) (w : World) verdicts w'
    (Hbody : body_order body = Some a)
    (Hrun : handle SaveOrderListener_Handle (repeat body k) w = (Ret verdicts, w')) :
  (rows w' = rows w \/ moved_for a (rows w) (rows w')) /\
  length verdicts = k /\ ~ In Rejected verdicts /\ (In Acked verdicts -> ledger_recorded r a (rows w')).
Proof.
  assert (Hgen : forall w0, rows w0 = rows w \/ moved_for a (rows w) (rows w0) ->
    handle SaveOrderListener_Handle (repeat body k) w0 = (Ret verdicts, w') ->
    (rows w' = rows w \/ moved_for a (rows w) (rows w')) /\
    length verdicts = k /\ ~ In Rejected verdicts /\ (In Acked verdicts -> ledger_recorded r a (rows w')) /\
    (ledger_recorded r a (rows w0) -> ledger_recorded r a (rows w'))).
  2: { destruct (Hgen w (or_introl eq_refl) Hrun) as (? & ? & ? & ? & _). by split_and!. }
  clear Hrun. revert verdicts. induction k as [|k IH]; intros verdicts w0 Hw0 Hrun; cbn [repeat handle] in Hrun.
  { injection Hrun as <- <-. split_and!; [exact Hw0|done|by intros []|by intros []|done]. }
  unfold bind at 1 in Hrun. rewrite (delivery_saves _ a _ Hbody) in Hrun.
  destruct (SaveOrderRecord a w0) as [rr w1] eqn:E1. destruct (save_again a (rows w) w0 rr w1 Hw0 E1) as [Hw1 Hrec].
  pose proof (save_keeps_recorded r fuel a a w0 rr w1 E1) as Hkeep.
  apply bind_inv_ret in Hrun as (vs & w2 & Hvs & Hrun). injection Hrun as <- <-.
  destruct (IH vs w1 Hw1 Hvs) as (Hw' & Hlen & Hrej & Hack & Hmono). cbn [length In].
  split_and!; [done|lia| | |].
  - intros [Hv|Hv]; [by destruct rr|done].
  - intros [Hv|Hv]; [|by apply Hack]. apply Hmono. destruct rr as [u|e|p]; [by eapply Hrec|done..].
  - intros Hr0. by apply Hmono, Hkeep.
Qed.
End Deliveries.

(** ** Witness: the message of one order is delivered three times *)
#[local] Existing Instances demo_c1 demo_c2 demo_c3 demo_c4 demo_c5 demo_c6 demo_c7 demo_c8 demo_e1 demo_e2
  demo_safe_sql demo_safe_sql_laws demo_safe_publisher demo_any demo_any_event.
#[local] Instance demo_aggregate_codec : Codec CreatePartakeOrder :=
  one_value_codec demo_ledger_aggregate (mkCreatePartakeOrder "" 0 None false None false None None).
#[local] Instance demo_delivery_activities : ActivityRepo MemWorld := NewActivityRepository demo_wire_repository 2.
Definition demo_body : string := "json".
Definition demo_delivered : res (list verdict) * MemWorld :=
  handle SaveOrderListener_Handle (repeat demo_body 3) demo_safe_world.

Lemma saved_order_moves_once_witness :
  demo_delivered.1 = Ret [Acked; Acked; Acked] /\
  map aap_TotalCountSurplus (rows demo_delivered.2 "db1"%string Traffle_activity_account) = [1] /\
  (rows demo_delivered.2 = rows demo_safe_world \/
   moved_for demo_wire_repository demo_ledger_aggregate (rows demo_safe_world) (rows demo_delivered.2)) /\
  length [Acked; Acked; Acked] = 3%nat /\ ~ In Rejected [Acked; Acked; Acked] /\
  (In Acked [Acked; Acked; Acked] -> ledger_recorded demo_wire_repository demo_ledger_aggregate (rows demo_delivered.2)).
Proof.
  split; [vm_compute; reflexivity|]. split; [vm_compute; reflexivity|].
  refine (saved_order_moves_once demo_wire_repository 2 demo_body demo_ledger_aggregate 3
    demo_safe_world [Acked; Acked; Acked] demo_delivered.2 _ _).
  - vm_compute. reflexivity.
  - apply injective_projections; [vm_compute; reflexivity|reflexivity].
Defined.
