(* ===== verification/Metrics.v ===== *)
(** * Metrics: counters around the calls of the program

    [internal/metrics] -- the vectors, their registration and the recording functions --
    and the three places that wrap a call to measure it: the hook of the Redis client
    ([data/redis_metrics.go]), the middleware of the HTTP server
    ([server/middleware/prometheus.go]) and the wrapper of asynq handlers
    ([server/asynq.go]).  The Prometheus client is [PromOps]; what is shown is that a
    measured call is the call itself, so that a client with the hook still obeys the laws
    of Redis. *)
From Stdlib Require Import ZArith Lia List Ascii String.
From stdpp Require Import base gmap strings list numbers.
From S2P Require Import Prelude GoLib Model Po Env Mem.
Open Scope Z_scope.

(** ** Vectors *)
Inductive vec_kind := CounterVec | GaugeVec | HistogramVec (buckets : list float64).

Record Vec := mkVec {
  vc_kind : vec_kind;
  vc_Namespace : string;
  vc_Subsystem : string;
  vc_Name : string;
  vc_Help : string;
  vc_labels : list string }.

(** [prometheus.BuildFQName] for names that are not empty. *)
Definition fqName (v : Vec) : string :=
  (vc_Namespace v ++ "_" ++ vc_Subsystem v ++ "_" ++ vc_Name v)%string.

(** [prometheus.DefBuckets] *)
Definition DefBuckets : list float64 :=
  [float_of_decimal 5 3; float_of_decimal 1 2; float_of_decimal 25 3; float_of_decimal 5 2; float_of_decimal 1 1;
   float_of_decimal 25 2; float_of_decimal 5 1; float_of_Z 1; float_of_decimal 25 1; float_of_Z 5; float_of_Z 10].

Definition HTTPRequestsTotal : Vec :=
  mkVec CounterVec "bigmarket" "http" "requests_total" "Total number of HTTP requests." ["method"; "path"; "code"].
Definition HTTPRequestDuration : Vec :=
  mkVec (HistogramVec DefBuckets) "bigmarket" "http" "request_duration_seconds" "HTTP request latency."
    ["method"; "path"].
Definition ActivityQuotaTotal : Vec :=
  mkVec CounterVec "bigmarket" "activity" "quota_total" "Total activity quota check results."
    ["activity_id"; "result"].
Definition RaffleTotal : Vec :=
  mkVec CounterVec "bigmarket" "raffle" "total" "Total raffle attempts." ["activity_id"; "strategy_id"; "result"].
Definition RaffleDuration : Vec :=
  mkVec (HistogramVec DefBuckets) "bigmarket" "raffle" "duration_seconds" "Raffle execution latency."
    ["activity_id"; "strategy_id"].
Definition AwardTotal : Vec :=
  mkVec CounterVec "bigmarket" "award" "total" "Total award dispatch results." ["award_id"; "result"].
Definition StockConsumeTotal : Vec :=
  mkVec CounterVec "bigmarket" "stock" "consume_total" "Stock consume results." ["activity_id"; "sku_id"; "result"].
Definition RabbitMQPublishTotal : Vec :=
  mkVec CounterVec "bigmarket" "rabbitmq" "publish_total" "Total RabbitMQ publish results." ["topic"; "result"].
Definition RedisOpsTotal : Vec :=
  mkVec CounterVec "bigmarket" "redis" "ops_total" "Total Redis operations." ["cmd"; "result"].
Definition RedisOpDuration : Vec :=
  mkVec (HistogramVec DefBuckets) "bigmarket" "redis" "op_duration_seconds" "Redis operation latency." ["cmd"].
Definition AsynqTaskTotal : Vec :=
  mkVec CounterVec "bigmarket" "asynq" "task_total" "Total Asynq task execution results." ["task_type"; "result"].
Definition AsynqTaskDuration : Vec :=
  mkVec (HistogramVec DefBuckets) "bigmarket" "asynq" "task_duration_seconds" "Asynq task execution latency."
    ["task_type"].
Definition AsynqQueueSize : Vec :=
  mkVec GaugeVec "bigmarket" "asynq" "queue_size" "Current total Asynq queue size." ["queue"].
Definition AsynqRetrySize : Vec :=
  mkVec GaugeVec "bigmarket" "asynq" "retry_size" "Current Asynq retry queue size." ["queue"].
Definition AsynqScheduledSize : Vec :=
  mkVec GaugeVec "bigmarket" "asynq" "scheduled_size" "Current Asynq scheduled queue size." ["queue"].
Definition MySQLOpenConnections : Vec :=
  mkVec GaugeVec "bigmarket" "mysql" "open_connections" "Current number of open MySQL connections."
    ["db_name"; "role"].
Definition MySQLInUse : Vec :=
  mkVec GaugeVec "bigmarket" "mysql" "in_use" "Current number of in-use MySQL connections." ["db_name"; "role"].
Definition MySQLIdle : Vec :=
  mkVec GaugeVec "bigmarket" "mysql" "idle" "Current number of idle MySQL connections." ["db_name"; "role"].
Definition MySQLWaitCount : Vec :=
  mkVec GaugeVec "bigmarket" "mysql" "wait_count" "Current sampled MySQL wait count." ["db_name"; "role"].
Definition MySQLWaitDurationSeconds : Vec :=
  mkVec GaugeVec "bigmarket" "mysql" "wait_duration_seconds" "Current sampled MySQL wait duration in seconds."
    ["db_name"; "role"].
Definition MySQLMaxIdleClosedTotal : Vec :=
  mkVec GaugeVec "bigmarket" "mysql" "max_idle_closed_total" "Current sampled MySQL max idle closed total."
    ["db_name"; "role"].
Definition MySQLMaxLifetimeClosedTotal : Vec :=
  mkVec GaugeVec "bigmarket" "mysql" "max_lifetime_closed_total" "Current sampled MySQL max lifetime closed total."
    ["db_name"; "role"].

(** ** The client *)

(** The operations panic as [MustRegister] and [WithLabelValues] do. *)
Class PromOps (P : Type) := {
  pm_MustRegister : list Vec -> M P unit;
  pm_Inc : Vec -> list string -> M P unit;
  pm_Observe : Vec -> list string -> float64 -> M P unit;
  pm_Set : Vec -> list string -> float64 -> M P unit }.

(** Labels a vector accepts: as many as it names, each valid UTF-8 (the test is on the
    runes, so it also refuses a written U+FFFD). *)
Definition valid_utf8 (s : string) : bool := forallb (fun c => negb (c =? 65533)) (runes s).
Definition accepts (v : Vec) (labels : list string) : bool :=
  Nat.eqb (length labels) (length (vc_labels v)) && forallb valid_utf8 labels.

Inductive sample :=
| Counted (n : float64)
| Gauged (v : float64)
| Observed (observations : list float64).

Definition inc_sample (x : option sample) : sample :=
  match x with Some (Counted n) => Counted (fadd n (float_of_Z 1)) | _ => Counted (float_of_Z 1) end.
Definition observe_sample (d : float64) (x : option sample) : sample :=
  match x with Some (Observed l) => Observed (l ++ [d]) | _ => Observed [d] end.

Notation samples := (gmap (string * list string) sample).
Definition recorded (v : Vec) (labels : list string) (f : option sample -> sample) (m : samples) : samples :=
  <[(fqName v, labels) := f (m !! (fqName v, labels))]> m.

Class PromLaws (P : Type) `{PromOps P} := {
  pm_names : P -> gset string;
  pm_samples : P -> samples;
  pm_MustRegister_law : forall vs p,
    NoDup (map fqName vs) -> (forall v, In v vs -> fqName v ∉ pm_names p) ->
    exists p', pm_MustRegister vs p = (Ret tt, p') /\
      pm_names p' = list_to_set (map fqName vs) ∪ pm_names p /\ pm_samples p' = pm_samples p;
  pm_Inc_law : forall v labels p, vc_kind v = CounterVec -> accepts v labels = true ->
    exists p', pm_Inc v labels p = (Ret tt, p') /\ pm_names p' = pm_names p /\
      pm_samples p' = recorded v labels inc_sample (pm_samples p);
  pm_Observe_law : forall v labels x p, (exists b, vc_kind v = HistogramVec b) -> accepts v labels = true ->
    exists p', pm_Observe v labels x p = (Ret tt, p') /\ pm_names p' = pm_names p /\
      pm_samples p' = recorded v labels (observe_sample x) (pm_samples p);
  pm_Set_law : forall v labels x p, vc_kind v = GaugeVec -> accepts v labels = true ->
    exists p', pm_Set v labels x p = (Ret tt, p') /\ pm_names p' = pm_names p /\
      pm_samples p' = recorded v labels (fun _ => Gauged x) (pm_samples p) }.

(** ** [business.go] *)
Definition int64Label (v : Z) : string := if v <=? 0 then "unknown" else FormatInt v.
Definition intLabel (v : Z) : string := if v <=? 0 then "unknown" else FormatInt v.
Definition normalizeLabel (v : string) : string := if String.eqb v EmptyString then "unknown" else v.

(** [d.Seconds()] *)
Definition Seconds (d : Z) : float64 :=
  fadd (float_of_Z (Z.quot d Second)) (fdiv (float_of_Z (Z.rem d Second)) (float_of_Z Second)).

(** [sql.DBStats], as far as it is reported. *)
Record DBStats := mkDBStats {
  db_OpenConnections : Z;
  db_InUse : Z;
  db_Idle : Z;
  db_WaitCount : Z;
  db_WaitDuration : Z;
  db_MaxIdleClosed : Z;
  db_MaxLifetimeClosed : Z }.

Section Business.
Context {P : Type} `{PromOps P}.

(** [init] *)
Definition metrics_init : M P unit :=
  pm_MustRegister
    [HTTPRequestsTotal; HTTPRequestDuration; ActivityQuotaTotal; RaffleTotal; RaffleDuration; AwardTotal;
     StockConsumeTotal; RabbitMQPublishTotal; RedisOpsTotal; RedisOpDuration; AsynqTaskTotal; AsynqTaskDuration;
     AsynqQueueSize; AsynqRetrySize; AsynqScheduledSize; MySQLOpenConnections; MySQLInUse; MySQLIdle;
     MySQLWaitCount; MySQLWaitDurationSeconds; MySQLMaxIdleClosedTotal; MySQLMaxLifetimeClosedTotal].

Definition IncActivityQuota (activityID : Z) (result : string) : M P unit :=
  pm_Inc ActivityQuotaTotal [int64Label activityID; normalizeLabel result].
Definition IncRaffle (activityID strategyID : Z) (result : string) : M P unit :=
  pm_Inc RaffleTotal [int64Label activityID; int64Label strategyID; normalizeLabel result].
Definition ObserveRaffleDuration (activityID strategyID duration : Z) : M P unit :=
  pm_Observe RaffleDuration [int64Label activityID; int64Label strategyID] (Seconds duration).
Definition IncStockConsume (activityID skuID : Z) (result : string) : M P unit :=
  pm_Inc StockConsumeTotal [int64Label activityID; int64Label skuID; normalizeLabel result].
Definition IncAward (awardID : Z) (result : string) : M P unit :=
  pm_Inc AwardTotal [intLabel awardID; normalizeLabel result].
Definition IncRabbitMQPublish (topic result : string) : M P unit :=
  pm_Inc RabbitMQPublishTotal [normalizeLabel topic; normalizeLabel result].
Definition IncRedisOp (cmd result : string) : M P unit :=
  pm_Inc RedisOpsTotal [normalizeLabel cmd; normalizeLabel result].
Definition ObserveRedisOpDuration (cmd : string) (duration : Z) : M P unit :=
  pm_Observe RedisOpDuration [normalizeLabel cmd] (Seconds duration).
Definition IncAsynqTask (taskType result : string) : M P unit :=
  pm_Inc AsynqTaskTotal [normalizeLabel taskType; normalizeLabel result].
Definition ObserveAsynqTaskDuration (taskType : string) (duration : Z) : M P unit :=
  pm_Observe AsynqTaskDuration [normalizeLabel taskType] (Seconds duration).
Definition SetAsynqQueueStats (queue : string) (size retry scheduled : Z) : M P unit :=
  let queue := normalizeLabel queue in
  pm_Set AsynqQueueSize [queue] (float_of_Z size) ;;;
  pm_Set AsynqRetrySize [queue] (float_of_Z retry) ;;;
  pm_Set AsynqScheduledSize [queue] (float_of_Z scheduled).
Definition SetMySQLStats (dbName role : string) (stats : DBStats) : M P unit :=
  let dbName := normalizeLabel dbName in
  let role := normalizeLabel role in
  pm_Set MySQLOpenConnections [dbName; role] (float_of_Z (db_OpenConnections stats)) ;;;
  pm_Set MySQLInUse [dbName; role] (float_of_Z (db_InUse stats)) ;;;
  pm_Set MySQLIdle [dbName; role] (float_of_Z (db_Idle stats)) ;;;
  pm_Set MySQLWaitCount [dbName; role] (float_of_Z (db_WaitCount stats)) ;;;
  pm_Set MySQLWaitDurationSeconds [dbName; role] (Seconds (db_WaitDuration stats)) ;;;
  pm_Set MySQLMaxIdleClosedTotal [dbName; role] (float_of_Z (db_MaxIdleClosed stats)) ;;;
  pm_Set MySQLMaxLifetimeClosedTotal [dbName; role] (float_of_Z (db_MaxLifetimeClosed stats)).
End Business.

(** ** Measured calls

    A measured call runs on the metrics, the environment with the clock, and the state
    [S] of the call itself. *)
Definition Measured (P E S : Type) : Type := ((P * E) * S)%type.

Section MeasuredCalls.
Context {P E S : Type} `{PromOps P} `{EnvOps E}.
Notation State := (Measured P E S).

Definition in_prom {A} (m : M P A) : M State A := fun s =>
  let '((p, e), x) := s in let '(a, p') := m p in (a, ((p', e), x)).
Definition in_clock {A} (m : M E A) : M State A := fun s =>
  let '((p, e), x) := s in let '(a, e') := m e in (a, ((p, e'), x)).
Definition in_call {A} (m : M S A) : M State A := fun s =>
  let '(pe, x) := s in let '(a, x') := m x in (a, (pe, x')).

(** [time.Since] *)
Definition Since (start : time) : M State Z :=
  let! now := in_clock ev_now in ret (now - start).

(** A transport of kratos, as far as the middleware looks. *)
Record Transport := mkTransport { tp_Kind : string; tp_Operation : string }.

Definition MetricsMiddleware {Req Rep} (tr : option Transport) (handler : Req -> M S Rep) (req : Req)
    : M State Rep :=
  let! start := in_clock ev_now in
  let! r := attempt (in_call (handler req)) in
  let code := match r with inr _ => "error" | inl _ => "ok" end%string in
  let op := match tr with Some t => tp_Operation t | None => "unknown" end%string in
  let method := match tr with Some t => tp_Kind t | None => "unknown" end%string in
  in_prom (pm_Inc HTTPRequestsTotal [method; op; code]) ;;;
  let! d := Since start in
  in_prom (pm_Observe HTTPRequestDuration [method; op] (Seconds d)) ;;;
  match r with inl reply => ret reply | inr err => fail err end.

Definition wrapAsynqHandler {Task} (taskType : string) (handler : Task -> M S unit) (task : Task)
    : M State unit :=
  let! start := in_clock ev_now in
  let! r := attempt (in_call (handler task)) in
  let! d := Since start in
  in_prom (ObserveAsynqTaskDuration taskType d) ;;;
  match r with
  | inl _ => in_prom (IncAsynqTask taskType "success") ;;; ret tt
  | inr err => fail err
  end.

Definition redisCmdResult (err : option gerr) : string :=
  match err with
  | None => "success"
  | Some e => if errors_is is_redis_nil e then "nil" else "error"
  end.

(** [redisCmdName] of a command; [FullName] is the client's. *)
Definition redisCmdName {C} (FullName : C -> string) (cmd : option C) : string :=
  match cmd with None => "unknown" | Some c => FullName c end.

(** [ProcessHook]; [reply_error] is the error [next] returns with its reply -- [redis.Nil]
    for an absent value, which the reply carries itself. *)
Definition ProcessHook {C A} (FullName : C -> string) (reply_error : A -> option gerr) (cmd : C) (next : M S A)
    : M State A :=
  let! start := in_clock ev_now in
  let! r := attempt (in_call next) in
  let err := match r with inl a => reply_error a | inr e => Some e end in
  in_prom (IncRedisOp (redisCmdName FullName (Some cmd)) (redisCmdResult err)) ;;;
  let! d := Since start in
  in_prom (ObserveRedisOpDuration (redisCmdName FullName (Some cmd)) d) ;;;
  match r with inl a => ret a | inr e => fail e end.

Definition ProcessPipelineHook {C A} (FullName : C -> string) (cmds : list C) (next : M S A) : M State A :=
  let! start := in_clock ev_now in
  let! r := attempt (in_call next) in
  let cmdName := match cmds with [c] => redisCmdName FullName (Some c) | _ => "pipeline" end%string in
  in_prom (IncRedisOp cmdName (redisCmdResult (match r with inl _ => None | inr e => Some e end))) ;;;
  let! d := Since start in
  in_prom (ObserveRedisOpDuration cmdName d) ;;;
  match r with inl a => ret a | inr e => fail e end.
End MeasuredCalls.

(** ** The client of [NewRedisClient]: every command goes through the hook *)

(** The error go-redis returns next to a reply. *)
Definition reply_error {A} (c : rcmd A) : A -> option gerr :=
  match c in rcmd A return A -> option gerr with
  | GET _ | HGET _ _ => fun a => match a with None => Some ERedisNil | Some _ => None end
  | _ => fun _ => None
  end.

Section Hooked.
Context {P E R : Type} `{PromOps P} `{EnvOps E} `{RedisOps R}.
Variable FullName : {A : Type & rcmd A} -> string.

(** A script runs on the server, where no hook sees its commands. *)
Definition on_server {A} (s : P * E) (m : M (Measured P E R) A) : M R A := fun r =>
  let '(a, s') := m (s, r) in (a, s'.2).

Definition hooked_redis : RedisOps (Measured P E R) := {|
  rd_do := fun A c => ProcessHook FullName (reply_error c) (existT A c) (rd_do c);
  rd_call := fun A c => in_call (rd_call c);
  rd_eval := fun A m s =>
    ProcessHook (fun _ : unit => "eval"%string) (fun _ => None) tt (rd_eval (on_server s.1 m)) s;
  rd_pipeline := fun l => ProcessPipelineHook FullName l (rd_pipeline l);
  lua_le0 := lua_le0 (R := R) |}.
End Hooked.

(** ** Facts *)
Lemma runes_ascii s : forallb (fun c => (byte_val c <? 128)) (list_ascii_of_string s) = true -> valid_utf8 s = true.
Proof.
  unfold valid_utf8. induction s as [|c s IH]; [done|]. cbn [list_ascii_of_string forallb]. intros H.
  apply andb_true_iff in H as [Hc Hs]. cbn [runes]. rewrite Hc. cbn [forallb]. rewrite IH by done.
  apply Z.ltb_lt in Hc. replace (byte_val c =? 65533) with false by lia. done.
Qed.

Lemma FormatInt_valid z : valid_utf8 (FormatInt z) = true.
Proof.
  apply runes_ascii. pose proof (FormatInt_chars z) as Hc. revert Hc. generalize (FormatInt z) as s.
  induction s as [|c s IH]; [done|]. cbn [all_chars list_ascii_of_string forallb]. intros H.
  apply andb_true_iff in H as [Hc Hs]. rewrite IH by done. rewrite andb_true_r. apply Z.ltb_lt.
  revert Hc. unfold int_char, is_digit. clear. destruct c as [ [] [] [] [] [] [] [] []]; by vm_compute.
Qed.

Lemma int64Label_valid z : valid_utf8 (int64Label z) = true.
Proof. unfold int64Label. destruct (z <=? 0); [by vm_compute|apply FormatInt_valid]. Qed.
Lemma intLabel_valid z : valid_utf8 (intLabel z) = true.
Proof. apply int64Label_valid. Qed.
Lemma normalizeLabel_valid s : valid_utf8 s = true -> valid_utf8 (normalizeLabel s) = true.
Proof. unfold normalizeLabel. by destruct (String.eqb s EmptyString). Qed.
Lemma redisCmdResult_valid err : valid_utf8 (redisCmdResult err) = true.
Proof. destruct err as [e|]; cbn [redisCmdResult]; [destruct (errors_is _ e)|]; by vm_compute. Qed.

#[export] Hint Resolve int64Label_valid intLabel_valid normalizeLabel_valid redisCmdResult_valid : metrics.

(** The vectors have different names, so that [init] registers them. *)
Lemma fqNames_distinct (P : Type) `{PromLaws P} p : pm_names p = ∅ -> exists p', metrics_init p = (Ret tt, p').
Proof.
  intros Hp. unfold metrics_init.
  match goal with |- context [pm_MustRegister ?vs p] => destruct (pm_MustRegister_law vs p) as (p' & E & _) end.
  - apply (bool_decide_unpack _). by vm_compute.
  - intros v _. rewrite Hp. set_solver.
  - eauto.
Qed.

Section Transparency.
Context {P E S : Type} `{PromLaws P} `{EnvLaws E}.
Notation State := (Measured P E S).

(** A step that only records: it returns, and leaves the state of the call alone. *)
Definition records {A} (m : M State A) : Prop :=
  forall s, exists a pe, m s = (Ret a, (pe, s.2)).

Lemma records_ret {A} (a : A) : records (ret a).
Proof. intros [pe x]. by exists a, pe. Qed.

Lemma records_clock : records (in_clock ev_now).
Proof. intros [[p e] x]. destruct (ev_now_law e) as (t & e' & Ht). unfold in_clock. rewrite Ht. eauto. Qed.

Lemma records_bind {A B} (m : M State A) (k : A -> M State B) :
  records m -> (forall a, records (k a)) -> records (bind m k).
Proof.
  intros Hm Hk s. destruct (Hm s) as (a & pe & E1). rewrite (bind_eq _ _ _ _ _ E1). apply (Hk a (pe, s.2)).
Qed.

Lemma records_since t : records (Since t).
Proof. apply records_bind; [apply records_clock|]. intros. apply records_ret. Qed.

Lemma inc_run v labels (p : P) (e : E) (x : S) :
  vc_kind v = CounterVec -> accepts v labels = true -> exists p',
  in_prom (pm_Inc v labels) ((p, e), x) = (Ret tt, ((p', e), x)) /\
  pm_samples p' = recorded v labels inc_sample (pm_samples p).
Proof.
  intros Hk Ha. destruct (pm_Inc_law v labels p Hk Ha) as (p' & E1 & _ & E2). exists p'.
  unfold in_prom. by rewrite E1.
Qed.

Lemma observe_run v labels d (p : P) (e : E) (x : S) :
  (exists b, vc_kind v = HistogramVec b) -> accepts v labels = true -> exists p',
  in_prom (pm_Observe v labels d) ((p, e), x) = (Ret tt, ((p', e), x)) /\
  pm_samples p' = recorded v labels (observe_sample d) (pm_samples p).
Proof.
  intros Hk Ha. destruct (pm_Observe_law v labels d p Hk Ha) as (p' & E1 & _ & E2). exists p'.
  unfold in_prom. by rewrite E1.
Qed.

Lemma clock_run (p : P) (e : E) (x : S) : exists t e', in_clock ev_now ((p, e), x) = (Ret t, ((p, e'), x)).
Proof. destruct (ev_now_law e) as (t & e' & Ht). unfold in_clock. rewrite Ht. eauto. Qed.

Lemma since_run t0 (p : P) (e : E) (x : S) : exists d e', Since t0 ((p, e), x) = (Ret d, ((p, e'), x)).
Proof.
  destruct (clock_run p e x) as (t & e' & Ht). exists (t - t0), e'. unfold Since. by rewrite (bind_eq _ _ _ _ _ Ht).
Qed.

Lemma records_inc v labels : vc_kind v = CounterVec -> accepts v labels = true -> records (in_prom (pm_Inc v labels)).
Proof. intros Hk Ha [[p e] x]. destruct (inc_run v labels p e x Hk Ha) as (p' & E1 & _). eauto. Qed.

Lemma records_observe v labels d :
  (exists b, vc_kind v = HistogramVec b) -> accepts v labels = true -> records (in_prom (pm_Observe v labels d)).
Proof. intros Hk Ha [[p e] x]. destruct (observe_run v labels d p e x Hk Ha) as (p' & E1 & _). eauto. Qed.

Lemma records_redis_op cmd err : valid_utf8 cmd = true -> records (in_prom (IncRedisOp cmd (redisCmdResult err))).
Proof.
  intros Hv. apply records_inc; [done|]. unfold accepts. cbn. by rewrite normalizeLabel_valid, normalizeLabel_valid by auto with metrics.
Qed.
Lemma records_redis_duration cmd d : valid_utf8 cmd = true -> records (in_prom (ObserveRedisOpDuration cmd d)).
Proof. intros Hv. apply records_observe; [by eexists|]. unfold accepts. cbn. by rewrite normalizeLabel_valid. Qed.

(** [m] is the call, as far as its result and its own state go. *)
Definition transparent {A} (m : M State A) (call : M S A) : Prop :=
  forall s, (m s).1 = (call s.2).1 /\ (m s).2.2 = (call s.2).2.

(** The shape of all four: something is recorded before and after the call, whose result
    is returned. *)
Lemma transparent_measured {A T} (before : M State T) (after : T -> A + gerr -> M State A) (call : M S A) :
  records before ->
  (forall t a s, exists pe, after t (inl a) s = (Ret a, (pe, s.2))) ->
  (forall t e s, exists pe, after t (inr e) s = (Fail e, (pe, s.2))) ->
  transparent (let! t := before in let! r := attempt (in_call call) in after t r) call.
Proof.
  intros Hb Hret Hfail s. destruct (Hb s) as (t & pe & E1). rewrite (bind_eq _ _ _ _ _ E1).
  unfold bind, attempt, in_call. destruct (call s.2) as [ [a|e|q] x']; cbn [fst snd].
  - destruct (Hret t a (pe, x')) as (pe' & ->). done.
  - destruct (Hfail t e (pe, x')) as (pe' & ->). done.
  - done.
Qed.

Lemma records_then {A} (m : M State unit) (k : M State A) (r : res A) :
  records m -> (forall s, exists pe, k s = (r, (pe, s.2))) -> forall s, exists pe, (m ;;; k) s = (r, (pe, s.2)).
Proof.
  intros Hm Hk s. destruct (Hm s) as (u & pe & E1). rewrite (bind_eq _ _ _ _ _ E1). apply (Hk (pe, s.2)).
Qed.
Lemma records_let {A T} (m : M State T) (k : T -> M State A) (r : res A) :
  records m -> (forall t s, exists pe, k t s = (r, (pe, s.2))) -> forall s, exists pe, bind m k s = (r, (pe, s.2)).
Proof.
  intros Hm Hk s. destruct (Hm s) as (u & pe & E1). rewrite (bind_eq _ _ _ _ _ E1). apply (Hk u (pe, s.2)).
Qed.

Lemma ends_with {A} (r : res A) : forall s : State, exists pe, (r, s) = (r, (pe, s.2)).
Proof. intros [pe x]. by exists pe. Qed.

Lemma ProcessHook_transparent {C A} (FullName : C -> string) (err : A -> option gerr) cmd (next : M S A) :
  valid_utf8 (FullName cmd) = true -> transparent (ProcessHook FullName err cmd next) next.
Proof.
  intros Hv. unfold ProcessHook. apply transparent_measured; [apply records_clock| |]; intros t a;
    (apply records_then; [by apply records_redis_op|]); (apply records_let; [apply records_since|]);
    intros d; (apply records_then; [by apply records_redis_duration|]); apply ends_with.
Qed.

Lemma ProcessPipelineHook_transparent {C A} (FullName : C -> string) cmds (next : M S A) :
  (forall c, valid_utf8 (FullName c) = true) -> transparent (ProcessPipelineHook FullName cmds next) next.
Proof.
  intros Hv. unfold ProcessPipelineHook.
  assert (Hn : valid_utf8 (match cmds with [c] => redisCmdName FullName (Some c) | _ => "pipeline"%string end) = true).
  { destruct cmds as [|c [|]]; [by vm_compute|apply Hv|by vm_compute]. }
  apply transparent_measured; [apply records_clock| |]; intros t a;
    (apply records_then; [by apply records_redis_op|]); (apply records_let; [apply records_since|]);
    intros d; (apply records_then; [by apply records_redis_duration|]); apply ends_with.
Qed.

Lemma wrapAsynqHandler_transparent {Task} taskType (handler : Task -> M S unit) task :
  valid_utf8 taskType = true -> transparent (wrapAsynqHandler taskType handler task) (handler task).
Proof.
  intros Hv. unfold wrapAsynqHandler.
  assert (Hd : forall d, records (in_prom (ObserveAsynqTaskDuration taskType d))).
  { intros d. apply records_observe; [by eexists|]. unfold accepts. cbn. by rewrite normalizeLabel_valid. }
  assert (Hi : records (in_prom (IncAsynqTask taskType "success"))).
  { apply records_inc; [done|]. unfold accepts. cbn. by rewrite normalizeLabel_valid. }
  apply transparent_measured; [apply records_clock| |]; intros t a;
    (apply records_let; [apply records_since|]); intros d; (apply records_then; [apply Hd|]).
  - destruct a. apply records_then; [apply Hi|]. apply ends_with.
  - apply ends_with.
Qed.
End Transparency.

(** ** The middleware *)
Section Middleware.
Context {P E S Req Rep : Type} `{PromLaws P} `{EnvLaws E}.

Definition transport_op (tr : option Transport) : string :=
  match tr with Some t => tp_Operation t | None => "unknown" end.
Definition transport_kind (tr : option Transport) : string :=
  match tr with Some t => tp_Kind t | None => "unknown" end.

Lemma MetricsMiddleware_run (tr : option Transport) (handler : Req -> M S Rep) (req : Req)
    (p : P) (e : E) (x : S) :
  valid_utf8 (transport_op tr) = true -> valid_utf8 (transport_kind tr) = true ->
  let o := MetricsMiddleware tr handler req ((p, e), x) in
  o.1 = (handler req x).1 /\ o.2.2 = (handler req x).2 /\
  match o.1 with
  | Panic _ => o.2.1.1 = p
  | _ => exists d, pm_samples o.2.1.1 =
      recorded HTTPRequestDuration [transport_kind tr; transport_op tr] (observe_sample d)
        (recorded HTTPRequestsTotal
           [transport_kind tr; transport_op tr; match o.1 with Fail _ => "error" | _ => "ok" end%string] inc_sample
           (pm_samples p))
  end.
Proof.
  intros Hop Hkind. cbv zeta. unfold MetricsMiddleware. fold (transport_op tr) (transport_kind tr).
  destruct (clock_run p e x) as (t1 & e1 & N1). rewrite (bind_eq _ _ _ _ _ N1).
  destruct (handler req x) as [r x'] eqn:Eh.
  assert (Hc : attempt (in_call (handler req)) ((p, e1), x) =
    (match r with Ret a => Ret (inl a) | Fail err => Ret (inr err) | Panic q => Panic q end, ((p, e1), x'))).
  { unfold attempt, in_call. rewrite Eh. by destruct r. }
  destruct r as [rep|err|q]; [rewrite (bind_eq _ _ _ _ _ Hc)|rewrite (bind_eq _ _ _ _ _ Hc)|
    by rewrite (bind_panic _ _ _ _ _ Hc)].
  all: match goal with |- context [pm_Inc HTTPRequestsTotal ?ls] =>
      destruct (inc_run HTTPRequestsTotal ls p e1 x' eq_refl) as (p1 & I1 & S1);
        [unfold accepts; cbn [length vc_labels HTTPRequestsTotal Nat.eqb forallb]; by rewrite Hkind, Hop|] end;
    rewrite (bind_eq _ _ _ _ _ I1); destruct (since_run t1 p1 e1 x') as (d & e2 & N2); rewrite (bind_eq _ _ _ _ _ N2);
    destruct (observe_run HTTPRequestDuration [transport_kind tr; transport_op tr] (Seconds d) p1 e2 x')
      as (p2 & I2 & S2); [by eexists|unfold accepts; cbn; by rewrite Hkind, Hop|];
    rewrite (bind_eq _ _ _ _ _ I2); cbn; split; [done|]; split; [done|]; exists (Seconds d); by rewrite S2, S1.
Qed.
(** The measured server answers as the handler does: same reply or error, same state,
    also when the handler panics; and a request that was answered is counted exactly once,
    under its operation and as [ok] or [error] as the handler decided, with one latency
    recorded. *)
Theorem MetricsMiddleware_transparent (tr : option Transport) (handler : Req -> M S Rep) (req : Req)
    (p : P) (e : E) (x : S)
    (Hop : valid_utf8 (transport_op tr) = true) (Hkind : valid_utf8 (transport_kind tr) = true) :
  let o := MetricsMiddleware tr handler req ((p, e), x) in
  o.1 = (handler req x).1 /\ o.2.2 = (handler req x).2 /\
  match o.1 with
  | Panic _ => o.2.1.1 = p
  | _ => exists d, pm_samples o.2.1.1 =
      recorded HTTPRequestDuration [transport_kind tr; transport_op tr] (observe_sample d)
        (recorded HTTPRequestsTotal
           [transport_kind tr; transport_op tr; match o.1 with Fail _ => "error" | _ => "ok" end%string] inc_sample
           (pm_samples p))
  end.
Proof. by apply MetricsMiddleware_run. Qed.
End Middleware.

(** ** The hooked client *)
Section HookedFacts.
Context {P E R : Type} `{PromLaws P} `{EnvLaws E} `{RedisOps R}.
Variable FullName : {A : Type & rcmd A} -> string.
Hypothesis names_valid : forall c, valid_utf8 (FullName c) = true.
#[local] Instance hooked : RedisOps (Measured P E R) := hooked_redis FullName.

Lemma hooked_calls :
  (forall A (c : rcmd A), transparent (rd_do c) (rd_do c)) /\
  (forall A (c : rcmd A), transparent (P := P) (E := E) (rd_call c) (rd_call c)) /\
  (forall A (m : M (Measured P E R) A) s,
     (rd_eval m s).1 = (rd_eval (on_server s.1 m) s.2).1 /\ (rd_eval m s).2.2 = (rd_eval (on_server s.1 m) s.2).2) /\
  (forall l, transparent (rd_pipeline l) (rd_pipeline l)).
Proof.
  split_and!.
  - intros A c. by apply ProcessHook_transparent.
  - intros A c [pe r]. cbn. by destruct (rd_call c r).
  - intros A m s. cbn [rd_eval hooked hooked_redis]. by apply ProcessHook_transparent; vm_compute.
  - intros l. by apply ProcessPipelineHook_transparent.
Qed.

(** Measuring does not change what Redis does: through the hook every command, script
    and pipeline gives the reply and leaves the keyspace it does without, and the hook
    adds no error and no panic of its own. *)
Theorem hooked_redis_transparent :
  (forall A (c : rcmd A) s, (rd_do c s).1 = (rd_do c s.2).1 /\ (rd_do c s).2.2 = (rd_do c s.2).2) /\
  (forall A (m : M (Measured P E R) A) s,
     (rd_eval m s).1 = (rd_eval (on_server s.1 m) s.2).1 /\ (rd_eval m s).2.2 = (rd_eval (on_server s.1 m) s.2).2) /\
  (forall l s, (rd_pipeline l s).1 = (rd_pipeline l s.2).1 /\ (rd_pipeline l s).2.2 = (rd_pipeline l s.2).2).
Proof. destruct hooked_calls as (Hd & _ & He & Hp). split_and!; [exact Hd|exact He|exact Hp]. Qed.

(** So the repositories may be run on it. *)
#[export] Instance hooked_laws `{!RedisLaws R} : RedisLaws (Measured P E R).
Proof.
  destruct hooked_calls as (Hd & Hc & He & Hp).
  unshelve econstructor; [exact (fun s => rd_view s.2)|..].
  - intros A c s. destruct (Hd A c s) as [E1 E2]. pose proof (rd_do_law A c s.2) as Hl.
    destruct (rd_do c s) as [r s'], (rd_do c s.2) as [r0 s0]. cbn in E1, E2. by subst.
  - intros A c s e s' Hr. destruct (Hd A c s) as [E1 _]. rewrite Hr in E1. cbn [fst] in E1.
    destruct (rd_do (R := R) c s.2) as [r0 s0] eqn:E0. cbn in E1. subst r0. by apply rd_do_not_nil in E0.
  - intros A c s. pose proof (rd_call_law A c s.2) as Hl. cbn [rd_call hooked hooked_redis]. unfold in_call.
    destruct s as [pe r]; cbn [snd] in *. destruct (cmd_spec c (rd_view r)) as [ [a m']|].
    + destruct Hl as (r' & -> & Hv). eauto.
    + destruct Hl as (e & r' & -> & Hv). eauto.
  - intros A m s. destruct (He A m s) as [E1 E2]. pose proof (rd_eval_law A (on_server s.1 m) s.2) as Hl.
    destruct (rd_eval m s) as [r s'], (rd_eval (on_server s.1 m) s.2) as [r0 s0]. cbn in E1, E2. subst r0 s0.
    assert (Hs : on_server s.1 m s.2 = ((m s).1, (m s).2.2)) by (unfold on_server; destruct s; cbn; by destruct (m _)).
    rewrite Hs in Hl. destruct r as [a|e|q]; [|exact Hl|done].
    destruct Hl as (r1 & [= Hm <-] & Hv). exists (m s).2. split; [|done]. destruct (m s); cbn in *. by subst.
  - intros l s. destruct (Hp l s) as [E1 E2]. pose proof (rd_pipeline_law l s.2) as Hl.
    destruct (rd_pipeline l s) as [r s'], (rd_pipeline l s.2) as [r0 s0]. cbn in E1, E2. by subst.
  - exact (lua_le0_law (R := R)).
Defined.
End HookedFacts.

(** ** A registry in memory, for the witnesses *)
Definition MemProm : Type := (gset string * samples)%type.
Definition mem_record (ok : bool) (v : Vec) (labels : list string) (f : option sample -> sample) : M MemProm unit :=
  fun p => if ok && accepts v labels then (Ret tt, (p.1, recorded v labels f p.2))
           else (Panic "inconsistent label cardinality", p).

#[local] Instance MemPromOps : PromOps MemProm := {
  pm_MustRegister := fun vs p =>
    if bool_decide (NoDup (map fqName vs)) && bool_decide (Forall (fun v => fqName v ∉ p.1) vs)
    then (Ret tt, (list_to_set (map fqName vs) ∪ p.1, p.2))
    else (Panic "duplicate metrics collector registration attempted", p);
  pm_Inc := fun v labels => mem_record (match vc_kind v with CounterVec => true | _ => false end) v labels inc_sample;
  pm_Observe := fun v labels x =>
    mem_record (match vc_kind v with HistogramVec _ => true | _ => false end) v labels (observe_sample x);
  pm_Set := fun v labels x =>
    mem_record (match vc_kind v with GaugeVec => true | _ => false end) v labels (fun _ => Gauged x) }.

#[local] Instance MemPromLaws : PromLaws MemProm.
Proof.
  unshelve econstructor; [exact fst|exact snd|..].
  - intros vs p Hnd Hnew. cbn. rewrite bool_decide_true by done.
    rewrite bool_decide_true by (apply List.Forall_forall; intros v Hv; by apply Hnew).
    cbn. by eexists.
  - intros v labels p Hk Ha. cbn. unfold mem_record. rewrite Hk, Ha. by eexists.
  - intros v labels x p [b Hk] Ha. cbn. unfold mem_record. rewrite Hk, Ha. by eexists.
  - intros v labels x p Hk Ha. cbn. unfold mem_record. rewrite Hk, Ha. by eexists.
Defined.

Definition demo_metrics : MemProm := (∅, ∅).
Definition demo_clock : MemEnv := mkMemEnv 0 [] [] [] [].
Definition demo_handler (req : Z) : M nat Z := fun n => (if req <? 0 then Fail (EExt "bad") else Ret (req + 1), S n).
Definition demo_call := MetricsMiddleware (Some (mkTransport "http" "/draw")) demo_handler (-1) ((demo_metrics, demo_clock), 4%nat).

Lemma MetricsMiddleware_transparent_witness :
  demo_call.1 = Fail (EExt "bad") /\ demo_call.2.2 = 5%nat /\
  demo_call.2.1.1.2 !! ("bigmarket_http_requests_total"%string, ["http"; "/draw"; "error"]%string)
    = Some (Counted (float_of_Z 1)) /\
  demo_call.1 = (demo_handler (-1) 4%nat).1.
Proof.
  split; [vm_compute; reflexivity|]. split; [vm_compute; reflexivity|]. split; [vm_compute; reflexivity|].
  refine (proj1 (MetricsMiddleware_transparent (Some (mkTransport "http" "/draw")) demo_handler (-1)
    demo_metrics demo_clock 4%nat _ _)); vm_compute; reflexivity.
Defined.

Definition demo_FullName (c : {A : Type & rcmd A}) : string :=
  match projT2 c with
  | GET _ => "get" | SET _ _ _ | SETXX _ _ _ => "set" | SETNX _ _ _ => "setnx" | DEL _ => "del" | INCR _ => "incr"
  | DECR _ => "decr" | HSET _ _ => "hset" | HGET _ _ => "hget" | HMGET _ _ => "hmget" | RPUSH _ _ => "rpush"
  | EXPIRE _ _ => "expire"
  end.
Lemma demo_FullName_valid c : valid_utf8 (demo_FullName c) = true.
Proof. destruct c as [A c]. by destruct c; vm_compute. Defined.

Definition demo_hooked (c : rcmd (option string)) : res (option string) * Measured MemProm MemEnv MemRedis :=
  rd_do (RedisOps := hooked_redis demo_FullName) c ((demo_metrics, demo_clock), ∅).

(** An absent value is counted as [nil]. *)
Lemma hooked_redis_transparent_witness :
  (demo_hooked (GET "k")).1 = Ret None /\
  (demo_hooked (GET "k")).2.1.1.2 !! ("bigmarket_redis_ops_total"%string, ["get"; "nil"]%string)
    = Some (Counted (float_of_Z 1)) /\
  (demo_hooked (GET "k")).1 = (rd_do (R := MemRedis) (GET "k") ∅).1.
Proof.
  split; [vm_compute; reflexivity|]. split; [vm_compute; reflexivity|].
  exact (proj1 (proj1 (hooked_redis_transparent (P := MemProm) (E := MemEnv) (R := MemRedis)
    demo_FullName demo_FullName_valid) _ (GET "k") ((demo_metrics, demo_clock), ∅))).
Defined.
