(* ===== verification/Asynq.v ===== *)
(** * Asynq: the server of queued tasks

    [internal/server/asynq.go]: which queues the server consumes, which job handles which
    type of task, the scheduled task, the error handler and the collector of queue
    metrics.  The asynq library is a parameter: its multiplexer ([mux_match]), its
    inspector, and -- as the rules of [step] -- what it documents about taking, retrying
    and archiving tasks. *)
From Stdlib Require Import ZArith Lia List Ascii String.
From stdpp Require Import base gmap strings list numbers.
From S2P Require Import Prelude GoLib Model Po Env Mem Keys Router Cache Event Quota.
From S2P Require Import StrategyRepo Raffle Activity PartakeData QuotaData ActivityWiring StrategyData Consumers Metrics.
Open Scope Z_scope.

Record Task := mkTask { at_Type : string; at_Payload : string }.

(** [conf.Asynq] *)
Record AsynqConf := mkAsynqConf {
  ac_Host : string;
  ac_Port : Z;
  ac_Db : Z;
  ac_PoolSize : Z;
  ac_Concurrency : Z }.

Record RedisClientOpt := mkRedisClientOpt { ro_Addr : string; ro_DB : Z; ro_PoolSize : Z }.
Definition asynq_redis_opt (cfg : AsynqConf) : RedisClientOpt :=
  mkRedisClientOpt (ac_Host cfg ++ ":" ++ FormatInt (ac_Port cfg)) (ac_Db cfg) (ac_PoolSize cfg).

Definition NewAsynqClient (cfg : AsynqConf) : RedisClientOpt := asynq_redis_opt cfg.
Definition NewAsynqInspector (cfg : AsynqConf) : RedisClientOpt := asynq_redis_opt cfg.

(** What the library reports of a queue. *)
Record QueueInfo := mkQueueInfo { qi_Size : Z; qi_Retry : Z; qi_Scheduled : Z }.
Class AsynqInspector (Q : Type) := {
  in_Queues : M Q (list string);
  in_GetQueueInfo : string -> M Q QueueInfo;
  is_queue_not_found : gerr -> bool }.

Section Server.
Context {P E S : Type} `{PromOps P} `{EnvOps E}.
Notation Node := (Measured P E S).

(** The server's parts; handlers are registered wrapped. *)
Record AsynqServer := mkAsynqServer {
  as_redis : RedisClientOpt;
  as_Concurrency : Z;
  as_Queues : gmap string Z;
  as_mux : list (string * (Task -> M Node unit));
  as_scheduler : list (string * Task);
  as_queues : list string }.

(** [mux.HandleFunc] refuses a pattern twice. *)
Definition HandleFunc (pattern : string) (h : Task -> M Node unit) (mux : list (string * (Task -> M Node unit)))
    : res (list (string * (Task -> M Node unit))) :=
  if existsb (fun e => String.eqb e.1 pattern) mux
  then Panic ("asynq: multiple registrations for " ++ pattern)
  else Ret (mux ++ [(pattern, h)]).

Variable cron_ok : string -> bool.

(** [ProcessTask] of the three jobs. *)
Variables skuStockJob stateSyncJob strategyAwardStockJob : Task -> M S unit.

Definition server_queues : list string := [TaskTypeActivitySkuStockConsume; "default"; "low"]%string.

Definition NewAsynqServer (cfg : AsynqConf) : res AsynqServer :=
  let? mux := HandleFunc TaskTypeActivitySkuStockConsume
                (wrapAsynqHandler TaskTypeActivitySkuStockConsume skuStockJob) [] in
  let? mux := HandleFunc TaskTypeActivityStateSync (wrapAsynqHandler TaskTypeActivityStateSync stateSyncJob) mux in
  let? mux := HandleFunc TaskTypeStrategyAwardStockConsume
                (wrapAsynqHandler TaskTypeStrategyAwardStockConsume strategyAwardStockJob) mux in
  Ret (mkAsynqServer (asynq_redis_opt cfg) (ac_Concurrency cfg) NewAsynqServer_queues mux
         (if cron_ok "@every 5s" then [("@every 5s"%string, mkTask TaskTypeActivityStateSync EmptyString)] else [])
         server_queues).

(** [ErrorHandler] *)
Definition ErrorHandler (task : Task) (err : gerr) : M Node unit :=
  in_prom (IncAsynqTask (at_Type task) (asynqTaskResult err)).

(** The multiplexer calls the handler of the pattern it matches. *)
Variable mux_match : list string -> string -> option string.
Definition mux_ProcessTask (s : AsynqServer) (task : Task) : M Node unit :=
  match mux_match (map fst (as_mux s)) (at_Type task) with
  | Some pattern =>
      match find (fun e => String.eqb e.1 pattern) (as_mux s) with
      | Some (_, h) => h task
      | None => fail (EExt "handler not found for task")
      end
  | None => fail (EExt "handler not found for task")
  end.

(** *** Start, Stop *)
Record Lifecycle := mkLifecycle {
  lf_scheduler_Start : M S unit;
  lf_server_Start : M S unit;
  lf_scheduler_Shutdown : M S unit;
  lf_server_Shutdown : M S unit;
  lf_inspector_Close : M S unit }.

Definition Start (startQueueMetricsCollector : M S unit) (l : Lifecycle) : M S unit :=
  startQueueMetricsCollector ;;;
  with_err (EWrap "scheduler start failed: ") (lf_scheduler_Start l) ;;;
  with_err (EWrap "asynq server start failed: ") (lf_server_Start l).

Definition Stop (inspector : bool) (l : Lifecycle) : M S unit :=
  lf_scheduler_Shutdown l ;;;
  lf_server_Shutdown l ;;;
  if inspector then let! _ := attempt (lf_inspector_Close l) in ret tt else ret tt.

(** *** The collector *)
Section Collector.
Context `{AsynqInspector S}.

Definition collect_queue (queue : string) : M Node unit :=
  let! info := attempt (in_call (in_GetQueueInfo queue)) in
  match info with
  | inr err =>
      if errors_is is_queue_not_found err then in_prom (SetAsynqQueueStats queue 0 0 0) else ret tt
  | inl info => in_prom (SetAsynqQueueStats queue (qi_Size info) (qi_Retry info) (qi_Scheduled info))
  end.

Definition collectQueueMetrics (inspector : bool) (s : AsynqServer) : M Node unit :=
  if negb inspector then ret tt
  else
    let queueSet : gset string := list_to_set (as_queues s) in
    let! r := attempt (in_call in_Queues) in
    let queueSet := match r with inl queues => list_to_set queues ∪ queueSet | inr _ => queueSet end in
    let! order := in_clock (ev_shuffle (elements queueSet)) in
    for_each order collect_queue.

(** The goroutine: once at the start, then at every tick ([true]) until the context ends. *)
Fixpoint collector_ticks (inspector : bool) (s : AsynqServer) (events : list bool) : M Node unit :=
  match events with
  | true :: events' => collectQueueMetrics inspector s ;;; collector_ticks inspector s events'
  | _ => ret tt
  end.
Definition startQueueMetricsCollector (inspector : bool) (s : AsynqServer) (events : list bool) : M Node unit :=
  collectQueueMetrics inspector s ;;; collector_ticks inspector s events.
End Collector.

(** ** Runs

    The tasks of each queue that are not finished, and the node.  The library takes tasks
    from the queues of the server's configuration only; a task whose handler succeeds is
    finished; one that fails or panics goes to the error handler and is retried, or
    archived when it must not or may no longer be. *)
Notation queues := (gmap string (list Task)) (only parsing).

Inductive step (s : AsynqServer) : queues * Node -> queues * Node -> Prop :=
| step_enqueue qs n q t :
    step s (qs, n) (<[q := default [] (qs !! q) ++ [t]]> qs, n)
| step_done qs n q l1 t l2 n' :
    q ∈ dom (as_Queues s) -> qs !! q = Some (l1 ++ t :: l2) -> mux_ProcessTask s t n = (Ret tt, n') ->
    step s (qs, n) (<[q := l1 ++ l2]> qs, n')
| step_retry qs n q l1 t l2 r n1 err n' :
    q ∈ dom (as_Queues s) -> qs !! q = Some (l1 ++ t :: l2) -> mux_ProcessTask s t n = (r, n1) ->
    (r = Fail err \/ exists p, r = Panic p) -> errors_is is_skip_retry err = false ->
    ErrorHandler t err n1 = (Ret tt, n') ->
    step s (qs, n) (qs, n')
| step_archive qs n q l1 t l2 r n1 err n' :
    q ∈ dom (as_Queues s) -> qs !! q = Some (l1 ++ t :: l2) -> mux_ProcessTask s t n = (r, n1) ->
    (r = Fail err \/ exists p, r = Panic p) ->
    ErrorHandler t err n1 = (Ret tt, n') ->
    step s (qs, n) (<[q := l1 ++ l2]> qs, n').

Definition run (s : AsynqServer) : queues * Node -> queues * Node -> Prop := rtc (step s).
End Server.

Lemma elem_of_queues q : q ∈ dom NewAsynqServer_queues <-> In q server_queues.
Proof.
  unfold NewAsynqServer_queues, server_queues. rewrite !dom_insert_L, dom_singleton_L.
  rewrite !elem_of_union, !elem_of_singleton. cbn [In].
  generalize TaskTypeActivitySkuStockConsume as a. generalize "default"%string as b, "low"%string as c. intros.
  intuition congruence.
Qed.

Lemma find_registered {A B} (f : string -> A -> B) (l : list (string * A)) ty job :
  NoDup (map fst l) -> In (ty, job) l ->
  find (fun e => String.eqb e.1 ty) (map (fun j => (j.1, f j.1 j.2)) l) = Some (ty, f ty job).
Proof.
  induction l as [|[k v] l IH]; cbn; [done|]. intros Hnd Hin. inversion_clear Hnd as [|? ? Hk Hnd'].
  destruct Hin as [Hin|Hin].
  - apply pair_equal_spec in Hin as [-> ->]. by rewrite String.eqb_refl.
  - destruct (String.eqb_spec k ty) as [->|]; [|by apply IH].
    destruct Hk. apply list_elem_of_In. by apply (in_map fst) in Hin.
Qed.

Section Facts.
Context {P E S : Type} `{PromLaws P} `{EnvLaws E}.
Notation Node := (Measured P E S).
Variable cron_ok : string -> bool.
Variables skuStockJob stateSyncJob strategyAwardStockJob : Task -> M S unit.
Variable mux_match : list string -> string -> option string.
(** A type that is itself a pattern matches that pattern. *)
Hypothesis mux_match_exact : forall patterns ty, In ty patterns -> mux_match patterns ty = Some ty.
Hypothesis mux_match_sound : forall patterns ty p, mux_match patterns ty = Some p -> In p patterns.

Definition server_jobs : list (string * (Task -> M S unit)) :=
  [(TaskTypeActivitySkuStockConsume, skuStockJob); (TaskTypeActivityStateSync, stateSyncJob);
   (TaskTypeStrategyAwardStockConsume, strategyAwardStockJob)].

Definition server_of (cfg : AsynqConf) : AsynqServer (P := P) (E := E) (S := S) :=
  mkAsynqServer (asynq_redis_opt cfg) (ac_Concurrency cfg) NewAsynqServer_queues
    (map (fun j : string * (Task -> M S unit) => (j.1, wrapAsynqHandler j.1 j.2)) server_jobs)
    (if cron_ok "@every 5s" then [("@every 5s"%string, mkTask TaskTypeActivityStateSync EmptyString)] else [])
    server_queues.

Lemma NewAsynqServer_eq cfg :
  NewAsynqServer cron_ok skuStockJob stateSyncJob strategyAwardStockJob cfg = Ret (server_of cfg).
Proof. reflexivity. Qed.

Lemma server_types_valid : forallb valid_utf8 (map fst server_jobs) = true.
Proof.
  unfold server_jobs. cbn [map fst forallb]. by rewrite !runes_ascii by (vm_compute; reflexivity).
Qed.

(** The server that is built hands a task to the job registered for its type, and the
    job's result and effect are what the server sees; a task of any other type reaches no
    job it is not matched with, and only tasks of the three served queues are taken. *)
Theorem NewAsynqServer_dispatches (cfg : AsynqConf) s
    (Hnew : NewAsynqServer cron_ok skuStockJob stateSyncJob strategyAwardStockJob cfg = Ret s) :
  (forall ty job payload (n : Node), In (ty, job) server_jobs ->
     (mux_ProcessTask mux_match s (mkTask ty payload) n).1 = (job (mkTask ty payload) n.2).1 /\
     (mux_ProcessTask mux_match s (mkTask ty payload) n).2.2 = (job (mkTask ty payload) n.2).2) /\
  (forall t (n : Node), mux_match (map fst server_jobs) (at_Type t) = None ->
     exists e, mux_ProcessTask mux_match s t n = (Fail e, n)) /\
  dom (as_Queues s) = list_to_set server_queues.
Proof.
  rewrite NewAsynqServer_eq in Hnew. injection Hnew as <-. split_and!.
  - intros ty job payload n Hin. unfold mux_ProcessTask. cbn [at_Type].
    rewrite mux_match_exact.
    2: { cbn [as_mux server_of]. rewrite map_map. apply (in_map fst) in Hin. exact Hin. }
    assert (Hv : valid_utf8 ty = true).
    { pose proof server_types_valid as Ht. rewrite forallb_forall in Ht. apply Ht. by apply (in_map fst) in Hin. }
    cbn [as_mux server_of]. rewrite (find_registered _ server_jobs ty job); [| |exact Hin].
    2: { apply (bool_decide_unpack _). by vm_compute. }
    by apply wrapAsynqHandler_transparent.
  - intros t n Hno. unfold mux_ProcessTask. cbn [as_mux server_of]. rewrite map_map. cbn [fst].
    change (map (fun x : string * (Task -> M S unit) => x.1) server_jobs) with (map fst server_jobs).
    rewrite Hno. by eexists.
  - apply set_eq. intros q. cbn [as_Queues server_of]. rewrite elem_of_queues, elem_of_list_to_set.
    symmetry. apply list_elem_of_In.
Qed.

(** A task on a queue the server does not consume is never taken, however long it runs and
    whatever is enqueued meanwhile: the queue keeps its tasks in order and only gains. *)
Lemma unserved_tasks_stay (cfg : AsynqConf) s (qs qs' : gmap string (list Task)) (n n' : Node) (q : string)
    (Hnew : NewAsynqServer cron_ok skuStockJob stateSyncJob strategyAwardStockJob cfg = Ret s)
    (Hq : ~ In q server_queues) (Hrun : run mux_match s (qs, n) (qs', n')) :
  exists later, default [] (qs' !! q) = default [] (qs !! q) ++ later.
Proof.
  rewrite NewAsynqServer_eq in Hnew. injection Hnew as <-.
  remember (qs, n) as c eqn:Ec. remember (qs', n') as c' eqn:Ec'. revert qs n Ec.
  induction Hrun as [c|c1 c2 c3 Hstep Hrun IH]; intros qs n ->.
  { injection Ec' as <- <-. exists []. by rewrite app_nil_r. }
  destruct c2 as [qs2 n2]. destruct (IH Ec' qs2 n2 eq_refl) as [later Hl].
  assert (Hne : forall q0, q0 ∈ dom (as_Queues (server_of cfg)) -> q0 <> q)
    by (intros q0 Hd ->; by apply Hq, elem_of_queues).
  assert (Hs : exists new, default [] (qs2 !! q) = default [] (qs !! q) ++ new).
  { inversion Hstep; subst.
    - destruct (decide (q0 = q)) as [->|N]; [rewrite lookup_insert_eq; by eexists|].
      exists []. by rewrite lookup_insert_ne, app_nil_r.
    - exists []. rewrite lookup_insert_ne, app_nil_r; [done|by apply Hne].
    - exists []. by rewrite app_nil_r.
    - exists []. rewrite lookup_insert_ne, app_nil_r; [done|by apply Hne]. }
  destruct Hs as [new Hn]. exists (new ++ later). by rewrite Hl, Hn, app_assoc.
Qed.

(** What [client.Enqueue] of the library does. *)
Class AsynqClientLaws (F : Type) `{EnvOps F} := {
  queues_of : F -> gmap string (list Task);
  enqueue_law : forall ty payload q delay f u f', ev_enqueue ty payload q delay f = (Ret u, f') ->
    queues_of f' = <[q := default [] (queues_of f !! q) ++ [mkTask ty payload]]> (queues_of f) }.

Lemma enqueued {F} `{AsynqClientLaws F} ty payload q delay (f : F) u f' :
  ev_enqueue ty payload q delay f = (Ret u, f') -> In (mkTask ty payload) (default [] (queues_of f' !! q)).
Proof.
  intros Hq. apply enqueue_law in Hq as ->. rewrite lookup_insert_eq. cbn. apply in_or_app. right. by left.
Qed.

Section Debits.
Context {R D F : Type} `{AsynqClientLaws F} `{Codec ActivitySkuStockKey} `{Codec AwardStockConsumeMessage}.
Notation World := (W R D F).

(** C9. The debits of both stocks are never carried out by the server: the task a sale or a
    draw sends is still in its queue after any run of the server that was built, with any
    tasks enqueued, finished, failed or archived meanwhile. *)
Theorem stock_debits_never_taken (cfg : AsynqConf) (s : AsynqServer (P := P) (E := E) (S := S))
    (w w' : World) (qs' : gmap string (list Task)) (n n' : Node)
    (Hnew : NewAsynqServer (E := E) cron_ok skuStockJob stateSyncJob strategyAwardStockJob cfg = Ret s)
    (Hrun : run (E := E) mux_match s (queues_of (w_env w'), n) (qs', n')) :
  (forall skuStockKey, QuotaData.ActivitySkuStockConsumeSendQueue skuStockKey w = (Ret tt, w') ->
     exists payload, marshal (Some skuStockKey) = Ret payload /\
       In (mkTask TaskTypeActivitySkuStockConsume payload) (default [] (qs' !! QueueNameSkuStock))) /\
  (forall strategyID awardID, StrategyData.AwardStockConsumeSendQueue strategyID awardID w = (Ret tt, w') ->
     exists payload, marshal (Some (mkAwardStockConsumeMessage strategyID awardID)) = Ret payload /\
       In (mkTask TaskTypeStrategyAwardStockConsume payload) (default [] (qs' !! "critical"%string))).
Proof.
  assert (Hstays : forall q t, ~ In q server_queues -> In t (default [] (queues_of (w_env w') !! q)) ->
    In t (default [] (qs' !! q))).
  { intros q t Hq Hin. destruct (unserved_tasks_stay cfg s _ _ _ _ q Hnew Hq Hrun) as [later ->].
    apply in_or_app. by left. }
  split; intros; [unfold QuotaData.ActivitySkuStockConsumeSendQueue in *|unfold StrategyData.AwardStockConsumeSendQueue in *];
    (match goal with Hs : bind (lift_res ?m) _ w = _ |- _ => destruct m as [payload|e|p] eqn:Em; [|discriminate Hs..];
       exists payload; split; [done|]; unfold bind, lift_res, in_env in Hs end);
    destruct w as [ [r f] d];
    (match goal with Hs : context [ev_enqueue ?a ?b ?c ?t f] |- _ => destruct (ev_enqueue a b c t f) as [x f'] eqn:Eq end);
    (match goal with Hs : (_, _) = (Ret tt, w') |- _ => injection Hs as -> <- end);
    apply enqueued in Eq; (apply Hstays; [vm_compute; intuition discriminate|exact Eq]).
Qed.
End Debits.
End Facts.

(** ** Witnesses *)
#[local] Existing Instances MemPromOps MemPromLaws.
Definition demo_match (patterns : list string) (ty : string) : option string :=
  if existsb (String.eqb ty) patterns then Some ty else None.
Lemma demo_match_exact patterns ty : In ty patterns -> demo_match patterns ty = Some ty.
Proof.
  intros Hin. unfold demo_match. assert (E : existsb (String.eqb ty) patterns = true).
  { apply existsb_exists. exists ty. split; [done|apply String.eqb_refl]. }
  by rewrite E.
Defined.
Lemma demo_match_sound patterns ty p : demo_match patterns ty = Some p -> In p patterns.
Proof.
  unfold demo_match. destruct (existsb (String.eqb ty) patterns) eqn:E; [|done]. intros [= <-].
  apply existsb_exists in E as (x & Hx & Ex). apply String.eqb_eq in Ex. by subst.
Defined.

Definition demo_sku_job (t : Task) : M (list string) unit := fun l => (Ret tt, at_Payload t :: l).
Definition demo_other_job (t : Task) : M (list string) unit := fun l => (Fail ESkipRetry, l).
Definition demo_cfg : AsynqConf := mkAsynqConf "127.0.0.1" 6379 1 10 10.
Definition demo_server : AsynqServer (P := MemProm) (E := MemEnv) (S := list string) :=
  server_of (fun _ => true) demo_sku_job demo_other_job demo_other_job demo_cfg.
Definition demo_node : Measured MemProm MemEnv (list string) := ((demo_metrics, demo_clock), []).
Definition demo_task : Task := mkTask TaskTypeActivitySkuStockConsume "9".

Lemma NewAsynqServer_dispatches_witness :
  (mux_ProcessTask demo_match demo_server demo_task demo_node).2.2 = ["9"%string] /\
  (mux_ProcessTask demo_match demo_server demo_task demo_node).1 = Ret tt.
Proof.
  split; [vm_compute; reflexivity|].
  refine (proj1 (proj1 (NewAsynqServer_dispatches (fun _ => true) demo_sku_job demo_other_job demo_other_job
    demo_match demo_match_exact demo_cfg demo_server _) _ demo_sku_job "9" demo_node _)).
  - reflexivity.
  - by left.
Defined.

(** A sale sends its debit; a task on a served queue is enqueued and processed; the debit
    is where it was. *)
#[local] Existing Instances demo_c7.
#[local] Instance demo_debit_codec : Codec AwardStockConsumeMessage :=
  one_value_codec (mkAwardStockConsumeMessage 1 101) (mkAwardStockConsumeMessage 0 0).

Definition file_task (qs : gmap string (list Task)) (x : string * string * string) : gmap string (list Task) :=
  <[x.2 := default [] (qs !! x.2) ++ [mkTask x.1.1 x.1.2]]> qs.
#[local] Instance MemAsynqClient : AsynqClientLaws MemEnv.
Proof.
  refine {| queues_of := fun e : MemEnv => fold_left file_task (me_queue e) ∅ |}.
  intros ty payload q delay f u f' [= <- <-]. cbn [me_queue]. by rewrite fold_left_app.
Defined.

Definition demo_sold : ActivitySkuStockKey := mkActivitySkuStockKey 9 100.
Definition demo_before_sale : MemWorld := mem_world ∅ mem_no_rows 0 [].
Definition demo_after_sale : MemWorld := (QuotaData.ActivitySkuStockConsumeSendQueue demo_sold demo_before_sale).2.
Definition demo_served_node := (mux_ProcessTask demo_match demo_server demo_task demo_node).2.
Definition demo_queues : gmap string (list Task) := queues_of (w_env demo_after_sale).
Definition demo_queues_filled := <["default"%string := default [] (demo_queues !! "default"%string) ++ [demo_task]]> demo_queues.
Definition demo_queues_after := <["default"%string := @app Task [] [] ]> demo_queues_filled.

Lemma demo_served_run : run demo_match demo_server (demo_queues, demo_node) (demo_queues_after, demo_served_node).
Proof.
  eapply rtc_l; [apply (step_enqueue _ _ _ _ "default" demo_task)|]. apply rtc_once.
  apply (step_done _ _ _ _ "default" [] demo_task []).
  - apply elem_of_queues. right; left; reflexivity.
  - vm_compute. reflexivity.
  - apply (f_equal (fun r => (r, demo_served_node))) with (y := Ret tt) (x := (mux_ProcessTask demo_match demo_server demo_task demo_node).1).
    vm_compute. reflexivity.
Qed.

Lemma stock_debits_never_taken_witness :
  exists payload, marshal (Some demo_sold) = Ret payload /\
    In (mkTask TaskTypeActivitySkuStockConsume payload) (default [] (demo_queues_after !! QueueNameSkuStock)).
Proof.
  refine (proj1 (stock_debits_never_taken (fun _ => true) demo_sku_job demo_other_job demo_other_job demo_match demo_cfg
    demo_server demo_before_sale demo_after_sale _ _ _ eq_refl demo_served_run) demo_sold _).
  vm_compute. reflexivity.
Defined.
