(* ===== verification/Broker.v ===== *)
(** * Broker: the RabbitMQ server and publisher on a broker

    [internal/server/rabbitmq_server.go] -- [Start], [startConsumer], [Stop] and the
    loop of [handle] with its acknowledgements -- and the channel under
    [internal/data/rabbitmq_publisher.go].  The AMQP library and the broker are
    [AmqpOps]; [AmqpLaws] is what the protocol documents, on a [broker] of exchanges,
    bindings, queues and outstanding deliveries.  A [Process] is the server, the
    publisher, the broker and the host state the listeners run on; it interprets the
    environment of [Event.Publish] by calls on the publisher's channel. *)
From Stdlib Require Import ZArith Lia List Ascii String Permutation.
From stdpp Require Import base gmap strings list numbers.
From S2P Require Import Prelude GoLib Model Po Env Logic Mem Keys Router Cache Event Quota.
From S2P Require Import StrategyRepo Raffle Activity PartakeData ActivityWiring Consumers.
Open Scope Z_scope.

(** ** The library *)

Record Delivery := mkDelivery {
  d_channel : nat;
  d_tag : Z;
  d_Body : string }.

(** Channels and consumers are numbered; [am_Recv] is a receive from the Go channel
    [Consume] returned, [None] when it is closed. *)
Class AmqpOps (B : Type) := {
  am_Channel : M B nat;
  am_ExchangeDeclare : nat -> forall (name kind : string) (durable autoDelete internal noWait : bool), M B unit;
  am_QueueDeclare : nat -> forall (name : string) (durable autoDelete exclusive noWait : bool), M B string;
  am_QueueBind : nat -> forall (name key exchange : string) (noWait : bool), M B unit;
  am_Qos : nat -> forall (prefetchCount prefetchSize : Z) (global : bool), M B unit;
  am_Consume : nat -> forall (queue consumer : string) (autoAck exclusive noLocal noWait : bool), M B nat;
  am_Publish : nat -> forall (exchange key : string) (mandatory immediate : bool) (body : string), M B unit;
  am_Recv : nat -> M B (option Delivery);
  am_Ack : nat -> forall (tag : Z) (multiple : bool), M B unit;
  am_Nack : nat -> forall (tag : Z) (multiple requeue : bool), M B unit;
  am_Reject : nat -> forall (tag : Z) (requeue : bool), M B unit;
  am_Close : nat -> M B unit;
  am_conn_Close : M B unit }.

(** ** The broker *)
Record broker := mkBroker {
  bk_open : gset nat;
  bk_exchanges : gset string;
  bk_bound : gset (string * string);
  bk_ready : gmap string (list string);
  bk_unacked : gmap (nat * Z) (string * string);
  bk_consumers : gmap nat (nat * string) }.

(** The bodies delivered from a queue and not settled, and all the bodies of a queue. *)
Definition outstanding (q : string) (v : broker) : list string :=
  omap (fun x : (nat * Z) * (string * string) => if decide (x.2.1 = q) then Some x.2.2 else None)
    (map_to_list (bk_unacked v)).
Definition held (q : string) (v : broker) : list string :=
  default [] (bk_ready v !! q) ++ outstanding q v.

(** A channel or the connection may break at any time: consumers end and what was
    outstanding returns to its queue. *)
Record disturbed (v v' : broker) : Prop := {
  dis_exchanges : bk_exchanges v' = bk_exchanges v;
  dis_bound : bk_bound v' = bk_bound v;
  dis_open : bk_open v' ⊆ bk_open v;
  dis_consumers : bk_consumers v' ⊆ bk_consumers v;
  dis_held : forall q, Permutation (held q v) (held q v') }.

(** *** What a call does when it succeeds *)
Definition opened (ch : nat) (v v' : broker) : Prop :=
  ch ∉ bk_open v /\
  v' = mkBroker ({[ch]} ∪ bk_open v) (bk_exchanges v) (bk_bound v) (bk_ready v) (bk_unacked v) (bk_consumers v).
Definition exchange_declared (ch : nat) (x : string) (v v' : broker) : Prop :=
  ch ∈ bk_open v /\
  v' = mkBroker (bk_open v) ({[x]} ∪ bk_exchanges v) (bk_bound v) (bk_ready v) (bk_unacked v) (bk_consumers v).
Definition queue_declared (ch : nat) (q : string) (v v' : broker) : Prop :=
  ch ∈ bk_open v /\
  v' = mkBroker (bk_open v) (bk_exchanges v) (bk_bound v) (<[q := default [] (bk_ready v !! q)]> (bk_ready v))
         (bk_unacked v) (bk_consumers v).
Definition queue_bound (ch : nat) (q x : string) (v v' : broker) : Prop :=
  ch ∈ bk_open v /\ x ∈ bk_exchanges v /\
  v' = mkBroker (bk_open v) (bk_exchanges v) ({[(x, q)]} ∪ bk_bound v) (bk_ready v) (bk_unacked v) (bk_consumers v).
Definition consuming (ch : nat) (q : string) (c : nat) (v v' : broker) : Prop :=
  ch ∈ bk_open v /\ bk_consumers v !! c = None /\
  v' = mkBroker (bk_open v) (bk_exchanges v) (bk_bound v) (bk_ready v) (bk_unacked v)
         (<[c := (ch, q)]> (bk_consumers v)).

(** A fanout exchange copies a message to every queue bound to it. *)
Definition fanout (x body : string) (v : broker) : broker :=
  mkBroker (bk_open v) (bk_exchanges v) (bk_bound v)
    (map_imap (fun q l => Some (if decide ((x, q) ∈ bk_bound v) then l ++ [body] else l)) (bk_ready v))
    (bk_unacked v) (bk_consumers v).

(** Without confirms a publish that reports no error may still be lost. *)
Definition sent (x body : string) (v v' : broker) : Prop :=
  exists v1, (v1 = v \/ v1 = fanout x body v) /\ disturbed v1 v'.

Definition delivered (c : nat) (d : Delivery) (v v' : broker) : Prop :=
  exists q l1 l2, bk_consumers v !! c = Some (d_channel d, q) /\
    bk_ready v !! q = Some (l1 ++ d_Body d :: l2) /\ bk_unacked v !! (d_channel d, d_tag d) = None /\
    v' = mkBroker (bk_open v) (bk_exchanges v) (bk_bound v) (<[q := l1 ++ l2]> (bk_ready v))
           (<[(d_channel d, d_tag d) := (q, d_Body d)]> (bk_unacked v)) (bk_consumers v).

(** A settled delivery is forgotten; the acknowledgement may be lost with its channel. *)
Definition forgotten (ch : nat) (tag : Z) (v v' : broker) : Prop :=
  disturbed v v' \/
  v' = mkBroker (bk_open v) (bk_exchanges v) (bk_bound v) (bk_ready v)
         (delete (ch, tag) (bk_unacked v)) (bk_consumers v).

Definition outcome {A} (effect : A -> broker -> broker -> Prop) (v : broker) (r : res A) (v' : broker) : Prop :=
  match r with
  | Ret a => effect a v v'
  | Fail _ => disturbed v v' \/ exists a v1, effect a v v1 /\ disturbed v1 v'
  | Panic _ => False
  end.

(** The protocol, for the arguments the program uses.  A call on a channel that is
    closed fails and does nothing. *)
Class AmqpLaws (B : Type) `{AmqpOps B} := {
  am_view : B -> broker;
  am_Channel_law : forall b, outcome opened (am_view b) (am_Channel b).1 (am_view (am_Channel b).2);
  am_ExchangeDeclare_law : forall ch x b,
    let o := am_ExchangeDeclare ch x "fanout" true false false false b in
    outcome (fun _ => exchange_declared ch x) (am_view b) o.1 (am_view o.2);
  am_QueueDeclare_law : forall ch q b, q <> EmptyString ->
    let o := am_QueueDeclare ch q true false false false b in
    outcome (fun name v v' => name = q /\ queue_declared ch q v v') (am_view b) o.1 (am_view o.2);
  am_QueueBind_law : forall ch q x b,
    let o := am_QueueBind ch q EmptyString x false b in
    outcome (fun _ => queue_bound ch q x) (am_view b) o.1 (am_view o.2);
  am_Qos_law : forall ch b,
    let o := am_Qos ch 1 0 false b in outcome (fun _ v v' => v' = v) (am_view b) o.1 (am_view o.2);
  am_Consume_law : forall ch q b,
    let o := am_Consume ch q EmptyString false false false false b in
    outcome (consuming ch q) (am_view b) o.1 (am_view o.2);
  am_Publish_law : forall ch x body b,
    let o := am_Publish ch x EmptyString false false body b in
    outcome (fun _ => sent x body) (am_view b) o.1 (am_view o.2);
  am_Recv_law : forall c b,
    let o := am_Recv c b in
    outcome (fun d v v' => match d with None => disturbed v v' | Some d => delivered c d v v' end)
      (am_view b) o.1 (am_view o.2);
  am_Ack_law : forall ch tag b,
    let o := am_Ack ch tag false b in outcome (fun _ => forgotten ch tag) (am_view b) o.1 (am_view o.2);
  am_Reject_law : forall ch tag b,
    let o := am_Reject ch tag false b in outcome (fun _ => forgotten ch tag) (am_view b) o.1 (am_view o.2);
  am_Nack_law : forall ch tag b,
    let o := am_Nack ch tag false true b in outcome (fun _ => disturbed) (am_view b) o.1 (am_view o.2);
  am_Close_law : forall ch b, outcome (fun _ => disturbed) (am_view b) (am_Close ch b).1 (am_view (am_Close ch b).2);
  am_conn_Close_law : forall b, outcome (fun _ => disturbed) (am_view b) (am_conn_Close b).1 (am_view (am_conn_Close b).2);
  am_closed_publish : forall ch x body b, ch ∉ bk_open (am_view b) ->
    exists e b', am_Publish ch x EmptyString false false body b = (Fail e, b') /\ am_view b' = am_view b;
  am_closed_declare : forall ch x b, ch ∉ bk_open (am_view b) ->
    exists e b', am_ExchangeDeclare ch x "fanout" true false false false b = (Fail e, b') /\ am_view b' = am_view b }.

(** ** The process *)
Definition ErrRabbitMQChannelOpen : gerr := InternalServer "RABBITMQ_CHANNEL_OPEN" "failed to open channel".
Definition ErrRabbitMQExchangeDeclare : gerr :=
  InternalServer "RABBITMQ_EXCHANGE_DECLARE" "failed to declare exchange".
Definition ErrRabbitMQQueueDeclare : gerr := InternalServer "RABBITMQ_QUEUE_DECLARE" "failed to declare queue".
Definition ErrRabbitMQQueueBind : gerr := InternalServer "RABBITMQ_QUEUE_BIND" "failed to bind queue".
Definition ErrRabbitMQQosSet : gerr := InternalServer "RABBITMQ_QOS_SET" "failed to set QoS".
Definition ErrRabbitMQConsumerRegister : gerr :=
  InternalServer "RABBITMQ_CONSUMER_REGISTER" "failed to register consumer".

Record RabbitMQPublisher := mkRabbitMQPublisher {
  rp_channel : nat;
  rp_declaredExchanges : gset string }.

(** A listener on the host state, as [Consumers.handle_delivery] takes it. *)
Definition Listener (S : Type) : Type := string -> M S (bool * option gerr).

(** The server; [rs_workers] are the goroutines [startConsumer] starts, each a consumer
    with its listener.  [rs_conn] tells whether there is a connection. *)
Record RabbitMQServer (S : Type) := mkRabbitMQServer {
  rs_conn : bool;
  rs_listeners : gmap string (Listener S);
  rs_channels : list nat;
  rs_workers : list (nat * Listener S) }.
Arguments mkRabbitMQServer {S}.
Arguments rs_conn {S}.
Arguments rs_listeners {S}.
Arguments rs_channels {S}.
Arguments rs_workers {S}.

Record Process (B S : Type) := mkProcess {
  pr_server : RabbitMQServer S;
  pr_publisher : RabbitMQPublisher;
  pr_broker : B;
  pr_host : S }.
Arguments mkProcess {B S}.
Arguments pr_server {B S}.
Arguments pr_publisher {B S}.
Arguments pr_broker {B S}.
Arguments pr_host {B S}.

Section Process.
Context {B S : Type} `{AmqpOps B} `{EnvOps S}.
Notation Proc := (Process B S).

Definition in_broker {A} (m : M B A) : M Proc A := fun p =>
  let '(a, b) := m (pr_broker p) in (a, mkProcess (pr_server p) (pr_publisher p) b (pr_host p)).
Definition in_host {A} (m : M S A) : M Proc A := fun p =>
  let '(a, s) := m (pr_host p) in (a, mkProcess (pr_server p) (pr_publisher p) (pr_broker p) s).
Definition the_server : M Proc (RabbitMQServer S) := fun p => (Ret (pr_server p), p).
Definition set_server (f : RabbitMQServer S -> RabbitMQServer S) : M Proc unit := fun p =>
  (Ret tt, mkProcess (f (pr_server p)) (pr_publisher p) (pr_broker p) (pr_host p)).
Definition the_publisher : M Proc RabbitMQPublisher := fun p => (Ret (pr_publisher p), p).

(** ** The publisher's channel *)
Definition NewRabbitMQPublisher : M B RabbitMQPublisher :=
  let! ch := am_Channel in
  ret (mkRabbitMQPublisher ch ∅).

(** The environment of a process: exchanges and messages go to the publisher's channel,
    the rest is the host's. *)
#[local] Instance ProcessEnvOps : EnvOps Proc := {
  ev_now := in_host ev_now;
  ev_offset := ev_offset (E := S);
  ev_int63n := fun n => in_host (ev_int63n n);
  ev_shuffle := fun A l => in_host (ev_shuffle l);
  ev_crypto_int := fun n => in_host (ev_crypto_int n);
  ev_crypto_read := fun n => in_host (ev_crypto_read n);
  ev_exchange_declare := fun topic =>
    let! p := the_publisher in
    in_broker (am_ExchangeDeclare (rp_channel p) topic "fanout" true false false false);
  ev_amqp_publish := fun topic body =>
    let! p := the_publisher in
    in_broker (am_Publish (rp_channel p) topic EmptyString false false body);
  ev_enqueue := fun ty pl q d => in_host (ev_enqueue ty pl q d);
  ev_delete_queue := fun q => in_host (ev_delete_queue q) }.

#[local] Instance ProcessPublisherMem : PublisherMem Proc := {
  declared := fun p topic => bool_decide (topic ∈ rp_declaredExchanges (pr_publisher p));
  declare := fun topic p =>
    mkProcess (pr_server p)
      (mkRabbitMQPublisher (rp_channel (pr_publisher p)) ({[topic]} ∪ rp_declaredExchanges (pr_publisher p)))
      (pr_broker p) (pr_host p) }.

(** ** Start and stop *)
Definition startConsumer (topic : string) (l : Listener S) : M Proc unit :=
  let! s := the_server in
  let! channel := (if rs_conn s then with_err (WithCause ErrRabbitMQChannelOpen) (in_broker am_Channel)
                   else panic nil_deref) in
  with_err (WithCause ErrRabbitMQExchangeDeclare)
    (in_broker (am_ExchangeDeclare channel topic "fanout" true false false false)) ;;;
  let! q := with_err (WithCause ErrRabbitMQQueueDeclare)
    (in_broker (am_QueueDeclare channel (topic ++ "_queue") true false false false)) in
  with_err (WithCause ErrRabbitMQQueueBind) (in_broker (am_QueueBind channel q EmptyString topic false)) ;;;
  with_err (WithCause ErrRabbitMQQosSet) (in_broker (am_Qos channel 1 0 false)) ;;;
  let! msgs := with_err (WithCause ErrRabbitMQConsumerRegister)
    (in_broker (am_Consume channel q EmptyString false false false false)) in
  set_server (fun s => mkRabbitMQServer (rs_conn s) (rs_listeners s) (rs_channels s) (rs_workers s ++ [(msgs, l)])) ;;;
  set_server (fun s => mkRabbitMQServer (rs_conn s) (rs_listeners s) (rs_channels s ++ [channel]) (rs_workers s)).

Definition Start : M Proc unit :=
  let! s := the_server in
  let! listeners := range_map (rs_listeners s) in
  for_each listeners (fun tl => startConsumer tl.1 tl.2).

Definition Stop : M Proc unit :=
  let! s := the_server in
  for_each (rs_channels s) (fun ch => let! _ := attempt (in_broker (am_Close ch)) in ret tt) ;;;
  if rs_conn s then let! _ := attempt (in_broker am_conn_Close) in ret tt else ret tt.

(** ** The loop of a worker *)

(** The answer to a delivery; its error is dropped. *)
Definition settle (d : Delivery) (v : verdict) : M Proc unit :=
  let! _ := attempt (in_broker (match v with
    | Acked => am_Ack (d_channel d) (d_tag d) false
    | Requeued => am_Nack (d_channel d) (d_tag d) false true
    | Rejected => am_Reject (d_channel d) (d_tag d) false
    end)) in
  ret tt.

(** One round of [for d := range msgs]: the body and what became of it, [None] when the
    loop ends. *)
Definition serve (worker : nat * Listener S) : M Proc (option (string * verdict)) :=
  let! d := in_broker (am_Recv worker.1) in
  match d with
  | None => ret None
  | Some d =>
      let! v := in_host (handle_delivery worker.2 (d_Body d)) in
      settle d v ;;;
      ret (Some (d_Body d, v))
  end.
End Process.

(** ** Runs of the process *)

(** What a step does to messages: one is published on an exchange, or a consumer has
    settled one. *)
Inductive happening :=
| Published (topic body : string)
| Settled (consumer : nat) (body : string) (v : verdict).

Section Runs.
Context {B S : Type} `{AmqpLaws B} `{EnvOps S}.
Notation Proc := (Process B S).
#[local] Existing Instance ProcessEnvOps.
#[local] Existing Instance ProcessPublisherMem.

(** Somebody publishes, a worker serves a delivery, or the connection is disturbed. *)
Inductive step : list happening -> Proc -> Proc -> Prop :=
| step_publish {A} `{EventCodec A} topic (event : BaseEvent A) body p r p' :
    marshal_event event = Ret body -> Publish topic event p = (r, p') ->
    step [Published topic body] p p'
| step_serve worker p r p' :
    In worker (rs_workers (pr_server p)) -> serve worker p = (r, p') ->
    step (match r with Ret (Some (body, v)) => [Settled worker.1 body v] | _ => [] end) p p'
| step_disturbed p b' :
    disturbed (am_view (pr_broker p)) (am_view b') ->
    step [] p (mkProcess (pr_server p) (pr_publisher p) b' (pr_host p)).

Inductive run : list happening -> Proc -> Proc -> Prop :=
| run_refl p : run [] p p
| run_step tr1 tr2 p1 p2 p3 : step tr1 p1 p2 -> run tr2 p2 p3 -> run (tr1 ++ tr2) p1 p3.

Definition view (p : Proc) : broker := am_view (pr_broker p).

(** The bodies published on an exchange that is bound to the queue, and those a consumer
    of the queue acknowledged or rejected. *)
Definition published_to (v : broker) (q : string) (tr : list happening) : list string :=
  omap (fun h => match h with
    | Published topic body => if decide ((topic, q) ∈ bk_bound v) then Some body else None
    | Settled _ _ _ => None
    end) tr.
Definition settled_from (v : broker) (q : string) (tr : list happening) : list string :=
  omap (fun h => match h with
    | Settled c body (Acked | Rejected) =>
        match bk_consumers v !! c with
        | Some (_, q') => if decide (q' = q) then Some body else None
        | None => None
        end
    | _ => None
    end) tr.
End Runs.

(** ** Where messages go *)
Section Accounts.

Lemma outstanding_insert q k q' b (v v' : broker) :
  bk_unacked v !! k = None -> bk_unacked v' = <[k := (q', b)]> (bk_unacked v) ->
  Permutation (outstanding q v') ((if decide (q' = q) then [b] else []) ++ outstanding q v).
Proof.
  intros Hk Hv. unfold outstanding. rewrite Hv, (map_to_list_insert _ _ _ Hk). cbn. by destruct (decide (q' = q)).
Qed.

Lemma outstanding_delete q k q' b (v v' : broker) :
  bk_unacked v !! k = Some (q', b) -> bk_unacked v' = delete k (bk_unacked v) ->
  Permutation (outstanding q v) ((if decide (q' = q) then [b] else []) ++ outstanding q v').
Proof.
  intros Hk Hv. eapply (outstanding_insert q k q' b v' v).
  - rewrite Hv. apply lookup_delete_eq.
  - by rewrite Hv, insert_delete_id.
Qed.

(** [moves q A D v v']: what the queue holds changes by arrivals among [A] and
    departures among [D], and no binding or consumer is added. *)
Definition moves (q : string) (A D : list string) (v v' : broker) : Prop :=
  bk_bound v' = bk_bound v /\ bk_consumers v' ⊆ bk_consumers v /\
  exists arrived departed, sublist arrived A /\ sublist departed D /\
    Permutation (held q v ++ arrived) (held q v' ++ departed).

Lemma moves_disturbed q A D v v' : disturbed v v' -> moves q A D v v'.
Proof.
  intros [_ Hb _ Hc Hh]. split; [done|]. split; [done|]. exists [], []. rewrite !app_nil_r.
  split; [apply sublist_nil_l|]. split; [apply sublist_nil_l|apply Hh].
Qed.

Lemma disturbed_refl v : disturbed v v.
Proof. by constructor. Qed.

Lemma disturbed_trans v1 v2 v3 : disturbed v1 v2 -> disturbed v2 v3 -> disturbed v1 v3.
Proof.
  intros [E1 B1 O1 C1 P1] [E2 B2 O2 C2 P2].
  constructor; [congruence|congruence|set_solver|exact (transitivity C2 C1)|]. intros q. by rewrite P1.
Qed.

Lemma moves_trans q A1 D1 A2 D2 v1 v2 v3 :
  moves q A1 D1 v1 v2 -> moves q A2 D2 v2 v3 -> moves q (A1 ++ A2) (D1 ++ D2) v1 v3.
Proof.
  intros (B1 & C1 & a1 & d1 & Sa1 & Sd1 & P1) (B2 & C2 & a2 & d2 & Sa2 & Sd2 & P2).
  split; [congruence|]. split; [by etrans|]. exists (a1 ++ a2), (d1 ++ d2).
  split; [by apply sublist_app|]. split; [by apply sublist_app|].
  rewrite (Permutation_app_comm d1 d2), !app_assoc, P1, <- P2, <- !app_assoc.
  apply Permutation_app_head, Permutation_app_comm.
Qed.

Lemma moves_then q A D v1 v2 v3 : moves q A D v1 v2 -> disturbed v2 v3 -> moves q A D v1 v3.
Proof.
  intros Hm Hd. rewrite <- (app_nil_r A), <- (app_nil_r D). eapply moves_trans; [done|by apply moves_disturbed].
Qed.

Lemma moves_weaken q A D A' D' v v' : sublist A A' -> sublist D D' -> moves q A D v v' -> moves q A' D' v v'.
Proof.
  intros HA HD (B1 & C1 & a & d & Sa & Sd & P). split; [done|]. split; [done|]. exists a, d.
  split; [by etrans|]. by split; [etrans|].
Qed.

Lemma moves_outcome {T} (effect : T -> broker -> broker -> Prop) q A D v r v' :
  outcome effect v r v' -> (forall a v1, effect a v v1 -> moves q A D v v1) -> moves q A D v v'.
Proof.
  intros Ho He. destruct r as [a|e|p]; cbn in Ho; [by eapply He| |done].
  destruct Ho as [Hd|(a & v1 & Ha & Hd)]; [by apply moves_disturbed|].
  by eapply moves_then; [eapply He|].
Qed.

Lemma moves_same q v v' :
  bk_bound v' = bk_bound v -> bk_consumers v' = bk_consumers v -> held q v' = held q v -> moves q [] [] v v'.
Proof.
  intros Hb Hc Hh. split; [done|]. split; [by rewrite Hc|]. exists [], []. rewrite !app_nil_r, Hh.
  by split_and!.
Qed.

Lemma moves_fanout q x body v :
  moves q (if decide ((x, q) ∈ bk_bound v) then [body] else []) [] v (fanout x body v).
Proof.
  split; [done|]. split; [done|]. unfold held, fanout, outstanding; cbn. rewrite map_lookup_imap.
  destruct (bk_ready v !! q) as [l|] eqn:Eq; cbn.
  - exists (if decide ((x, q) ∈ bk_bound v) then [body] else []), []. split; [done|]. split; [done|].
    rewrite app_nil_r. destruct (decide _); [|by rewrite app_nil_r].
    rewrite <- !app_assoc. apply Permutation_app_head, Permutation_app_comm.
  - exists [], []. rewrite !app_nil_r. split; [apply sublist_nil_l|]. by split.
Qed.

Lemma moves_sent q x body v v' :
  sent x body v v' -> moves q (if decide ((x, q) ∈ bk_bound v) then [body] else []) [] v v'.
Proof.
  intros (v1 & [->| ->] & Hd); [by apply moves_disturbed|].
  by eapply moves_then; [apply moves_fanout|].
Qed.

Lemma moves_delivered q c d v v' : delivered c d v v' -> moves q [] [] v v'.
Proof.
  intros (q' & l1 & l2 & Hc & Hq & Hu & Hv). split; [by rewrite Hv|]. split; [by rewrite Hv|].
  exists [], []. rewrite !app_nil_r. split; [done|]. split; [done|]. unfold held.
  rewrite (outstanding_insert q (d_channel d, d_tag d) q' (d_Body d) v v' Hu) by (by rewrite Hv).
  rewrite Hv; cbn [bk_ready].
  destruct (decide (q' = q)) as [->|N]; [|by rewrite lookup_insert_ne].
  rewrite Hq, lookup_insert_eq. cbn [default from_option]. unfold id. cbn [app].
  rewrite <- !app_assoc. apply Permutation_app_head. cbn [app]. apply Permutation_middle.
Qed.

Lemma moves_forgotten q ch tag q' body v v' :
  bk_unacked v !! (ch, tag) = Some (q', body) -> forgotten ch tag v v' ->
  moves q [] (if decide (q' = q) then [body] else []) v v'.
Proof.
  intros Hu [Hd|Hv]; [by apply moves_disturbed|].
  split; [by rewrite Hv|]. split; [by rewrite Hv|]. exists [], (if decide (q' = q) then [body] else []).
  split; [done|]. split; [done|]. rewrite app_nil_r. unfold held.
  rewrite (outstanding_delete q (ch, tag) q' body v v' Hu) by (by rewrite Hv).
  replace (bk_ready v') with (bk_ready v) by (by rewrite Hv).
  rewrite <- !app_assoc. apply Permutation_app_head, Permutation_app_comm.
Qed.
End Accounts.

Section RunFacts.
Context {B S : Type} `{AmqpLaws B} `{EnvLaws S}.
Notation Proc := (Process B S).
#[local] Existing Instance ProcessEnvOps.
#[local] Existing Instance ProcessPublisherMem.

Lemma in_broker_inv {A} (m : M B A) (p : Proc) r p' :
  in_broker m p = (r, p') -> exists b', m (pr_broker p) = (r, b') /\
    p' = mkProcess (pr_server p) (pr_publisher p) b' (pr_host p).
Proof. unfold in_broker. destruct (m (pr_broker p)) as [a b]. intros [= <- <-]. eauto. Qed.

Lemma moves_publish {A} `{EventCodec A} q topic (event : BaseEvent A) body (p : Proc) r p' :
  marshal_event event = Ret body -> Publish topic event p = (r, p') ->
  moves q (if decide ((topic, q) ∈ bk_bound (view p)) then [body] else []) [] (view p) (view p').
Proof.
  intros Hm Hrun.
  assert (Hdecl : forall p0 r1 p1, ev_exchange_declare topic p0 = (r1, p1) -> moves q [] [] (view p0) (view p1)).
  { intros p0 r1 p1 E. apply in_broker_inv in E as (b' & E & ->). unfold view; cbn [pr_broker].
    pose proof (am_ExchangeDeclare_law (rp_channel (pr_publisher p0)) topic (pr_broker p0)) as Hl.
    cbv zeta in Hl. rewrite E in Hl. eapply moves_outcome; [exact Hl|]. intros u v1 [_ ->]. by apply moves_same. }
  assert (Hpub : forall p0 r1 p1, ev_amqp_publish topic body p0 = (r1, p1) ->
    moves q (if decide ((topic, q) ∈ bk_bound (view p0)) then [body] else []) [] (view p0) (view p1)).
  { intros p0 r1 p1 E. apply in_broker_inv in E as (b' & E & ->). unfold view; cbn [pr_broker].
    pose proof (am_Publish_law (rp_channel (pr_publisher p0)) topic body (pr_broker p0)) as Hl.
    cbv zeta in Hl. rewrite E in Hl. eapply moves_outcome; [exact Hl|]. intros u v1. apply moves_sent. }
  revert Hrun. unfold Publish. rewrite Hm. unfold bind at 1.
  destruct (declared p topic); cbn [lift_res with_err].
  - unfold bind, ret, with_err, lift_res. apply Hpub.
  - unfold bind, ret, with_err, lift_res.
    destruct (ev_exchange_declare topic p) as [ [u|e|s] p1] eqn:E1.
    + intros E2. apply Hdecl in E1. apply Hpub in E2. change (view (declare topic p1)) with (view p1) in E2.
      pose proof (moves_trans _ _ _ _ _ _ _ _ E1 E2) as Hmv. destruct E1 as (Eb & _). rewrite Eb in Hmv. exact Hmv.
    + intros [= _ <-]. apply Hdecl in E1. eapply moves_weaken; [apply sublist_nil_l|done|exact E1].
    + intros [= _ <-]. apply Hdecl in E1. eapply moves_weaken; [apply sublist_nil_l|done|exact E1].
Qed.

(** A served delivery leaves its queue only when it was acknowledged or rejected. *)
Lemma moves_settle q d v q' (p : Proc) r p' :
  bk_unacked (view p) !! (d_channel d, d_tag d) = Some (q', d_Body d) -> settle d v p = (r, p') ->
  r = Ret tt /\ moves q [] (match v with Requeued => [] | _ => if decide (q' = q) then [d_Body d] else [] end)
    (view p) (view p').
Proof.
  intros Hu. unfold settle, bind, attempt.
  destruct (in_broker _ p) as [r1 p1] eqn:E. apply in_broker_inv in E as (b' & E & ->).
  assert (Hl : outcome (fun _ => match v with Requeued => disturbed | _ => forgotten (d_channel d) (d_tag d) end)
    (view p) r1 (am_view b')).
  { unfold view. destruct v.
    - pose proof (am_Ack_law (d_channel d) (d_tag d) (pr_broker p)) as Hl. cbv zeta in Hl. by rewrite E in Hl.
    - pose proof (am_Nack_law (d_channel d) (d_tag d) (pr_broker p)) as Hl. cbv zeta in Hl. by rewrite E in Hl.
    - pose proof (am_Reject_law (d_channel d) (d_tag d) (pr_broker p)) as Hl. cbv zeta in Hl. by rewrite E in Hl. }
  intros Hr. assert (Hp : r = Ret tt /\ view p' = am_view b').
  { destruct r1; [by injection Hr as <- <-..|done]. }
  destruct Hp as [-> ->]. split; [done|]. eapply moves_outcome; [exact Hl|].
  intros u v1. destruct v; [by apply moves_forgotten|by apply moves_disturbed|by apply moves_forgotten].
Qed.

Lemma serve_moves q worker (p : Proc) r p' :
  serve worker p = (r, p') ->
  moves q [] (settled_from (view p) q (match r with Ret (Some (body, v)) => [Settled worker.1 body v] | _ => [] end))
    (view p) (view p').
Proof.
  unfold serve, bind. destruct (in_broker (am_Recv worker.1) p) as [r1 p1] eqn:E.
  apply in_broker_inv in E as (b1 & E & ->). pose proof (am_Recv_law worker.1 (pr_broker p)) as Hl.
  cbv zeta in Hl. rewrite E in Hl. cbn [fst snd] in Hl. destruct r1 as [ [d|]|e|s].
  2, 3: intros [= <- <-]; cbn [settled_from omap]; eapply moves_outcome; [exact Hl|];
    intros [d|] v1 Hd; [by eapply moves_delivered|by apply moves_disturbed].
  2: done.
  pose proof (moves_delivered q _ _ _ _ Hl) as Hm. destruct Hl as (q' & l1 & l2 & Hc & Hq & Hu & Hv).
  unfold in_host. cbn [pr_host pr_server pr_publisher pr_broker].
  destruct (handle_delivery worker.2 (d_Body d) (pr_host p)) as [ [v|e|s] s'];
    [|intros [= <- <-]; cbn [settled_from omap]; exact Hm..].
  match goal with |- context [settle d v ?p2] => destruct (settle d v p2) as [r2 p3] eqn:E2 end.
  eapply (moves_settle q d v q') in E2 as [-> Hs].
  2: { unfold view; cbn [pr_broker]. rewrite Hv; cbn. apply lookup_insert_eq. }
  intros [= <- <-]. pose proof (moves_trans _ _ _ _ _ _ _ _ Hm Hs) as Ht.
  eapply moves_weaken; [done| |exact Ht]. cbn [app settled_from omap list_omap].
  unfold view. rewrite Hc. destruct v; [|done|]; by destruct (decide (q' = q)).
Qed.

Lemma step_moves q tr (p p' : Proc) :
  step tr p p' -> moves q (published_to (view p) q tr) (settled_from (view p) q tr) (view p) (view p').
Proof.
  intros [A ? topic event body p0 r p1 Hm Hp|worker p0 r p1 _ Hs|p0 b' Hd].
  - apply (moves_publish q) with (body := body) in Hp; [|done].
    cbn [published_to settled_from omap list_omap]. by destruct (decide _).
  - apply (serve_moves q) in Hs. eapply moves_weaken; [apply sublist_nil_l|done|exact Hs].
  - by apply moves_disturbed.
Qed.

Lemma settled_from_mono v v' q tr :
  bk_consumers v' ⊆ bk_consumers v -> sublist (settled_from v' q tr) (settled_from v q tr).
Proof.
  intros Hc. induction tr as [|h tr IH]; [done|]. cbn [settled_from omap list_omap].
  destruct h as [t b|c b ve]; [exact IH|]. change (omap ?f tr) with (omap f tr).
  destruct (bk_consumers v' !! c) as [ [ch q']|] eqn:Ec.
  - rewrite (lookup_weaken _ _ _ _ Ec Hc). destruct ve; [|exact IH|]; (destruct (decide (q' = q)); [by constructor|exact IH]).
  - destruct ve; [|exact IH|]; (destruct (bk_consumers v !! c) as [ [ch q']|]; [|exact IH]);
      (destruct (decide (q' = q)); [by constructor|exact IH]).
Qed.

Lemma run_moves q tr (p p' : Proc) :
  run tr p p' -> moves q (published_to (view p) q tr) (settled_from (view p) q tr) (view p) (view p').
Proof.
  induction 1 as [p|tr1 tr2 p1 p2 p3 Hs Hr IH]; [apply moves_disturbed, disturbed_refl|].
  apply (step_moves q) in Hs. pose proof (moves_trans _ _ _ _ _ _ _ _ Hs IH) as Ht. destruct Hs as (Hb & Hc & _).
  eapply moves_weaken; [| |exact Ht].
  - unfold published_to. by rewrite Hb, omap_app.
  - rewrite (omap_app _ tr1 tr2 : settled_from (view p1) q (tr1 ++ tr2) = _).
    apply sublist_app; [done|]. by apply settled_from_mono.
Qed.

(** C8. No message is lost by the consumers, in any interleaving of publishers, workers and
    broken connections: what a queue holds -- waiting or delivered and not settled --
    changes only by messages published on an exchange bound to it and by messages that a
    consumer of the queue has acknowledged or rejected. *)
Theorem messages_are_kept (tr : list happening) (p p' : Proc) (q : string) (Hrun : run tr p p') :
  exists arrived departed,
    sublist arrived (published_to (view p) q tr) /\ sublist departed (settled_from (view p) q tr) /\
    Permutation (held q (view p) ++ arrived) (held q (view p') ++ departed).
Proof. destruct (run_moves q tr p p' Hrun) as (Hb & Hc & Hm). exact Hm. Qed.

(** A publisher whose channel was closed never publishes again: every call fails, nothing
    reaches the broker and the channel is not reopened. *)
Lemma closed_publisher {A} `{EventCodec A} topic (event : BaseEvent A) body (p : Proc) r p' :
  marshal_event event = Ret body -> rp_channel (pr_publisher p) ∉ bk_open (view p) ->
  Publish topic event p = (r, p') ->
  (exists e, r = Fail e) /\ view p' = view p /\ pr_publisher p' = pr_publisher p.
Proof.
  intros Hm Hc. unfold Publish. rewrite Hm.
  cbn [declared ProcessPublisherMem ev_exchange_declare ev_amqp_publish ProcessEnvOps].
  unfold bind, with_err, lift_res, the_publisher, in_broker, ret, view in *.
  destruct (bool_decide (topic ∈ rp_declaredExchanges (pr_publisher p))).
  - destruct (am_closed_publish _ topic body (pr_broker p) Hc) as (e & b' & -> & Hv).
    intros [= <- <-]. cbn. eauto.
  - destruct (am_closed_declare _ topic (pr_broker p) Hc) as (e & b' & -> & Hv).
    intros [= <- <-]. cbn. eauto.
Qed.

(** *** Start *)

(** The state after [startConsumer topic l]. *)
Lemma startConsumer_run topic l (p p' : Proc) u :
  startConsumer topic l p = (Ret u, p') ->
  exists ch c b', ch ∈ bk_open (am_view b') /\ bk_open (view p) ⊆ bk_open (am_view b') /\
    bk_consumers (view p) !! c = None /\
    bk_consumers (am_view b') = <[c := (ch, (topic ++ "_queue")%string)]> (bk_consumers (view p)) /\
    bk_bound (am_view b') = {[(topic, (topic ++ "_queue")%string)]} ∪ bk_bound (view p) /\
    bk_ready (am_view b') =
      <[(topic ++ "_queue")%string := default [] (bk_ready (view p) !! (topic ++ "_queue")%string)]> (bk_ready (view p)) /\
    bk_unacked (am_view b') = bk_unacked (view p) /\
    p' = mkProcess (mkRabbitMQServer (rs_conn (pr_server p)) (rs_listeners (pr_server p))
           (rs_channels (pr_server p) ++ [ch]) (rs_workers (pr_server p) ++ [(c, l)])) (pr_publisher p) b' (pr_host p).
Proof.
  assert (Hcall : forall A f (m : M B A) (k : A -> M Proc unit) p0 p1,
    bind (with_err f (in_broker m)) k p0 = (Ret u, p1) -> exists a b', m (pr_broker p0) = (Ret a, b') /\
    k a (mkProcess (pr_server p0) (pr_publisher p0) b' (pr_host p0)) = (Ret u, p1)).
  { intros A f m k p0 p1. unfold bind, with_err, in_broker. destruct (m (pr_broker p0)) as [ [a|e|s] b];
      [eauto|done..]. }
  unfold startConsumer. unfold the_server at 1. unfold bind at 1. destruct (rs_conn (pr_server p)) eqn:Ec; [|done].
  intros E. apply Hcall in E as (ch & b1 & L1 & E). apply Hcall in E as (u2 & b2 & L2 & E).
  apply Hcall in E as (q & b3 & L3 & E). apply Hcall in E as (u4 & b4 & L4 & E).
  apply Hcall in E as (u5 & b5 & L5 & E). apply Hcall in E as (c & b6 & L6 & E). cbn [pr_broker] in *.
  pose proof (am_Channel_law (pr_broker p)) as F1. rewrite L1 in F1.
  pose proof (am_ExchangeDeclare_law ch topic b1) as F2. cbv zeta in F2. rewrite L2 in F2.
  pose proof (am_QueueDeclare_law ch (topic ++ "_queue") b2 ltac:(by destruct topic)) as F3. cbv zeta in F3. rewrite L3 in F3.
  cbn [outcome fst snd] in F1, F2, F3. destruct F1 as [N1 V1], F2 as [N2 V2], F3 as (-> & N3 & V3).
  pose proof (am_QueueBind_law ch (topic ++ "_queue") topic b3) as F4. cbv zeta in F4. rewrite L4 in F4.
  pose proof (am_Qos_law ch b4) as F5. cbv zeta in F5. rewrite L5 in F5.
  pose proof (am_Consume_law ch (topic ++ "_queue") b5) as F6. cbv zeta in F6. rewrite L6 in F6.
  cbn [outcome fst snd] in F4, F5, F6. destruct F4 as (N4 & X4 & V4), F6 as (N6 & C6 & V6).
  injection E as _ <-. exists ch, c, b6. unfold view in *.
  rewrite V6, F5, V4, V3, V2, V1 in *. cbn in *. rewrite Ec.
  split_and!; try done; set_solver.
Qed.

(** The listener of a topic works on the topic's queue, which its exchange feeds. *)
Definition wired (topic : string) (l : Listener S) (p : Proc) : Prop :=
  exists c ch, In (c, l) (rs_workers (pr_server p)) /\
    bk_consumers (view p) !! c = Some (ch, (topic ++ "_queue")%string) /\ ch ∈ bk_open (view p) /\
    (topic, (topic ++ "_queue")%string) ∈ bk_bound (view p) /\
    is_Some (bk_ready (view p) !! (topic ++ "_queue")%string).

Lemma wired_startConsumer topic l (p p' : Proc) u :
  startConsumer topic l p = (Ret u, p') ->
  wired topic l p' /\ (forall t l', wired t l' p -> wired t l' p') /\
  (forall q, held q (view p') = held q (view p)) /\
  rs_listeners (pr_server p') = rs_listeners (pr_server p) /\
  length (rs_workers (pr_server p')) = (length (rs_workers (pr_server p)) + 1)%nat /\
  bk_bound (view p') = {[(topic, (topic ++ "_queue")%string)]} ∪ bk_bound (view p).
Proof.
  intros E. apply startConsumer_run in E as (ch & c & b & O1 & O2 & N & C & Bd & Rd & U & ->).
  unfold wired, view in *; cbn [pr_server pr_broker rs_workers rs_listeners]. split_and!; [| | |done| |done].
  - exists c, ch. rewrite C, Bd, Rd. split; [apply in_or_app; right; by left|].
    split; [apply lookup_insert_eq|]. split; [done|]. split; [set_solver|]. rewrite lookup_insert_eq. eauto.
  - intros t l' (c' & ch' & W & K & Oc & Bc & Rc). exists c', ch'. rewrite C, Bd, Rd.
    split; [apply in_or_app; by left|]. split; [rewrite lookup_insert_ne; [done|]; intros ->; congruence|].
    split; [set_solver|]. split; [set_solver|].
    destruct (decide ((topic ++ "_queue")%string = (t ++ "_queue")%string)) as [->|Nq];
      [rewrite lookup_insert_eq; eauto|by rewrite lookup_insert_ne].
  - intros q. unfold held, outstanding. rewrite Rd, U.
    destruct (decide ((topic ++ "_queue")%string = q)) as [->|Nq];
      [by rewrite lookup_insert_eq|by rewrite lookup_insert_ne].
  - rewrite length_app. cbn. lia.
Qed.

Lemma for_each_startConsumer ls : forall (p p' : Proc) u,
  for_each ls (fun tl => startConsumer tl.1 tl.2) p = (Ret u, p') ->
  (forall t l, In (t, l) ls -> wired t l p') /\ (forall t l', wired t l' p -> wired t l' p') /\
  (forall q, held q (view p') = held q (view p)) /\
  length (rs_workers (pr_server p')) = (length (rs_workers (pr_server p)) + length ls)%nat /\
  bk_bound (view p') =
    list_to_set (map (fun tl => (tl.1, (tl.1 ++ "_queue")%string)) ls) ∪ bk_bound (view p).
Proof.
  induction ls as [|[t0 l0] ls IH]; intros p p' u E; cbn [for_each] in E.
  { injection E as _ <-. split_and!; [by intros|done|done|cbn; lia|cbn; set_solver]. }
  inv_bind E. apply wired_startConsumer in Hm as (W & K & Hh & _ & Hl & Hb). cbn [fst snd] in *.
  destruct (IH _ _ _ E) as (W' & K' & Hh' & Hl' & Hb'). split_and!.
  - intros t l [ [= -> ->]|Hin]; auto.
  - auto.
  - intros q. by rewrite Hh', Hh.
  - rewrite Hl', Hl. cbn. lia.
  - rewrite Hb', Hb. cbn. set_solver.
Qed.

Lemma Start_run (p p' : Proc) :
  Start p = (Ret tt, p') ->
  (forall topic l, rs_listeners (pr_server p) !! topic = Some l -> wired topic l p') /\
  bk_bound (view p') =
    set_map (fun topic => (topic, (topic ++ "_queue")%string)) (dom (rs_listeners (pr_server p))) ∪ bk_bound (view p) /\
  (forall q, held q (view p') = held q (view p)) /\
  length (rs_workers (pr_server p')) =
    (length (rs_workers (pr_server p)) + size (rs_listeners (pr_server p)))%nat.
Proof.
  unfold Start, range_map, the_server. unfold bind at 1. cbn [ev_shuffle ProcessEnvOps]. intros E. inv_bind E.
  unfold in_host in Hm.
  destruct (ev_shuffle_law _ (map_to_list (rs_listeners (pr_server p))) (pr_host p)) as (ls & s' & Hs & Hp).
  rewrite Hs in Hm. injection Hm as <- <-.
  apply for_each_startConsumer in E as (W & _ & Hh & Hl & Hb). cbn [pr_server view pr_broker] in *.
  split_and!.
  - intros topic l Hl'. apply W. eapply Permutation_in; [exact Hp|].
    apply list_elem_of_In, elem_of_map_to_list. exact Hl'.
  - rewrite Hb. f_equal. apply set_eq. intros [t q].
    rewrite elem_of_list_to_set, elem_of_map, list_elem_of_In, in_map_iff. split.
    + intros ( [t' l] & [= <- <-] & Hin). exists t'. split; [done|]. apply elem_of_dom. exists l.
      apply elem_of_map_to_list, list_elem_of_In. eapply Permutation_in; [symmetry; exact Hp|exact Hin].
    + intros (t' & [= -> ->] & Hin). apply elem_of_dom in Hin as [l Hl'].
      exists (t', l). split; [done|]. eapply Permutation_in; [exact Hp|].
      apply list_elem_of_In, elem_of_map_to_list. exact Hl'.
  - exact Hh.
  - rewrite Hl. f_equal. rewrite <- (Permutation_length Hp). apply length_map_to_list.
Qed.

(** C26. When [Start] succeeds every registered topic has its durable fanout exchange bound
    to its own queue, one worker consumes that queue with the listener registered for the
    topic, no other binding was made, and no message that was waiting is touched. *)
Theorem Start_wires (p p' : Proc) (Hrun : Start p = (Ret tt, p')) :
  (forall topic l, rs_listeners (pr_server p) !! topic = Some l -> wired topic l p') /\
  bk_bound (view p') =
    set_map (fun topic => (topic, (topic ++ "_queue")%string)) (dom (rs_listeners (pr_server p))) ∪ bk_bound (view p) /\
  (forall q, held q (view p') = held q (view p)) /\
  length (rs_workers (pr_server p')) =
    (length (rs_workers (pr_server p)) + size (rs_listeners (pr_server p)))%nat.
Proof. by apply Start_run. Qed.

(** C10. A topic nobody registered is a dead letter: whatever is published on it after
    [Start], and however publishers, workers and failures interleave, every message a queue
    holds was there before or was published on another topic. *)
Theorem unheard_topic (p p1 p2 : Proc) (tr : list happening) (topic : string)
    (Hstart : Start p = (Ret tt, p1)) (Hrun : run tr p1 p2)
    (Hno : rs_listeners (pr_server p) !! topic = None)
    (Hfresh : forall q, (topic, q) ∉ bk_bound (view p)) (q body : string)
    (Hin : In body (held q (view p2))) :
  In body (held q (view p)) \/ exists t, t <> topic /\ In (Published t body) tr.
Proof.
  destruct (Start_run _ _ Hstart) as (_ & Hb & Hh & _).
  destruct (run_moves q tr p1 p2 Hrun) as (_ & _ & arrived & departed & Ha & _ & Hp).
  rewrite Hh in Hp. assert (Hin' : In body (held q (view p) ++ arrived)).
  { eapply Permutation_in; [symmetry; exact Hp|]. apply in_or_app. by left. }
  apply in_app_or in Hin' as [|Harr]; [by left|right].
  apply list_elem_of_In in Harr. apply (fun h => elem_of_sublist _ _ _ h Ha) in Harr.
  unfold published_to in Harr. apply list_elem_of_omap in Harr as (h & Hh' & E).
  destruct h as [t b|]; [|done]. destruct (decide ((t, q) ∈ bk_bound (view p1))) as [Hbd|]; [|done].
  injection E as ->. exists t. split; [|by apply list_elem_of_In]. intros ->. rewrite Hb in Hbd.
  apply elem_of_union in Hbd as [Hbd|Hbd]; [|by destruct (Hfresh q)].
  apply elem_of_map in Hbd as (t' & [= <- _] & Ht). apply elem_of_dom in Ht as [l Hl]. congruence.
Qed.
End RunFacts.

(** ** A broker in memory, for the witnesses *)
Definition upd_open (f : gset nat -> gset nat) (v : broker) : broker :=
  mkBroker (f (bk_open v)) (bk_exchanges v) (bk_bound v) (bk_ready v) (bk_unacked v) (bk_consumers v).
Definition upd_exchanges (x : string) (v : broker) : broker :=
  mkBroker (bk_open v) ({[x]} ∪ bk_exchanges v) (bk_bound v) (bk_ready v) (bk_unacked v) (bk_consumers v).
Definition mem_on {A} (ch : nat) (m : M broker A) : M broker A := fun v =>
  if decide (ch ∈ bk_open v) then m v else (Fail (EExt "channel/connection is not open"), v).
Definition mem_recv (c : nat) : M broker (option Delivery) := fun v =>
  match bk_consumers v !! c with
  | Some (ch, q) =>
      match bk_ready v !! q with
      | Some (body :: l) =>
          let tag := fresh (map (fun x : (nat * Z) * (string * string) => x.1.2) (map_to_list (bk_unacked v))) in
          (Ret (Some (mkDelivery ch tag body)),
           mkBroker (bk_open v) (bk_exchanges v) (bk_bound v) (<[q := l]> (bk_ready v))
             (<[(ch, tag) := (q, body)]> (bk_unacked v)) (bk_consumers v))
      | _ => (Ret None, v)
      end
  | None => (Ret None, v)
  end.
Definition mem_forget (ch : nat) (tag : Z) : M broker unit := fun v =>
  (Ret tt, mkBroker (bk_open v) (bk_exchanges v) (bk_bound v) (bk_ready v)
             (delete (ch, tag) (bk_unacked v)) (bk_consumers v)).
Definition mem_requeue (ch : nat) (tag : Z) : M broker unit := fun v =>
  (Ret tt, match bk_unacked v !! (ch, tag) with
           | Some (q, body) =>
               mkBroker (bk_open v) (bk_exchanges v) (bk_bound v)
                 (<[q := body :: default [] (bk_ready v !! q)]> (bk_ready v))
                 (delete (ch, tag) (bk_unacked v)) (bk_consumers v)
           | None => v
           end).

#[local] Instance MemBrokerOps : AmqpOps broker := {
  am_Channel := fun v => let ch := fresh (bk_open v) in (Ret ch, upd_open (union {[ch]}) v);
  am_ExchangeDeclare := fun ch x _ _ _ _ _ => mem_on ch (fun v => (Ret tt, upd_exchanges x v));
  am_QueueDeclare := fun ch q _ _ _ _ => mem_on ch (fun v =>
    (Ret q, mkBroker (bk_open v) (bk_exchanges v) (bk_bound v) (<[q := default [] (bk_ready v !! q)]> (bk_ready v))
              (bk_unacked v) (bk_consumers v)));
  am_QueueBind := fun ch q _ x _ => mem_on ch (fun v =>
    if decide (x ∈ bk_exchanges v)
    then (Ret tt, mkBroker (bk_open v) (bk_exchanges v) ({[(x, q)]} ∪ bk_bound v) (bk_ready v) (bk_unacked v) (bk_consumers v))
    else (Fail (EExt "NOT_FOUND"), v));
  am_Qos := fun ch _ _ _ => mem_on ch (ret tt);
  am_Consume := fun ch q _ _ _ _ _ => mem_on ch (fun v =>
    let c := fresh (dom (bk_consumers v)) in
    (Ret c, mkBroker (bk_open v) (bk_exchanges v) (bk_bound v) (bk_ready v) (bk_unacked v)
              (<[c := (ch, q)]> (bk_consumers v))));
  am_Publish := fun ch x _ _ _ body => mem_on ch (fun v => (Ret tt, fanout x body v));
  am_Recv := mem_recv;
  am_Ack := fun ch tag _ => mem_forget ch tag;
  am_Nack := fun ch tag _ _ => mem_requeue ch tag;
  am_Reject := fun ch tag _ => mem_forget ch tag;
  am_Close := fun ch => ret tt;
  am_conn_Close := ret tt }.

Lemma mem_on_outcome {A} (effect : A -> broker -> broker -> Prop) ch (m : M broker A) v :
  (ch ∈ bk_open v -> outcome effect v (m v).1 (m v).2) -> outcome effect v (mem_on ch m v).1 (mem_on ch m v).2.
Proof. intros Hm. unfold mem_on. destruct (decide _); [by apply Hm|]. left. apply disturbed_refl. Qed.

Lemma mem_requeue_disturbed ch tag v : disturbed v (mem_requeue ch tag v).2.
Proof.
  unfold mem_requeue; cbn [snd]. destruct (bk_unacked v !! (ch, tag)) as [ [q' body]|] eqn:E; [|apply disturbed_refl].
  constructor; cbn; [done..|]. intros q. unfold held.
  match goal with |- Permutation _ (_ ++ outstanding q ?v') =>
    rewrite (outstanding_delete q (ch, tag) q' body v v' E) by done end.
  cbn [bk_ready]. destruct (decide (q' = q)) as [->|N]; [|by rewrite lookup_insert_ne].
  rewrite lookup_insert_eq. cbn. symmetry. apply Permutation_middle.
Qed.

#[local] Instance MemBrokerLaws : AmqpLaws broker.
Proof.
  unshelve econstructor; [exact (fun v => v)|..].
  - intros v. cbn. split; [apply is_fresh|done].
  - intros ch x v. apply mem_on_outcome. intros Hc. by split.
  - intros ch q v Hq. apply mem_on_outcome. intros Hc. by split; [|split].
  - intros ch q x v. apply mem_on_outcome. intros Hc. destruct (decide (x ∈ bk_exchanges v)); [by split|].
    left. apply disturbed_refl.
  - intros ch v. by apply mem_on_outcome.
  - intros ch q v. apply mem_on_outcome. intros Hc. split; [done|]. split; [|done].
    apply not_elem_of_dom, is_fresh.
  - intros ch x body v. apply mem_on_outcome. intros Hc. exists (fanout x body v).
    split; [by right|apply disturbed_refl].
  - intros c v. cbn. unfold mem_recv. destruct (bk_consumers v !! c) as [ [ch q]|] eqn:Ec; [|apply disturbed_refl].
    destruct (bk_ready v !! q) as [ [|body l]|] eqn:Er; [apply disturbed_refl| |apply disturbed_refl].
    exists q, [], l. split; [done|]. split; [done|]. split; [|done]. cbn [d_channel d_tag].
    destruct (bk_unacked v !! _) eqn:Eu; [|done]. apply elem_of_map_to_list in Eu.
    destruct (infinite_is_fresh (map (fun x : (nat * Z) * (string * string) => x.1.2) (map_to_list (bk_unacked v)))).
    apply list_elem_of_fmap. eexists. split; [|exact Eu]. done.
  - intros ch tag v. by right.
  - intros ch tag v. by right.
  - intros ch tag v. apply mem_requeue_disturbed.
  - intros ch v. apply disturbed_refl.
  - intros v. apply disturbed_refl.
  - intros ch x body v Hc. cbn. unfold mem_on. destruct (decide _); [done|]. eauto.
  - intros ch x v Hc. cbn. unfold mem_on. destruct (decide _); [done|]. eauto.
Defined.

(** ** Witnesses: the listeners of the program, two messages *)
Section Witnesses.
#[local] Existing Instances ProcessEnvOps ProcessPublisherMem.
#[local] Existing Instances demo_any demo_any_event demo_rebate_codec demo_consumer.
#[local] Instance demo_save_codec : Codec CreatePartakeOrder :=
  one_value_codec demo_created_aggregate demo_created_aggregate.
#[local] Instance demo_rebate_publishes : EventCodec RebateMessage := {| marshal_event := fun e => Ret (ev_ID e) |}.

Definition demo_broker : broker := mkBroker ∅ ∅ ∅ ∅ ∅ ∅.
Definition demo_process : Process broker MemWorld :=
  match NewRabbitMQPublisher demo_broker with
  | (Ret publisher, b) =>
      mkProcess (mkRabbitMQServer true NewRabbitMQServer_listeners [] []) publisher b demo_consumer_world
  | (_, b) => mkProcess (mkRabbitMQServer true ∅ [] []) (mkRabbitMQPublisher 0 ∅) b demo_consumer_world
  end.
Definition demo_started := Start demo_process.

(** A rebate on the topic of the configuration, and one on the topic that is heard. *)
Definition demo_unheard :=
  PublishSendRebate (mkPublisher "activity_sku_stock_zero" "send_rebate" "send_award") demo_rebate_event_value demo_started.2.
Definition demo_heard := PublishTopic ActivityAwardSendTopic demo_rebate_event_value demo_unheard.2.
Definition demo_queue : string := (ActivityAwardSendTopic ++ "_queue")%string.
Definition demo_worker : nat * Listener MemWorld :=
  nth 2 (rs_workers (pr_server demo_heard.2)) (0%nat, fun _ => ret (false, None)).
Definition demo_served := serve demo_worker demo_heard.2.

Lemma demo_run :
  run ([Published "send_rebate" "e"] ++ [Published ActivityAwardSendTopic "e"] ++
       match demo_served.1 with Ret (Some (body, v)) => [Settled demo_worker.1 body v] | _ => [] end ++ [])
    demo_started.2 demo_served.2.
Proof.
  eapply run_step; [eapply step_publish with (event := demo_rebate_event_value) (r := demo_unheard.1);
    [reflexivity|apply surjective_pairing]|].
  eapply run_step; [eapply step_publish with (event := demo_rebate_event_value) (r := demo_heard.1);
    [reflexivity|apply surjective_pairing]|].
  eapply run_step; [|apply run_refl].
  eapply (step_serve demo_worker _ demo_served.1); [|apply surjective_pairing].
  apply nth_In. apply Nat.ltb_lt. vm_compute. reflexivity.
Defined.

(** The message that was heard was acknowledged and left its queue. *)
Lemma messages_are_kept_witness :
  demo_served.1 = Ret (Some ("e"%string, Acked)) /\
  held demo_queue (view demo_heard.2) = ["e"%string] /\ held demo_queue (view demo_served.2) = [] /\
  exists tr arrived departed,
    sublist arrived (published_to (view demo_started.2) demo_queue tr) /\
    sublist departed (settled_from (view demo_started.2) demo_queue tr) /\
    Permutation (held demo_queue (view demo_started.2) ++ arrived) (held demo_queue (view demo_served.2) ++ departed).
Proof.
  split; [vm_compute; reflexivity|]. split; [vm_compute; reflexivity|]. split; [vm_compute; reflexivity|].
  eexists. exact (messages_are_kept _ demo_started.2 demo_served.2 demo_queue demo_run).
Defined.

Lemma demo_start_runs : Start demo_process = (Ret tt, demo_started.2).
Proof.
  transitivity (demo_started.1, demo_started.2); [apply surjective_pairing|].
  apply (f_equal (fun r => (r, demo_started.2))). vm_compute. reflexivity.
Defined.

Lemma Start_wires_witness :
  length (rs_workers (pr_server demo_started.2)) = 3%nat /\
  (ActivityAwardSendTopic, demo_queue) ∈ bk_bound (view demo_started.2) /\
  wired SaveOrderRecordTopic SaveOrderListener_Handle demo_started.2.
Proof.
  split; [vm_compute; reflexivity|]. split; [vm_compute; reflexivity|].
  refine (proj1 (Start_wires demo_process demo_started.2 demo_start_runs) SaveOrderRecordTopic _ _). reflexivity.
Defined.

(** The rebate published on the configured topic is in no queue. *)
Lemma unheard_topic_witness :
  demo_unheard.1 = Ret tt /\ map (fun q => held q (view demo_unheard.2))
    [demo_queue; "send_rebate_queue"; "activity_sku_stock_zero_topic_queue"; "save_order_record_queue"]%string = [[]; []; []; []] /\
  (In "e"%string (held demo_queue (view demo_process)) \/
   exists t, t <> "send_rebate"%string /\
     In (Published t "e") ([Published "send_rebate" "e"] ++ [Published ActivityAwardSendTopic "e"] ++ [])).
Proof.
  split; [vm_compute; reflexivity|]. split; [vm_compute; reflexivity|].
  refine (unheard_topic demo_process demo_started.2 demo_heard.2 _ "send_rebate" demo_start_runs _ eq_refl _ demo_queue "e" _).
  - eapply run_step; [eapply step_publish with (event := demo_rebate_event_value) (r := demo_unheard.1);
      [reflexivity|apply surjective_pairing]|].
    eapply run_step; [|apply run_refl]. eapply step_publish with (event := demo_rebate_event_value) (r := demo_heard.1);
      [reflexivity|apply surjective_pairing].
  - intros q. assert (E : bk_bound (view demo_process) = ∅) by (vm_compute; reflexivity). rewrite E. set_solver.
  - assert (E : held demo_queue (view demo_heard.2) = ["e"%string]) by (vm_compute; reflexivity). rewrite E. by left.
Defined.
End Witnesses.
