(* ===== verification/Connections.v ===== *)
(** * Connections: what the program opens at the start

    [internal/data/data.go]: the data sources of the default database and of the shards,
    the pool settings, the options of the Redis and asynq clients, the address of the
    broker, and the reporter of pool statistics.  The drivers are [MySQLDriver] and
    [RedisDriver]; a handle is named by the data source it was opened with, as in
    [Router]. *)
From Stdlib Require Import ZArith Lia List Ascii String.
From stdpp Require Import base gmap strings list numbers.
From S2P Require Import Prelude GoLib Model Po Env Router Metrics CacheCodec Asynq.
Open Scope Z_scope.

(** [fmt.Sprintf(format, arg)] for formats whose only verbs are [%s] and [%%]; other
    verbs are left to [other_verbs] below.  [Sprintf_none] is the rest of a format whose
    argument is used. *)
Fixpoint Sprintf_none (format : string) : option string :=
  match format with
  | EmptyString => Some EmptyString
  | String c rest =>
      if Ascii.eqb c "%" then
        match rest with
        | String d rest' =>
            if Ascii.eqb d "s" then option_map (String.append "%!s(MISSING)") (Sprintf_none rest')
            else if Ascii.eqb d "%" then option_map (String c) (Sprintf_none rest')
            else None
        | EmptyString => None
        end
      else option_map (String c) (Sprintf_none rest)
  end.
Fixpoint Sprintf_s (format arg : string) : option string :=
  match format with
  | EmptyString => Some ("%!(EXTRA string=" ++ arg ++ ")")%string
  | String c rest =>
      if Ascii.eqb c "%" then
        match rest with
        | String d rest' =>
            if Ascii.eqb d "s" then option_map (String.append arg) (Sprintf_none rest')
            else if Ascii.eqb d "%" then option_map (String c) (Sprintf_s rest' arg)
            else None
        | EmptyString => None
        end
      else option_map (String c) (Sprintf_s rest arg)
  end.

Section Sprintf.
Variable other_verbs : string -> string -> string.
Definition Sprintf (format arg : string) : string :=
  match Sprintf_s format arg with Some s => s | None => other_verbs format arg end.
End Sprintf.

(** ** MySQL *)

(** [conf.Data_Mysql]; durations are in nanoseconds. *)
Record Data_Mysql := mkData_Mysql {
  my_Dsn : string;
  my_MaxOpenConns : Z;
  my_MaxIdleConns : Z;
  my_MaxLifeTime : option Z;
  my_MaxIdleTime : option Z;
  my_DbCount : Z;
  my_TbCount : Z }.

Class MySQLDriver (G : Type) := {
  my_Open : string -> M G dbh;
  my_DB : dbh -> M G dbh;
  my_SetMaxIdleConns : dbh -> Z -> M G unit;
  my_SetMaxOpenConns : dbh -> Z -> M G unit;
  my_SetConnMaxLifetime : dbh -> Z -> M G unit;
  my_SetConnMaxIdleTime : dbh -> Z -> M G unit;
  my_Stats : dbh -> M G DBStats }.

Class MySQLDriverLaws (G : Type) `{MySQLDriver G} := {
  my_Open_law : forall dsn g db g', my_Open dsn g = (Ret db, g') -> db = dsn }.

(** An error in the initialisation ends the program with a message. *)
Definition or_panic {S A} (text : string) (m : M S A) : M S A :=
  let! r := attempt m in
  match r with inl a => ret a | inr err => panic (text ++ error_text err) end.

Section MySQL.
Context {P E G : Type} `{PromOps P} `{EnvOps E} `{MySQLDriver G}.
Variable other_verbs : string -> string -> string.

Definition openMySQLDB (conf : Data_Mysql) : M G (dbh * dbh) :=
  let dsn := my_Dsn conf in
  let dsn := if Contains dsn "%s" then Sprintf other_verbs dsn EmptyString else dsn in
  let! db := or_panic "failed to connect database: " (my_Open dsn) in
  let! sqlDB := or_panic "failed to get sql.DB instance: " (my_DB db) in
  (if 0 <? my_MaxIdleConns conf then my_SetMaxIdleConns sqlDB (my_MaxIdleConns conf) else ret tt) ;;;
  (if 0 <? my_MaxOpenConns conf then my_SetMaxOpenConns sqlDB (my_MaxOpenConns conf) else ret tt) ;;;
  (match my_MaxLifeTime conf with Some d => my_SetConnMaxLifetime sqlDB d | None => ret tt end) ;;;
  (match my_MaxIdleTime conf with Some d => my_SetConnMaxIdleTime sqlDB d | None => ret tt end) ;;;
  ret (db, sqlDB).

Definition collectMySQLStats (sqlDB : option dbh) (dbName role : string) : M (Measured P E G) unit :=
  match sqlDB with
  | None => ret tt
  | Some sqlDB =>
      let! stats := in_call (my_Stats sqlDB) in
      in_prom (SetMySQLStats dbName role stats)
  end.

(** The goroutine, for a number of ticks. *)
Fixpoint stats_ticks (sqlDB : option dbh) (dbName role : string) (n : nat) : M (Measured P E G) unit :=
  match n with
  | O => ret tt
  | S n' => collectMySQLStats sqlDB dbName role ;;; stats_ticks sqlDB dbName role n'
  end.
Definition startMySQLStatsCollector (sqlDB : option dbh) (dbName role : string) (ticks : nat)
    : M (Measured P E G) unit :=
  collectMySQLStats sqlDB dbName role ;;; stats_ticks sqlDB dbName role ticks.

(** The handle, and the collector that is started. *)
Definition NewDB (conf : Data_Mysql) : M G (dbh * (nat -> M (Measured P E G) unit)) :=
  let! dbs := openMySQLDB conf in
  ret (fst dbs, startMySQLStatsCollector (Some (snd dbs)) "default" "primary").

Definition sub_conf (conf : Data_Mysql) (dsn : string) : Data_Mysql :=
  mkData_Mysql dsn (my_MaxOpenConns conf) (my_MaxIdleConns conf) (my_MaxLifeTime conf) (my_MaxIdleTime conf)
    (my_DbCount conf) (my_TbCount conf).

(** The loop of [NewDBRouter], for the databases from [i] on. *)
Fixpoint open_shards (conf : Data_Mysql) (i : Z) (n : nat) (m : gmap string dbh) : M G (gmap string dbh) :=
  match n with
  | O => ret m
  | S n' =>
      let dbName := ("_" ++ fmt_0d 2 i)%string in
      let dsn := Sprintf other_verbs (my_Dsn conf) dbName in
      let! db := openMySQLDB (sub_conf conf dsn) in
      open_shards conf (i + 1) n' (<[fmt_0d 2 i := fst db]> m)
  end.

Definition NewDBRouter_open (conf : Data_Mysql) : M G DBRouter :=
  let! dbMap := open_shards conf 1 (Z.to_nat (my_DbCount conf)) ∅ in
  ret {| dr_dbMap := dbMap; dr_dbCount := my_DbCount conf; dr_tbCount := my_TbCount conf |}.
End MySQL.

(** ** Redis, asynq, RabbitMQ *)

(** [conf.Data_Redis]; the intervals are in milliseconds. *)
Record Data_Redis := mkData_Redis {
  re_Host : string;
  re_Port : Z;
  re_Db : Z;
  re_PoolSize : Z;
  re_MinIdleSize : Z;
  re_IdleTimeout : Z;
  re_ConnectTimeout : Z;
  re_RetryAttempts : Z;
  re_RetryInterval : Z }.

(** [redis.Options] *)
Record RedisOptions := mkRedisOptions {
  rx_Addr : string;
  rx_DB : Z;
  rx_PoolSize : Z;
  rx_MinIdleConns : Z;
  rx_DialTimeout : Z;
  rx_ConnMaxIdleTime : Z;
  rx_MaxRetries : Z;
  rx_MinRetryBackoff : Z }.

Definition Millisecond : Z := 1000000.

Definition redis_options (cfg : Data_Redis) : RedisOptions := {|
  rx_Addr := (re_Host cfg ++ ":" ++ FormatInt (re_Port cfg))%string;
  rx_DB := re_Db cfg;
  rx_PoolSize := re_PoolSize cfg;
  rx_MinIdleConns := re_MinIdleSize cfg;
  rx_DialTimeout := re_ConnectTimeout cfg * Millisecond;
  rx_ConnMaxIdleTime := re_IdleTimeout cfg * Millisecond;
  rx_MaxRetries := re_RetryAttempts cfg;
  rx_MinRetryBackoff := re_RetryInterval cfg * Millisecond |}.

(** The client: [rc_AddHook] adds the hook of [redis_metrics.go]. *)
Class RedisDriver (R : Type) := {
  rc_NewClient : RedisOptions -> M R nat;
  rc_AddMetricsHook : nat -> M R unit;
  rc_Ping : nat -> forall timeout : Z, M R unit }.

Section Clients.
Context {R V : Type} `{RedisDriver R} `{Packer V}.
Variable json_Marshal : goval V -> res string.
Variable json_Unmarshal : string -> dest -> res (option (goval V)).

Definition NewRedisClient (cfg : Data_Redis) : M R (nat * CacheCodec (V := V)) :=
  let! client := rc_NewClient (redis_options cfg) in
  rc_AddMetricsHook client ;;;
  or_panic "failed to connect to redis: " (rc_Ping client (5 * Second)) ;;;
  ret (client, New (mkCodecOptions (Some json_Marshal) (Some json_Unmarshal))).
End Clients.

(** [conf.RabbitMQ], without its topics. *)
Record RabbitMQConf := mkRabbitMQConf {
  mq_Username : string;
  mq_Password : string;
  mq_Addresses : string;
  mq_Port : Z }.

Definition amqp_url (conf : RabbitMQConf) : string :=
  ("amqp://" ++ mq_Username conf ++ ":" ++ mq_Password conf ++ "@" ++ mq_Addresses conf ++ ":" ++
   FormatInt (mq_Port conf) ++ "/")%string.
Definition NewConnection {B} (Dial : string -> M B nat) (conf : RabbitMQConf) : M B nat := Dial (amqp_url conf).

(** [conf.Data] *)
Record ConfData := mkConfData { cd_Mysql : Data_Mysql; cd_Redis : Data_Redis }.
Definition NewMysqlConfig (c : ConfData) : Data_Mysql := cd_Mysql c.
Definition NewRedisConfig (c : ConfData) : Data_Redis := cd_Redis c.
Definition NewTBCount : Z := 2.

(** ** The router that is opened *)
Lemma Sprintf_none_plain s : no_char "%" s = true -> Sprintf_none s = Some s.
Proof.
  induction s as [|c s IH]; [done|]. cbn [no_char Sprintf_none]. intros Hc. apply andb_true_iff in Hc as [Hc Hs].
  apply negb_true_iff in Hc. rewrite Hc, IH by done. done.
Qed.

Lemma Sprintf_pattern other pre post arg :
  no_char "%" pre = true -> no_char "%" post = true ->
  Sprintf other (pre ++ "%s" ++ post)%string arg = (pre ++ arg ++ post)%string.
Proof.
  intros Hpre Hpost. unfold Sprintf.
  assert (E : Sprintf_s (pre ++ "%s" ++ post)%string arg = Some (pre ++ arg ++ post)%string); [|by rewrite E].
  induction pre as [|c pre IH].
  - change ("" ++ "%s" ++ post)%string with (String "%" (String "s" post)). cbn [Sprintf_s Ascii.eqb Bool.eqb].
    by rewrite Sprintf_none_plain.
  - cbn [no_char] in Hpre. apply andb_true_iff in Hpre as [Hc Hp]. apply negb_true_iff in Hc.
    rewrite !(str_app_cons c pre). cbn [Sprintf_s]. rewrite Hc, IH by done. done.
Qed.

Lemma Contains_none s : no_char "%" s = true -> Contains s "%s" = false.
Proof.
  induction s as [|c s IH]; [done|]. cbn [no_char Contains]. intros Hc. apply andb_true_iff in Hc as [Hc Hs].
  rewrite IH by done. rewrite orb_false_r. cbn [String.prefix]. destruct (ascii_dec "%" c) as [<-|]; [|done].
  by rewrite Ascii.eqb_refl in Hc.
Qed.

Lemma zeros_no_percent n : no_char "%" (zeros n) = true.
Proof. by induction n. Qed.

Section Router.
Context {G : Type} `{MySQLDriverLaws G}.
Variable other_verbs : string -> string -> string.

Lemma or_panic_ret {S A} text (m : M S A) s a s' : or_panic text m s = (Ret a, s') -> m s = (Ret a, s').
Proof. unfold or_panic, bind, attempt, ret, panic. destruct (m s) as [ [x|e|p] s1]; [by intros [= <- <-]|done..]. Qed.

(** The handle is the data source, once the rest of a pattern is filled. *)
Lemma openMySQLDB_handle conf g db g' :
  openMySQLDB other_verbs conf g = (Ret db, g') ->
  fst db = if Contains (my_Dsn conf) "%s" then Sprintf other_verbs (my_Dsn conf) EmptyString else my_Dsn conf.
Proof.
  unfold openMySQLDB. intros E. inv_bind E. apply or_panic_ret in Hm. apply my_Open_law in Hm as <-.
  do 5 (inv_bind E). by injection E as <- _.
Qed.

Definition shard_dsn (conf : Data_Mysql) (dbName : string) : string :=
  let dsn := Sprintf other_verbs (my_Dsn conf) dbName in
  if Contains dsn "%s" then Sprintf other_verbs dsn EmptyString else dsn.

(** Opening the shards builds the map of the router. *)
Lemma open_shards_run conf n : forall i m g m' g',
  open_shards other_verbs conf i n m g = (Ret m', g') -> m' = router_dbs (shard_dsn conf) i n m.
Proof.
  induction n as [|n IH]; intros i m g m' g' E; cbn [open_shards router_dbs] in *.
  { by injection E as <- _. }
  inv_bind E. apply openMySQLDB_handle in Hm. cbn [my_Dsn sub_conf] in Hm. apply IH in E.
  rewrite E, Hm. reflexivity.
Qed.

Lemma NewDBRouter_open_run conf g r g' :
  NewDBRouter_open other_verbs conf g = (Ret r, g') ->
  r = NewDBRouter (shard_dsn conf) (my_DbCount conf) (my_TbCount conf).
Proof.
  unfold NewDBRouter_open. intros E. inv_bind E. apply open_shards_run in Hm as ->. by injection E as <- _.
Qed.

Lemma opened_router_run (conf : Data_Mysql) (pre post shardKey : string) r g g'
    (Hdsn : my_Dsn conf = (pre ++ "%s" ++ post)%string)
    (Hpre : no_char "%" pre = true) (Hpost : no_char "%" post = true)
    (Hdb : 1 <= my_DbCount conf) (Htb : 1 <= my_TbCount conf)
    (Hsize : my_DbCount conf * my_TbCount conf <= int64_max)
    (Hopen : NewDBRouter_open other_verbs conf g = (Ret r, g')) :
  exists idx i,
    idx = crc32_Checksum shardKey mod (my_DbCount conf * my_TbCount conf) /\
    i = idx / my_TbCount conf + 1 /\ 1 <= i <= my_DbCount conf /\
    DBStrategy r shardKey = Ret (Some (pre ++ ("_" ++ fmt_0d 2 i) ++ post)%string, fmt_0d 3 idx).
Proof.
  apply NewDBRouter_open_run in Hopen as ->.
  destruct (DBStrategy_routes (shard_dsn conf) _ _ shardKey Hdb Htb Hsize) as (idx & i & _ & Hi & Hr & Hx & ->).
  exists idx, i. split_and!; [done|done|apply Hr|apply Hr|]. unfold shard_dsn. rewrite Hdsn, Sprintf_pattern by done.
  rewrite Contains_none; [done|]. rewrite !no_char_app, Hpre, Hpost, andb_true_r. cbn [andb no_char negb Ascii.eqb Bool.eqb].
  unfold fmt_0d. by rewrite no_char_app, zeros_no_percent, FormatInt_no_char.
Qed.

(** C28. Once the databases are open every shard key is routed: to the data source the
    pattern gives for the number [1 .. dbCount] that the table index belongs to, and to
    the suffix that is the index with at least three digits -- whatever was configured, as long
    as there is a database and a table and their product fits an int. *)
Theorem opened_router_routes (conf : Data_Mysql) (pre post shardKey : string) r g g'
    (Hdsn : my_Dsn conf = (pre ++ "%s" ++ post)%string)
    (Hpre : no_char "%" pre = true) (Hpost : no_char "%" post = true)
    (Hdb : 1 <= my_DbCount conf) (Htb : 1 <= my_TbCount conf)
    (Hsize : my_DbCount conf * my_TbCount conf <= int64_max)
    (Hopen : NewDBRouter_open other_verbs conf g = (Ret r, g')) :
  exists idx i,
    idx = crc32_Checksum shardKey mod (my_DbCount conf * my_TbCount conf) /\
    i = idx / my_TbCount conf + 1 /\ 1 <= i <= my_DbCount conf /\
    DBStrategy r shardKey = Ret (Some (pre ++ ("_" ++ fmt_0d 2 i) ++ post)%string, fmt_0d 3 idx).
Proof. by apply opened_router_run with (g := g) (g' := g'). Qed.
End Router.

(** ** Witness: a driver that opens everything *)
#[local] Instance demo_driver : MySQLDriver (list string) := {
  my_Open := fun dsn g => (Ret dsn, g ++ [dsn]);
  my_DB := fun db => ret db;
  my_SetMaxIdleConns := fun _ _ => ret tt;
  my_SetMaxOpenConns := fun _ _ => ret tt;
  my_SetConnMaxLifetime := fun _ _ => ret tt;
  my_SetConnMaxIdleTime := fun _ _ => ret tt;
  my_Stats := fun _ => ret (mkDBStats 1 0 1 0 0 0 0) }.
#[local] Instance demo_driver_laws : MySQLDriverLaws (list string).
Proof. split. by intros dsn g db g' [= <- _]. Defined.

Definition demo_mysql : Data_Mysql :=
  mkData_Mysql "tcp(127.0.0.1:3306)/big_market%s?charset=utf8mb4" 25 15 (Some (1800 * Second)) (Some (180 * Second)) 2 4.
Definition demo_no_verbs (format arg : string) : string := format.
Definition demo_opened := NewDBRouter_open demo_no_verbs demo_mysql [].

Lemma opened_router_routes_witness :
  demo_opened.2 = ["tcp(127.0.0.1:3306)/big_market_01?charset=utf8mb4"; "tcp(127.0.0.1:3306)/big_market_02?charset=utf8mb4"]%string /\
  match demo_opened.1 with
  | Ret r => exists idx i,
      idx = crc32_Checksum "user001" mod (2 * 4) /\ i = idx / 4 + 1 /\ 1 <= i <= 2 /\
      DBStrategy r "user001" = Ret (Some ("tcp(127.0.0.1:3306)/big_market" ++ ("_" ++ fmt_0d 2 i) ++ "?charset=utf8mb4")%string,
                                    fmt_0d 3 idx)
  | _ => False
  end.
Proof.
  split; [vm_compute; reflexivity|]. destruct demo_opened as [ [r|e|p] g'] eqn:E; [|by vm_compute in E..].
  refine (opened_router_routes demo_no_verbs demo_mysql "tcp(127.0.0.1:3306)/big_market" "?charset=utf8mb4" "user001"
    r [] g' _ _ _ _ _ _ E); vm_compute; done.
Defined.

(** A percent sign elsewhere in the pattern is read as a verb: without [%s] the number of
    the database is appended as a complaint. *)
Example pattern_without_verb :
  Sprintf demo_no_verbs "big_market" "_01" = "big_market%!(EXTRA string=_01)"%string.
Proof. vm_compute. reflexivity. Qed.
