(* ===== verification/Service.v ===== *)
(** * Service: the API of the program

    [internal/service/activity.go] and [internal/service/strategy.go].  A request is the
    arguments of its handler; replies are records.  The draw runs on the store of the
    chain objects next to the repositories' state, the other handlers on the latter. *)
From Stdlib Require Import ZArith Lia List Ascii String.
From stdpp Require Import base gmap strings list numbers.
From S2P Require Import Prelude GoLib Model Env StrategyRepo Armory RuleTree RuleChain Raffle Activity Consumers Award Rebate.
Open Scope Z_scope.

(** ** Replies *)
Record DrawReply := mkDrawReply {
  dr_AwardId : Z;
  dr_AwardTitle : string;
  dr_AwardIndex : Z }.

Record QueryUserActivityAccountReply := mkQueryUserActivityAccountReply {
  qr_ActivityId : Z;
  qr_TotalCount : Z;
  qr_TotalCountSurplus : Z;
  qr_DayCount : Z;
  qr_DayCountSurplus : Z;
  qr_MonthCount : Z;
  qr_MonthCountSurplus : Z }.

Record RaffleAwardReply := mkRaffleAwardReply {
  rar_AwardId : Z;
  rar_AwardTitle : string;
  rar_AwardSubtitle : string;
  rar_Sort : Z }.

Record RuleWeightResponse := mkRuleWeightResponse {
  rw_RuleWeightCount : Z;
  rw_UserActivityAccountTotalUseCount : Z;
  rw_StrategyAwards : list (Z * string) }.

Section Service.
Context {S : Type} `{ActivityRepo S} `{StrategyRepo S} `{AwardRepo S} `{RebateRepo S} `{EnvOps S}.

(** ** [ActivityService] *)
Definition RaffleActivityArmory (activityId : Z) : M S bool :=
  if activityId <=? 0 then fail (BadRequest "INVALID_ACTIVITY_ID" "invalid activity_id")
  else
    let! activityReady := AssembleActivitySkuByActivityId activityId in
    if negb activityReady then ret false
    else AssembleLotteryStrategyByActivityId activityId.

(** The award record a draw saves. *)
Definition drawn_record (userId : string) (activityId : Z) (order : UserRaffleOrder) (raffleAward : RaffleAward)
    (awardTime : time) : UserAwardRecord :=
  {| ua_UserID := userId; ua_ActivityID := activityId; ua_StrategyID := uo_StrategyID order;
     ua_OrderID := uo_OrderID order; ua_AwardID := ra_AwardID raffleAward;
     ua_AwardTitle := ra_AwardTitle raffleAward; ua_AwardTime := awardTime; ua_AwardState := AwardStateCreate |}.

Definition draw_reply (raffleAward : RaffleAward) : DrawReply :=
  mkDrawReply (ra_AwardID raffleAward) (ra_AwardTitle raffleAward) (wrap32 (ra_Sort raffleAward)).

Definition Draw (fuel : nat) (userId : string) (activityId : Z) : M (list chain_cell * S) DrawReply :=
  if String.eqb userId "" || (activityId <=? 0)
  then fail (BadRequest "INVALID_DRAW_PARAMS" "invalid user_id or activity_id")
  else
    let! createPartakeOrderAggregate := in_repo (CreateOrder (mkPartakeRaffleActivity userId activityId)) in
    let! userRaffleOrder := deref (po_UserRaffleOrder createPartakeOrderAggregate) in
    let! raffleAward := PerformRaffle fuel (mkRaffleFactor activityId userId (uo_StrategyID userRaffleOrder)) in
    let! awardTime := in_repo ev_now in
    in_repo (Usecase_SaveUserAwardRecord (drawn_record userId activityId userRaffleOrder raffleAward awardTime)) ;;;
    ret (draw_reply raffleAward).

(** [time.Now().Format("20060102")] *)
Definition today : M S string :=
  let! now := ev_now in ret (format_compact (ev_offset (E := S) now) now).

Definition CalendarSignRebate (userId : string) : M S bool :=
  if String.eqb userId "" then fail (BadRequest "INVALID_USER_ID" "invalid user_id")
  else
    let! outBusinessNo := today in
    Rebate_CreateOrder (mkBehavior userId Sign outBusinessNo) ;;;
    ret true.

Definition IsCalendarSignRebate (userId : string) : M S bool :=
  if String.eqb userId "" then fail (BadRequest "INVALID_USER_ID" "invalid user_id")
  else
    let! outBusinessNo := today in
    let! orders := QueryOrderByOutBusinessNo userId outBusinessNo in
    ret (0 <? length orders)%nat.

Definition QueryUserActivityAccount (userId : string) (activityId : Z) : M S QueryUserActivityAccountReply :=
  if String.eqb userId "" || (activityId <=? 0)
  then fail (BadRequest "INVALID_ACCOUNT_QUERY_PARAMS" "invalid user_id or activity_id")
  else
    let! found := Usecase_QueryActivityAccountEntity userId activityId in
    let! account := deref found in
    ret (mkQueryUserActivityAccountReply (acc_ActivityID account)
           (acc_TotalCount account) (acc_TotalCountSurplus account)
           (acc_DayCount account) (acc_DayCountSurplus account)
           (acc_MonthCount account) (acc_MonthCountSurplus account)).

Definition LoadUserActivityAccount (userId : string) (activityId : Z) : M S bool :=
  if String.eqb userId "" || (activityId <=? 0)
  then fail (BadRequest "INVALID_ACCOUNT_LOAD_PARAMS" "invalid user_id or activity_id")
  else Usecase_AssembleActivityAccountByUserId userId activityId ;;; ret true.

(** ** [StrategyService] *)
Definition StrategyArmory (strategyId : Z) : M S bool :=
  if strategyId <=? 0 then fail (BadRequest "INVALID_STRATEGY_ID" "invalid strategy_id")
  else AssembleLotteryStrategy strategyId.

Definition QueryRaffleAwardList (strategyId : Z) : M S (list RaffleAwardReply) :=
  if strategyId <=? 0 then fail (BadRequest "INVALID_STRATEGY_ID" "invalid strategy_id")
  else
    let! awards := Usecase_QueryStrategyAwardList strategyId in
    ret (map (fun award => mkRaffleAwardReply (sa_AwardID award) (sa_AwardTitle award)
                             (sa_AwardSubtitle award) (wrap32 (sa_Sort award))) awards).

Definition RandomRaffle (fuel : nat) (strategyId : Z) (userId : string) : M (list chain_cell * S) DrawReply :=
  if (strategyId <=? 0) || String.eqb userId ""
  then fail (BadRequest "INVALID_RAFFLE_PARAMS" "invalid strategy_id or user_id")
  else
    let! raffleAward := PerformRaffle fuel (mkRaffleFactor 0 userId strategyId) in
    ret (draw_reply raffleAward).

Definition QueryRaffleStrategyRuleWeight (activityId : Z) (userId : string) : M S (list RuleWeightResponse) :=
  if (activityId <=? 0) || String.eqb userId ""
  then fail (BadRequest "INVALID_RULE_WEIGHT_PARAMS" "invalid activity_id or user_id")
  else
    let! buckets := QueryAwardRuleWeightByActivityId activityId in
    let! totalUseCount := Usecase_QueryRaffleActivityAccountPartakeCount userId activityId in
    ret (map (fun bucket => mkRuleWeightResponse (wb_Weight bucket) totalUseCount
                (map (fun award => (aw_AwardId award, aw_AwardTitle award)) (wb_AwardList bucket))) buckets).
End Service.
