(* ===== verification/ServiceWiring.v ===== *)
(** * ServiceWiring: a draw on the real repositories

    The handlers of [Service] over the repositories of [ActivityWiring], [StrategyData]
    and [Award], all on one world and one router: what a successful draw leaves on disk. *)
From Stdlib Require Import ZArith Lia List Ascii String.
From stdpp Require Import base gmap strings list numbers.
From S2P Require Import Prelude GoLib Model Po Env Logic Mem Keys Router Cache CacheRules Event.
From S2P Require Import Quota StrategyRepo Armory RuleTree RuleChain Raffle Activity PartakeData Frames PartakeLedger QuotaData ActivityWiring.
From S2P Require Import StrategyData Award Rebate Service.
Open Scope Z_scope.

Section Reads.
Context {R D E : Type} `{RedisLaws R} `{SqlLaws D} `{EnvLaws E} `{LocalCacheOps E}.
Context `{Codec Strategy} `{Codec (list StrategyAward)} `{Codec string} `{Codec RuleTree}
  `{Codec StrategyAward} `{Codec (list WeightBucket)} `{Codec RaffleActivityPO} `{Codec ActivityAccount}
  `{Codec AwardStockConsumeMessage}.
Notation World := (W R D E).
Variables (d : strategyRepository) (fuel : nat).
#[local] Instance draw_strategies : StrategyRepo World := NewStrategyRepository d fuel.

(** The queries of the strategy repository only read. *)
Lemma strategy_queries_read :
  (forall sid, reads (StrategyRepo.QueryStrategyEntityByStrategyId (S := World) sid)) /\
  (forall sid m, reads (StrategyRepo.QueryStrategyRuleValue (S := World) sid m)) /\
  (forall sid m, reads (StrategyRepo.QueryStrategyValue (S := World) sid m)) /\
  (forall sid aid, reads (StrategyRepo.QueryStrategyRuleModel (S := World) sid aid)) /\
  (forall m, reads (StrategyRepo.QueryRuleTree (S := World) m)) /\
  (forall sid aid, reads (StrategyRepo.QueryStrategyAward (S := World) sid aid)) /\
  (forall u sid, reads (StrategyRepo.QueryActivityAccountTotalUseCount (S := World) u sid)) /\
  (forall key, reads (StrategyRepo.GetRateRange (S := World) key)) /\
  (forall key i, reads (StrategyRepo.GetStrategyAwardAssemble (S := World) key i)) /\
  (forall sid aid, reads (StrategyRepo.SubtractionAwardStock (S := World) sid aid)) /\
  (forall sid aid, reads (StrategyRepo.AwardStockConsumeSendQueue (S := World) sid aid)).
Proof.
  split_and!; intros; cbn [StrategyRepo.QueryStrategyEntityByStrategyId StrategyRepo.QueryStrategyRuleValue
    StrategyRepo.QueryStrategyValue StrategyRepo.QueryStrategyRuleModel StrategyRepo.QueryRuleTree
    StrategyRepo.QueryStrategyAward StrategyRepo.QueryActivityAccountTotalUseCount StrategyRepo.GetRateRange
    StrategyRepo.GetStrategyAwardAssemble StrategyRepo.SubtractionAwardStock
    StrategyRepo.AwardStockConsumeSendQueue draw_strategies NewStrategyRepository];
  try apply reads_exec;
  unfold QueryStrategyEntityByStrategyId, QueryStrategyRuleValue, QueryStrategyValue, scan_rule_value,
    QueryStrategyRuleModel, QueryRuleTree, load_tree, QueryStrategyAward, QueryActivityAccountTotalUseCount,
    GetRateRange, GetStrategyAwardAssemble, AwardStockConsumeSendQueue, Get, HGet, redis_cmd.
  all: solve_queries.
Qed.

Lemma reads_draw_award sid weight : reads (getRandomAwardIDWithWeight (S := World) sid weight).
Proof.
  destruct strategy_queries_read as (_ & _ & _ & _ & _ & _ & _ & Hq1 & Hq2 & _).
  unfold getRandomAwardIDWithWeight, getRandomAwardID, GetSecureRandomInt. cbn [ev_crypto_int WorldEnvOps].
  solve_reads.
Qed.

Lemma reads_run_chain ks userID sid : reads (run_chain (S := World) ks userID sid).
Proof.
  destruct strategy_queries_read as (_ & Hq1 & Hq2 & _ & _ & _ & Hq3 & _). pose proof reads_draw_award as Hq4.
  induction ks as [|k ks IH]; cbn [run_chain]; [apply reads_panic|].
  destruct k; cbn [chain_logic]; unfold default_logic, blacklist_logic, weight_logic; solve_reads.
Qed.

Lemma reads_process_loop n : forall tree sid aid node acc,
  reads (process_loop (S := World) n tree sid aid node acc).
Proof.
  destruct strategy_queries_read as (_ & _ & _ & _ & _ & _ & _ & _ & _ & Hq1 & Hq2).
  induction n as [|n IH]; intros tree sid aid node acc; cbn [process_loop];
    (destruct (String.eqb node ""); [apply reads_ret|]); [apply reads_panic|].
  assert (Hl : forall k x, reads (node_logic (S := World) k sid aid x)).
  { intros k x. destruct k; cbn [node_logic]; unfold ruleLock_logic, ruleLuckAward_logic, ruleStock_logic; solve_reads. }
  assert (Hn : forall m ls, reads (next (S := World) m ls)) by (intros; unfold next; solve_reads).
  solve_reads.
Qed.

(** A draw reads the tables and keeps the factory. *)
Lemma PerformRaffle_reads n factor cells (w : World) rr cells' w' :
  factory_ok cells -> PerformRaffle (S := World) n factor (cells, w) = (rr, (cells', w')) ->
  rows w' = rows w /\ factory_ok cells'.
Proof.
  intros Hf. unfold PerformRaffle, bind at 1.
  destruct (raffleLogicChain factor (cells, w)) as [x [cells1 w1] ] eqn:Ec.
  destruct (chain_of_run _ _ _ _ _ _ Hf Ec) as (Hres & Hf1 & _).
  destruct strategy_queries_read as (Hq0 & _ & _ & Hq1 & Hq2 & Hq3 & _).
  assert (R1 : rows w1 = rows w).
  { assert (Hrd : reads (chain_result (S := World) factor))
      by (unfold chain_result; pose proof reads_run_chain; solve_reads).
    specialize (Hrd w). by rewrite Hres in Hrd. }
  assert (Hrepo : forall A (m : M World A) y c2 w2, reads m -> in_repo m (cells1, w1) = (y, (c2, w2)) ->
    rows w2 = rows w /\ c2 = cells1).
  { intros A m y c2 w2 Hm E1. unfold in_repo in E1. specialize (Hm w1). cbn [fst snd] in E1.
    destruct (m w1) as [v s]. injection E1 as <- <- <-. cbn [snd] in Hm. split; [congruence|done]. }
  assert (Hbuild : forall sid aid, reads (buildRaffleAward (S := World) sid aid))
    by (intros; unfold buildRaffleAward; solve_reads).
  assert (Htree : forall u sid aid, reads (raffleRuleTree (S := World) n u sid aid)).
  { intros. unfold raffleRuleTree, newDecisionTreeEngine, process. pose proof reads_process_loop. solve_reads. }
  destruct x as [before|e|p]; [|by intros [= _ <- <-]..].
  destruct (negb _).
  - intros E1. apply Hrepo in E1 as [? ->]; [done|apply Hbuild].
  - intros E1. unfold bind in E1.
    destruct (in_repo (raffleRuleTree n _ _ _) (cells1, w1)) as [y [c2 w2] ] eqn:E2.
    assert (H2' : rows w2 = rows w /\ c2 = cells1) by (eapply Hrepo; [apply Htree|exact E2]).
    destruct H2' as [R2 ->]. destruct y as [after|e|p]; [|by injection E1 as _ <- <-..].
    unfold in_repo in E1. cbn [fst snd] in E1. pose proof (Hbuild (rf_StrategyID factor) (ta_AwardID after) w2) as Hb.
    destruct (buildRaffleAward _ _ w2) as [v s]. injection E1 as _ <- <-. cbn [snd] in Hb. split; [congruence|done].
Qed.
End Reads.

(** ** The draw *)
Section DrawTheorem.
Context {R D E : Type} `{RedisLaws R} `{SqlLaws D} `{EnvLaws E} `{LocalCacheOps E} `{PublisherMem E}.
Context `{Codec Activity} `{Codec ActivityAccount} `{Codec UserRaffleOrder} `{Codec ActivitySku}
  `{Codec ActivityCount} `{Codec ActivityResult} `{Codec ActivitySkuStockKey}
  `{CodecLaws SaveOrderTaskMessage} `{EventCodec CreatePartakeOrder} `{EventCodec Z}.
Context `{Codec Strategy} `{Codec (list StrategyAward)} `{Codec string} `{Codec RuleTree}
  `{Codec StrategyAward} `{Codec (list WeightBucket)} `{Codec RaffleActivityPO}
  `{Codec AwardStockConsumeMessage} `{CodecLaws SendAwardMessage}.
Notation World := (W R D E).
Notation tables := (dbh -> forall t, list (row t)).
Variables (r : Repository) (d : strategyRepository) (fuel : nat).

(** The repositories as [wireApp] builds them, on one router. *)
#[local] Instance draw_activities : ActivityRepo World := NewActivityRepository r fuel.
#[local] Instance draw_strategy : StrategyRepo World := NewStrategyRepository d fuel.
#[local] Instance draw_awards : AwardRepo World := NewUserAwardRecordRepository (mkAwardRepository (rp_routerDB r)).

(** The unique index of the records: one per order number. *)
Definition one_record_per_order : Prop :=
  forall tableSuffix (p p' : UserAwardRecordPO),
    sq_conflict (Tuser_award_record tableSuffix) p p' = true <-> uap_OrderID p = uap_OrderID p'.

(** An order has an award record. *)
Definition had_record (db : dbh) (tableSuffix : string) (order : UserRaffleOrder) (f : tables) : Prop :=
  exists p : UserAwardRecordPO, In p (f db (Tuser_award_record tableSuffix)) /\ uap_OrderID p = uo_OrderID order.

(** The award of a reply is on record for the order, the order's rows are used, and the
    task that will send the award is there. *)
Definition award_recorded (db : dbh) (tableSuffix userId : string) (order : UserRaffleOrder) (reply : DrawReply)
    (f' : tables) : Prop :=
  (exists p : UserAwardRecordPO, In p (f' db (Tuser_award_record tableSuffix)) /\
     uap_OrderID p = uo_OrderID order /\ uap_UserID p = userId /\
     uap_AwardID p = dr_AwardId reply /\ uap_AwardTitle p = dr_AwardTitle reply) /\
  (forall q : UserRaffleOrderPO, In q (f' db (Tuser_raffle_order tableSuffix)) ->
     uop_OrderID q = uo_OrderID order -> uop_OrderState q = UserRaffleOrderStateUsed) /\
  exists (task : TaskPO) message, In task (f' db Ttask) /\
    marshal (Some (mkSendAwardMessage userId (dr_AwardId reply) (dr_AwardTitle reply))) = Ret message /\
    tkp_UserID task = userId /\ tkp_Topic task = SendAwardTopic /\ tkp_Message task = message /\
    tkp_State task = TaskStateCreate.

(** What a draw that answers leaves for its order: the award of the reply recorded, when
    the order had no record; an order that had one keeps the records as they were. *)
Definition award_on_record (db : dbh) (tableSuffix userId : string) (order : UserRaffleOrder) (reply : DrawReply)
    (f f' : tables) : Prop :=
  ~ had_record db tableSuffix order f /\ award_recorded db tableSuffix userId order reply f' \/
  had_record db tableSuffix order f /\
    f' db (Tuser_award_record tableSuffix) = f db (Tuser_award_record tableSuffix).

(** The rows an update selects have its result. *)
Lemma updated_in {t} (p : row t -> bool) g (l l' : list (row t)) q :
  updated p g l l' -> In q l' ->
  exists q0, In q0 l /\ (if p q0 then payload t q = payload t (g q0) else q = q0).
Proof.
  induction 1 as [|x y l l' Hxy Hu IH]; intros Hin; [done|]. destruct Hin as [->|Hin].
  - exists x. split; [by left|done].
  - destruct (IH Hin) as (q0 & Hq & Hc). exists q0. split; [by right|done].
Qed.

Lemma saved_on_record (db : dbh) tableSuffix userId activityId order award t id (f f' : tables) :
  award_saved db tableSuffix (mkUserAwardTaskInfo (drawn_record userId activityId order award t)
    (mkAwardTask userId SendAwardTopic id (mkSendAwardMessage userId (ra_AwardID award) (ra_AwardTitle award))
       TaskStateCreate)) f f' ->
  award_recorded db tableSuffix userId order (draw_reply award) f'.
Proof.
  intros (t1 & t2 & t3 & t4 & message & Hm & _ & (p & Hp & Hl) & (task & Htask & Hlt) & Hu & _).
  split; [|split].
  - exists p. split; [rewrite Hl; apply in_or_app; right; by left|].
    split; [exact (f_equal uap_OrderID Hp)|]. split; [exact (f_equal uap_UserID Hp)|].
    split; [exact (f_equal uap_AwardID Hp)|exact (f_equal uap_AwardTitle Hp)].
  - intros q Hq Hid. destruct (updated_in _ _ _ _ _ Hu Hq) as (q0 & _ & Hc). unfold has_order_id in Hc.
    cbn [ut_UserAwardRecord drawn_record ua_OrderID] in Hc.
    destruct (String.eqb_spec (uop_OrderID q0) (uo_OrderID order)) as [E0|N0].
    + exact (f_equal uop_OrderState Hc).
    + by subst q.
  - exists task, message. split; [rewrite Hlt; apply in_or_app; right; by left|]. split; [exact Hm|].
    split; [exact (f_equal tkp_UserID Htask)|]. split; [exact (f_equal tkp_Topic Htask)|].
    split; [exact (f_equal tkp_Message Htask)|exact (f_equal tkp_State Htask)].
Qed.

(** The steps of a draw that answers: the order, the award, and the save of the record on
    the tables the order left. *)
Lemma Draw_steps n userId activityId cells cells' (w w' : World) reply :
  factory_ok cells -> Draw (S := World) n userId activityId (cells, w) = (Ret reply, (cells', w')) ->
  exists agg order w1 award t w2,
    CreateOrder (mkPartakeRaffleActivity userId activityId) w = (Ret agg, w1) /\
    po_UserRaffleOrder agg = Some order /\ rows w2 = rows w1 /\
    Usecase_SaveUserAwardRecord (drawn_record userId activityId order award t) w2 = (Ret tt, w') /\
    reply = draw_reply award.
Proof.
  intros Hfactory Hrun.
  unfold Draw in Hrun. destruct (String.eqb userId "" || (activityId <=? 0)); [discriminate Hrun|].
  apply bind_inv_ret in Hrun as (agg & [c1 w1] & Hcreate & Hrun).
  unfold in_repo in Hcreate. cbn [fst snd] in Hcreate.
  destruct (CreateOrder (mkPartakeRaffleActivity userId activityId) w) as [x s1] eqn:Ec.
  injection Hcreate as -> <- <-.
  apply bind_inv_ret in Hrun as (order & [c1 w1] & Ho & Hrun).
  destruct (po_UserRaffleOrder agg) as [o|] eqn:Ea; [|discriminate Ho]. injection Ho as -> <- <-.
  apply bind_inv_ret in Hrun as (award & [c2 w2] & Hraffle & Hrun).
  destruct (PerformRaffle_reads d fuel n _ _ _ _ _ _ Hfactory Hraffle) as [R2 Hf2].
  apply bind_inv_ret in Hrun as (t & [c3 w3] & Ht & Hrun).
  apply bind_inv_ret in Hrun as ([] & [c4 w4] & Hsave & Hrun). injection Hrun as <- <- <-.
  unfold in_repo in Ht, Hsave. cbn [fst snd] in Ht, Hsave.
  assert (R3 : rows w3 = rows w2).
  { pose proof (quiet_env (R := R) (D := D) (ev_now (E := E)) w2) as [_ Hs2]. cbn [ev_now WorldEnvOps] in Ht.
    destruct (in_env ev_now w2) as [y s2]. injection Ht as _ <- <-. cbn [snd] in Hs2. unfold rows. by rewrite Hs2. }
  destruct (Usecase_SaveUserAwardRecord _ w3) as [y s3] eqn:Es. injection Hsave as -> <- <-.
  exists agg, order, s1, award, t, w3. split_and!; [done|done|congruence|exact Es|done].
Qed.

(** Whatever a draw answers, the prototypes of the factory are left as they were. *)
Lemma Draw_keeps_factory n userId activityId cells cells' (w w' : World) rr :
  factory_ok cells -> Draw (S := World) n userId activityId (cells, w) = (rr, (cells', w')) -> factory_ok cells'.
Proof.
  intros Hfactory. unfold Draw. destruct (String.eqb userId "" || (activityId <=? 0)); [by intros [= _ <- _]|].
  unfold bind at 1. unfold in_repo at 1. cbn [fst snd].
  destruct (CreateOrder _ w) as [ [agg|e|p] w1]; [|by intros [= _ <- _]..].
  unfold bind at 1. destruct (po_UserRaffleOrder agg) as [order|]; cbn [deref ret]; [|by intros [= _ <- _]].
  unfold bind at 1. destruct (PerformRaffle n _ (cells, w1)) as [x [c2 w2] ] eqn:Er.
  destruct (PerformRaffle_reads d fuel n _ _ _ _ _ _ Hfactory Er) as [_ Hf2].
  destruct x as [award|e|p]; [|by intros [= _ <- _]..].
  unfold bind at 1. unfold in_repo at 1. cbn [fst snd].
  destruct (ev_now w2) as [ [t|e|p] w3]; [|by intros [= _ <- _]..].
  unfold bind, in_repo. cbn [fst snd]. by destruct (Usecase_SaveUserAwardRecord _ w3) as [ [u|e|p] w4]; intros [= _ <- _].
Qed.

Lemma RandomRaffle_keeps_factory n strategyId userId cells cells' (w w' : World) rr :
  factory_ok cells -> RandomRaffle (S := World) n strategyId userId (cells, w) = (rr, (cells', w')) -> factory_ok cells'.
Proof.
  intros Hfactory. unfold RandomRaffle. destruct ((strategyId <=? 0) || String.eqb userId ""); [by intros [= _ <- _]|].
  unfold bind. destruct (PerformRaffle n _ (cells, w)) as [x [c2 w2] ] eqn:Er.
  destruct (PerformRaffle_reads d fuel n _ _ _ _ _ _ Hfactory Er) as [_ Hf2]. by destruct x; intros [= _ <- _].
Qed.

(** A row that collides with no record of an order, or with one. *)
Lemma conflict_had_record tableSuffix (record : UserAwardRecordPO) (l : list UserAwardRecordPO) :
  one_record_per_order ->
  existsb (sq_conflict (Tuser_award_record tableSuffix) record) l = true <->
  exists p, In p l /\ uap_OrderID p = uap_OrderID record.
Proof.
  intros Hindex. rewrite existsb_exists. split; intros (p & Hin & Hp); exists p; (split; [done|]).
  - symmetry. by apply (Hindex tableSuffix).
  - by apply Hindex.
Qed.

(** Saving the record of a draw records it, unless the order has one already. *)
Lemma save_drawn (db : dbh) tableSuffix userId activityId order award t (f : tables) (w w' : World) :
  DBStrategy (rp_routerDB r) userId = Ret (Some db, tableSuffix) ->
  one_record_per_order ->
  Usecase_SaveUserAwardRecord (drawn_record userId activityId order award t) w = (Ret tt, w') ->
  rows w db (Tuser_award_record tableSuffix) = f db (Tuser_award_record tableSuffix) ->
  award_on_record db tableSuffix userId order (draw_reply award) f (rows w').
Proof.
  intros Hroute Hindex Es Hback. unfold Usecase_SaveUserAwardRecord in Es.
  apply bind_inv_ret in Es as (ev & w5 & Hev & Hs). cbn [drawn_record ua_UserID ua_AwardID ua_AwardTitle] in *.
  assert (R5 : rows w5 = rows w).
  { assert (Hq : quiet (R := R) (D := D) (E := E) (NewBaseEvent (E := World)
      (mkSendAwardMessage userId (ra_AwardID award) (ra_AwardTitle award)))).
    { unfold NewBaseEvent, generateShortID. cbn [ev_now ev_crypto_read WorldEnvOps]. solve_quiet. }
    destruct (Hq w) as [_ Hq2]. rewrite Hev in Hq2. cbn [snd] in Hq2. unfold rows. by rewrite Hq2. }
  set (saved := mkUserAwardTaskInfo _ _) in Hs.
  assert (Hst : award_states saved) by done.
  pose proof (SaveUserAwardRecord_run (mkAwardRepository (rp_routerDB r)) saved db tableSuffix w5 (Ret tt) w'
    Hroute Hst Hs) as [ [Hsaved|[Hsame Hconf] ] _]; rewrite R5 in *.
  - left. split; [|exact (saved_on_record db tableSuffix userId activityId order award t (ev_ID ev) _ _ Hsaved)].
    destruct Hsaved as (t1 & t2 & _ & _ & _ & _ & Hno & _). intros Hhad. apply not_true_iff_false in Hno.
    apply Hno. apply conflict_had_record; [done|]. unfold had_record in Hhad. rewrite <- Hback in Hhad. exact Hhad.
  - right. destruct Hconf as (t1 & t2 & Hconf). apply conflict_had_record in Hconf; [|done].
    unfold had_record. rewrite <- Hback, Hsame. split; [exact Hconf|done].
Qed.

(** A draw the user is told about: when [Draw] answers and the draw's order had no award
    record, the award of the reply is on record in the user's shard, with the task that
    will send it and the order marked used; an order that had one keeps it, and the award
    of the reply is recorded nowhere. *)
Lemma Draw_recorded (n : nat) (userId : string) (activityId : Z) (db tableSuffix : string)
    cells cells' (w w' : World) reply
    (Hfactory : factory_ok cells)
    (Hroute : DBStrategy (rp_routerDB r) userId = Ret (Some db, tableSuffix))
    (Hindex : one_record_per_order)
    (Hrun : Draw (S := World) n userId activityId (cells, w) = (Ret reply, (cells', w'))) :
  exists order, uo_UserID order = userId /\
    award_on_record db tableSuffix userId order reply (rows w) (rows w').
Proof.
  destruct (Draw_steps _ _ _ _ _ _ _ _ Hfactory Hrun) as (agg & order & w1 & award & t & w2 & Ec & Ea & R2 & Es & ->).
  destruct (ActivityWiring.CreateOrder_run r fuel (mkPartakeRaffleActivity userId activityId) db tableSuffix w w1 agg Hroute Ec)
    as (o & reused & Ho & Hu & Hdisk). rewrite Ea in Ho. injection Ho as <-. cbn [pra_UserID] in *.
  exists order. split; [done|]. apply (save_drawn _ _ _ _ _ _ _ _ _ _ Hroute Hindex Es). rewrite R2.
  destruct Hdisk as [_ Hdisk]. destruct reused; [by destruct Hdisk as [_ ->]|].
  destruct Hdisk as (_ & _ & _ & [Hd|[-> _] ]); [|done].
  destruct Hd as (m & msg & t3 & t4 & _ & _ & _ & Hoth). by apply Hoth.
Qed.
End DrawTheorem.

(** ** A world to draw in: a user with two draws left *)
#[local] Existing Instances demo_c1 demo_c2 demo_c3 demo_c4 demo_c5 demo_c6 demo_c7 demo_c8 demo_c8_laws demo_e1 demo_e2
  demo_pm demo_award_codec demo_award_laws demo_award_sql demo_award_sql_laws.
Definition demo_drawn_award : StrategyAward := mkStrategyAward 7 101 "t" "s" 10 10 (float_of_Z 1) 3 "".
#[local] Instance demo_s1 : Codec Strategy := one_value_codec (mkStrategy 7 "d" "") (mkStrategy 0 "" "").
#[local] Instance demo_s2 : Codec (list StrategyAward) := one_value_codec [demo_drawn_award] [].
#[local] Instance demo_s3 : Codec string := one_value_codec ""%string ""%string.
#[local] Instance demo_s4 : Codec RuleTree := one_value_codec (mkRuleTree "" "" "" "" ∅) (mkRuleTree "" "" "" "" ∅).
#[local] Instance demo_s5 : Codec StrategyAward :=
  one_value_codec demo_drawn_award (mkStrategyAward 0 0 "" "" 0 0 (float_of_Z 0) 0 "").
#[local] Instance demo_s6 : Codec (list WeightBucket) := one_value_codec [] [].
#[local] Instance demo_s7 : Codec RaffleActivityPO :=
  one_value_codec (mkRaffleActivityPO 1 100 "a" "d" 0 1000 7 "open" zero_time zero_time)
    (mkRaffleActivityPO 0 0 "" "" 0 0 0 "" 0 0).
#[local] Instance demo_s8 : Codec AwardStockConsumeMessage :=
  one_value_codec (mkAwardStockConsumeMessage 7 101) (mkAwardStockConsumeMessage 0 0).

Definition demo_draw_rows : MemSql := fun _ t =>
  match t return list (row t) with
  | Traffle_activity => [mkRaffleActivityPO 1 100 "a" "d" 0 1000 7 "open" zero_time zero_time]
  | Traffle_activity_account => [mkRaffleActivityAccountPO 1 "u" 100 3 2 3 2 3 2 zero_time zero_time]
  | Tstrategy => [mkStrategyPO 1 7 "d" "" zero_time zero_time]
  | Tstrategy_award => [mkStrategyAwardPO 1 7 101 "t" "s" 10 10 (float_of_Z 1) "" 3 zero_time zero_time]
  | _ => []
  end.
Definition demo_draw_world : MemWorld :=
  mem_world (<[GetStrategyRateRangeKey "7" := RStr "1"]>
    (<[GetStrategyRateTableKey "7" := RHash {["0"%string := "101"%string]}]> demo_wire_redis))
    demo_draw_rows 0 [].
