(* ===== verification/Crypto.v ===== *)
(** * Crypto: SHA-256, SHA-1, HMAC, hexadecimal and base64

    [crypto/sha256], [crypto/sha1], [crypto/hmac], [encoding/hex] and [encoding/base64] as far as the
    authentication middleware and the table synchroniser call them, on lists of bytes. *)
From Stdlib Require Import ZArith NArith Lia List Ascii String.
From stdpp Require Import base gmap strings list numbers.
From S2P Require Import Prelude GoLib.
Open Scope Z_scope.

Fixpoint bytes_of (s : string) : list Z :=
  match s with
  | EmptyString => []
  | String c s' => byte_val c :: bytes_of s'
  end.

(** ** [crypto/sha256] *)
Definition w32 (x : Z) : Z := Z.land x 0xFFFFFFFF.
Definition rotr (n x : Z) : Z := Z.lor (Z.shiftr x n) (w32 (Z.shiftl x (32 - n))).
Definition big_sigma0 (x : Z) : Z := Z.lxor (rotr 2 x) (Z.lxor (rotr 13 x) (rotr 22 x)).
Definition big_sigma1 (x : Z) : Z := Z.lxor (rotr 6 x) (Z.lxor (rotr 11 x) (rotr 25 x)).
Definition small_sigma0 (x : Z) : Z := Z.lxor (rotr 7 x) (Z.lxor (rotr 18 x) (Z.shiftr x 3)).
Definition small_sigma1 (x : Z) : Z := Z.lxor (rotr 17 x) (Z.lxor (rotr 19 x) (Z.shiftr x 10)).

(** The constants of the standard: the first 32 bits of the fractional parts of the cube
    roots of the first 64 primes, and of the square roots of the first 8. *)
Definition is_prime (n : Z) : bool :=
  forallb (fun d => negb (n mod Z.of_nat d =? 0)) (seq 2 (Z.to_nat (Z.sqrt n) - 1)).
Definition primes : list Z := List.filter is_prime (map Z.of_nat (seq 2 310)).

(** The largest [r + x] with [x < 2 ^ bits] whose cube is at most [n]. *)
Fixpoint cube_root (bits : nat) (r n : Z) : Z :=
  match bits with
  | O => r
  | S bits' => let r' := r + 2 ^ Z.of_nat bits' in cube_root bits' (if r' ^ 3 <=? n then r' else r) n
  end.

Definition sha256_k : list Z := Eval vm_compute in map (fun p => cube_root 36 0 (p * 2 ^ 96) mod 2 ^ 32) primes.
Definition sha256_h0 : list Z := Eval vm_compute in map (fun p => Z.sqrt (p * 2 ^ 64) mod 2 ^ 32) (firstn 8 primes).

(** The message schedule: each step appends a word to the last sixteen. *)
Fixpoint schedule (n : nat) (w : list Z) : list Z :=
  match n with
  | O => w
  | S n' =>
      let next := w32 (small_sigma1 (nth 14 w 0) + nth 9 w 0 + small_sigma0 (nth 1 w 0) + nth 0 w 0) in
      match w with
      | [] => []
      | w0 :: rest => w0 :: schedule n' (rest ++ [next])
      end
  end.

Definition sha256_round (st : list Z) (kw : Z * Z) : list Z :=
  match st with
  | [a; b; c; d; e; f; g; h] =>
      let t1 := h + big_sigma1 e + Z.lxor (Z.land e f) (Z.land (Z.lxor e 0xFFFFFFFF) g) + kw.1 + kw.2 in
      let t2 := big_sigma0 a + Z.lxor (Z.land a b) (Z.lxor (Z.land a c) (Z.land b c)) in
      [w32 (t1 + t2); a; b; c; w32 (d + t1); e; f; g]
  | _ => st
  end.

Definition be_word (bs : list Z) : Z := foldl (fun acc b => acc * 256 + b) 0 bs.
Fixpoint be_bytes (n : nat) (x : Z) : list Z :=
  match n with
  | O => []
  | S n' => be_bytes n' (x / 256) ++ [x mod 256]
  end.

(** Cut a list into pieces of [n]. *)
Fixpoint chunks (fuel n : nat) (l : list Z) : list (list Z) :=
  match fuel, l with
  | S fuel', _ :: _ => firstn n l :: chunks fuel' n (skipn n l)
  | _, _ => []
  end.

Definition sha256_block (st : list Z) (block : list Z) : list Z :=
  let w := schedule 48 (map be_word (chunks 16 4 block)) in
  zip_with (fun x y => w32 (x + y)) st (foldl sha256_round st (zip sha256_k w)).

Definition sha256_pad (msg : list Z) : list Z :=
  let n := length msg in
  msg ++ [0x80] ++ repeat 0 (Nat.modulo (119 - Nat.modulo n 64) 64) ++ be_bytes 8 (8 * Z.of_nat n).

Definition sha256 (msg : list Z) : list Z :=
  let padded := sha256_pad msg in
  flat_map (be_bytes 4) (foldl sha256_block sha256_h0 (chunks (length padded) 64 padded)).

(** ** [crypto/sha1] *)
Definition rotl (n x : Z) : Z := rotr (32 - n) x.

Fixpoint sha1_schedule (n : nat) (w : list Z) : list Z :=
  match n with
  | O => w
  | S n' =>
      match w with
      | [] => []
      | w0 :: rest =>
          w0 :: sha1_schedule n' (rest ++ [rotl 1 (Z.lxor (Z.lxor (nth 13 w 0) (nth 8 w 0)) (Z.lxor (nth 2 w 0) w0))])
      end
  end.

(** The function and the constant of each twenty rounds. *)
Definition sha1_f (i : nat) (b c d : Z) : Z :=
  if (i <? 20)%nat then Z.lor (Z.land b c) (Z.land (Z.lxor b 0xFFFFFFFF) d) + Z.sqrt (2 * 2 ^ 60)
  else if (i <? 40)%nat then Z.lxor b (Z.lxor c d) + Z.sqrt (3 * 2 ^ 60)
  else if (i <? 60)%nat then Z.lor (Z.land b c) (Z.lor (Z.land b d) (Z.land c d)) + Z.sqrt (5 * 2 ^ 60)
  else Z.lxor b (Z.lxor c d) + Z.sqrt (10 * 2 ^ 60).

Definition sha1_round (st : list Z) (iw : nat * Z) : list Z :=
  match st with
  | [a; b; c; d; e] => [w32 (rotl 5 a + sha1_f iw.1 b c d + e + iw.2); a; rotl 30 b; c; d]
  | _ => st
  end.

Definition sha1_block (st : list Z) (block : list Z) : list Z :=
  let w := sha1_schedule 64 (map be_word (chunks 16 4 block)) in
  zip_with (fun x y => w32 (x + y)) st (foldl sha1_round st (zip (seq 0 80) w)).

Definition sha1 (msg : list Z) : list Z :=
  let padded := sha256_pad msg in
  flat_map (be_bytes 4)
    (foldl sha1_block [0x67452301; 0xefcdab89; 0x98badcfe; 0x10325476; 0xc3d2e1f0]
       (chunks (length padded) 64 padded)).

Example sha1_abc : hex_encode (sha1 (bytes_of "abc")) = "a9993e364706816aba3e25717850c26c9cd0d89d"%string.
Proof. vm_compute. reflexivity. Qed.

(** ** [hmac.New(sha256.New, secret)], [Write], [Sum(nil)] *)
Definition hmac_sha256 (secret msg : list Z) : list Z :=
  let key := if (64 <? length secret)%nat then sha256 secret else secret in
  let key := key ++ repeat 0 (64 - length key) in
  sha256 (map (Z.lxor 0x5c) key ++ sha256 (map (Z.lxor 0x36) key ++ msg)).

Example sha256_abc : hex_encode (sha256 (bytes_of "abc"))
  = "ba7816bf8f01cfea414140de5dae2223b00361a396177a9cb410ff61f20015ad"%string.
Proof. vm_compute. reflexivity. Qed.
Example sha256_two_blocks : hex_encode (sha256 (bytes_of "abcdbcdecdefdefgefghfghighijhijkijkljklmklmnlmnomnopnopq"))
  = "248d6a61d20638b8e5c026930c3e6039a33ce45964ff2167f6ecedd419db06c1"%string.
Proof. vm_compute. reflexivity. Qed.
Example hmac_rfc4231 : hex_encode (hmac_sha256 (bytes_of "Jefe") (bytes_of "what do ya want for nothing?"))
  = "5bdcc146bf60754e6a042426089575c75a003f089d2739839dec58b964ec3843"%string.
Proof. vm_compute. reflexivity. Qed.

(** [hmac.Equal] *)
Fixpoint bytes_eqb (a b : list Z) : bool :=
  match a, b with
  | [], [] => true
  | x :: a', y :: b' => (x =? y) && bytes_eqb a' b'
  | _, _ => false
  end.

Lemma bytes_eqb_eq a b : bytes_eqb a b = true <-> a = b.
Proof.
  revert b. induction a as [|x a IH]; intros [|y b]; cbn [bytes_eqb]; try done.
  rewrite andb_true_iff, IH, Z.eqb_eq. split; [intros [-> ->]; done|intros [= -> ->]; done].
Qed.

(** ** [hex.DecodeString] *)
Definition hex_value (c : ascii) : option Z :=
  let b := byte_val c in
  if between 48 57 b then Some (b - 48)
  else if between 97 102 b then Some (b - 87)
  else if between 65 70 b then Some (b - 55)
  else None.

Fixpoint hex_decode (s : string) : option (list Z) :=
  match s with
  | EmptyString => Some []
  | String _ EmptyString => None
  | String c1 (String c2 s') =>
      match hex_value c1, hex_value c2, hex_decode s' with
      | Some h, Some l, Some rest => Some (h * 16 + l :: rest)
      | _, _, _ => None
      end
  end.

(** ** [base64.StdEncoding.DecodeString] *)
Definition base64_value (c : ascii) : option Z :=
  let b := byte_val c in
  if between 65 90 b then Some (b - 65)
  else if between 97 122 b then Some (b - 71)
  else if between 48 57 b then Some (b + 4)
  else if b =? 43 then Some 62
  else if b =? 47 then Some 63
  else None.

(** Newlines are skipped; the last group may be padded, and nothing follows it. *)
Fixpoint drop_newlines (s : string) : string :=
  match s with
  | EmptyString => EmptyString
  | String c s' =>
      if (byte_val c =? 10) || (byte_val c =? 13) then drop_newlines s' else String c (drop_newlines s')
  end.

Fixpoint base64_groups (s : string) : option (list Z) :=
  match s with
  | EmptyString => Some []
  | String c1 (String c2 (String c3 (String c4 rest))) =>
      match base64_value c1, base64_value c2 with
      | Some v1, Some v2 =>
          match base64_value c3, base64_value c4 with
          | Some v3, Some v4 =>
              option_map (fun bs => v1 * 4 + v2 / 16 :: (v2 mod 16) * 16 + v3 / 4 :: (v3 mod 4) * 64 + v4 :: bs)
                (base64_groups rest)
          | Some v3, None =>
              if Ascii.eqb c4 "=" && String.eqb rest "" then Some [v1 * 4 + v2 / 16; (v2 mod 16) * 16 + v3 / 4]
              else None
          | None, _ =>
              if Ascii.eqb c3 "=" && Ascii.eqb c4 "=" && String.eqb rest "" then Some [v1 * 4 + v2 / 16] else None
          end
      | _, _ => None
      end
  | _ => None
  end.

Definition base64_decode (s : string) : option (list Z) := base64_groups (drop_newlines s).

Example base64_ex1 : base64_decode "TWFueQ==" = Some (bytes_of "Many").
Proof. vm_compute. reflexivity. Qed.
Example base64_ex2 : base64_decode "TWFu" = Some (bytes_of "Man").
Proof. vm_compute. reflexivity. Qed.

(** A printed byte string is read back. *)
Lemma hex_digit_value n : 0 <= n < 16 -> hex_value (hex_digit n) = Some n.
Proof.
  intros Hn. replace n with (Z.of_nat (Z.to_nat n)) by lia.
  assert (Hall : Forall (fun k => hex_value (hex_digit (Z.of_nat k)) = Some (Z.of_nat k)) (seq 0 16))
    by (repeat (constructor; [vm_compute; reflexivity|]); constructor).
  rewrite List.Forall_forall in Hall. apply Hall, in_seq. lia.
Qed.

Lemma hex_decode_encode bs : Forall (fun b => 0 <= b < 256) bs -> hex_decode (hex_encode bs) = Some bs.
Proof.
  induction 1 as [|b bs Hb Hbs IH]; [done|]. cbn [hex_encode hex_decode].
  rewrite !hex_digit_value, IH.
  - f_equal. f_equal. pose proof (Z_div_mod_eq_full b 16). lia.
  - pose proof (Z.mod_pos_bound b 16). lia.
  - split; [apply Z.div_pos; lia|]. apply Z.div_lt_upper_bound; lia.
Qed.

Lemma be_bytes_range n : forall x, Forall (fun b => 0 <= b < 256) (be_bytes n x).
Proof.
  induction n as [|n IH]; intros x; cbn [be_bytes]; [constructor|].
  apply Forall_app. split; [done|]. constructor; [apply Z.mod_pos_bound; lia|constructor].
Qed.

Lemma sha256_range msg : Forall (fun b => 0 <= b < 256) (sha256 msg).
Proof.
  unfold sha256. apply List.Forall_flat_map, List.Forall_forall. intros x _. apply be_bytes_range.
Qed.
