(* ===== verification/Auth.v ===== *)
(** * Auth: the authentication middleware

    [internal/server/middleware/auth.go]: a request is accepted by the first configured
    source -- a signed gateway header, a JWT or a session -- that finds credentials.  The
    JWT library and the validators of the configuration are parameters; HMAC, hexadecimal
    and base64 are those of [Crypto]. *)
From Stdlib Require Import ZArith NArith Lia List Ascii String.
From stdpp Require Import base gmap strings list numbers.
From S2P Require Import Prelude GoLib Env Crypto.
Open Scope Z_scope.

(** ** Instants in headers and claims *)

(** [time.Unix(sec, 0)]: the seconds are kept relative to year 1 and wrap. *)
Definition time_of_unix (sec : Z) : time := (wrap64 (sec + 62135596800) - 62135596800) * Second.

Definition days_of_civil (y m d : Z) : Z :=
  let y' := if m <=? 2 then y - 1 else y in
  let era := y' / 400 in
  let yoe := y' mod 400 in
  let doy := (153 * ((m + 9) mod 12) + 2) / 5 + d - 1 in
  era * 146097 + (yoe * 365 + yoe / 4 - yoe / 100 + doy) - 719468.

Definition is_leap (y : Z) : bool := (y mod 4 =? 0) && (negb (y mod 100 =? 0) || (y mod 400 =? 0)).
Definition days_in (m y : Z) : Z :=
  if m =? 2 then (if is_leap y then 29 else 28)
  else if (m =? 4) || (m =? 6) || (m =? 9) || (m =? 11) then 30 else 31.

Section RFC3339.
Definition digit (c : ascii) : option Z :=
  if is_digit c then Some (byte_val c - 48) else None.

(** [getnum(s, true)] and [getnum(s, false)] *)
Definition getnum_fixed (s : string) : option (Z * string) :=
  match s with
  | String a (String b rest) =>
      match digit a, digit b with Some x, Some y => Some (x * 10 + y, rest) | _, _ => None end
  | _ => None
  end.
Definition getnum (s : string) : option (Z * string) :=
  match getnum_fixed s with
  | Some r => Some r
  | None => match s with String a rest => option_map (fun x => (x, rest)) (digit a) | _ => None end
  end.
Definition skip (c : ascii) (s : string) : option string :=
  match s with String d rest => if Ascii.eqb d c then Some rest else None | _ => None end.

(** The digits of a fraction: at most nine count. *)
Fixpoint fraction (scale : Z) (s : string) : Z * string :=
  match s with
  | String c rest =>
      match digit c with
      | Some x => let '(ns, rest') := fraction (scale / 10) rest in (x * scale + ns, rest')
      | None => (0, s)
      end
  | EmptyString => (0, s)
  end.
Definition optional_fraction (s : string) : Z * string :=
  match s with
  | String c (String d _ as rest) =>
      if (Ascii.eqb c "." || Ascii.eqb c ",") && is_digit d then fraction 100000000 rest else (0, s)
  | _ => (0, s)
  end.

(** ["Z07:00"]: the offset in seconds. *)
Definition zone (s : string) : option Z :=
  match s with
  | String "Z" EmptyString => Some 0
  | String sign rest =>
      h ← getnum_fixed rest;
      rest ← skip ":" h.2;
      m ← getnum_fixed rest;
      if (24 <? h.1) || (60 <? m.1) || negb (String.eqb m.2 "") then None
      else if Ascii.eqb sign "+" then Some ((h.1 * 60 + m.1) * 60)
      else if Ascii.eqb sign "-" then Some (- ((h.1 * 60 + m.1) * 60))
      else None
  | EmptyString => None
  end.

(** [time.Parse(time.RFC3339, s)] *)
Definition parse_rfc3339 (s : string) : option time :=
  y1 ← getnum_fixed s; y2 ← getnum_fixed y1.2; s ← skip "-" y2.2;
  mo ← getnum_fixed s; s ← skip "-" mo.2;
  d ← getnum_fixed s; s ← skip "T" d.2;
  h ← getnum s; s ← skip ":" h.2;
  mi ← getnum_fixed s; s ← skip ":" mi.2;
  se ← getnum_fixed s;
  let '(ns, s) := optional_fraction se.2 in
  offset ← zone s;
  let y := y1.1 * 100 + y2.1 in
  if (mo.1 <? 1) || (12 <? mo.1) || (23 <? h.1) || (59 <? mi.1) || (59 <? se.1) ||
     (d.1 <? 1) || (days_in mo.1 y <? d.1) then None
  else Some ((days_of_civil y mo.1 d.1 * 86400 + h.1 * 3600 + mi.1 * 60 + se.1 - offset) * Second + ns).
End RFC3339.

Example rfc3339_ex1 : parse_rfc3339 "2024-02-29T15:59:59.5+08:00" = Some (1709193599 * Second + 500000000).
Proof. vm_compute. reflexivity. Qed.
Example rfc3339_ex2 : parse_rfc3339 "1970-01-01T00:00:00Z" = Some 0.
Proof. vm_compute. reflexivity. Qed.
Example rfc3339_ex3 : parse_rfc3339 "2023-02-29T00:00:00Z" = None.
Proof. vm_compute. reflexivity. Qed.

Definition parseHeaderTime (value : string) : time :=
  let value := TrimSpace value in
  if String.eqb value "" then zero_time
  else
    match ParseInt value with
    | Ret unixSecond => time_of_unix unixSecond
    | _ => match parse_rfc3339 value with Some parsed => parsed | None => zero_time end
    end.

(** ** Small helpers *)
Definition trimSlice (items : list string) : list string :=
  List.filter (fun item => negb (String.eqb item "")) (map TrimSpace items).
Definition splitAndTrim (value : string) (sep : ascii) : list string :=
  if String.eqb (TrimSpace value) "" then [] else trimSlice (Split value sep).
Definition containsString (items : list string) (target : string) : bool := existsb (String.eqb target) items.
Definition is_hex_char (c : ascii) : bool := match hex_value c with Some _ => true | None => false end.
Definition isHexString (value : string) : bool :=
  if negb (Nat.even (String.length value)) || String.eqb value "" then false
  else all_chars is_hex_char value.
Definition errOrLast (current last : option gerr) : option gerr :=
  match current with Some _ => current | None => last end.
Definition unauthorizedError (message : string) : gerr := Unauthorized "UNAUTHORIZED" message.

(** ** Data *)
Inductive AuthSource := AuthSourceGateway | AuthSourceJWT | AuthSourceSession | AuthSourceOther (name : string).

Record AuthInfo := mkAuthInfo {
  ai_UserID : string;
  ai_SessionID : string;
  ai_DeviceID : string;
  ai_Issuer : string;
  ai_Audience : list string;
  ai_Source : AuthSource;
  ai_Subject : string;
  ai_ExpiresAt : time;
  ai_TokenID : string;
  ai_RawToken : string }.

(** What the middleware sees of a transport: its operation, [RequestHeader().Get] and, over
    HTTP, the cookies of the request. *)
Record Transporter := mkTransporter {
  tr_Operation : string;
  tr_Header : string -> string;
  tr_Cookie : option (string -> option string) }.

Record SessionValidateRequest := mkSessionValidateRequest {
  sv_SessionID : string;
  sv_DeviceID : string;
  sv_Transport : Transporter }.

Record GatewaySignatureRequest := mkGatewaySignatureRequest {
  gs_Canonical : string;
  gs_Signature : string;
  gs_Header : string -> string;
  gs_AuthInfo : AuthInfo }.

(** A claim of a token: the dynamic types the code switches on, with what [fmt.Sprint]
    prints where it prints the value. *)
Inductive claim :=
| CString (s : string)
| CStringer (text : string)
| CFloat64 (v : float64) (text : string)
| CInt64 (z : Z)
| CInt (z : Z)
| CStrings (l : list string) (text : string)
| CList (l : list claim) (text : string)
| COther (text : string).
Notation MapClaims := (gmap string claim).

Definition sprint (c : claim) : string :=
  match c with
  | CString s => s
  | CStringer text | CFloat64 _ text | CStrings _ text | CList _ text | COther text => text
  | CInt64 z | CInt z => FormatInt z
  end.

(** ** Claims *)
Definition readStringClaim (claims : MapClaims) (key : string) : string :=
  match claims !! key with
  | None => EmptyString
  | Some (CString s) => TrimSpace s
  | Some (CStringer text) => TrimSpace text
  | Some (CFloat64 v _) => FormatInt (float_to_int v)
  | Some (CInt64 v) => FormatInt v
  | Some v => TrimSpace (sprint v)
  end.

Fixpoint extractUserIDClaim (claims : MapClaims) (claimKeys : list string) : res string :=
  match claimKeys with
  | [] => Fail (ENew "jwt user id claim is missing")
  | key :: rest =>
      let value := readStringClaim claims key in
      if negb (String.eqb value "") then Ret value else extractUserIDClaim claims rest
  end.

Definition extractRequiredStringClaim (claims : MapClaims) (key : string) : res string :=
  let value := readStringClaim claims key in
  if String.eqb value "" then Fail (ENew ("jwt claim " ++ key ++ " is missing")) else Ret value.

Definition readTimeClaim (raw : option claim) : time :=
  match raw with
  | Some (CFloat64 v _) => time_of_unix (float_to_int v)
  | Some (CInt64 v) | Some (CInt v) => time_of_unix v
  | Some (CStringer text) => match ParseInt text with Ret sec => time_of_unix sec | _ => zero_time end
  | Some (CString v) => parseHeaderTime v
  | _ => zero_time
  end.

Definition normalizeAudienceClaim (raw : option claim) : list string :=
  match raw with
  | Some (CStrings v _) => trimSlice v
  | Some (CList v _) => trimSlice (map sprint v)
  | Some (CString v) => splitAndTrim v ","
  | _ => []
  end.

(** ** Validation *)
Definition validateDeviceHeader (header : string -> string) (headerName expected : string) : res unit :=
  let actual := TrimSpace (header headerName) in
  if String.eqb actual "" then Fail (ENew ("request device header " ++ headerName ++ " is empty"))
  else if negb (String.eqb actual expected)
  then Fail (ENew ("request device header " ++ headerName ++ " does not match token claim"))
  else Ret tt.

Definition validateOptionalDeviceHeader (header : string -> string) (headerName expected : string) : res unit :=
  if String.eqb expected "" then Ret tt else validateDeviceHeader header headerName expected.

Definition validateIssuer (actual expected : string) : res unit :=
  if String.eqb expected "" then Ret tt
  else if negb (String.eqb (TrimSpace actual) expected) then Fail (ENew "issuer does not match")
  else Ret tt.

Definition validateAudience (actual expected : list string) : res unit :=
  match expected with
  | [] => Ret tt
  | _ =>
      let actualSet := List.filter (fun item => negb (String.eqb item "")) actual in
      if existsb (containsString actualSet) expected then Ret tt
      else Fail (ENew "audience does not match")
  end.

Definition validateExpiration (expireAt : time) (required : bool) (clockSkew : Z) (now : time) : res unit :=
  if IsZero expireAt then
    (if required then Fail (ENew "expiration time is missing") else Ret tt)
  else if negb (After expireAt (now - clockSkew)) then Fail (ENew "authentication credential is expired")
  else Ret tt.

(** ** Options *)
Section Options.
(** The state the validators run on, and the tokens and keys of the JWT library. *)
Context {S Token Key : Type}.

Notation SessionValidator := (SessionValidateRequest -> M S (option AuthInfo)).
Notation GatewaySignatureValidator := (GatewaySignatureRequest -> M S unit).
Notation Keyfunc := (Token -> res Key).

Record JWTOptions := mkJWTOptions {
  jo_Enabled : bool;
  jo_Header : string;
  jo_Prefix : string;
  jo_CookieNames : list string;
  jo_KeyFunc : option Keyfunc;
  jo_SigningKey : option Key;
  jo_SigningMethods : list string;
  jo_Issuer : string;
  jo_Audience : list string;
  jo_DeviceHeader : string;
  jo_DeviceClaim : string;
  jo_UserIDClaims : list string;
  jo_SessionIDClaim : string;
  jo_RequireExpiresAt : bool;
  jo_ClockSkew : Z }.

Record SessionOptions := mkSessionOptions {
  so_Enabled : bool;
  so_HeaderNames : list string;
  so_CookieNames : list string;
  so_DeviceHeader : string;
  so_Validator : option SessionValidator;
  so_Issuer : string;
  so_Audience : list string;
  so_ClockSkew : Z;
  so_RequireDevice : bool;
  so_RequireExpires : bool }.

Record GatewayOptions := mkGatewayOptions {
  go_Enabled : bool;
  go_UserIDHeader : string;
  go_SessionHeader : string;
  go_DeviceHeader : string;
  go_IssuerHeader : string;
  go_AudienceHeader : string;
  go_ExpireHeader : string;
  go_SignatureHeader : string;
  go_TimestampHeader : string;
  go_NonceHeader : string;
  go_SignatureSecret : list Z;
  go_SignatureValidator : option GatewaySignatureValidator;
  go_Issuer : string;
  go_Audience : list string;
  go_ClockSkew : Z;
  go_RequireDevice : bool;
  go_RequireExpires : bool }.

Record AuthOptions := mkAuthOptions {
  ao_Skipper : option (Transporter -> bool);
  ao_Now : option (M S time);
  ao_Sources : list AuthSource;
  ao_JWT : JWTOptions;
  ao_Session : SessionOptions;
  ao_Gateway : GatewayOptions }.

Definition or_default (value fallback : string) : string := if String.eqb value "" then fallback else value.
Definition or_defaults {A} (value fallback : list A) : list A := match value with [] => fallback | _ => value end.

Definition JWTOptions_withDefaults (o : JWTOptions) : JWTOptions :=
  {| jo_Enabled := jo_Enabled o;
     jo_Header := or_default (jo_Header o) "Authorization";
     jo_Prefix := or_default (jo_Prefix o) "Bearer ";
     jo_CookieNames := jo_CookieNames o; jo_KeyFunc := jo_KeyFunc o; jo_SigningKey := jo_SigningKey o;
     jo_SigningMethods := jo_SigningMethods o; jo_Issuer := jo_Issuer o; jo_Audience := jo_Audience o;
     jo_DeviceHeader := or_default (jo_DeviceHeader o) "X-Device-Id";
     jo_DeviceClaim := or_default (jo_DeviceClaim o) "device_id";
     jo_UserIDClaims := or_defaults (jo_UserIDClaims o) ["user_id"; "uid"; "sub"]%string;
     jo_SessionIDClaim := or_default (jo_SessionIDClaim o) "sid";
     jo_RequireExpiresAt := jo_RequireExpiresAt o; jo_ClockSkew := jo_ClockSkew o |}.

(** The two [Require] flags are set whatever the configuration says. *)
Definition SessionOptions_withDefaults (o : SessionOptions) : SessionOptions :=
  {| so_Enabled := so_Enabled o;
     so_HeaderNames := or_defaults (so_HeaderNames o) ["X-Session-Id"%string];
     so_CookieNames := so_CookieNames o;
     so_DeviceHeader := or_default (so_DeviceHeader o) "X-Device-Id";
     so_Validator := so_Validator o; so_Issuer := so_Issuer o; so_Audience := so_Audience o;
     so_ClockSkew := if so_ClockSkew o <=? 0 then 30 * Second else so_ClockSkew o;
     so_RequireDevice := if negb (so_RequireDevice o) then true else so_RequireDevice o;
     so_RequireExpires := if negb (so_RequireExpires o) then true else so_RequireExpires o |}.

Definition GatewayOptions_withDefaults (o : GatewayOptions) : GatewayOptions :=
  {| go_Enabled := go_Enabled o;
     go_UserIDHeader := or_default (go_UserIDHeader o) "X-User-Id";
     go_SessionHeader := or_default (go_SessionHeader o) "X-Session-Id";
     go_DeviceHeader := or_default (go_DeviceHeader o) "X-Device-Id";
     go_IssuerHeader := or_default (go_IssuerHeader o) "X-Auth-Issuer";
     go_AudienceHeader := or_default (go_AudienceHeader o) "X-Auth-Audience";
     go_ExpireHeader := or_default (go_ExpireHeader o) "X-Auth-Expires-At";
     go_SignatureHeader := or_default (go_SignatureHeader o) "X-Auth-Signature";
     go_TimestampHeader := or_default (go_TimestampHeader o) "X-Auth-Timestamp";
     go_NonceHeader := or_default (go_NonceHeader o) "X-Auth-Nonce";
     go_SignatureSecret := go_SignatureSecret o; go_SignatureValidator := go_SignatureValidator o;
     go_Issuer := go_Issuer o; go_Audience := go_Audience o;
     go_ClockSkew := if go_ClockSkew o <=? 0 then 30 * Second else go_ClockSkew o;
     go_RequireDevice := if negb (go_RequireDevice o) then true else go_RequireDevice o;
     go_RequireExpires := if negb (go_RequireExpires o) then true else go_RequireExpires o |}.

Definition withDefaults `{EnvOps S} (o : AuthOptions) : AuthOptions :=
  {| ao_Skipper := ao_Skipper o;
     ao_Now := match ao_Now o with None => Some ev_now | now => now end;
     ao_Sources := or_defaults (ao_Sources o) [AuthSourceGateway; AuthSourceJWT; AuthSourceSession];
     ao_JWT := JWTOptions_withDefaults (ao_JWT o);
     ao_Session := SessionOptions_withDefaults (ao_Session o);
     ao_Gateway := GatewayOptions_withDefaults (ao_Gateway o) |}.

(** ** Credentials of a request *)

(** The value after the prefix, compared without case. *)
Definition stripBearerPrefix (value prefix : string) : res string :=
  if negb (HasPrefix (ToLower value) (ToLower prefix))
  then Fail (ENew ("authorization header must use " ++ TrimSpace prefix))
  else
    let token := TrimSpace (drop_str (String.length prefix) value) in
    if String.eqb token "" then Fail (ENew "authorization token is empty") else Ret token.

Fixpoint first_cookie (cookie : string -> option string) (names : list string) : string * bool :=
  match names with
  | [] => (EmptyString, false)
  | name :: rest =>
      match cookie name with
      | None => first_cookie cookie rest
      | Some value =>
          if String.eqb (TrimSpace value) "" then first_cookie cookie rest else (TrimSpace value, true)
      end
  end.

Definition cookie_or_none (tr : Transporter) (names : list string) : string * bool :=
  match tr_Cookie tr with
  | None => (EmptyString, false)
  | Some cookie => first_cookie cookie names
  end.

Definition extractJWTToken (tr : Transporter) (cfg : JWTOptions) : string * bool :=
  let headerValue := TrimSpace (tr_Header tr (jo_Header cfg)) in
  if negb (String.eqb headerValue "") then
    match stripBearerPrefix headerValue (jo_Prefix cfg) with
    | Ret token => (token, true)
    | _ => (EmptyString, true)
    end
  else cookie_or_none tr (jo_CookieNames cfg).

Fixpoint first_header (header : string -> string) (names : list string) : option string :=
  match names with
  | [] => None
  | headerName :: rest =>
      let value := TrimSpace (header headerName) in
      if negb (String.eqb value "") then Some value else first_header header rest
  end.

Definition extractSessionID (tr : Transporter) (cfg : SessionOptions) : string * bool :=
  match first_header (tr_Header tr) (so_HeaderNames cfg) with
  | Some value => (value, true)
  | None => cookie_or_none tr (so_CookieNames cfg)
  end.

(** ** The gateway's signature *)
Definition newline : string := String "010" EmptyString.

Definition buildGatewayCanonicalString (header : string -> string) (info : AuthInfo) (cfg : GatewayOptions)
    : string :=
  Join ["user_id=" ++ ai_UserID info; "session_id=" ++ ai_SessionID info; "device_id=" ++ ai_DeviceID info;
        "issuer=" ++ ai_Issuer info; "audience=" ++ Join (ai_Audience info) ",";
        "expires_at=" ++ header (go_ExpireHeader cfg); "timestamp=" ++ header (go_TimestampHeader cfg);
        "nonce=" ++ header (go_NonceHeader cfg)]%string newline.

Definition verifyGatewayHMACSignature (canonical signature : string) (secret : list Z) : res unit :=
  let expected := hmac_sha256 secret (bytes_of canonical) in
  let signature := TrimSpace signature in
  if isHexString signature then
    match hex_decode signature with
    | None => Fail (ENew "gateway signature is not valid hex")
    | Some actual =>
        if negb (bytes_eqb actual expected) then Fail (ENew "gateway signature does not match") else Ret tt
    end
  else
    match base64_decode signature with
    | None => Fail (ENew "gateway signature must be hex or base64")
    | Some actual =>
        if negb (bytes_eqb actual expected) then Fail (ENew "gateway signature does not match") else Ret tt
    end.
End Options.
Arguments JWTOptions : clear implicits.
Arguments SessionOptions : clear implicits.
Arguments GatewayOptions : clear implicits.
Arguments AuthOptions : clear implicits.

(** ** The sources *)

(** [(info, attempted, err)]: a source that found no credentials was not attempted. *)
Inductive auth_attempt :=
| NotAttempted (err : option gerr)
| Attempted (result : AuthInfo + gerr).

(** The options the code passes to the parser of the JWT library. *)
Record ParserOptions (S : Type) := mkParserOptions {
  pa_TimeFunc : M S time;
  pa_ValidMethods : option (list string);
  pa_Issuer : option string;
  pa_Audience : option (list string);
  pa_Leeway : option Z;
  pa_ExpirationRequired : bool }.
Arguments mkParserOptions {S}.
Arguments pa_TimeFunc {S}.
Arguments pa_ValidMethods {S}.
Arguments pa_Issuer {S}.
Arguments pa_Audience {S}.
Arguments pa_Leeway {S}.
Arguments pa_ExpirationRequired {S}.

(** [github.com/golang-jwt/jwt]: [token.Method.Alg()], [token.Valid] and
    [jwt.ParseWithClaims], which also fills the claims. *)
Class JWTLibrary (S Token Key : Type) := {
  jwt_Alg : Token -> string;
  jwt_Valid : Token -> bool;
  jwt_ParseWithClaims : string -> (Token -> res Key) -> ParserOptions S -> M S (option Token * MapClaims) }.

Section Authenticate.
Context {S Token Key : Type} `{JWTLibrary S Token Key} `{EnvOps S}.
Notation AuthOptions := (AuthOptions S Token Key).
Notation JWTOptions := (JWTOptions Token Key).
Notation SessionOptions := (SessionOptions S).
Notation GatewayOptions := (GatewayOptions S).

Definition clock (opts : AuthOptions) : M S time := match ao_Now opts with Some now => now | None => panic nil_deref end.

(** The rest of [authenticateJWT] once there is a token. *)
Definition jwt_keyfunc (cfg : JWTOptions) : res (Token -> res Key) :=
  match jo_KeyFunc cfg with
  | Some keyFunc => Ret keyFunc
  | None =>
      match jo_SigningKey cfg with
      | None => Fail (ENew "jwt signing key is not configured")
      | Some key => Ret (fun token =>
          if (0 <? length (jo_SigningMethods cfg))%nat && negb (containsString (jo_SigningMethods cfg) (jwt_Alg token))
          then Fail (ENew ("jwt signing method " ++ jwt_Alg token ++ " is not allowed"))
          else Ret key)
      end
  end.

Definition jwt_parser_options (opts : AuthOptions) : ParserOptions S :=
  let cfg := ao_JWT opts in
  {| pa_TimeFunc := clock opts;
     pa_ValidMethods := match jo_SigningMethods cfg with [] => None | l => Some l end;
     pa_Issuer := if negb (String.eqb (jo_Issuer cfg) "") then Some (jo_Issuer cfg) else None;
     pa_Audience := match jo_Audience cfg with [] => None | l => Some l end;
     pa_Leeway := if 0 <? jo_ClockSkew cfg then Some (jo_ClockSkew cfg) else None;
     pa_ExpirationRequired := jo_RequireExpiresAt cfg |}.

Definition jwt_info (tr : Transporter) (opts : AuthOptions) (rawToken : string) : M S AuthInfo :=
  let cfg := ao_JWT opts in
  let! keyFunc := lift_res (jwt_keyfunc cfg) in
  let! parsed := with_err (EWrap "jwt validation failed: ")
                   (jwt_ParseWithClaims rawToken keyFunc (jwt_parser_options opts)) in
  let claims := parsed.2 in
  match parsed.1 with
  | None => fail (ENew "jwt token is invalid")
  | Some token =>
      if negb (jwt_Valid token) then fail (ENew "jwt token is invalid")
      else
        let! deviceID := lift_res (extractRequiredStringClaim claims (jo_DeviceClaim cfg)) in
        lift_res (validateDeviceHeader (tr_Header tr) (jo_DeviceHeader cfg) deviceID) ;;;
        let! userID := lift_res (extractUserIDClaim claims (jo_UserIDClaims cfg)) in
        ret {| ai_UserID := userID; ai_SessionID := readStringClaim claims (jo_SessionIDClaim cfg);
               ai_DeviceID := deviceID; ai_Issuer := readStringClaim claims "iss";
               ai_Audience := normalizeAudienceClaim (claims !! "aud"%string); ai_Source := AuthSourceJWT;
               ai_Subject := readStringClaim claims "sub"; ai_ExpiresAt := readTimeClaim (claims !! "exp"%string);
               ai_TokenID := readStringClaim claims "jti"; ai_RawToken := rawToken |}
  end.

Definition authenticateJWT (tr : Transporter) (opts : AuthOptions) : M S auth_attempt :=
  if negb (jo_Enabled (ao_JWT opts)) then ret (NotAttempted None)
  else
    let '(rawToken, attempted) := extractJWTToken tr (ao_JWT opts) in
    if negb attempted then ret (NotAttempted None)
    else let! r := attempt (jwt_info tr opts rawToken) in ret (Attempted r).

(** The rest of [authenticateSession] once there is a session. *)
Definition session_info (tr : Transporter) (opts : AuthOptions) (sessionID : string) : M S AuthInfo :=
  let cfg := ao_Session opts in
  match so_Validator cfg with
  | None => fail (ENew "session validator is not configured")
  | Some validator =>
      let deviceID := TrimSpace (tr_Header tr (so_DeviceHeader cfg)) in
      let! found := with_err (EWrap "session validation failed: ")
                      (validator (mkSessionValidateRequest sessionID deviceID tr)) in
      match found with
      | None => fail (ENew "session validation returned empty auth info")
      | Some info =>
          if String.eqb (ai_UserID info) "" then fail (ENew "session user id is empty")
          else if so_RequireDevice cfg && String.eqb (TrimSpace (ai_DeviceID info)) ""
          then fail (ENew "session device information is missing")
          else
            lift_res (validateOptionalDeviceHeader (tr_Header tr) (so_DeviceHeader cfg) (ai_DeviceID info)) ;;;
            lift_res (validateIssuer (ai_Issuer info) (so_Issuer cfg)) ;;;
            lift_res (validateAudience (ai_Audience info) (so_Audience cfg)) ;;;
            let! now := clock opts in
            lift_res (validateExpiration (ai_ExpiresAt info) (so_RequireExpires cfg) (so_ClockSkew cfg) now) ;;;
            ret {| ai_UserID := ai_UserID info; ai_SessionID := sessionID; ai_DeviceID := ai_DeviceID info;
                   ai_Issuer := ai_Issuer info; ai_Audience := ai_Audience info; ai_Source := AuthSourceSession;
                   ai_Subject := ai_Subject info; ai_ExpiresAt := ai_ExpiresAt info;
                   ai_TokenID := ai_TokenID info; ai_RawToken := ai_RawToken info |}
      end
  end.

Definition authenticateSession (tr : Transporter) (opts : AuthOptions) : M S auth_attempt :=
  if negb (so_Enabled (ao_Session opts)) then ret (NotAttempted None)
  else
    let '(sessionID, attempted) := extractSessionID tr (ao_Session opts) in
    if negb attempted then ret (NotAttempted None)
    else let! r := attempt (session_info tr opts sessionID) in ret (Attempted r).

(** The identity the gateway's headers name. *)
Definition gateway_header_info (header : string -> string) (cfg : GatewayOptions) : AuthInfo :=
  {| ai_UserID := TrimSpace (header (go_UserIDHeader cfg));
     ai_SessionID := TrimSpace (header (go_SessionHeader cfg));
     ai_DeviceID := TrimSpace (header (go_DeviceHeader cfg));
     ai_Issuer := TrimSpace (header (go_IssuerHeader cfg));
     ai_Audience := splitAndTrim (header (go_AudienceHeader cfg)) ",";
     ai_Source := AuthSourceGateway; ai_Subject := "";
     ai_ExpiresAt := parseHeaderTime (header (go_ExpireHeader cfg)); ai_TokenID := ""; ai_RawToken := "" |}.

(** The rest of [authenticateGateway] once a user or a signature is named. *)
Definition gateway_info (tr : Transporter) (opts : AuthOptions) : M S AuthInfo :=
  let cfg := ao_Gateway opts in
  let header := tr_Header tr in
  let signature := TrimSpace (header (go_SignatureHeader cfg)) in
  let info := gateway_header_info header cfg in
  if String.eqb (ai_UserID info) "" then fail (ENew "gateway user id header is empty")
  else if String.eqb signature "" then fail (ENew "gateway signature header is empty")
  else if go_RequireDevice cfg && String.eqb (ai_DeviceID info) "" then fail (ENew "gateway device header is empty")
  else
    lift_res (validateIssuer (ai_Issuer info) (go_Issuer cfg)) ;;;
    lift_res (validateAudience (ai_Audience info) (go_Audience cfg)) ;;;
    let! now := clock opts in
    lift_res (validateExpiration (ai_ExpiresAt info) (go_RequireExpires cfg) (go_ClockSkew cfg) now) ;;;
    let canonical := buildGatewayCanonicalString header info cfg in
    match go_SignatureValidator cfg with
    | Some validator =>
        with_err (EWrap "gateway signature validation failed: ")
          (validator (mkGatewaySignatureRequest canonical signature header info)) ;;;
        ret info
    | None =>
        if (length (go_SignatureSecret cfg) =? 0)%nat
        then fail (ENew "gateway signature secret is not configured")
        else lift_res (verifyGatewayHMACSignature canonical signature (go_SignatureSecret cfg)) ;;; ret info
    end.

Definition authenticateGateway (tr : Transporter) (opts : AuthOptions) : M S auth_attempt :=
  let cfg := ao_Gateway opts in
  if negb (go_Enabled cfg) then ret (NotAttempted None)
  else
    if String.eqb (TrimSpace (tr_Header tr (go_UserIDHeader cfg))) "" &&
       String.eqb (TrimSpace (tr_Header tr (go_SignatureHeader cfg))) ""
    then ret (NotAttempted None)
    else let! r := attempt (gateway_info tr opts) in ret (Attempted r).

Definition authenticate_source (source : AuthSource) (tr : Transporter) (opts : AuthOptions) : M S auth_attempt :=
  match source with
  | AuthSourceGateway => authenticateGateway tr opts
  | AuthSourceJWT => authenticateJWT tr opts
  | AuthSourceSession => authenticateSession tr opts
  | AuthSourceOther _ => ret (NotAttempted None)
  end.

(** The loop of [authenticate], with [lastErr]. *)
Fixpoint authenticate_sources (sources : list AuthSource) (lastErr : option gerr) (tr : Transporter)
    (opts : AuthOptions) : M S AuthInfo :=
  match sources with
  | [] =>
      match lastErr with
      | Some err => fail err
      | None => fail (ENew "missing authentication credentials")
      end
  | source :: rest =>
      let! a := authenticate_source source tr opts in
      match a with
      | Attempted (inr err) => fail err
      | Attempted (inl info) => ret info
      | NotAttempted err => authenticate_sources rest (errOrLast err lastErr) tr opts
      end
  end.

Definition authenticate (tr : Transporter) (opts : AuthOptions) : M S AuthInfo :=
  authenticate_sources (ao_Sources opts) None tr opts.

(** ** The middleware

    [handler] gets the value [AuthInfoFromContext] finds in its context. *)
Definition AuthMiddleware {A} (opts : AuthOptions) (tr : option Transporter)
    (handler : option AuthInfo -> M S A) : M S A :=
  let opts := withDefaults opts in
  match tr with
  | None => fail (unauthorizedError "missing transport context")
  | Some tr =>
      if match ao_Skipper opts with Some skipper => skipper tr | None => false end then handler None
      else
        let! authInfo := with_err (fun err => unauthorizedError (error_text err)) (authenticate tr opts) in
        handler (Some authInfo)
  end.
End Authenticate.

Definition MatchOperationSkipper (operations : list string) (tr : Transporter) : bool :=
  containsString (List.filter (fun operation => negb (String.eqb operation "")) operations) (tr_Operation tr).
