(* ===== verification/AuthFacts.v ===== *)
(** * AuthFacts: whom the middleware lets through

    A handler runs under an identity that one configured source vouches for: what the
    gateway accepts is characterised exactly, and the string its signature covers
    determines every field of the identity. *)
From Stdlib Require Import ZArith NArith Lia List Ascii String.
From stdpp Require Import base gmap strings list numbers.
From S2P Require Import Prelude GoLib Env Mem Crypto Auth.
Open Scope Z_scope.

Section AuthFacts.
Context {S Token Key : Type} `{JWTLibrary S Token Key} `{EnvOps S}.
Notation AuthOptions := (AuthOptions S Token Key).

(** A successful check, step by step. *)
Lemma bind_lift_ret {A B} (x : res A) (k : A -> M S B) s b s' :
  bind (lift_res x) k s = (Ret b, s') <-> exists a, x = Ret a /\ k a s = (Ret b, s').
Proof.
  split.
  - intros E. inv_bind E. unfold lift_res in Hm. injection Hm as -> <-. by exists a.
  - by intros (a & -> & E).
Qed.

Lemma bind_lift_tt {B} (x : res unit) (m : M S B) s b s' :
  (lift_res x ;;; m) s = (Ret b, s') <-> x = Ret tt /\ m s = (Ret b, s').
Proof.
  rewrite bind_lift_ret. split; [by intros ([] & -> & E)|]. intros [-> E]. by exists tt.
Qed.

(** An attempt that succeeded. *)
Lemma attempted_ok (m : M S AuthInfo) s info s' :
  (let! r := attempt m in ret (Attempted r)) s = (Ret (Attempted (inl info)), s') <-> m s = (Ret info, s').
Proof.
  unfold bind, attempt, ret. destruct (m s) as [[a|e|p] s1]; split; intros [=]; by subst.
Qed.

Lemma validateIssuer_ok actual expected :
  validateIssuer actual expected = Ret tt <-> expected = ""%string \/ TrimSpace actual = expected.
Proof.
  unfold validateIssuer. destruct (String.eqb_spec expected "") as [->|N]; [by split; auto|].
  destruct (String.eqb_spec (TrimSpace actual) expected); cbn; (split; [intros [=]; auto|intros [?|?]; done]).
Qed.

Lemma containsString_In l x : containsString l x = true <-> In x l.
Proof.
  unfold containsString. rewrite existsb_exists. split.
  - intros (y & Hy & ->%String.eqb_eq). done.
  - intros Hx. exists x. by rewrite String.eqb_refl.
Qed.

Lemma validateAudience_ok actual expected :
  validateAudience actual expected = Ret tt <->
  expected = [] \/ exists item, In item expected /\ In item actual /\ item <> ""%string.
Proof.
  unfold validateAudience. destruct expected as [|x l]; [by split; auto|].
  assert (Hf : forall item, In item (List.filter (fun item => negb (String.eqb item "")) actual) <->
    In item actual /\ item <> ""%string).
  { intros item. rewrite filter_In, negb_true_iff. by rewrite String.eqb_neq. }
  destruct (existsb _ (x :: l)) eqn:Ee.
  - split; [intros _; right|done]. apply existsb_exists in Ee as (item & Hin & Hc%containsString_In%Hf).
    exists item. tauto.
  - split; [intros [=]|]. intros [[=]|(item & Hin & Ha & Hne)].
    apply Bool.not_true_iff_false in Ee. destruct Ee. apply existsb_exists. exists item. split; [done|].
    by apply containsString_In, Hf.
Qed.

Lemma validateExpiration_ok expireAt skew now :
  validateExpiration expireAt true skew now = Ret tt <-> expireAt <> zero_time /\ now - skew < expireAt.
Proof.
  unfold validateExpiration, IsZero, After. destruct (Z.eqb_spec expireAt zero_time) as [->|N].
  - split; [intros [=]|intros [? _]; done].
  - destruct (Z.ltb_spec (now - skew) expireAt); cbn; (split; [intros [=]|intros [_ ?] ]); done || lia.
Qed.

Lemma validateDeviceHeader_ok header name expected :
  validateDeviceHeader header name expected = Ret tt ->
  TrimSpace (header name) = expected /\ expected <> ""%string.
Proof.
  unfold validateDeviceHeader. destruct (String.eqb_spec (TrimSpace (header name)) "") as [|N]; [intros [=]|].
  destruct (String.eqb_spec (TrimSpace (header name)) expected) as [<-|]; [done|intros [=] ].
Qed.

(** The bytes a signature stands for. *)
Definition signature_bytes (signature : string) : option (list Z) :=
  if isHexString signature then hex_decode signature else base64_decode signature.

Lemma compare_ok (o : option (list Z)) h e1 e2 :
  match o with
  | None => Fail e1
  | Some actual => if negb (bytes_eqb actual h) then Fail e2 else Ret tt
  end = Ret tt <-> o = Some h.
Proof.
  destruct o as [actual|]; [|done]. destruct (bytes_eqb actual h) eqn:Eb; cbn [negb].
  - apply bytes_eqb_eq in Eb as ->. done.
  - split; [intros [=]|]. intros [= ->]. by rewrite (proj2 (bytes_eqb_eq _ _) eq_refl) in Eb.
Qed.

Lemma verify_ok canonical signature secret :
  verifyGatewayHMACSignature canonical signature secret = Ret tt <->
  signature_bytes (TrimSpace signature) = Some (hmac_sha256 secret (bytes_of canonical)).
Proof.
  unfold verifyGatewayHMACSignature, signature_bytes. cbv zeta.
  destruct (isHexString (TrimSpace signature)); apply compare_ok.
Qed.

(** ** The gateway *)

(** C12. The gateway source accepts a request exactly when its headers name a user and a
    device, the issuer and the audience are the configured ones, the expiry lies after the
    clock less the allowed skew, a secret is configured, and the signature header is the
    hexadecimal or base64 text of the HMAC-SHA256 of the canonical string -- under the
    completed options, with no validator of the configuration's own.  The identity is the
    one the headers name. *)
Theorem gateway_accepts (o : AuthOptions) (tr : Transporter) (now : time) (info : AuthInfo) (s s' : S)
    (opts := withDefaults o) (cfg := ao_Gateway opts)
    (Henabled : go_Enabled cfg = true) (Hvalidator : go_SignatureValidator cfg = None)
    (Hnow : clock opts s = (Ret now, s')) :
  authenticateGateway tr opts s = (Ret (Attempted (inl info)), s') <->
  info = gateway_header_info (tr_Header tr) cfg /\
  ai_UserID info <> ""%string /\ ai_DeviceID info <> ""%string /\
  TrimSpace (tr_Header tr (go_SignatureHeader cfg)) <> ""%string /\
  (go_Issuer cfg = ""%string \/ TrimSpace (ai_Issuer info) = go_Issuer cfg) /\
  (go_Audience cfg = [] \/ exists item, In item (go_Audience cfg) /\ In item (ai_Audience info) /\ item <> ""%string) /\
  (ai_ExpiresAt info <> zero_time /\ now - go_ClockSkew cfg < ai_ExpiresAt info) /\
  go_SignatureSecret cfg <> [] /\
  signature_bytes (TrimSpace (TrimSpace (tr_Header tr (go_SignatureHeader cfg)))) =
    Some (hmac_sha256 (go_SignatureSecret cfg)
            (bytes_of (buildGatewayCanonicalString (tr_Header tr) info cfg))).
Proof.
  assert (Hdev : go_RequireDevice cfg = true).
  { unfold cfg, opts. cbn. by destruct (go_RequireDevice (ao_Gateway o)). }
  assert (Hexp : go_RequireExpires cfg = true).
  { unfold cfg, opts. cbn. by destruct (go_RequireExpires (ao_Gateway o)). }
  unfold authenticateGateway, gateway_info. fold cfg. rewrite Henabled, Hvalidator, Hdev, Hexp. cbn [negb andb].
  set (hinfo := gateway_header_info (tr_Header tr) cfg).
  change (TrimSpace (tr_Header tr (go_UserIDHeader cfg))) with (ai_UserID hinfo).
  set (sig := TrimSpace (tr_Header tr (go_SignatureHeader cfg))).
  destruct (String.eqb_spec (ai_UserID hinfo) "") as [Eu|Nu].
  { split; [|intros (-> & Hu & _); done]. destruct (String.eqb sig ""); cbn [andb]; [intros [=]|].
    rewrite attempted_ok. intros [=]. }
  cbn [andb]. rewrite attempted_ok.
  destruct (String.eqb_spec sig "") as [Es|Ns]; [by split; [intros [=]|intros (-> & _ & _ & Hs & _)]|].
  destruct (String.eqb_spec (ai_DeviceID hinfo) "") as [Ed|Nd]; [by split; [intros [=]|intros (-> & _ & Hd & _)]|].
  rewrite !bind_lift_tt, (bind_eq _ _ _ _ _ Hnow), bind_lift_tt.
  rewrite validateIssuer_ok, validateAudience_ok, validateExpiration_ok.
  destruct (go_SignatureSecret cfg) as [|b secret]; cbn [length Nat.eqb].
  { split; [intros (_ & _ & _ & [=])|intros (_ & _ & _ & _ & _ & _ & _ & Hs & _); done]. }
  rewrite bind_lift_tt, verify_ok. split.
  - intros (Hi & Ha & He & Hv & [= <-]). split_and!; done || tauto.
  - intros (-> & _ & _ & _ & Hi & Ha & He & _ & Hv). split_and!; done || tauto.
Qed.
(** ** What a signature covers *)
Lemma Split_no_char c x sep : no_char c x = true -> Forall (fun y => no_char c y = true) (Split x sep).
Proof.
  induction x as [|a x IH]; [by constructor|]. cbn [no_char Split]. intros Hx. apply andb_true_iff in Hx as [Ha Hx].
  specialize (IH Hx). destruct (Ascii.eqb a sep); [by constructor|].
  destruct (Split x sep) as [|y ys]; [constructor; [cbn; by rewrite Ha|done]|].
  inversion IH; subst. constructor; [cbn [no_char]; by rewrite Ha|done].
Qed.

Lemma Split_sep x sep : Forall (fun y => no_char sep y = true) (Split x sep).
Proof.
  induction x as [|a x IH]; [by constructor|]. cbn [Split].
  destruct (Ascii.eqb a sep) eqn:Ea; [by constructor|].
  destruct (Split x sep) as [|y ys]; [constructor; [cbn; by rewrite Ea|done]|].
  inversion IH; subst. constructor; [cbn [no_char]; by rewrite Ea|done].
Qed.

Lemma splitAndTrim_items x sep :
  Forall (fun y => no_char sep y = true /\ y <> ""%string /\ forall c, no_char c x = true -> no_char c y = true)
    (splitAndTrim x sep).
Proof.
  unfold splitAndTrim, trimSlice. destruct (String.eqb (TrimSpace x) ""); [constructor|].
  apply List.Forall_forall. intros y Hy. apply filter_In in Hy as [Hin Hne].
  apply negb_true_iff, String.eqb_neq in Hne. apply in_map_iff in Hin as (z & <- & Hz).
  pose proof (Split_sep x sep) as Hs. rewrite List.Forall_forall in Hs. split; [by apply TrimSpace_no_char, Hs|].
  split; [done|]. intros c Hc. pose proof (Split_no_char c x sep Hc) as Hc'. rewrite List.Forall_forall in Hc'.
  by apply TrimSpace_no_char, Hc'.
Qed.

(** A list of items without commas and not empty is determined by its text. *)
Lemma Join_inj (l l' : list string) sep :
  Forall (fun y => no_char sep y = true /\ y <> ""%string) l ->
  Forall (fun y => no_char sep y = true /\ y <> ""%string) l' ->
  Join l (String sep "") = Join l' (String sep "") -> l = l'.
Proof.
  intros Hl Hl' Hj.
  assert (Hnil : forall k, Forall (fun y => no_char sep y = true /\ y <> ""%string) k ->
    Join k (String sep "") = ""%string -> k = []).
  { intros [|x [|y k] ] Hk Ej; [done| |]; inversion Hk as [|? ? [_ Hne] _]; subst; cbn [Join] in Ej; [done|].
    by destruct x. }
  assert (Hns : forall k, Forall (fun y => no_char sep y = true /\ y <> ""%string) k ->
    Forall (fun y => no_char sep y = true) k) by (intros k Hk; eapply List.Forall_impl; [|exact Hk]; by intros y []).
  destruct l as [|x l]; [symmetry; by apply Hnil|]. destruct l' as [|x' l']; [by apply Hnil|].
  rewrite <- (Split_Join sep (x :: l)), <- (Split_Join sep (x' :: l')) by (done || by apply Hns). by rewrite Hj.
Qed.

(** What a request signs, and the identity, the time and the nonce it signs it for. *)
Definition canonical_string (header : string -> string) (cfg : GatewayOptions S) : string :=
  buildGatewayCanonicalString header (gateway_header_info header cfg) cfg.
Definition signed_claims (header : string -> string) (cfg : GatewayOptions S) : AuthInfo * string * string :=
  (gateway_header_info header cfg, header (go_TimestampHeader cfg), header (go_NonceHeader cfg)).

(** C35. The signed string determines the identity: of two requests whose headers hold no
    newline -- as HTTP guarantees -- and whose canonical strings are equal, the gateway
    reads the same user, session, device, issuer, audience and expiry, and they carry the
    same timestamp and nonce; so a signature vouches for one identity only. *)
Theorem canonical_binds (header header' : string -> string) (cfg : GatewayOptions S)
    (Hheader : forall name, no_char "010" (header name) = true)
    (Hheader' : forall name, no_char "010" (header' name) = true)
    (Hsame : canonical_string header cfg = canonical_string header' cfg) :
  signed_claims header cfg = signed_claims header' cfg.
Proof.
  unfold canonical_string, buildGatewayCanonicalString in Hsame.
  assert (Hitems : forall h, (forall name, no_char "010" (h name) = true) ->
    Forall (fun y => no_char "010" y = true)
      ["user_id=" ++ ai_UserID (gateway_header_info h cfg); "session_id=" ++ ai_SessionID (gateway_header_info h cfg);
       "device_id=" ++ ai_DeviceID (gateway_header_info h cfg); "issuer=" ++ ai_Issuer (gateway_header_info h cfg);
       "audience=" ++ Join (ai_Audience (gateway_header_info h cfg)) ",";
       "expires_at=" ++ h (go_ExpireHeader cfg); "timestamp=" ++ h (go_TimestampHeader cfg);
       "nonce=" ++ h (go_NonceHeader cfg)]%string).
  { intros h Hh. cbn [gateway_header_info ai_UserID ai_SessionID ai_DeviceID ai_Issuer ai_Audience].
    repeat apply Forall_cons_2; try apply Forall_nil_2; rewrite no_char_app; (apply andb_true_iff; split; [done|]);
      try (by apply TrimSpace_no_char, Hh); try apply Hh.
    apply no_char_Join; [|done]. eapply List.Forall_impl; [|apply splitAndTrim_items].
    intros y (_ & _ & Hy). by apply Hy, Hh. }
  apply (f_equal (fun x => Split x "010")) in Hsame. unfold newline in Hsame.
  rewrite !Split_Join in Hsame by (done || by apply Hitems).
  injection Hsame as Hu Hs Hd Hi Ha He Ht Hn.
  repeat match goal with E : (String.append "" ?a = String.append "" ?b) |- _ => change (a = b) in E end.
  unfold signed_claims. rewrite Ht, Hn. apply (f_equal (fun i => (i, _, _))).
  unfold gateway_header_info in *. cbn [ai_UserID ai_SessionID ai_DeviceID ai_Issuer ai_Audience] in *.
  assert (Haud : splitAndTrim (header (go_AudienceHeader cfg)) "," = splitAndTrim (header' (go_AudienceHeader cfg)) ",").
  { apply (Join_inj _ _ ","); [| |done]; (eapply List.Forall_impl; [|apply splitAndTrim_items]); intros y (? & ? & _); done. }
  by rewrite Hu, Hs, Hd, Hi, Haud, He.
Qed.

(** ** Who runs a handler *)

(** A successful bind, and an error that is only wrapped. *)
Lemma bind_ret_iff {A B} (m : M S A) (k : A -> M S B) s b s' :
  bind m k s = (Ret b, s') <-> exists a s1, m s = (Ret a, s1) /\ k a s1 = (Ret b, s').
Proof.
  unfold bind. destruct (m s) as [ [a|e|q] s1]; (split; [intros E|intros (a' & s2 & E1 & E2)]); try done.
  - by exists a, s1.
  - by injection E1 as <- <-.
Qed.

Lemma with_err_ret {A} f (m : M S A) s a s' : with_err f m s = (Ret a, s') <-> m s = (Ret a, s').
Proof. unfold with_err. by destruct (m s) as [ [x|e|q] s1]. Qed.

(** The gateway's own checks: of the clock, and of the signature over the canonical string
    by the configuration's validator or by the shared secret. *)
Definition gateway_vouches (tr : Transporter) (opts : AuthOptions) (info : AuthInfo) (s s' : S) : Prop :=
  let cfg := ao_Gateway opts in
  let signature := TrimSpace (tr_Header tr (go_SignatureHeader cfg)) in
  go_Enabled cfg = true /\ info = gateway_header_info (tr_Header tr) cfg /\
  ai_UserID info <> ""%string /\ signature <> ""%string /\ ai_DeviceID info <> ""%string /\
  (go_Issuer cfg = ""%string \/ TrimSpace (ai_Issuer info) = go_Issuer cfg) /\
  (go_Audience cfg = [] \/ exists item, In item (go_Audience cfg) /\ In item (ai_Audience info) /\ item <> ""%string) /\
  exists now s1, clock opts s = (Ret now, s1) /\
    (ai_ExpiresAt info <> zero_time /\ now - go_ClockSkew cfg < ai_ExpiresAt info) /\
    match go_SignatureValidator cfg with
    | Some validator =>
        validator (mkGatewaySignatureRequest (canonical_string (tr_Header tr) cfg) signature (tr_Header tr) info) s1
          = (Ret tt, s')
    | None =>
        go_SignatureSecret cfg <> [] /\ s' = s1 /\
        signature_bytes (TrimSpace signature) =
          Some (hmac_sha256 (go_SignatureSecret cfg) (bytes_of (canonical_string (tr_Header tr) cfg)))
    end.

(** The key of a token: of the configuration's function, or its one key, for the methods
    it allows. *)
Definition key_checked (cfg : JWTOptions Token Key) (keyFunc : Token -> res Key) : Prop :=
  match jo_KeyFunc cfg with
  | Some f => keyFunc = f
  | None => exists key, jo_SigningKey cfg = Some key /\ forall token k, keyFunc token = Ret k ->
      k = key /\ (jo_SigningMethods cfg = [] \/ In (jwt_Alg token) (jo_SigningMethods cfg))
  end.

(** The parser is asked for every check the configuration names, on the middleware's clock. *)
Definition parser_checks (opts : AuthOptions) (po : ParserOptions S) : Prop :=
  let cfg := ao_JWT opts in
  pa_TimeFunc po = clock opts /\
  (jo_SigningMethods cfg <> [] -> pa_ValidMethods po = Some (jo_SigningMethods cfg)) /\
  (jo_Issuer cfg <> ""%string -> pa_Issuer po = Some (jo_Issuer cfg)) /\
  (jo_Audience cfg <> [] -> pa_Audience po = Some (jo_Audience cfg)) /\
  (forall leeway, pa_Leeway po = Some leeway -> leeway = jo_ClockSkew cfg) /\
  pa_ExpirationRequired po = jo_RequireExpiresAt cfg.

(** The library parsed the token of the request and found it valid; user and device are
    its claims, the device being the one the request names. *)
Definition jwt_vouches (tr : Transporter) (opts : AuthOptions) (info : AuthInfo) (s s' : S) : Prop :=
  let cfg := ao_JWT opts in
  jo_Enabled cfg = true /\ exists rawToken keyFunc po token claims,
    extractJWTToken tr cfg = (rawToken, true) /\
    jwt_keyfunc cfg = Ret keyFunc /\ key_checked cfg keyFunc /\
    po = jwt_parser_options opts /\ parser_checks opts po /\
    jwt_ParseWithClaims rawToken keyFunc po s = (Ret (Some token, claims), s') /\ jwt_Valid token = true /\
    ai_DeviceID info = readStringClaim claims (jo_DeviceClaim cfg) /\ ai_DeviceID info <> ""%string /\
    TrimSpace (tr_Header tr (jo_DeviceHeader cfg)) = ai_DeviceID info /\
    (exists keys key keys', jo_UserIDClaims cfg = keys ++ key :: keys' /\
       Forall (fun k => readStringClaim claims k = ""%string) keys /\
       ai_UserID info = readStringClaim claims key /\ ai_UserID info <> ""%string) /\
    info = {| ai_UserID := ai_UserID info; ai_SessionID := readStringClaim claims (jo_SessionIDClaim cfg);
              ai_DeviceID := ai_DeviceID info; ai_Issuer := readStringClaim claims "iss";
              ai_Audience := normalizeAudienceClaim (claims !! "aud"%string); ai_Source := AuthSourceJWT;
              ai_Subject := readStringClaim claims "sub"; ai_ExpiresAt := readTimeClaim (claims !! "exp"%string);
              ai_TokenID := readStringClaim claims "jti"; ai_RawToken := rawToken |}.

(** The validator knows the session of the request, for this device, and the session is of
    the configured issuer and audience and not expired. *)
Definition session_vouches (tr : Transporter) (opts : AuthOptions) (info : AuthInfo) (s s' : S) : Prop :=
  let cfg := ao_Session opts in
  let deviceID := TrimSpace (tr_Header tr (so_DeviceHeader cfg)) in
  so_Enabled cfg = true /\ exists sessionID validator found s1 now,
    extractSessionID tr cfg = (sessionID, true) /\ so_Validator cfg = Some validator /\
    validator (mkSessionValidateRequest sessionID deviceID tr) s = (Ret (Some found), s1) /\
    ai_UserID found <> ""%string /\ TrimSpace (ai_DeviceID found) <> ""%string /\ ai_DeviceID found = deviceID /\
    (so_Issuer cfg = ""%string \/ TrimSpace (ai_Issuer found) = so_Issuer cfg) /\
    (so_Audience cfg = [] \/ exists item, In item (so_Audience cfg) /\ In item (ai_Audience found) /\ item <> ""%string) /\
    clock opts s1 = (Ret now, s') /\
    (ai_ExpiresAt found <> zero_time /\ now - so_ClockSkew cfg < ai_ExpiresAt found) /\
    info = {| ai_UserID := ai_UserID found; ai_SessionID := sessionID; ai_DeviceID := ai_DeviceID found;
              ai_Issuer := ai_Issuer found; ai_Audience := ai_Audience found; ai_Source := AuthSourceSession;
              ai_Subject := ai_Subject found; ai_ExpiresAt := ai_ExpiresAt found;
              ai_TokenID := ai_TokenID found; ai_RawToken := ai_RawToken found |}.

(** A source vouches for an identity; and it finds nothing to look at in a request. *)
Definition vouches (source : AuthSource) : Transporter -> AuthOptions -> AuthInfo -> S -> S -> Prop :=
  match source with
  | AuthSourceGateway => gateway_vouches
  | AuthSourceJWT => jwt_vouches
  | AuthSourceSession => session_vouches
  | AuthSourceOther _ => fun _ _ _ _ _ => False
  end.

Definition no_credentials (source : AuthSource) (tr : Transporter) (opts : AuthOptions) : Prop :=
  match source with
  | AuthSourceGateway =>
      go_Enabled (ao_Gateway opts) = false \/
      (TrimSpace (tr_Header tr (go_UserIDHeader (ao_Gateway opts))) = ""%string /\
       TrimSpace (tr_Header tr (go_SignatureHeader (ao_Gateway opts))) = ""%string)
  | AuthSourceJWT => jo_Enabled (ao_JWT opts) = false \/ (extractJWTToken tr (ao_JWT opts)).2 = false
  | AuthSourceSession => so_Enabled (ao_Session opts) = false \/ (extractSessionID tr (ao_Session opts)).2 = false
  | AuthSourceOther _ => True
  end.

(** ** Each source accepts exactly whom it vouches for *)
Lemma gateway_accepts_iff o tr s info s' :
  authenticateGateway tr (withDefaults o) s = (Ret (Attempted (inl info)), s') <->
  gateway_vouches tr (withDefaults o) info s s'.
Proof.
  unfold authenticateGateway, gateway_info, gateway_vouches. set (cfg := ao_Gateway (withDefaults o)). cbv zeta.
  assert (Hdev : go_RequireDevice cfg = true) by (unfold cfg; cbn; by destruct (go_RequireDevice (ao_Gateway o))).
  assert (Hexp : go_RequireExpires cfg = true) by (unfold cfg; cbn; by destruct (go_RequireExpires (ao_Gateway o))).
  destruct (go_Enabled cfg); [|by split; [|intros [? _]]]. rewrite Hdev, Hexp. cbn [negb andb].
  unfold canonical_string. set (hinfo := gateway_header_info (tr_Header tr) cfg).
  change (TrimSpace (tr_Header tr (go_UserIDHeader cfg))) with (ai_UserID hinfo).
  set (sig := TrimSpace (tr_Header tr (go_SignatureHeader cfg))).
  destruct (String.eqb_spec (ai_UserID hinfo) "") as [Eu|Nu].
  { split; [|by intros (_ & -> & ? & _)]. destruct (String.eqb sig ""); cbn [andb]; [done|]. rewrite attempted_ok. intros [=]. }
  cbn [andb]. rewrite attempted_ok.
  destruct (String.eqb_spec sig "") as [Es|Ns]; [by split; [|intros (_ & _ & _ & ? & _)]|].
  destruct (String.eqb_spec (ai_DeviceID hinfo) "") as [Ed|Nd]; [by split; [|intros (_ & -> & _ & _ & ? & _)]|].
  rewrite !bind_lift_tt, bind_ret_iff, validateIssuer_ok, validateAudience_ok. split.
  - intros (Hi & Ha & now & s1 & Hc & E). apply bind_lift_tt in E as [He E]. apply validateExpiration_ok in He.
    assert (info = hinfo /\ match go_SignatureValidator cfg with
      | Some validator => validator (mkGatewaySignatureRequest (buildGatewayCanonicalString (tr_Header tr) hinfo cfg)
          sig (tr_Header tr) hinfo) s1 = (Ret tt, s')
      | None => go_SignatureSecret cfg <> [] /\ s' = s1 /\ signature_bytes (TrimSpace sig) =
          Some (hmac_sha256 (go_SignatureSecret cfg) (bytes_of (buildGatewayCanonicalString (tr_Header tr) hinfo cfg)))
      end) as [-> Hsig].
    { destruct (go_SignatureValidator cfg) as [validator|].
      - apply bind_ret_iff in E as ([] & s2 & Hv & E). injection E as <- <-. by apply with_err_ret in Hv.
      - destruct (go_SignatureSecret cfg); [done|]. cbn [length Nat.eqb] in E.
        apply bind_lift_tt in E as [Hv E]. injection E as <- <-. by apply verify_ok in Hv. }
    split_and!; [done..|]. exists now, s1. split; [done|]. split; [exact He|exact Hsig].
  - intros (_ & -> & _ & _ & _ & Hi & Ha & now & s1 & Hc & He & Hsig). split_and!; [done..|].
    exists now, s1. split; [done|]. apply bind_lift_tt. split; [by apply validateExpiration_ok|].
    destruct (go_SignatureValidator cfg) as [validator|].
    + apply bind_ret_iff. exists tt, s'. split; [by apply with_err_ret|done].
    + destruct Hsig as (Hne & -> & Hv). destruct (go_SignatureSecret cfg); [done|]. cbn [length Nat.eqb].
      apply bind_lift_tt. split; [by apply verify_ok|done].
Qed.

Lemma jwt_keyfunc_checked cfg keyFunc : jwt_keyfunc cfg = Ret keyFunc -> key_checked cfg keyFunc.
Proof.
  unfold jwt_keyfunc, key_checked. destruct (jo_KeyFunc cfg); [by intros [= ->]|].
  destruct (jo_SigningKey cfg) as [key|]; [|done]. intros [= <-]. exists key. split; [done|]. intros token k.
  destruct (jo_SigningMethods cfg) as [|m l]; [intros [= <-]; auto|]. cbn [length Nat.ltb Nat.leb andb].
  destruct (containsString (m :: l) (jwt_Alg token)) eqn:Ec; [|done]. intros [= <-]. split; [done|].
  right. by apply containsString_In.
Qed.

Lemma jwt_parser_checks opts : parser_checks opts (jwt_parser_options opts).
Proof.
  unfold parser_checks, jwt_parser_options. cbn. split_and!; [done| | | | |done].
  - by destruct (jo_SigningMethods (ao_JWT opts)).
  - by destruct (String.eqb_spec (jo_Issuer (ao_JWT opts)) "").
  - by destruct (jo_Audience (ao_JWT opts)).
  - intros leeway. destruct (0 <? _); [|done]. by intros [= <-].
Qed.

Lemma extractUserIDClaim_iff claims keys userID :
  extractUserIDClaim claims keys = Ret userID <->
  exists keys1 key keys2, keys = keys1 ++ key :: keys2 /\
    Forall (fun k => readStringClaim claims k = ""%string) keys1 /\
    userID = readStringClaim claims key /\ userID <> ""%string.
Proof.
  induction keys as [|key keys IH]; cbn [extractUserIDClaim].
  { split; [done|]. by intros ([|] & ? & ? & ? & _). }
  destruct (String.eqb_spec (readStringClaim claims key) "") as [Ek|Nk]; cbn [negb].
  - rewrite IH. split.
    + intros (k1 & k & k2 & -> & Hk & Hu). exists (key :: k1), k, k2. split; [done|]. split; [by constructor|done].
    + intros ([|x k1] & k & k2 & [= -> ->] & Hk & Hu & Hn); [congruence|]. inversion Hk; subst. by exists k1, k, k2.
  - split.
    + intros [= <-]. by exists [], key, keys.
    + intros ([|x k1] & k & k2 & [= -> ->] & Hk & Hu & Hn); [by rewrite Hu|]. by inversion Hk.
Qed.

Lemma extractRequired_ok claims key v :
  extractRequiredStringClaim claims key = Ret v <-> v = readStringClaim claims key /\ v <> ""%string.
Proof.
  unfold extractRequiredStringClaim. destruct (String.eqb_spec (readStringClaim claims key) "") as [Ek|Nk].
  - split; [done|]. intros [-> ?]. done.
  - split; [by intros [= <-]|by intros [-> _] ].
Qed.

Lemma validateDevice_iff header name expected :
  validateDeviceHeader header name expected = Ret tt <->
  TrimSpace (header name) = expected /\ expected <> ""%string.
Proof.
  split; [apply validateDeviceHeader_ok|]. intros [<- N]. unfold validateDeviceHeader.
  apply String.eqb_neq in N. by rewrite N, String.eqb_refl.
Qed.

Lemma jwt_accepts_iff o tr s info s' :
  authenticateJWT tr (withDefaults o) s = (Ret (Attempted (inl info)), s') <->
  jwt_vouches tr (withDefaults o) info s s'.
Proof.
  unfold authenticateJWT, jwt_vouches. set (opts := withDefaults o). set (cfg := ao_JWT opts). cbv zeta.
  destruct (jo_Enabled cfg); cbn [negb]; [|by split; [|intros [? _]]].
  destruct (extractJWTToken tr cfg) as [rawToken attempted].
  destruct attempted; cbn [negb]; [|by split; [|intros (_ & ? & ? & ? & ? & ? & ? & _)]].
  rewrite attempted_ok. unfold jwt_info. fold cfg. rewrite bind_lift_ret. setoid_rewrite bind_ret_iff. split.
  - intros (keyFunc & Hk & [ot claims] & s1 & Hp & E). cbn [fst snd] in E. destruct ot as [token|]; [|done].
    destruct (jwt_Valid token) eqn:Ev; [|done]. cbn [negb] in E. apply bind_lift_ret in E as (deviceID & Hd & E).
    apply bind_lift_tt in E as [Hdev E]. apply bind_lift_ret in E as (userID & Hu & E). injection E as <- <-.
    apply with_err_ret in Hp. apply extractRequired_ok in Hd as [Hd Hdn]. apply validateDevice_iff in Hdev as [Hdev _].
    apply extractUserIDClaim_iff in Hu. split; [done|]. exists rawToken, keyFunc, (jwt_parser_options opts), token, claims.
    split_and!; try done; [by apply jwt_keyfunc_checked|apply jwt_parser_checks].
  - intros (_ & raw & keyFunc & po & token & claims & [= <-] & Hk & _ & -> & _ & Hp & Hv & Hd & Hdn & Hdev & Hu & Hinfo).
    exists keyFunc. split; [done|]. exists (Some token, claims), s'. split; [by apply with_err_ret|].
    cbn [fst snd]. rewrite Hv. cbn [negb]. apply bind_lift_ret. exists (ai_DeviceID info).
    split; [by apply extractRequired_ok|]. apply bind_lift_tt. split; [by apply validateDevice_iff|].
    apply bind_lift_ret. exists (ai_UserID info). split; [by apply extractUserIDClaim_iff|]. by rewrite Hinfo at 3.
Qed.

(** The header whose value is blank is no device. *)
Lemma trim_blank x : TrimSpace x <> ""%string -> x <> ""%string.
Proof. by intros N ->. Qed.

Lemma validateOptionalDevice_iff header name expected :
  expected <> ""%string ->
  validateOptionalDeviceHeader header name expected = Ret tt <-> TrimSpace (header name) = expected.
Proof.
  intros N. unfold validateOptionalDeviceHeader. apply String.eqb_neq in N as Nb. rewrite Nb, validateDevice_iff. tauto.
Qed.

Lemma session_accepts_iff o tr s info s' :
  authenticateSession tr (withDefaults o) s = (Ret (Attempted (inl info)), s') <->
  session_vouches tr (withDefaults o) info s s'.
Proof.
  unfold authenticateSession, session_vouches. set (opts := withDefaults o). set (cfg := ao_Session opts). cbv zeta.
  assert (Hdev : so_RequireDevice cfg = true) by (unfold cfg; cbn; by destruct (so_RequireDevice (ao_Session o))).
  assert (Hexp : so_RequireExpires cfg = true) by (unfold cfg; cbn; by destruct (so_RequireExpires (ao_Session o))).
  destruct (so_Enabled cfg); cbn [negb]; [|by split; [|intros [? _]]].
  destruct (extractSessionID tr cfg) as [sessionID attempted].
  destruct attempted; cbn [negb]; [|by split; [|intros (_ & ? & ? & ? & ? & ? & ? & _)]].
  rewrite attempted_ok. unfold session_info. fold cfg. rewrite Hdev, Hexp. cbn [andb].
  destruct (so_Validator cfg) as [validator|].
  2: { split; [done|]. by intros (_ & sid & v & found & s1 & now & _ & ? & _). }
  rewrite bind_ret_iff. setoid_rewrite with_err_ret. split.
  - intros ([found|] & s1 & Hv & E); [|done]. destruct (String.eqb_spec (ai_UserID found) "") as [|Nu]; [done|].
    destruct (String.eqb_spec (TrimSpace (ai_DeviceID found)) "") as [|Nd]; [done|].
    rewrite !bind_lift_tt, validateOptionalDevice_iff, validateIssuer_ok, validateAudience_ok, bind_ret_iff in E by (by apply trim_blank).
    destruct E as (Hd & Hi & Ha & now & s2 & Hc & E). apply bind_lift_tt in E as [He E].
    apply validateExpiration_ok in He. injection E as <- <-. split; [done|].
    exists sessionID, validator, found, s1, now. split_and!; try done; apply He.
  - intros (_ & sid & v & found & s1 & now & [= <-] & [= <-] & Hv & Nu & Nd & Hd & Hi & Ha & Hc & He & ->).
    exists (Some found), s1. split; [done|]. apply String.eqb_neq in Nu as Nu'. apply String.eqb_neq in Nd as Nd'.
    rewrite Nu', Nd', !bind_lift_tt, validateOptionalDevice_iff, validateIssuer_ok, validateAudience_ok, bind_ret_iff
      by (by apply trim_blank).
    split_and!; [done..|]. exists now, s'. split; [done|]. apply bind_lift_tt.
    split; [by apply validateExpiration_ok|done].
Qed.

(** A source accepts an identity exactly when it vouches for it, and asks for nothing --
    leaving the state as it was -- exactly when it finds no credentials. *)
Lemma source_accepts_iff o tr source s info s' :
  authenticate_source source tr (withDefaults o) s = (Ret (Attempted (inl info)), s') <->
  vouches source tr (withDefaults o) info s s'.
Proof.
  destruct source; cbn [authenticate_source vouches];
    [apply gateway_accepts_iff|apply jwt_accepts_iff|apply session_accepts_iff|done].
Qed.

Lemma attempt_attempts (m : M S AuthInfo) s err s' :
  (let! r := attempt m in ret (Attempted r)) s <> (Ret (NotAttempted err), s').
Proof. unfold bind, attempt, ret. by destruct (m s) as [ [a|e|p] s1]. Qed.

Lemma source_passes source tr opts s err s' :
  authenticate_source source tr opts s = (Ret (NotAttempted err), s') <->
  no_credentials source tr opts /\ err = None /\ s' = s.
Proof.
  destruct source; cbn [authenticate_source no_credentials].
  - unfold authenticateGateway. destruct (go_Enabled _); cbn [negb]; [|unfold ret; naive_solver].
    destruct (String.eqb_spec (TrimSpace (tr_Header tr (go_UserIDHeader (ao_Gateway opts)))) "") as [Eu|Nu],
      (String.eqb_spec (TrimSpace (tr_Header tr (go_SignatureHeader (ao_Gateway opts)))) "") as [Es|Ns]; cbn [andb].
    1: unfold ret; naive_solver.
    all: split; [by intros E%attempt_attempts|naive_solver].
  - unfold authenticateJWT. destruct (jo_Enabled _); cbn [negb]; [|unfold ret; naive_solver].
    destruct (extractJWTToken _ _) as [raw [|] ]; cbn [negb snd]; [|unfold ret; naive_solver].
    split; [by intros E%attempt_attempts|naive_solver].
  - unfold authenticateSession. destruct (so_Enabled _); cbn [negb]; [|unfold ret; naive_solver].
    destruct (extractSessionID _ _) as [raw [|] ]; cbn [negb snd]; [|unfold ret; naive_solver].
    split; [by intros E%attempt_attempts|naive_solver].
  - unfold ret. naive_solver.
Qed.

(** The first source with credentials vouches for the identity. *)
Definition admitted (o : AuthOptions) (tr : Transporter) (info : AuthInfo) (s s' : S) : Prop :=
  let opts := withDefaults o in
  exists passed source rest, ao_Sources opts = passed ++ source :: rest /\
    Forall (fun src => no_credentials src tr opts) passed /\ vouches source tr opts info s s'.

Lemma authenticate_iff o tr sources : forall lastErr s info s',
  authenticate_sources sources lastErr tr (withDefaults o) s = (Ret info, s') <->
  exists passed source rest, sources = passed ++ source :: rest /\
    Forall (fun src => no_credentials src tr (withDefaults o)) passed /\
    vouches source tr (withDefaults o) info s s'.
Proof.
  induction sources as [|src sources IH]; intros lastErr s info s'; cbn [authenticate_sources].
  { split; [by destruct lastErr|]. by intros ([|] & ? & ? & ? & _). }
  rewrite bind_ret_iff. split.
  - intros (a & s1 & Ha & E). destruct a as [err|[found|err] ]; [| |done].
    + apply source_passes in Ha as (Hno & -> & ->).
      apply IH in E as (passed & source & rest & -> & Hp & Hv).
      exists (src :: passed), source, rest. split; [done|]. split; [by constructor|done].
    + injection E as <- <-. apply source_accepts_iff in Ha. by exists [], src, sources.
  - intros ([|x passed] & source & rest & [= -> ->] & Hp & Hv).
    + exists (Attempted (inl info)), s'. split; [by apply source_accepts_iff|done].
    + inversion Hp; subst. exists (NotAttempted None), s. split; [by apply source_passes|].
      apply IH. by exists passed, source, rest.
Qed.

(** C11. No handler runs for a stranger.  Whatever the request and the configuration, one of
    two things holds for every handler.  Either the request matched the configured skipper
    and the handler runs without an identity; or it did not, and then: the handler runs
    exactly when the first configured source that finds credentials vouches for an identity
    -- the gateway by a signature over the headers' identity that is fresh and of the
    configured issuer and audience, a token by the library's parser under every check
    configured, a session by the validator -- and it runs under that identity, for the
    device the request names; and in every other case the middleware answers the error 401
    UNAUTHORIZED, or ends in the panic of a validator, without running the handler. *)
Theorem AuthMiddleware_identifies (o : AuthOptions) (tr : Transporter) (s : S) :
  (exists skipper, ao_Skipper o = Some skipper /\ skipper tr = true /\
     forall A (handler : option AuthInfo -> M S A), AuthMiddleware o (Some tr) handler s = handler None s) \/
  ((forall skipper, ao_Skipper o = Some skipper -> skipper tr = false) /\
   (forall info s', admitted o tr info s s' ->
      forall A (handler : option AuthInfo -> M S A), AuthMiddleware o (Some tr) handler s = handler (Some info) s') /\
   ((exists info s', admitted o tr info s s') \/
    (exists msg s', forall A (handler : option AuthInfo -> M S A),
       AuthMiddleware o (Some tr) handler s = (Fail (unauthorizedError msg), s')) \/
    (exists p s', forall A (handler : option AuthInfo -> M S A),
       AuthMiddleware o (Some tr) handler s = (Panic p, s')))).
Proof.
  unfold AuthMiddleware. cbn [ao_Skipper withDefaults].
  destruct (match ao_Skipper o with Some skipper => skipper tr | None => false end) eqn:Es.
  { left. destruct (ao_Skipper o) as [skipper|]; [|done]. by exists skipper. }
  right. split; [by intros skipper Ho; rewrite Ho in Es|]. unfold bind, with_err, authenticate. split.
  - intros info s' Ha A handler. apply (authenticate_iff o tr _ None) in Ha. by rewrite Ha.
  - destruct (authenticate_sources (ao_Sources (withDefaults o)) None tr (withDefaults o) s) as [ [info|e|p] s1] eqn:Ea.
    + left. exists info, s1. by apply authenticate_iff in Ea.
    + right. left. by exists (error_text e), s1.
    + right. right. by exists p, s1.
Qed.
End AuthFacts.

(** A claim that JSON [null] leaves reads as a user. *)
Example null_user_claim : extractUserIDClaim {["user_id"%string := COther "<nil>"]} ["user_id"%string] = Ret "<nil>"%string.
Proof. vm_compute. reflexivity. Qed.

(** ** Witnesses: a request the gateway signed *)
#[local] Instance demo_jwt : JWTLibrary MemEnv unit unit := {
  jwt_Alg := fun _ => "HS256"%string; jwt_Valid := fun _ => false;
  jwt_ParseWithClaims := fun _ _ _ => fail (EExt "token is malformed") }.
Definition demo_secret : list Z := bytes_of "secret".
Definition demo_options : AuthOptions MemEnv unit unit :=
  mkAuthOptions None None [AuthSourceGateway]
    (mkJWTOptions false "" "" [] None None [] "" [] "" "" [] "" false 0)
    (mkSessionOptions false [] [] "" None "" [] 0 false false)
    (mkGatewayOptions true "" "" "" "" "" "" "" "" "" demo_secret None "bff" ["market"%string] 0 false false).
Definition demo_cfg : GatewayOptions MemEnv := ao_Gateway (withDefaults demo_options).

Definition demo_unsigned (name : string) : string :=
  if String.eqb name "X-User-Id" then " u1"
  else if String.eqb name "X-Device-Id" then "d1"
  else if String.eqb name "X-Auth-Issuer" then "bff"
  else if String.eqb name "X-Auth-Audience" then "market, other"
  else if String.eqb name "X-Auth-Expires-At" then "100"
  else if String.eqb name "X-Auth-Timestamp" then "50"
  else if String.eqb name "X-Auth-Nonce" then "n1"
  else "".
Definition demo_identity : AuthInfo := gateway_header_info demo_unsigned demo_cfg.
Definition demo_signature : string :=
  hex_encode (hmac_sha256 demo_secret (bytes_of (buildGatewayCanonicalString demo_unsigned demo_identity demo_cfg))).
Definition demo_signed_header (user name : string) : string :=
  if String.eqb name "X-Auth-Signature" then demo_signature
  else if String.eqb name "X-User-Id" then user else demo_unsigned name.
Definition demo_request (user : string) : Transporter := mkTransporter "/Draw" (demo_signed_header user) None.
Definition demo_env : MemEnv := mkMemEnv (60 * Second) [] [] [] [].
(** A handler that answers the user it sees. *)
Definition demo_handler (ctx : option AuthInfo) : M MemEnv string :=
  ret match ctx with Some info => ai_UserID info | None => "anonymous"%string end.

(** The signed request is accepted, with a reading of the clock. *)
Lemma gateway_accepts_witness :
  clock (withDefaults demo_options) demo_env = (Ret (60 * Second), demo_env) /\
  (authenticateGateway (demo_request "u1") (withDefaults demo_options) demo_env).1 = Ret (Attempted (inl demo_identity)) /\
  (authenticateGateway (demo_request "u1") (withDefaults demo_options) demo_env
     = (Ret (Attempted (inl demo_identity)), demo_env) ->
   60 * Second - go_ClockSkew demo_cfg < ai_ExpiresAt demo_identity).
Proof.
  assert (Hnow : clock (withDefaults demo_options) demo_env = (Ret (60 * Second), demo_env)) by (vm_compute; reflexivity).
  split; [exact Hnow|]. split; [vm_compute; reflexivity|]. intros E.
  assert (Henabled : go_Enabled (ao_Gateway (withDefaults demo_options)) = true) by reflexivity.
  assert (Hvalidator : go_SignatureValidator (ao_Gateway (withDefaults demo_options)) = None) by reflexivity.
  destruct (proj1 (gateway_accepts demo_options (demo_request "u1") (60 * Second) demo_identity demo_env demo_env
    Henabled Hvalidator Hnow) E) as (_ & _ & _ & _ & _ & _ & [_ He] & _). exact He.
Defined.

Lemma canonical_binds_witness :
  gateway_header_info (demo_signed_header "u1") demo_cfg = gateway_header_info (demo_signed_header " u1 ") demo_cfg.
Proof.
  assert (Hn : forall user, no_char "010" user = true -> forall name, no_char "010" (demo_signed_header user name) = true).
  { intros user Hu name. unfold demo_signed_header, demo_unsigned.
    repeat (destruct (String.eqb name _); [done || exact Hu || vm_compute; reflexivity|]). reflexivity. }
  refine (f_equal (fun c => c.1.1) (canonical_binds (demo_signed_header "u1") (demo_signed_header " u1 ") demo_cfg
    (Hn "u1"%string eq_refl) (Hn " u1 "%string eq_refl) _)).
  vm_compute. reflexivity.
Defined.

(** The handler answers for the signed user; with the signature of another user it is
    not reached. *)
Lemma AuthMiddleware_identifies_witness :
  AuthMiddleware demo_options (Some (demo_request "u1")) demo_handler demo_env = (Ret "u1"%string, demo_env) /\
  (AuthMiddleware demo_options (Some (demo_request "u2")) demo_handler demo_env).1
    = Fail (unauthorizedError "gateway signature does not match") /\
  (exists info s', admitted demo_options (demo_request "u1") info demo_env s' /\
     demo_handler (Some info) s' = (Ret "u1"%string, demo_env)) /\
  ~ exists info s', admitted demo_options (demo_request "u2") info demo_env s'.
Proof.
  assert (H1 : AuthMiddleware demo_options (Some (demo_request "u1")) demo_handler demo_env = (Ret "u1"%string, demo_env))
    by (vm_compute; reflexivity).
  assert (H2 : (AuthMiddleware demo_options (Some (demo_request "u2")) demo_handler demo_env).1
    = Fail (unauthorizedError "gateway signature does not match")) by (vm_compute; reflexivity).
  split; [exact H1|]. split; [exact H2|]. split.
  - destruct (AuthMiddleware_identifies demo_options (demo_request "u1") demo_env)
      as [(skipper & [=] & _)|(_ & Hrun & [(info & s' & Ha)|[(msg & s' & Hno)|(p & s' & Hno)] ])].
    + exists info, s'. split; [exact Ha|]. by rewrite <- (Hrun info s' Ha).
    + rewrite (Hno _ demo_handler) in H1. discriminate H1.
    + rewrite (Hno _ demo_handler) in H1. discriminate H1.
  - intros (info & s' & Ha).
    destruct (AuthMiddleware_identifies demo_options (demo_request "u2") demo_env)
      as [(skipper & [=] & _)|(_ & Hrun & _)].
    rewrite (Hrun info s' Ha) in H2. discriminate H2.
Defined.
