(* ===== verification/Dcc.v ===== *)
(** * Dcc: the dynamic configuration, its snapshot on disk and what it switches

    [internal/dcc/manager.go], [internal/dcc/fallback.go] and the middlewares
    [internal/server/middleware/degrade.go] and [middleware.go].  The manager keeps the
    last configuration in memory and has goroutines write it to disk, one at a time under
    the mutex of [Fallback]; after a crash the snapshot stands in for a configuration
    centre that does not answer. *)
From Stdlib Require Import ZArith Lia List Ascii String.
From stdpp Require Import base gmap strings list.
From S2P Require Import Prelude GoLib Cache.
Open Scope Z_scope.

(** [conf.Dcc] *)
Record Dcc := mkDcc { RateLimit : Z; EnableDegrade : bool; BlackList : string }.

(** ** The disk

    What [os] does to the files; directories are not modelled.  Each call draws a fault.
    [seen] are the contents the disk went through, one of which a crash leaves. *)
Inductive fault := NoFault | Denied | Short (n : nat).

Record Disk := mkDisk {
  files : gmap string string;
  faults : list fault;
  seen : list (gmap string string) }.

Definition io_error : gerr := EExt "input/output error".

(** The next fault, and the disk without it. *)
Definition draw (d : Disk) : fault * Disk :=
  (hd NoFault (faults d), mkDisk (files d) (tl (faults d)) (seen d)).

(** The files change to [l]'s entries one after the other. *)
Definition go_through (l : list (gmap string string)) (d : Disk) : Disk :=
  mkDisk (List.last l (files d)) (faults d) (seen d ++ l).

(** [os.MkdirAll(filepath.Dir(path), 0755)] *)
Definition MkdirAll_Dir (path : string) : M Disk unit := fun d =>
  match draw d with
  | (NoFault, d') => (Ret tt, d')
  | (_, d') => (Fail io_error, d')
  end.

(** The states of a file that is truncated and then written up to byte [n]. *)
Definition written (name data : string) (n : nat) (fs : gmap string string) : list (gmap string string) :=
  map (fun k => <[name := substring 0 k data]> fs) (seq 0 (S n)).

Definition WriteFile (name data : string) : M Disk unit := fun d =>
  match draw d with
  | (NoFault, d') => (Ret tt, go_through (written name data (String.length data) (files d)) d')
  | (Denied, d') => (Fail io_error, d')
  | (Short n, d') => (Fail io_error, go_through (written name data n (files d)) d')
  end.

(** [os.Rename] replaces the target in one step. *)
Definition Rename (old new : string) : M Disk unit := fun d =>
  match draw d, files d !! old with
  | (NoFault, d'), Some data => (Ret tt, go_through [<[new := data]> (delete old (files d))] d')
  | (_, d'), _ => (Fail io_error, d')
  end.

(** [os.IsNotExist(os.Stat(name))]: another error of [Stat] does not count. *)
Definition not_exist (name : string) : M Disk bool := fun d =>
  match draw d with
  | (NoFault, d') => (Ret (bool_decide (files d !! name = None)), d')
  | (_, d') => (Ret false, d')
  end.

Definition ReadFile (name : string) : M Disk string := fun d =>
  match draw d, files d !! name with
  | (NoFault, d'), Some data => (Ret data, d')
  | (_, d'), _ => (Fail io_error, d')
  end.

(** ** The snapshot *)
Section Fallback.
Context `{Codec Dcc}.
Variable filePath : string.

Definition tmpFile : string := (filePath ++ ".tmp")%string.

(** Errors are logged only. *)
Definition SaveSnapshot (cfg : Dcc) : M Disk unit :=
  let! made := attempt (MkdirAll_Dir filePath) in
  match made with
  | inr _ => ret tt
  | inl _ =>
      let! data := attempt (lift_res (marshal (Some cfg))) in
      match data with
      | inr _ => ret tt
      | inl data =>
          let! wrote := attempt (WriteFile tmpFile data) in
          match wrote with
          | inr _ => ret tt
          | inl _ =>
              let! _ := attempt (Rename tmpFile filePath) in ret tt
          end
      end
  end.

Definition LoadSnapshot : M Disk Dcc :=
  let! absent := not_exist filePath in
  if (absent : bool) then fail (ENew ("本地兜底文件不存在: " ++ filePath))
  else
    let! data := with_err (fun err => ENew ("读取兜底文件失败: " ++ error_text err)) (ReadFile filePath) in
    with_err (fun err => ENew ("解析兜底文件 JSON 失败 (文件可能已损坏): " ++ error_text err))
      (lift_res (unmarshal data)).
End Fallback.

(** ** The manager

    What the configuration centre answers, [config.Config] of kratos. *)
Class ConfigSource (C : Type) := {
  cs_Load : M C unit;
  cs_Scan : string -> M C Dcc }.

(** [Manager] with the goroutines waiting to save and the disk they share; [value] is the
    [atomic.Value]. *)
Record Manager (C : Type) := mkManager {
  source : C;
  value : option Dcc;
  saving : list Dcc;
  watching : bool;
  disk : Disk }.
Arguments mkManager {C}.
Arguments source {C}.
Arguments value {C}.
Arguments saving {C}.
Arguments watching {C}.
Arguments disk {C}.

Section Manager.
Context {C : Type} `{ConfigSource C} `{Codec Dcc}.
Variables (watchKey filePath : string).

Definition in_source {A} (m : M C A) : M (Manager C) A := fun s =>
  let '(r, c) := m (source s) in (r, mkManager c (value s) (saving s) (watching s) (disk s)).
Definition in_disk {A} (m : M Disk A) : M (Manager C) A := fun s =>
  let '(r, d) := m (disk s) in (r, mkManager (source s) (value s) (saving s) (watching s) d).

(** [m.value.Store(&cfg)] *)
Definition Store (cfg : Dcc) : M (Manager C) unit := fun s =>
  (Ret tt, mkManager (source s) (Some cfg) (saving s) (watching s) (disk s)).
(** [go m.fallback.SaveSnapshot(&cfg)] *)
Definition go_SaveSnapshot (cfg : Dcc) : M (Manager C) unit := fun s =>
  (Ret tt, mkManager (source s) (value s) (saving s ++ [cfg]) (watching s) (disk s)).
(** [go m.watch()] *)
Definition go_watch : M (Manager C) unit := fun s =>
  (Ret tt, mkManager (source s) (value s) (saving s) true (disk s)).

Definition Init : M (Manager C) unit :=
  let! loaded := attempt (in_source cs_Load) in
  match loaded with
  | inr _ =>
      let! fallbackCfg := with_err
        (fun err => ENew ("致命错误: 远程配置中心挂掉，且本地快照读取失败: " ++ error_text err))
        (in_disk (LoadSnapshot filePath)) in
      Store fallbackCfg
  | inl _ =>
      let! cfg := with_err (fun err => ENew ("解析远程配置失败: " ++ error_text err))
                    (in_source (cs_Scan watchKey)) in
      Store cfg ;;;
      go_SaveSnapshot cfg ;;;
      go_watch
  end.

(** The callback of [watch], with what [value.Scan] gives. *)
Definition watch (scanned : res Dcc) : M (Manager C) unit :=
  let! newCfg := attempt (lift_res scanned) in
  match newCfg with
  | inr _ => ret tt
  | inl newCfg => Store newCfg ;;; go_SaveSnapshot newCfg
  end.

Definition Get (s : Manager C) : Dcc :=
  match value s with
  | None => mkDcc 0 false ""
  | Some cfg => cfg
  end.

(** ** What happens to a server

    [Changed]: the configuration centre reports a change; [Saved k]: the mutex goes to
    goroutine [k], which saves; [Restarted n]: the process dies, leaving the disk as it
    was the [n]th time of its last save, and starts again. *)
Inductive event :=
| Changed (scanned : res Dcc)
| Saved (k : nat)
| Restarted (n : nat).

Definition begin_save : M (Manager C) unit := fun s =>
  (Ret tt, mkManager (source s) (value s) (saving s) (watching s)
             (mkDisk (files (disk s)) (faults (disk s)) [])).
Definition end_save (k : nat) : M (Manager C) unit := fun s =>
  (Ret tt, mkManager (source s) (value s) (firstn k (saving s) ++ skipn (S k) (saving s)) (watching s) (disk s)).
Definition crash (n : nat) : M (Manager C) unit := fun s =>
  (Ret tt, mkManager (source s) None [] false
             (mkDisk (default (files (disk s)) (seen (disk s) !! n)) (faults (disk s)) [])).

Definition handle_event (e : event) : M (Manager C) unit := fun s =>
  match e with
  | Changed scanned => if watching s then watch scanned s else (Ret tt, s)
  | Saved k =>
      match saving s !! k with
      | None => (Ret tt, s)
      | Some cfg => (begin_save ;;; in_disk (SaveSnapshot filePath cfg) ;;; end_save k) s
      end
  | Restarted n => (crash n ;;; let! _ := attempt Init in ret tt) s
  end.
End Manager.

(** ** The switches *)
Section Middleware.
Context {S A : Type}.

(** [DegradeMiddleware(dcc)] on what [dcc.Get()] returns; [None] is a nil [ConfigGetter]. *)
Definition DegradeMiddleware (dcc : option Dcc) (handler : M S A) : M S A :=
  match dcc with
  | None => handler
  | Some cfg =>
      if EnableDegrade cfg
      then fail (EKratos 503 "DEGRADED" "该服务已降级，请稍后再试" [] None)
      else handler
  end.

(** [req.(uIdGetter)]: the value of [GetUId], for a request that has the method. *)
Definition extractUIdFromReq (GetUId : option string) : string :=
  match GetUId with Some uId => uId | None => EmptyString end.

Definition RateLimiterMiddleware (dcc : option Dcc) (GetUId : option string) (handler : M S A) : M S A :=
  if match dcc with None => true | Some cfg => RateLimit cfg =? 0 end then handler
  else if String.eqb (extractUIdFromReq GetUId) "" then handler
  else fail (ENew "rate limit exceeded").
End Middleware.

(** ** The snapshot survives

    [Publ] are the configurations the centre gives, [had] says that there was a snapshot
    to begin with. *)
Section DccFacts.
Context {C : Type} `{ConfigSource C} `{CodecLaws Dcc}.
Variables (watchKey filePath : string) (Publ : Dcc -> Prop) (had : bool).
Context (Hscan : forall (c c' : C) cfg, cs_Scan watchKey c = (Ret cfg, c') -> Publ cfg).
Context (Hencodable : forall cfg, Publ cfg -> encodable cfg).

(** The snapshot, when there is one, is a configuration of the centre. *)
Definition snapshot_ok (fs : gmap string string) : Prop :=
  match fs !! filePath with
  | None => had = false
  | Some text => exists cfg, Publ cfg /\ unmarshal text = Ret cfg
  end.

Definition disk_ok (d : Disk) : Prop := snapshot_ok (files d) /\ Forall snapshot_ok (seen d).

Definition manager_ok (s : Manager C) : Prop :=
  disk_ok (disk s) /\ Forall Publ (saving s) /\ forall cfg, value s = Some cfg -> Publ cfg.

Definition event_ok (e : event) : Prop :=
  match e with Changed (Ret cfg) => Publ cfg | _ => True end.

Definition run_events (es : list event) (s : Manager C) : Manager C :=
  foldl (fun s e => (handle_event watchKey filePath e s).2) s es.

Lemma tmpFile_ne : tmpFile filePath <> filePath.
Proof.
  unfold tmpFile. intros E. apply (f_equal String.length) in E. rewrite str_length_app in E.
  cbn [String.length] in E. lia.
Qed.

Lemma substring_full (s : string) : substring 0 (String.length s) s = s.
Proof. induction s as [|c s IH]; [done|]. cbn [substring String.length]. by rewrite IH. Qed.

Lemma snapshot_ok_insert name data fs : name <> filePath -> snapshot_ok fs -> snapshot_ok (<[name := data]> fs).
Proof. intros Hn. unfold snapshot_ok. by rewrite lookup_insert_ne. Qed.

Lemma written_last name data n fs : List.last (written name data n fs) fs = <[name := substring 0 n data]> fs.
Proof. unfold written. rewrite seq_S, map_app. apply List.last_last. Qed.

Lemma draw_ok d : disk_ok d -> disk_ok (draw d).2.
Proof. done. Qed.

Lemma go_through_ok l d : disk_ok d -> Forall snapshot_ok l -> disk_ok (go_through l d).
Proof.
  intros [Hf Hs] Hl. unfold go_through. split; cbn [files seen]; [|by apply Forall_app].
  destruct l as [|x l] using rev_ind; [done|]. rewrite List.last_last. apply Forall_app in Hl as [_ Hl].
  by inversion Hl.
Qed.

Lemma written_ok name data n d :
  name <> filePath -> disk_ok d -> disk_ok (go_through (written name data n (files d)) d).
Proof.
  intros Hn Hd. apply go_through_ok; [done|]. unfold written. apply Forall_map, List.Forall_forall.
  intros k _. cbn. apply snapshot_ok_insert; [done|apply Hd].
Qed.

Lemma WriteFile_spec name data d r d' :
  name <> filePath -> disk_ok d -> WriteFile name data d = (r, d') ->
  disk_ok d' /\ (r = Ret tt -> files d' !! name = Some data).
Proof.
  intros Hn Hd. unfold WriteFile. destruct (draw d) as [ft d1] eqn:Ed.
  assert (Hd1 : disk_ok d1 /\ files d1 = files d) by (by injection Ed as _ <-). destruct Hd1 as [Hd1 Hf1].
  rewrite <- Hf1. destruct ft; intros [= <- <-]; (split; [try by apply written_ok|done || intros _]); [|done].
  cbn [go_through files]. rewrite written_last, lookup_insert_eq, substring_full. done.
Qed.

Lemma Rename_spec old data d r d' :
  disk_ok d -> files d !! old = Some data -> (exists cfg, Publ cfg /\ unmarshal data = Ret cfg) -> old <> filePath ->
  Rename old filePath d = (r, d') -> disk_ok d'.
Proof.
  intros Hd Hold Hdata Hne. unfold Rename. destruct (draw d) as [ft d1] eqn:Ed. rewrite Hold.
  assert (Hd1 : disk_ok d1) by (by injection Ed as _ <-).
  destruct ft; intros [= <- <-]; [|done..]. apply go_through_ok; [done|]. constructor; [|constructor].
  unfold snapshot_ok. by rewrite lookup_insert_eq.
Qed.

Lemma SaveSnapshot_spec cfg d r d' :
  Publ cfg -> disk_ok d -> SaveSnapshot filePath cfg d = (r, d') -> disk_ok d'.
Proof.
  intros Hcfg Hd. unfold SaveSnapshot, bind, attempt, lift_res, ret.
  destruct (MkdirAll_Dir filePath d) as [r1 d1] eqn:E1.
  assert (Hd1 : disk_ok d1).
  { unfold MkdirAll_Dir in E1. destruct (draw d) as [ft d2] eqn:Ed.
    assert (disk_ok d2) by (by injection Ed as _ <-). destruct ft; by injection E1 as _ <-. }
  destruct r1 as [ []|e|p]; [|by intros [= _ <-]..].
  destruct (marshal_some cfg (Hencodable cfg Hcfg)) as (data & -> & _ & Hback).
  destruct (WriteFile (tmpFile filePath) data d1) as [r2 d2] eqn:E2.
  apply WriteFile_spec in E2 as [Hd2 Htmp]; [|apply tmpFile_ne|done].
  destruct r2 as [ []|e|p]; [|by intros [= _ <-]..].
  destruct (Rename (tmpFile filePath) filePath d2) as [r3 d3] eqn:E3.
  assert (disk_ok d3) by (eapply Rename_spec; [exact Hd2|by apply Htmp|by exists cfg|apply tmpFile_ne|exact E3]).
  destruct r3 as [ []|e|p]; by intros [= _ <-].
Qed.

Lemma LoadSnapshot_spec d r d' :
  disk_ok d -> LoadSnapshot filePath d = (r, d') ->
  disk_ok d' /\
  match r with
  | Ret cfg => Publ cfg
  | Fail _ => files d !! filePath = None \/ exists ft, ft <> NoFault /\ In ft (firstn 2 (faults d))
  | Panic _ => False
  end.
Proof.
  intros Hd. unfold LoadSnapshot, bind, not_exist, ReadFile, with_err, lift_res, fail.
  destruct d as [fs fts sn]. unfold draw. cbn [files faults seen].
  assert (Hfault : forall ft, ft <> NoFault -> ft = hd NoFault fts \/ ft = hd NoFault (tl fts) ->
    exists ft, ft <> NoFault /\ In ft (firstn 2 fts)).
  { intros ft Hft Hin. exists ft. split; [done|]. destruct fts as [|f1 [|f2 fts] ]; cbn in *; naive_solver. }
  destruct (hd NoFault fts) eqn:E1; [case_bool_decide as Ef|..]; cbn;
    [intros [= <- <-]; split; [exact Hd|by left]|..];
    (destruct (hd NoFault (tl fts)) eqn:E2;
      [|intros [= <- <-]; split; [exact Hd|right; eapply Hfault; [|right; reflexivity]; done]..]);
    destruct (fs !! filePath) as [text|] eqn:Ef';
    try (intros [= <- <-]; split; [exact Hd|by left]);
    (pose proof (proj1 Hd) as Hs; unfold snapshot_ok in Hs; cbn [files] in Hs; rewrite Ef' in Hs;
     destruct Hs as (cfg & Hcfg & ->); intros [= <- <-]; split; [exact Hd|exact Hcfg]).
Qed.

Lemma Init_ok s : manager_ok s -> manager_ok (Init watchKey filePath s).2.
Proof.
  intros (Hd & Hsv & Hv). unfold Init, bind, attempt, in_source, with_err, in_disk.
  destruct (cs_Load (source s)) as [ [ []|e|p] c1] eqn:El; cbn [source value saving disk watching snd].
  - destruct (cs_Scan watchKey c1) as [ [cfg|e|p] c2] eqn:Es; cbn; try (by split_and!).
    pose proof (Hscan _ _ _ Es) as Hcfg. split_and!; [done|by apply Forall_app; auto|intros ? [= <-]; done].
  - destruct (LoadSnapshot filePath (disk s)) as [rr d'] eqn:E.
    apply LoadSnapshot_spec in E as [Hd' Hr]; [|done]. destruct rr as [cfg|e'|p]; cbn; [|by split_and!..].
    split_and!; [done..|by intros ? [= <-]].
  - by split_and!.
Qed.

Lemma handle_event_ok e s : event_ok e -> manager_ok s -> manager_ok (handle_event watchKey filePath e s).2.
Proof.
  intros He Hs. destruct e as [scanned|k|n]; cbn [handle_event].
  - destruct (watching s); [|done]. destruct Hs as (Hd & Hsv & Hv).
    destruct scanned as [cfg|err|p]; cbn; [|by split_and!..].
    split_and!; [done|by apply Forall_app; auto|by intros ? [= <-] ].
  - destruct (saving s !! k) as [cfg|] eqn:Ek; [|done]. destruct Hs as (Hd & Hsv & Hv).
    unfold bind, begin_save, in_disk. cbn [disk].
    destruct (SaveSnapshot filePath cfg (mkDisk (files (disk s)) (faults (disk s)) [])) as [r d'] eqn:Esave.
    assert (Hcfg : Publ cfg) by (by eapply Forall_lookup_1).
    apply SaveSnapshot_spec in Esave; [|done|by split; [apply Hd|constructor] ].
    assert (Hrest : Forall Publ (firstn k (saving s) ++ skipn (S k) (saving s)))
      by (apply Forall_app; split; [by apply Forall_take|by apply Forall_drop]).
    destruct r as [ []|err|p]; cbn; by split_and!.
  - unfold bind, crash, attempt. destruct Hs as (Hd & _ & _).
    assert (Hc : manager_ok (mkManager (source s) None [] false
      (mkDisk (default (files (disk s)) (seen (disk s) !! n)) (faults (disk s)) []))).
    { split_and!; [|constructor|done]. split; [|constructor]. cbn [files disk].
      destruct (seen (disk s) !! n) as [fs|] eqn:En; [|apply Hd].
      exact (Forall_lookup_1 _ _ _ _ (proj2 Hd) En). }
    apply Init_ok in Hc. destruct (Init watchKey filePath _) as [ [ []|err|p] s']; exact Hc.
Qed.

Lemma run_events_ok es s : Forall event_ok es -> manager_ok s -> manager_ok (run_events es s).
Proof.
  unfold run_events. revert s. induction es as [|e es IH]; intros s Hes Hs; [done|]. inversion Hes; subst.
  cbn [foldl]. apply IH; [done|]. by apply handle_event_ok.
Qed.

(** A save changes neither the value in memory nor the watch. *)
Definition is_save (e : event) : Prop := exists k, e = Saved k.

Lemma saves_frame es s :
  Forall is_save es -> value (run_events es s) = value s /\ watching (run_events es s) = watching s.
Proof.
  unfold run_events. revert s. induction es as [|e es IH]; intros s Hes; [done|]. inversion Hes as [|? ? [k ->] Hes']; subst.
  cbn [foldl]. destruct (IH (handle_event watchKey filePath (Saved k) s).2 Hes') as [-> ->].
  cbn [handle_event]. destruct (saving s !! k) as [cfg|]; [|done]. unfold bind, begin_save, in_disk. cbn [disk].
  destruct (SaveSnapshot filePath cfg _) as [ [ []|err|p] d']; done.
Qed.

(** C18. Whatever changes arrive, in whatever order the goroutines save, whichever calls of
    the disk fail and wherever a crash cuts a save: the value in memory is a configuration
    of the centre, and the last one while the manager watches; the snapshot is never torn
    -- it stays there once it was written, and loading it gives a configuration of the
    centre, unless the disk fails again. *)
Theorem snapshot_survives (es : list event) (s : Manager C) (Hes : Forall event_ok es) (Hs : manager_ok s) :
  let s' := run_events es s in
  (forall cfg, value s' = Some cfg -> Publ cfg) /\
  (had = true -> is_Some (files (disk s') !! filePath)) /\
  (forall r d', LoadSnapshot filePath (disk s') = (r, d') ->
     match r with
     | Ret cfg => Publ cfg
     | Fail _ => files (disk s') !! filePath = None \/ exists ft, ft <> NoFault /\ In ft (firstn 2 (faults (disk s')))
     | Panic _ => False
     end) /\
  (forall cfg saves, watching s' = true -> Forall is_save saves ->
     Get (run_events (Changed (Ret cfg) :: saves) s') = cfg).
Proof.
  intros s'. pose proof (run_events_ok es s Hes Hs) as Hok. fold s' in Hok. clearbody s'.
  split_and!.
  - apply Hok.
  - intros Hh. destruct Hok as ([Hf _] & _). unfold snapshot_ok in Hf.
    destruct (files (disk s') !! filePath); [done|congruence].
  - intros r d' E. exact (proj2 (LoadSnapshot_spec _ _ _ (proj1 Hok) E)).
  - intros cfg saves Hw Hsv. unfold Get.
    change (run_events (Changed (Ret cfg) :: saves) s')
      with (run_events saves (handle_event watchKey filePath (Changed (Ret cfg)) s').2).
    rewrite (proj1 (saves_frame saves _ Hsv)). cbn [handle_event]. rewrite Hw. done.
Qed.
End DccFacts.

(** ** Witnesses: a centre that answers or not *)
Definition demo_open : Dcc := mkDcc 0 false "".
Definition demo_degraded : Dcc := mkDcc 100 true "u7".

#[local] Instance demo_source : ConfigSource bool := {
  cs_Load := fun up => (if up then Ret tt else Fail (EExt "etcd unavailable"), up);
  cs_Scan := fun _ up => (Ret demo_open, up) }.

#[local] Instance demo_dcc_codec : Codec Dcc := {
  marshal := fun o => Ret match o with
    | None => "null"%string
    | Some c => Join [FormatInt (RateLimit c); if EnableDegrade c then "1" else "0"; BlackList c]%string "," end;
  unmarshal := fun s =>
    match Split s "," with
    | [rate; flag; list] => let? n := ParseInt rate in Ret (mkDcc n (String.eqb flag "1") list)
    | _ => if String.eqb s "null" then Ret (mkDcc 0 false "") else Fail (EExt "unexpected end of JSON input")
    end;
  zero_value := mkDcc 0 false "";
  encodable := fun c => in_int64 (RateLimit c) /\ no_char "," (BlackList c) = true }.

#[local] Instance demo_dcc_laws : CodecLaws Dcc.
Proof.
  constructor.
  - intros [rate flag list] [Hr Hl]. cbn [RateLimit BlackList EnableDegrade] in *.
    exists (Join [FormatInt rate; if flag then "1" else "0"; list]%string ","). split; [done|].
    assert (Hsplit : Split (Join [FormatInt rate; if flag then "1" else "0"; list]%string ",") ","
      = [FormatInt rate; if flag then "1" else "0"; list]%string).
    { apply Split_Join; [done|]. repeat constructor; [by apply FormatInt_no_char|by destruct flag|done]. }
    split; [intros E; by rewrite E in Hsplit|].
    cbn [unmarshal demo_dcc_codec]. rewrite Hsplit, ParseInt_FormatInt by done. by destruct flag.
  - by exists "null"%string.
  - intros o s p. split; [done|]. cbn [unmarshal demo_dcc_codec].
    destruct (Split s ",") as [|a [|b [|c [|d l] ] ] ]; try (by destruct (String.eqb s "null")).
    destruct (ParseInt a) as [z|e|q] eqn:E; [done..|]. by destruct (ParseInt_no_panic a q).
Qed.

(** A server up since [demo_open], on a disk that fails as told. *)
Definition demo_manager (up : bool) (fts : list fault) : Manager bool :=
  mkManager up None [] false (mkDisk {["/dcc.json"%string := "0,0,"%string]} fts []).
Definition demo_run (es : list event) (fts : list fault) : Manager bool :=
  run_events "dcc" "/dcc.json" es (Init "dcc" "/dcc.json" (demo_manager true fts)).2.

(** The goroutine of the older configuration may save last: the snapshot is then behind
    the value in memory. *)
Example snapshot_stale :
  Get (demo_run [Changed (Ret demo_degraded); Saved 1; Saved 0] []) = demo_degraded /\
  (LoadSnapshot "/dcc.json" (disk (demo_run [Changed (Ret demo_degraded); Saved 1; Saved 0] []))).1 = Ret demo_open.
Proof. split; vm_compute; reflexivity. Qed.

(** A crash in the middle of a save leaves the old snapshot. *)
Lemma snapshot_survives_witness :
  let es := [Changed (Ret demo_degraded); Saved 1; Restarted 3] in
  let s := (Init "dcc" "/dcc.json" (demo_manager true [NoFault; Short 3])).2 in
  (forall cfg, value (run_events "dcc" "/dcc.json" es s) = Some cfg -> cfg = demo_open \/ cfg = demo_degraded) /\
  files (disk (run_events "dcc" "/dcc.json" es s)) !! "/dcc.json.tmp"%string = Some "100"%string.
Proof.
  intros es s. split; [|vm_compute; reflexivity].
  refine (proj1 (snapshot_survives "dcc" "/dcc.json" (fun cfg => cfg = demo_open \/ cfg = demo_degraded) true
    _ _ es s _ _)).
  - intros c c' cfg [= <- <-]. by left.
  - intros cfg [-> | ->]; (split; [split; vm_compute; discriminate|reflexivity]).
  - constructor; [by right|]. by repeat constructor.
  - split_and!.
    + split; [|constructor]. unfold snapshot_ok. exists demo_open. split; [by left|vm_compute; reflexivity].
    + constructor; [by left|constructor].
    + intros cfg [= <-]. by left.
Defined.
