(* ===== verification/Servers.v ===== *)
(** * Servers: what stands around the handlers, and the start of the program

    [internal/server/http.go] (the CORS filter, the middleware and the routes of the HTTP
    server, with their registration in [api/bigmarket/v1]), [grpc.go], [mertrics.go],
    [pkg/logger/logger.go] and [cmd/big-market-kratos/main.go].  kratos, [net/http] and zap
    are parameters; [recovery.Recovery()] is one with its documented behaviour as a
    hypothesis. *)
From Stdlib Require Import ZArith Lia List Ascii String.
From stdpp Require Import base gmap strings list numbers.
From S2P Require Import Prelude GoLib Model Po Env Mem Cache Metrics Dcc.
Open Scope Z_scope.

(** ** The CORS filter *)
Record Request := mkRequest {
  rq_Method : string;
  rq_Path : string;
  rq_RawQuery : string;
  rq_Body : string;
  rq_Get : string -> string }.

(** [http.ResponseWriter]: the headers and the status, which the first [WriteHeader] sets. *)
Record ResponseWriter := mkResponseWriter {
  rw_Header : gmap string string;
  rw_status : option Z }.

Section Cors.
Context {S : Type}.
Notation State := (ResponseWriter * S)%type.

Definition Header_Set (k v : string) : M State unit := fun s =>
  (Ret tt, (mkResponseWriter (<[k := v]> (rw_Header s.1)) (rw_status s.1), s.2)).
Definition WriteHeader (code : Z) : M State unit := fun s =>
  (Ret tt, (mkResponseWriter (rw_Header s.1) (Some (default code (rw_status s.1))), s.2)).

Definition corsFilter (next : Request -> M State unit) (r : Request) : M State unit :=
  let origin := rq_Get r "Origin" in
  (if negb (String.eqb origin EmptyString) then
     Header_Set "Access-Control-Allow-Origin" origin ;;;
     Header_Set "Access-Control-Allow-Credentials" "true"
   else Header_Set "Access-Control-Allow-Origin" "*") ;;;
  Header_Set "Access-Control-Allow-Methods" "GET, POST, PUT, PATCH, DELETE, OPTIONS" ;;;
  Header_Set "Access-Control-Allow-Headers" "Content-Type, Authorization, X-Requested-With, Accept, Origin" ;;;
  Header_Set "Access-Control-Expose-Headers" "Content-Length, Content-Type" ;;;
  if String.eqb (rq_Method r) "OPTIONS" then WriteHeader 204
  else next r.

(** The headers the filter adds. *)
Definition cors_headers (origin : string) (m : gmap string string) : gmap string string :=
  <["Access-Control-Expose-Headers"%string := "Content-Length, Content-Type"%string]>
  (<["Access-Control-Allow-Headers"%string := "Content-Type, Authorization, X-Requested-With, Accept, Origin"%string]>
  (<["Access-Control-Allow-Methods"%string := "GET, POST, PUT, PATCH, DELETE, OPTIONS"%string]>
  (if negb (String.eqb origin EmptyString)
   then <["Access-Control-Allow-Credentials"%string := "true"%string]>
          (<["Access-Control-Allow-Origin"%string := origin]> m)
   else <["Access-Control-Allow-Origin"%string := "*"%string]> m))).

(** A preflight request is answered without the handler; any other reaches it once, with
    the headers set: whatever origin asks is allowed, with credentials. *)
Lemma corsFilter_run next r w (s : S) :
  corsFilter next r (w, s) =
  let w' := mkResponseWriter (cors_headers (rq_Get r "Origin") (rw_Header w)) (rw_status w) in
  if String.eqb (rq_Method r) "OPTIONS"
  then (Ret tt, (mkResponseWriter (rw_Header w') (Some (default 204 (rw_status w))), s))
  else next r (w', s).
Proof.
  unfold corsFilter, cors_headers, bind, Header_Set, WriteHeader.
  destruct (negb (String.eqb (rq_Get r "Origin") EmptyString)); cbn [fst snd rw_Header rw_status];
    by destruct (String.eqb (rq_Method r) "OPTIONS").
Qed.
End Cors.

(** ** The HTTP and gRPC servers *)

(** [conf.Server_HTTP], [conf.Server_GRPC] *)
Record ServerConf := mkServerConf {
  sc_Network : string;
  sc_Addr : string;
  sc_Timeout : option Z }.

(** The options that were given. *)
Record ServerOptions := mkServerOptions {
  so_Network : option string;
  so_Address : option string;
  so_Timeout : option Z }.

Definition server_options (c : ServerConf) : ServerOptions :=
  mkServerOptions
    (if negb (String.eqb (sc_Network c) EmptyString) then Some (sc_Network c) else None)
    (if negb (String.eqb (sc_Addr c) EmptyString) then Some (sc_Addr c) else None)
    (sc_Timeout c).

(** [recovery.ErrUnknownRequest] *)
Definition ErrUnknownRequest : gerr := InternalServer "UNKNOWN" "unknown request error".

(** The routes of [api/bigmarket/v1/strategy_http.pb.go] and [activity_http.pb.go]. *)
Record Route := mkRoute { rt_Method : string; rt_Path : string; rt_Operation : string }.
Definition strategy_routes : list Route :=
  [mkRoute "GET" "/api/v1/strategy/raffle/strategy/armory" "/api.bigmarket.v1.Strategy/StrategyArmory";
   mkRoute "GET" "/api/v1/strategy/raffle/strategy/query_raffle_award_list"
     "/api.bigmarket.v1.Strategy/QueryRaffleAwardList";
   mkRoute "POST" "/api/v1/strategy/raffle/strategy/random_raffle" "/api.bigmarket.v1.Strategy/RandomRaffle";
   mkRoute "POST" "/api/v1/strategy/raffle/strategy/query_raffle_strategy_rule_weight"
     "/api.bigmarket.v1.Strategy/QueryRaffleStrategyRuleWeight"].
Definition activity_routes : list Route :=
  [mkRoute "GET" "/api/v1/strategy/raffle/activity/armory" "/api.bigmarket.v1.Activity/RaffleActivityArmory";
   mkRoute "POST" "/api/v1/strategy/raffle/activity/draw" "/api.bigmarket.v1.Activity/Draw";
   mkRoute "POST" "/api/v1/strategy/raffle/activity/calendar_sign_rebate"
     "/api.bigmarket.v1.Activity/CalendarSignRebate";
   mkRoute "POST" "/api/v1/strategy/raffle/activity/is_calendar_sign_rebate"
     "/api.bigmarket.v1.Activity/IsCalendarSignRebate";
   mkRoute "POST" "/api/v1/strategy/raffle/activity/query_user_activity_account"
     "/api.bigmarket.v1.Activity/QueryUserActivityAccount";
   mkRoute "POST" "/api/v1/strategy/raffle/activity/load_user_activity_account"
     "/api.bigmarket.v1.Activity/LoadUserActivityAccount"].

(** The router: a route is for one method and one path. *)
Definition matches (r : Request) (rt : Route) : bool :=
  String.eqb (rq_Method r) (rt_Method rt) && String.eqb (rq_Path r) (rt_Path rt).

Section Chain.
Context {P E S Req Rep : Type} `{PromLaws P} `{EnvLaws E}.
Notation State := (Measured P E S).

(** [recovery.Recovery()]: a panic of the handler becomes an error. *)
Variable Recovery : forall St, (Req -> M St Rep) -> Req -> M St Rep.
Hypothesis Recovery_law : forall St (handler : Req -> M St Rep) req s,
  Recovery St handler req s =
  match handler req s with
  | (Panic _, s') => (Fail ErrUnknownRequest, s')
  | o => o
  end.

(** A service as the generated code calls it: its method by the name of the operation, with
    the request read. *)
Notation Service := (string -> Req -> M S Rep) (only parsing).
Notation HTTPHandler := (Request -> M (ResponseWriter * State) unit) (only parsing).

(** [http.Server] of kratos: the options, the filter around the router, the middleware
    around a service's method, and the routes. *)
Record HTTPServer := mkHTTPServer {
  hs_Options : ServerOptions;
  hs_Filter : HTTPHandler -> HTTPHandler;
  hs_Middleware : option Transport -> (Req -> M S Rep) -> Req -> M State Rep;
  hs_Routes : list (Route * (Req -> M S Rep)) }.

(** [RegisterStrategyHTTPServer], [RegisterActivityHTTPServer] *)
Definition register (routes : list Route) (service : Service) (srv : HTTPServer) : HTTPServer :=
  mkHTTPServer (hs_Options srv) (hs_Filter srv) (hs_Middleware srv)
    (hs_Routes srv ++ map (fun rt => (rt, service (rt_Operation rt))) routes).
Definition RegisterStrategyHTTPServer (srv : HTTPServer) (strategy : Service) : HTTPServer :=
  register strategy_routes strategy srv.
Definition RegisterActivityHTTPServer (srv : HTTPServer) (activity : Service) : HTTPServer :=
  register activity_routes activity srv.

Definition NewHTTPServer (c : ServerConf) (strategy activity : Service) : HTTPServer :=
  let srv :=
    {| hs_Options := server_options c;
       hs_Filter := corsFilter;
       hs_Middleware := fun tr handler => Recovery State (MetricsMiddleware tr handler);
       hs_Routes := [] |} in
  RegisterActivityHTTPServer (RegisterStrategyHTTPServer srv strategy) activity.

Definition NewGRPCServer (c : ServerConf) (handler : Req -> M S Rep) : ServerOptions * (Req -> M S Rep) :=
  (server_options c, Recovery S handler).

(** *** A request

    kratos: [ctx.Bind] and [ctx.BindQuery] read a message into the one they are given,
    [ctx.Result] and the error encoder write an answer, and the router has its own for a
    request that no route matches. *)
Variable zero_message : string -> Req.
Variables Bind BindQuery : string -> Request -> Req -> Req + gerr.
Variable Result : Request -> Rep -> M (ResponseWriter * State) unit.
Variable EncodeError : Request -> gerr -> M (ResponseWriter * State) unit.
Variable no_route : HTTPHandler.

(** The generated handlers read the query, and the body first where the method is POST. *)
Definition decode_request (rt : Route) (r : Request) : Req + gerr :=
  let op := rt_Operation rt in
  match (if String.eqb (rt_Method rt) "POST" then Bind op r (zero_message op) else inl (zero_message op)) with
  | inl message => BindQuery op r message
  | inr err => inr err
  end.

Definition http_handler (srv : HTTPServer) (rt : Route) (method : Req -> M S Rep) : HTTPHandler := fun r s =>
  match decode_request rt r with
  | inr err => EncodeError r err s
  | inl message =>
      let '(o, st) := hs_Middleware srv (Some (mkTransport "http" (rt_Operation rt))) method message s.2 in
      match o with
      | Ret reply => Result r reply (s.1, st)
      | Fail err => EncodeError r err (s.1, st)
      | Panic p => (Panic p, (s.1, st))
      end
  end.

Definition ServeHTTP (srv : HTTPServer) : HTTPHandler :=
  hs_Filter srv (fun r =>
    match List.find (fun x => matches r x.1) (hs_Routes srv) with
    | Some (rt, method) => http_handler srv rt method r
    | None => no_route r
    end).

(** The method a request is for. *)
Definition method_of (strategy activity : Service) (r : Request) : option (Route * (Req -> M S Rep)) :=
  match List.find (matches r) strategy_routes with
  | Some rt => Some (rt, strategy (rt_Operation rt))
  | None => option_map (fun rt => (rt, activity (rt_Operation rt))) (List.find (matches r) activity_routes)
  end.

(** The requests of an operation that were answered, counted. *)
Definition counted (op : string) (failed : bool) (p p' : P) : Prop :=
  exists d, pm_samples p' = recorded HTTPRequestDuration ["http"%string; op] (observe_sample d)
    (recorded HTTPRequestsTotal ["http"; op; if failed then "error" else "ok"]%string inc_sample (pm_samples p)).

Lemma find_map_route (service : Service) r (routes : list Route) :
  List.find (fun x => matches r x.1) (map (fun rt => (rt, service (rt_Operation rt))) routes)
  = option_map (fun rt => (rt, service (rt_Operation rt))) (List.find (matches r) routes).
Proof. induction routes as [|rt routes IH]; [done|]. cbn [map List.find fst]. by destruct (matches r rt). Qed.

Lemma find_app_route {A} (q : A -> bool) (l k : list A) :
  List.find q (l ++ k) = match List.find q l with Some x => Some x | None => List.find q k end.
Proof. induction l as [|x l IH]; [done|]. cbn [app List.find]. by destruct (q x). Qed.

Lemma server_routes c strategy activity r :
  List.find (fun x => matches r x.1) (hs_Routes (NewHTTPServer c strategy activity)) = method_of strategy activity r.
Proof.
  cbn [NewHTTPServer RegisterActivityHTTPServer RegisterStrategyHTTPServer register hs_Routes app].
  rewrite find_app_route, !find_map_route. unfold method_of. by destruct (List.find (matches r) strategy_routes).
Qed.

(** The operations are plain text. *)
Lemma operations_valid strategy activity r rt method :
  method_of strategy activity r = Some (rt, method) -> valid_utf8 (rt_Operation rt) = true.
Proof.
  assert (Hall : forallb (fun rt => valid_utf8 (rt_Operation rt)) (strategy_routes ++ activity_routes) = true)
    by (vm_compute; reflexivity).
  rewrite forallb_forall in Hall. unfold method_of. intros Em. apply Hall, in_or_app.
  destruct (List.find (matches r) strategy_routes) as [rt0|] eqn:E1.
  - injection Em as <- _. left. exact (proj1 (find_some _ _ E1)).
  - destruct (List.find (matches r) activity_routes) as [rt0|] eqn:E2; [|done].
    injection Em as <- _. right. exact (proj1 (find_some _ _ E2)).
Qed.

(** C27. What the HTTP server does with a request: a preflight is answered 204 with the
    CORS headers, and nothing runs; any other gets those headers and then: no route, or a
    request that cannot be read, is answered as the library does; a request for a method
    of a service -- one of the ten routes -- is answered with what that method answers,
    reply or error, and counted once, as [ok] or [error], under its operation; and when the
    method panics the request is answered with the internal error of the recovery, counted
    nowhere, and the process goes on.  Nothing but the route chooses the method: no
    identity is asked for, and no switch of the configuration consulted. *)
Theorem http_chain_answers (c : ServerConf) (strategy activity : Service) (r : Request)
    (w : ResponseWriter) (p : P) (e : E) (x : S) :
  let o := ServeHTTP (NewHTTPServer c strategy activity) r (w, ((p, e), x)) in
  let headers := cors_headers (rq_Get r "Origin") (rw_Header w) in
  let w' := mkResponseWriter headers (rw_status w) in
  if String.eqb (rq_Method r) "OPTIONS"
  then o = (Ret tt, (mkResponseWriter headers (Some (default 204 (rw_status w))), ((p, e), x)))
  else match method_of strategy activity r with
       | None => o = no_route r (w', ((p, e), x))
       | Some (rt, method) =>
           match decode_request rt r with
           | inr err => o = EncodeError r err (w', ((p, e), x))
           | inl message => exists p' e',
               let st := (w', ((p', e'), (method message x).2)) in
               match (method message x).1 with
               | Ret reply => counted (rt_Operation rt) false p p' /\ o = Result r reply st
               | Fail err => counted (rt_Operation rt) true p p' /\ o = EncodeError r err st
               | Panic _ => p' = p /\ o = EncodeError r ErrUnknownRequest st
               end
           end
       end.
Proof using All.
  cbv zeta. unfold ServeHTTP.
  change (hs_Filter (NewHTTPServer c strategy activity)) with (corsFilter (S := State)).
  rewrite corsFilter_run. cbv zeta. cbn [rw_Header].
  destruct (String.eqb (rq_Method r) "OPTIONS"); [done|]. rewrite server_routes.
  destruct (method_of strategy activity r) as [[rt method]|] eqn:Em; [|done].
  unfold http_handler. destruct (decode_request rt r) as [message|err]; [|done]. cbn [fst snd].
  change (hs_Middleware (NewHTTPServer c strategy activity))
    with (fun tr handler => Recovery State (MetricsMiddleware tr handler)). cbn beta. rewrite Recovery_law.
  pose proof (MetricsMiddleware_run (Some (mkTransport "http" (rt_Operation rt))) method message p e x
    (operations_valid _ _ _ _ _ Em) eq_refl) as Hm. cbv zeta in Hm.
  destruct (MetricsMiddleware _ method message ((p, e), x)) as [o [[p' e'] x'] ]. cbn [fst snd] in Hm.
  destruct Hm as (-> & -> & Hp). exists p', e'. destruct (method message x).1; by split.
Qed.
End Chain.

(** ** The server of the metrics *)

(** [conf.Monitor] *)
Record Monitor := mkMonitor { mo_Enable : bool; mo_Addr : string; mo_Path : string }.

(** The [http.Server] that is built, if one is. *)
Record MetricsHTTP := mkMetricsHTTP { mh_Addr : string; mh_Path : string; mh_ReadHeaderTimeout : Z }.
Record MetricsServer := mkMetricsServer { ms_srv : option MetricsHTTP }.

Definition NewMetricsServer (c : option Monitor) : MetricsServer :=
  match c with
  | None => mkMetricsServer None
  | Some c =>
      if negb (mo_Enable c) then mkMetricsServer None
      else
        let path := mo_Path c in
        let path := if String.eqb path EmptyString then "/metrics"%string else path in
        mkMetricsServer (Some (mkMetricsHTTP (mo_Addr c) path (5 * Second)))
  end.

Section MetricsServer.
Context {N : Type}.
Variables (go_ListenAndServe Shutdown : MetricsHTTP -> M N unit).

Definition MetricsServer_Start (s : MetricsServer) : M N unit :=
  match ms_srv s with None => ret tt | Some srv => go_ListenAndServe srv end.
Definition MetricsServer_Stop (s : MetricsServer) : M N unit :=
  match ms_srv s with None => ret tt | Some srv => Shutdown srv end.
End MetricsServer.

(** ** The logger *)
Inductive zlevel := DebugLevel | InfoLevel | WarnLevel | ErrorLevel | FatalLevel.

Definition parseLevel (lvl : string) : zlevel :=
  if String.eqb lvl "debug" then DebugLevel
  else if String.eqb lvl "warn" then WarnLevel
  else if String.eqb lvl "error" then ErrorLevel
  else InfoLevel.

(** [logger.Config] *)
Record LogConfig := mkLogConfig {
  lc_Filename : string;
  lc_MaxSize : Z;
  lc_MaxBackups : Z;
  lc_MaxAge : Z;
  lc_Level : string;
  lc_Compress : bool }.

(** The levels of kratos. *)
Definition LevelDebug : Z := -1.
Definition LevelInfo : Z := 0.
Definition LevelWarn : Z := 1.
Definition LevelError : Z := 2.
Definition LevelFatal : Z := 3.

Section Logger.
Context {Z_ A : Type}.
(** A zap logger writes a level, a message and fields; [Sprint] prints values. *)
Variable zap_write : zlevel -> string -> list (string * A) -> M Z_ unit.
Variable Sprint : list A -> string.

(** The pairs of the loop, once their number is known to be even. *)
Fixpoint zap_fields (keyvals : list A) : list (string * A) :=
  match keyvals with
  | k :: v :: rest => (Sprint [k], v) :: zap_fields rest
  | _ => []
  end.

Definition KratosLogger_Log (level : Z) (keyvals : list A) : M Z_ unit :=
  if Nat.eqb (length keyvals) 0 || negb (Nat.eqb (Nat.modulo (length keyvals) 2) 0) then
    zap_write WarnLevel ("Keyvalues must appear in pairs: " ++ Sprint keyvals) []
  else
    let data := zap_fields keyvals in
    if level =? LevelDebug then zap_write DebugLevel EmptyString data
    else if level =? LevelInfo then zap_write InfoLevel EmptyString data
    else if level =? LevelWarn then zap_write WarnLevel EmptyString data
    else if level =? LevelError then zap_write ErrorLevel EmptyString data
    else if level =? LevelFatal then zap_write FatalLevel EmptyString data
    else ret tt.

(** The helpers: [Log] is nil before [Init], and [Sugar] dereferences it. *)
Variable sugar_write : zlevel -> string -> list A -> M Z_ unit.
Definition log_with (Log : option zlevel) (level : zlevel) (msg : string) (args : list A) : M Z_ unit :=
  match Log with None => panic nil_deref | Some _ => sugar_write level msg args end.
Definition log_Info (Log : option zlevel) := log_with Log InfoLevel.
Definition log_Warn (Log : option zlevel) := log_with Log WarnLevel.
Definition log_Error (Log : option zlevel) := log_with Log ErrorLevel.
Definition log_Debug (Log : option zlevel) := log_with Log DebugLevel.

(** Every key is logged with its value, in order. *)
Lemma zap_fields_pairs (kvs : list (A * A)) :
  zap_fields (flat_map (fun kv => [fst kv; snd kv]) kvs) = map (fun kv => (Sprint [fst kv], snd kv)) kvs.
Proof. induction kvs as [|[k v] kvs IH]; [done|]. cbn. by rewrite IH. Qed.
End Logger.

(** What [Init] builds: the rotating file and the level. *)
Record Lumberjack := mkLumberjack {
  lj_Filename : string;
  lj_MaxSize : Z;
  lj_MaxBackups : Z;
  lj_MaxAge : Z;
  lj_Compress : bool }.
Definition logger_Init (cfg : LogConfig) : Lumberjack * zlevel :=
  (mkLumberjack (lc_Filename cfg) (lc_MaxSize cfg) (lc_MaxBackups cfg) (lc_MaxAge cfg) (lc_Compress cfg),
   parseLevel (lc_Level cfg)).

(** ** [main] *)

(** The libraries and the generated [wireApp]; [App] is the kratos application. *)
Class Program (X App : Type) := {
  pg_etcd : M X unit;
  pg_etcd_source : M X unit;
  pg_config_Load : M X unit;
  pg_config_Scan : M X LogConfig;
  pg_logger_Init : Lumberjack * zlevel -> M X unit;
  pg_wireApp : M X App;
  pg_Run : App -> M X unit }.

Section Main.
Context {X App C : Type} `{Program X App} `{ConfigSource C} `{Codec Dcc}.
Notation State := (X * Manager C)%type.

Definition in_program {A} (m : M X A) : M State A := fun s =>
  let '(a, x) := m s.1 in (a, (x, s.2)).
Definition in_manager {A} (m : M (Manager C) A) : M State A := fun s =>
  let '(a, d) := m s.2 in (a, (s.1, d)).

(** [if err != nil { panic(prefix + err) }] *)
Definition must {A} (prefix : string) (m : M State A) : M State A :=
  let! r := attempt m in
  match r with inl a => ret a | inr err => panic (prefix ++ error_text err) end.

Definition main : M State unit :=
  must EmptyString (in_program pg_etcd) ;;;
  must EmptyString (in_program pg_etcd_source) ;;;
  must EmptyString (in_program pg_config_Load) ;;;
  let! log := must EmptyString (in_program pg_config_Scan) in
  in_program (pg_logger_Init (logger_Init log)) ;;;
  must "DCC 初始化失败，应用无法启动: " (in_manager (Init "dcc" "./data/fallback_snapshot.json")) ;;;
  let! app := must EmptyString (in_program pg_wireApp) in
  must EmptyString (in_program (pg_Run app)).

Lemma must_ret {A} prefix (m : M State A) s a s' : must prefix m s = (Ret a, s') -> m s = (Ret a, s').
Proof. unfold must, bind, attempt, ret, panic. destruct (m s) as [ [x|e|p] s1]; [by intros [= <- <-]|done..]. Qed.

Lemma in_program_manager {A} (m : M X A) s r s' : in_program m s = (r, s') -> s'.2 = s.2.
Proof. unfold in_program. destruct (m s.1). by intros [= _ <-]. Qed.

Lemma Init_value key path (d d' : Manager C) : Init key path d = (Ret tt, d') -> exists cfg, value d' = Some cfg.
Proof.
  unfold Init. intros E. inv_bind E. destruct a as [u|err].
  - inv_bind E. inv_bind E. inv_bind E. exists a.
    unfold Store, go_SaveSnapshot, go_watch in *. injection Hm1 as _ <-. injection Hm2 as _ <-. by injection E as <-.
  - inv_bind E. exists a. by injection E as <-.
Qed.

(** A program that has run had a configuration: from the centre, or from the snapshot. *)
Lemma main_configured s s' : main s = (Ret tt, s') -> exists cfg, value s'.2 = Some cfg.
Proof.
  unfold main. intros E. do 5 (apply bind_inv_ret in E as (? & ? & _ & E)).
  apply bind_inv_ret in E as ([] & s1 & Hi & E). apply bind_inv_ret in E as (app & s2 & Hw & E).
  apply must_ret in Hi, Hw, E. apply in_program_manager in Hw, E.
  unfold in_manager in Hi. destruct (Init _ _ _) as [r d] eqn:Ei. injection Hi as -> <-.
  apply Init_value in Ei as [cfg Hv]. exists cfg. cbn [snd] in *. by rewrite E, Hw.
Qed.
End Main.

(** ** Witness *)
#[local] Existing Instances MemPromOps MemPromLaws.
Definition demo_Recovery (Req Rep St : Type) (handler : Req -> M St Rep) (req : Req) : M St Rep := fun s =>
  match handler req s with
  | (Panic _, s') => (Fail ErrUnknownRequest, s')
  | o => o
  end.
(** The services answer the number they are sent, and panic on a negative one. *)
Definition demo_service (operation : string) (req : Z) : M nat Z := fun n =>
  (if req <? 0 then Panic nil_deref else Ret req, Datatypes.S n).
Definition demo_http : HTTPServer (P := MemProm) (E := MemEnv) (S := nat) (Req := Z) (Rep := Z) :=
  NewHTTPServer (demo_Recovery Z Z) (mkServerConf EmptyString "0.0.0.0:8080" (Some (60 * Second)))
    demo_service demo_service.
Definition demo_bind (op : string) (r : Request) (message : Z) : Z + gerr :=
  match ParseInt (rq_Body r) with Ret z => inl z | Fail err => inr err | Panic _ => inr ErrUnknownRequest end.
Notation demo_state := (ResponseWriter * Measured MemProm MemEnv nat)%type.
Definition demo_result (r : Request) (reply : Z) : M demo_state unit := WriteHeader 200.
Definition demo_error (r : Request) (err : gerr) : M demo_state unit := WriteHeader 500.
Definition demo_404 (r : Request) : M demo_state unit := WriteHeader 404.
Definition demo_call (method body : string) : Request :=
  mkRequest method "/api/v1/strategy/raffle/activity/draw" "" body (fun _ => ""%string).
Definition demo_serve (r : Request) : res unit * demo_state :=
  ServeHTTP (fun _ => 0) demo_bind (fun _ _ z => inl z) demo_result demo_error demo_404 demo_http r
    (mkResponseWriter ∅ None, ((demo_metrics, demo_clock), 4%nat)).

(** A draw is answered 200, a panicking one 500 without a sample, a preflight 204 without
    a call, and a GET of the same path 404. *)
Lemma http_chain_answers_witness :
  (demo_serve (demo_call "POST" "7")).1 = Ret tt /\
  map (fun r => (rw_status (demo_serve r).2.1, (demo_serve r).2.2.2))
    [demo_call "POST" "7"; demo_call "POST" "-1"; demo_call "POST" "x"; demo_call "OPTIONS" "7"; demo_call "GET" "7"]%string
    = [(Some 200, 5%nat); (Some 500, 5%nat); (Some 500, 4%nat); (Some 204, 4%nat); (Some 404, 4%nat)] /\
  exists p' e', p' = demo_metrics /\
    demo_serve (demo_call "POST" "-1") =
      demo_error (demo_call "POST" "-1") ErrUnknownRequest
        (mkResponseWriter (cors_headers "" ∅) None, ((p', e'), 5%nat)).
Proof.
  split; [vm_compute; reflexivity|]. split; [vm_compute; reflexivity|].
  exact (http_chain_answers (P := MemProm) (E := MemEnv) (demo_Recovery Z Z) (fun _ _ _ _ => eq_refl)
    (fun _ => 0) demo_bind (fun _ _ z => inl z) demo_result demo_error demo_404
    (mkServerConf EmptyString "0.0.0.0:8080" (Some (60 * Second))) demo_service demo_service (demo_call "POST" "-1")
    (mkResponseWriter ∅ None) demo_metrics demo_clock 4%nat).
Defined.
