(* ===== verification/Wire.v ===== *)
(** * Wire: the application that [wireApp] builds

    [cmd/big-market-kratos/wire_gen.go] and the constructors it calls: the use cases, the
    services, the jobs and the listeners are records of what they were given, the
    connections are opened by [Connections], the servers built by [Servers], [Asynq] and
    [Broker].  The theorem runs the services of the application on the world of its
    repositories. *)
From Stdlib Require Import ZArith Lia List Ascii String.
From stdpp Require Import base gmap strings list numbers.
From S2P Require Import Prelude GoLib Model Po Env Logic Mem Keys Router Cache Event Quota StrategyRepo Armory.
From S2P Require Import RuleTree RuleChain Raffle Activity PartakeData QuotaData ActivityWiring StrategyData Award.
From S2P Require Import Rebate Tasks Consumers Metrics CacheCodec Asynq Broker Connections Service ServiceWiring Servers.
Open Scope Z_scope.

(** ** Use cases and services

    Each holds the repository it was built on. *)
Record ActivityQuotaUsecase (S : Type) := mkActivityQuotaUsecase { qu_repo : ActivityRepo S }.
Record ActivityPartakeUsecase (S : Type) := mkActivityPartakeUsecase { pu_repo : ActivityRepo S }.
Record StockManager (S : Type) := mkStockManager { sm_repo : ActivityRepo S }.
Record AwardUsecase (S : Type) := mkAwardUsecase { au_repo : AwardRepo S }.
Record BehaviorRebateUsecase (S : Type) := mkBehaviorRebateUsecase { bu_repository : RebateRepo S }.
Record TaskUsecase (S J : Type) := mkTaskUsecase { tu_taskRepository : TaskRepo S J }.
Arguments mkActivityQuotaUsecase {S}.
Arguments qu_repo {S}.
Arguments mkActivityPartakeUsecase {S}.
Arguments pu_repo {S}.
Arguments mkStockManager {S}.
Arguments sm_repo {S}.
Arguments mkAwardUsecase {S}.
Arguments au_repo {S}.
Arguments mkBehaviorRebateUsecase {S}.
Arguments bu_repository {S}.
Arguments mkTaskUsecase {S J}.
Arguments tu_taskRepository {S J}.

(** The parts of the strategy use case; the objects of the factory are cells of the heap
    of [RuleChain]. *)
Record armoryDispatch (S : Type) := mkArmoryDispatch { ad_repo : StrategyRepo S }.
Record logicFactory (S : Type) := mkLogicFactory {
  lf_cells : list chain_cell;
  lf_armory : armoryDispatch S;
  lf_repo : StrategyRepo S }.
Record ruleTreeFactory (S : Type) := mkRuleTreeFactory { tf_repository : StrategyRepo S }.
Record raffleStrategy (S : Type) := mkRaffleStrategy {
  rs_repo : StrategyRepo S;
  rs_chainFactory : logicFactory S;
  rs_treeFactory : ruleTreeFactory S }.
Record StrategyUsecase (S : Type) := mkStrategyUsecase {
  su_repo : StrategyRepo S;
  su_raffle : raffleStrategy S;
  su_armory : armoryDispatch S }.
Arguments mkArmoryDispatch {S}.
Arguments ad_repo {S}.
Arguments mkLogicFactory {S}.
Arguments lf_cells {S}.
Arguments lf_armory {S}.
Arguments lf_repo {S}.
Arguments mkRuleTreeFactory {S}.
Arguments tf_repository {S}.
Arguments mkRaffleStrategy {S}.
Arguments rs_repo {S}.
Arguments rs_chainFactory {S}.
Arguments rs_treeFactory {S}.
Arguments mkStrategyUsecase {S}.
Arguments su_repo {S}.
Arguments su_raffle {S}.
Arguments su_armory {S}.

Section Constructors.
Context {S J : Type}.

Definition NewActivityQuotaUsecase (repo : ActivityRepo S) : ActivityQuotaUsecase S := mkActivityQuotaUsecase repo.
Definition NewActivityPartakeUsecase (repo : ActivityRepo S) : ActivityPartakeUsecase S := mkActivityPartakeUsecase repo.
Definition NewStockManager (repo : ActivityRepo S) : StockManager S := mkStockManager repo.
Definition NewAwardUsecase (repo : AwardRepo S) : AwardUsecase S := mkAwardUsecase repo.
Definition NewBehaviorRebateUsecase (repository : RebateRepo S) : BehaviorRebateUsecase S :=
  mkBehaviorRebateUsecase repository.
Definition NewTaskUsecase (taskRepository : TaskRepo S J) : TaskUsecase S J := mkTaskUsecase taskRepository.

Definition newArmoryDispatch (repo : StrategyRepo S) : armoryDispatch S := mkArmoryDispatch repo.
(** The three prototypes, and the repository and the armory they hold. *)
Definition newLogicFactory_on (repo : StrategyRepo S) (armory : armoryDispatch S) : logicFactory S :=
  mkLogicFactory newLogicFactory armory repo.
Definition newRuleTreeFactory (repository : StrategyRepo S) : ruleTreeFactory S := mkRuleTreeFactory repository.
Definition newRaffleStrategy (repo : StrategyRepo S) (chainFactory : logicFactory S) (treeFactory : ruleTreeFactory S)
    : raffleStrategy S := mkRaffleStrategy repo chainFactory treeFactory.
Definition NewStrategyUsecase (repo : StrategyRepo S) : StrategyUsecase S :=
  let armorSvc := newArmoryDispatch repo in
  let logicFactory := newLogicFactory_on repo armorSvc in
  let ruleTreeFactory := newRuleTreeFactory repo in
  let raffleSvc := newRaffleStrategy repo logicFactory ruleTreeFactory in
  mkStrategyUsecase repo raffleSvc armorSvc.
End Constructors.

(** [ActivityService], [StrategyService] *)
Record ActivityService (S : Type) := mkActivityService {
  as_stockManager : StockManager S;
  as_partakeUsecase : ActivityPartakeUsecase S;
  as_quotaUsecase : ActivityQuotaUsecase S;
  as_strategyUsecase : StrategyUsecase S;
  as_awardUsecase : AwardUsecase S;
  as_behaviorRebateUsecase : BehaviorRebateUsecase S }.
Record StrategyService (S : Type) := mkStrategyService {
  ss_strategyUsecase : StrategyUsecase S;
  ss_quotaService : ActivityQuotaUsecase S }.
Arguments mkActivityService {S}.
Arguments as_stockManager {S}.
Arguments as_partakeUsecase {S}.
Arguments as_quotaUsecase {S}.
Arguments as_strategyUsecase {S}.
Arguments as_awardUsecase {S}.
Arguments as_behaviorRebateUsecase {S}.
Arguments mkStrategyService {S}.
Arguments ss_strategyUsecase {S}.
Arguments ss_quotaService {S}.

Section Services.
Context {S J : Type} `{EnvOps S}.

Definition NewActivityService (stockManager : StockManager S) (partakeUsecase : ActivityPartakeUsecase S)
    (quotaUsecase : ActivityQuotaUsecase S) (strategyUsecase : StrategyUsecase S) (awardUsecase : AwardUsecase S)
    (behaviorRebateUsecase : BehaviorRebateUsecase S) : ActivityService S :=
  mkActivityService stockManager partakeUsecase quotaUsecase strategyUsecase awardUsecase behaviorRebateUsecase.
Definition NewStrategyService (strategyUsecase : StrategyUsecase S) (quotaService : ActivityQuotaUsecase S)
    : StrategyService S := mkStrategyService strategyUsecase quotaService.

(** The handlers of a service run on the repositories of its use cases; [fuel] bounds the
    decision tree. *)
Definition ActivityService_Draw (s : ActivityService S) (fuel : nat) : string -> Z -> M (list chain_cell * S) DrawReply :=
  @Draw S (pu_repo (as_partakeUsecase s)) (su_repo (as_strategyUsecase s)) (au_repo (as_awardUsecase s)) _ fuel.
Definition StrategyService_RandomRaffle (s : StrategyService S) (fuel : nat)
    : Z -> string -> M (list chain_cell * S) DrawReply :=
  @RandomRaffle S (su_repo (ss_strategyUsecase s)) _ fuel.

(** The jobs and the listeners. *)
Record ActivitySkuStockConsumeJob := mkActivitySkuStockConsumeJob { aj_activityService : ActivityQuotaUsecase S }.
Record StrategyAwardStockConsumeJob := mkStrategyAwardStockConsumeJob { sj_service : StrategyUsecase S }.
Record SendAwardMessageJob := mkSendAwardMessageJob {
  mj_taskSvc : TaskUsecase S J;
  mj_activityPartakeSvc : ActivityPartakeUsecase S;
  mj_dbCount : Z }.
Record ActivityStockListener := mkActivityStockListener { zl_activityService : ActivityQuotaUsecase S }.
Record RebateListener := mkRebateListener { bl_activityService : ActivityQuotaUsecase S }.
Record SaveOrderListener := mkSaveOrderListener { ol_activityPartakeService : ActivityPartakeUsecase S }.

Definition NewActivitySkuStockConsumeJob (activityService : ActivityQuotaUsecase S) : ActivitySkuStockConsumeJob :=
  mkActivitySkuStockConsumeJob activityService.
Definition NewStrategyAwardStockConsumeJob (service : StrategyUsecase S) : StrategyAwardStockConsumeJob :=
  mkStrategyAwardStockConsumeJob service.
Definition NewSendAwardMessage (taskSvc : TaskUsecase S J) (activityPartakeSvc : ActivityPartakeUsecase S)
    (conf : Data_Mysql) : SendAwardMessageJob :=
  mkSendAwardMessageJob taskSvc activityPartakeSvc (my_DbCount conf).
Definition NewActivityStockListener (activityService : ActivityQuotaUsecase S) : ActivityStockListener :=
  mkActivityStockListener activityService.
Definition NewRebateListener (activityService : ActivityQuotaUsecase S) : RebateListener :=
  mkRebateListener activityService.
Definition NewSaveOrderListener (activityPartakeService : ActivityPartakeUsecase S) : SaveOrderListener :=
  mkSaveOrderListener activityPartakeService.

(** [NewRabbitMQServer]: each listener works on the repository of its use case. *)
Context `{Codec any} `{Codec (BaseEvent any)} `{Codec (BaseEvent RebateMessage)} `{Codec CreatePartakeOrder}.
Definition NewRabbitMQServer (conn : nat) (stockListener : ActivityStockListener) (rebateListener : RebateListener)
    (saveOrderListener : SaveOrderListener) : RabbitMQServer S :=
  mkRabbitMQServer true
    (RegisterListener SaveOrderRecordTopic
       (SaveOrderListener_Handle (H := pu_repo (ol_activityPartakeService saveOrderListener)))
      (RegisterListener ActivityAwardSendTopic
         (RebateListener_Handle (H := qu_repo (bl_activityService rebateListener)))
        (RegisterListener ActivitySkuStockZeroTopic
           (ActivityStockListener_Handle (H := qu_repo (zl_activityService stockListener))) ∅)))
    [] [].
End Services.
Arguments ActivitySkuStockConsumeJob : clear implicits.
Arguments StrategyAwardStockConsumeJob : clear implicits.
Arguments SendAwardMessageJob : clear implicits.
Arguments ActivityStockListener : clear implicits.
Arguments RebateListener : clear implicits.
Arguments SaveOrderListener : clear implicits.

(** ** [wireApp] *)

(** [conf.Server], [conf.RabbitMQ] *)
Record Conf_Server := mkConf_Server { cs_Http : ServerConf; cs_Grpc : ServerConf }.
Record Conf_RabbitMQ := mkConf_RabbitMQ { cr_conn : RabbitMQConf; cr_Topic : Publisher }.

(** The drivers that are opened. *)
Record Drivers (G C B : Type) := mkDrivers { dv_mysql : G; dv_redis : C; dv_amqp : B }.
Arguments mkDrivers {G C B}.
Arguments dv_mysql {G C B}.
Arguments dv_redis {G C B}.
Arguments dv_amqp {G C B}.

Section InDriver.
Context {G C B A : Type}.
Definition in_mysql (m : M G A) : M (Drivers G C B) A := fun s =>
  let '(a, g) := m (dv_mysql s) in (a, mkDrivers g (dv_redis s) (dv_amqp s)).
Definition in_client (m : M C A) : M (Drivers G C B) A := fun s =>
  let '(a, c) := m (dv_redis s) in (a, mkDrivers (dv_mysql s) c (dv_amqp s)).
Definition in_amqp (m : M B A) : M (Drivers G C B) A := fun s =>
  let '(a, b) := m (dv_amqp s) in (a, mkDrivers (dv_mysql s) (dv_redis s) b).

Lemma in_mysql_ret m s a s' : in_mysql m s = (Ret a, s') -> m (dv_mysql s) = (Ret a, dv_mysql s').
Proof. unfold in_mysql. destruct (m (dv_mysql s)) as [r g]. by intros [= -> <-]. Qed.
End InDriver.

(** [data.NewPublisher] *)
Definition NewPublisher (client : RabbitMQPublisher) (c : Conf_RabbitMQ) : Publisher :=
  mkPublisher (pb_ActivitySkuStockZero (cr_Topic c)) (pb_SendRebate (cr_Topic c)) (pb_SendAward (cr_Topic c)).

Section Wire.
(** The world of the repositories; the metrics and their clock; the drivers; the requests
    and replies of the generated routes. *)
Context {R D E J : Type} `{RedisOps R} `{SqlOps D} `{EnvOps E} `{LocalCacheOps E} `{PublisherMem E}.
Context `{Codec Activity} `{Codec ActivityAccount} `{Codec UserRaffleOrder} `{Codec ActivitySku}
  `{Codec ActivityCount} `{Codec ActivityResult} `{Codec ActivitySkuStockKey} `{Codec SaveOrderTaskMessage}
  `{EventCodec CreatePartakeOrder} `{EventCodec Z}.
Context `{Codec Strategy} `{Codec (list StrategyAward)} `{Codec string} `{Codec RuleTree}
  `{Codec StrategyAward} `{Codec (list WeightBucket)} `{Codec RaffleActivityPO}
  `{Codec AwardStockConsumeMessage} `{Codec SendAwardMessage}.
Context `{EventCodec RebateMessage} `{EventCodec J} `{Codec J} `{JsonString J}.
Context `{Codec any} `{Codec (BaseEvent any)} `{Codec (BaseEvent RebateMessage)} `{Codec CreatePartakeOrder}.
Notation World := (W R D E).
Context {P T : Type} `{PromOps P} `{EnvOps T}.
Context {G C B V Req Rep : Type} `{MySQLDriver G} `{RedisDriver C} `{AmqpOps B} `{Packer V}.
Variable Recovery : forall St, (Req -> M St Rep) -> Req -> M St Rep.
Variable other_verbs : string -> string -> string.
Variable json_Marshal : goval V -> res string.
Variable json_Unmarshal : string -> dest -> res (option (goval V)).
Variable Dial : string -> M B nat.
Variable cron_ok : string -> bool.
(** The methods of the two services as the generated code calls them -- over HTTP by the
    operation of the route, over gRPC as registered -- and the turns the goroutines of the
    message job take in a run for a task. *)
Variable http_strategy : StrategyService World -> string -> Req -> M (list chain_cell * World) Rep.
Variable http_activity : ActivityService World -> string -> Req -> M (list chain_cell * World) Rep.
Variable grpc_routes : StrategyService World -> ActivityService World -> Req -> M (list chain_cell * World) Rep.
Variable schedule : Task -> list (list nat) * list nat.
(** Attempts of [Once], as in [Cache]. *)
Variable fuel : nat.

(** The globals of [main.go]: the host's name, and what the linker fills in. *)
Variables id Name Version : string.

(** [kratos.App] as [newApp] configures it, with the servers in the order they are
    started. *)
Record KratosApp := mkKratosApp {
  ka_ID : string;
  ka_Name : string;
  ka_Version : string;
  ka_Metadata : gmap string string;
  ka_gs : ServerOptions * (Req -> M (list chain_cell * World) Rep);
  ka_hs : HTTPServer (P := P) (E := T) (S := list chain_cell * World) (Req := Req) (Rep := Rep);
  ka_metricsSrv : MetricsServer;
  ka_asynqSrv : AsynqServer (P := P) (E := T) (S := World);
  ka_rmqSrv : RabbitMQServer World }.
Definition newApp gs hs metricsSrv asynqSrv rmqSrv : KratosApp :=
  mkKratosApp id Name Version ∅ gs hs metricsSrv asynqSrv rmqSrv.

(** What [wireApp] answers, and what stays reachable behind it. *)
Record App := mkApp {
  app_kratos : KratosApp;
  app_strategyService : StrategyService World;
  app_activityService : ActivityService World;
  app_publisher : RabbitMQPublisher }.

Definition SkuStockJob_ProcessTask (j : ActivitySkuStockConsumeJob World) (t : Task) : M World unit :=
  ActivitySkuStockConsumeJob_ProcessTask (H := qu_repo (aj_activityService j)) (at_Payload t).
Definition AwardStockJob_ProcessTask (j : StrategyAwardStockConsumeJob World) (t : Task) : M World unit :=
  StrategyAwardStockConsumeJob_ProcessTask (H0 := su_repo (sj_service j)) (at_Payload t).
Definition MessageJob_ProcessTask (j : SendAwardMessageJob World J) (t : Task) : M World unit :=
  SendAwardMessage_ProcessTask (H := tu_taskRepository (mj_taskSvc j))
    (H0 := pu_repo (mj_activityPartakeSvc j))
    (Z.to_nat (mj_dbCount j)) (fst (schedule t)) (snd (schedule t)).

Definition wireApp (confServer : Conf_Server) (confData : ConfData) (rabbitMQ : Conf_RabbitMQ) (asynq : AsynqConf)
    (monitor : option Monitor) : M (Drivers G C B) App :=
  let data_Mysql := NewMysqlConfig confData in
  let! db := in_mysql (NewDB (P := P) (E := T) other_verbs data_Mysql) in
  let data_Redis := NewRedisConfig confData in
  let! cache := in_client (NewRedisClient json_Marshal json_Unmarshal data_Redis) in
  let client := NewAsynqClient asynq in
  let! dbRouter := in_mysql (NewDBRouter_open other_verbs data_Mysql) in
  let repo := NewStrategyRepository (mkStrategyRepository (fst db) dbRouter) fuel : StrategyRepo World in
  let strategyUsecase := NewStrategyUsecase repo in
  let! connection := in_amqp (NewConnection Dial (cr_conn rabbitMQ)) in
  let! rabbitMQPublisher := in_amqp NewRabbitMQPublisher in
  let publisher := NewPublisher rabbitMQPublisher rabbitMQ in
  let inspector := NewAsynqInspector asynq in
  let activityRepo := NewActivityRepository (mkRepository dbRouter (fst db) publisher true) fuel : ActivityRepo World in
  let activityQuotaUsecase := NewActivityQuotaUsecase activityRepo in
  let strategyService := NewStrategyService strategyUsecase activityQuotaUsecase in
  let stockManager := NewStockManager activityRepo in
  let activityPartakeUsecase := NewActivityPartakeUsecase activityRepo in
  let awardRepo := NewUserAwardRecordRepository (mkAwardRepository dbRouter) : AwardRepo World in
  let awardUsecase := NewAwardUsecase awardRepo in
  let rebateRepo := NewRebateRepository (mkRebateRepository (fst db) dbRouter publisher) : RebateRepo World in
  let behaviorRebateUsecase := NewBehaviorRebateUsecase rebateRepo in
  let activityService := NewActivityService stockManager activityPartakeUsecase activityQuotaUsecase strategyUsecase
                           awardUsecase behaviorRebateUsecase in
  let grpcServer := NewGRPCServer Recovery (cs_Grpc confServer) (grpc_routes strategyService activityService) in
  let httpServer := NewHTTPServer (P := P) (E := T) Recovery (cs_Http confServer) (http_strategy strategyService)
                      (http_activity activityService) in
  let metricsServer := NewMetricsServer monitor in
  let activitySkuStockConsumeJob := NewActivitySkuStockConsumeJob activityQuotaUsecase in
  let taskRepo := NewTaskRepository (mkTaskRepository dbRouter publisher) : TaskRepo World J in
  let taskUsecase := NewTaskUsecase taskRepo in
  let sendAwardMessage := NewSendAwardMessage taskUsecase activityPartakeUsecase data_Mysql in
  let strategyAwardStockConsumeJob := NewStrategyAwardStockConsumeJob strategyUsecase in
  let! asynqServer := lift_res (NewAsynqServer cron_ok (SkuStockJob_ProcessTask activitySkuStockConsumeJob)
                        (MessageJob_ProcessTask sendAwardMessage)
                        (AwardStockJob_ProcessTask strategyAwardStockConsumeJob) asynq) in
  let activityStockListener := NewActivityStockListener activityQuotaUsecase in
  let rebateListener := NewRebateListener activityQuotaUsecase in
  let saveOrderListener := NewSaveOrderListener activityPartakeUsecase in
  let rabbitMQServer := NewRabbitMQServer connection activityStockListener rebateListener saveOrderListener in
  let app := newApp grpcServer httpServer metricsServer asynqServer rabbitMQServer in
  ret (mkApp app strategyService activityService rabbitMQPublisher).

(** ** The application at work

    The draws that were made, each with its answer and the worlds around it.  Between two
    of them the servers may run a raffle of the other service, and anything may happen to
    the world: other requests, listeners, jobs, other processes. *)
Record drawn := mkDrawn {
  dn_userId : string;
  dn_activityId : Z;
  dn_answer : res DrawReply;
  dn_before : World;
  dn_after : World }.

Definition app_cells (app : App) : list chain_cell :=
  lf_cells (rs_chainFactory (su_raffle (as_strategyUsecase (app_activityService app)))).

Inductive history (app : App) : list drawn -> list chain_cell * World -> Prop :=
| history_start w : history app [] (app_cells app, w)
| history_draw evs cells w n userId activityId rr cells' w' :
    history app evs (cells, w) ->
    ActivityService_Draw (app_activityService app) n userId activityId (cells, w) = (rr, (cells', w')) ->
    history app (evs ++ [mkDrawn userId activityId rr w w']) (cells', w')
| history_raffle evs cells w n strategyId userId rr cells' w' :
    history app evs (cells, w) ->
    StrategyService_RandomRaffle (app_strategyService app) n strategyId userId (cells, w) = (rr, (cells', w')) ->
    history app evs (cells', w')
| history_other evs cells w w' : history app evs (cells, w) -> history app evs (cells, w').

(** What [wireApp] has built when it answers: one router and one default database behind
    every repository, one factory behind both services, and the listeners of [Consumers]. *)
Lemma wireApp_run confServer confData rabbitMQ asynq monitor s app s' :
  wireApp confServer confData rabbitMQ asynq monitor s = (Ret app, s') ->
  exists db r g g', NewDBRouter_open other_verbs (cd_Mysql confData) g = (Ret r, g') /\
    let activities := NewActivityRepository (mkRepository r db (cr_Topic rabbitMQ) true) fuel in
    let strategies := NewStrategyRepository (mkStrategyRepository db r) fuel in
    pu_repo (as_partakeUsecase (app_activityService app)) = activities /\
    su_repo (as_strategyUsecase (app_activityService app)) = strategies /\
    au_repo (as_awardUsecase (app_activityService app)) = NewUserAwardRecordRepository (mkAwardRepository r) /\
    su_repo (ss_strategyUsecase (app_strategyService app)) = strategies /\
    app_cells app = newLogicFactory /\
    ka_rmqSrv (app_kratos app) = mkRabbitMQServer true (NewRabbitMQServer_listeners (H := activities)) [] [].
Proof.
  unfold wireApp. intros E1.
  apply bind_inv_ret in E1 as (db & s1 & _ & E1). apply bind_inv_ret in E1 as (c & s2 & _ & E1).
  apply bind_inv_ret in E1 as (r & s3 & Hr & E1). apply in_mysql_ret in Hr.
  apply bind_inv_ret in E1 as (conn & s4 & _ & E1). apply bind_inv_ret in E1 as (pub & s5 & _ & E1).
  apply bind_inv_ret in E1 as (srv & s6 & _ & E1). injection E1 as <- _.
  exists (fst db), r, (dv_mysql s2), (dv_mysql s3). split; [exact Hr|].
  unfold NewPublisher. destruct rabbitMQ as [rc [t1 t2 t3] ]. by cbn.
Qed.
End Wire.

Section Application.
Context {R D E J : Type} `{RedisLaws R} `{SqlLaws D} `{EnvLaws E} `{LocalCacheOps E} `{PublisherMem E}.
Context `{Codec Activity} `{Codec ActivityAccount} `{Codec UserRaffleOrder} `{Codec ActivitySku}
  `{Codec ActivityCount} `{Codec ActivityResult} `{Codec ActivitySkuStockKey} `{CodecLaws SaveOrderTaskMessage}
  `{EventCodec CreatePartakeOrder} `{EventCodec Z}.
Context `{Codec Strategy} `{Codec (list StrategyAward)} `{Codec string} `{Codec RuleTree}
  `{Codec StrategyAward} `{Codec (list WeightBucket)} `{Codec RaffleActivityPO}
  `{Codec AwardStockConsumeMessage} `{CodecLaws SendAwardMessage}.
Context `{EventCodec RebateMessage} `{EventCodec J} `{Codec J} `{JsonString J}.
Context `{Codec any} `{Codec (BaseEvent any)} `{Codec (BaseEvent RebateMessage)} `{Codec CreatePartakeOrder}.
Notation World := (W R D E).
Context {P T : Type} `{PromOps P} `{EnvOps T}.
Context {G C B V Req Rep : Type} `{MySQLDriverLaws G} `{RedisDriver C} `{AmqpOps B} `{Packer V}.
Variable Recovery : forall St, (Req -> M St Rep) -> Req -> M St Rep.
Variable other_verbs : string -> string -> string.
Variable json_Marshal : goval V -> res string.
Variable json_Unmarshal : string -> dest -> res (option (goval V)).
Variable Dial : string -> M B nat.
Variable cron_ok : string -> bool.
Variable http_strategy : StrategyService World -> string -> Req -> M (list chain_cell * World) Rep.
Variable http_activity : ActivityService World -> string -> Req -> M (list chain_cell * World) Rep.
Variable grpc_routes : StrategyService World -> ActivityService World -> Req -> M (list chain_cell * World) Rep.
Variable schedule : Task -> list (list nat) * list nat.
Variable fuel : nat.
Variables id Name Version : string.
Notation wireApp := (wireApp (J := J) (P := P) (T := T) Recovery other_verbs json_Marshal json_Unmarshal Dial cron_ok
  http_strategy http_activity grpc_routes schedule fuel id Name Version).

End Application.

(** ** Witness: the application is wired, and a user draws *)
#[local] Existing Instances demo_c1 demo_c2 demo_c3 demo_c4 demo_c5 demo_c6 demo_c7 demo_c8 demo_c8_laws demo_e1 demo_e2
  demo_pm demo_award_codec demo_award_laws demo_award_sql demo_award_sql_laws.
#[local] Existing Instances demo_s1 demo_s2 demo_s3 demo_s4 demo_s5 demo_s6 demo_s7 demo_s8.
#[local] Existing Instances demo_any demo_any_event demo_rebate_codec demo_save_codec demo_rebate_publishes.
#[local] Existing Instances MemPromOps demo_driver demo_driver_laws MemBrokerOps demo_packer.
#[local] Instance demo_wire_json : JsonString Z := {| json_string := fun _ => 0 |}.
#[local] Instance demo_redis_driver : RedisDriver nat := {
  rc_NewClient := fun _ n => (Ret n, n + 1)%nat;
  rc_AddMetricsHook := fun _ => ret tt;
  rc_Ping := fun _ _ => ret tt }.

Definition demo_data : ConfData :=
  mkConfData (mkData_Mysql "big_market%s" 25 15 None None 1 1) (mkData_Redis "127.0.0.1" 6379 0 20 5 1000 1000 3 100).
Definition demo_rabbit : Conf_RabbitMQ :=
  mkConf_RabbitMQ (mkRabbitMQConf "u" "p" "127.0.0.1" 5672) (mkPublisher "zero" "rebate" "award").
Definition demo_http_conf : ServerConf := mkServerConf "tcp" "0.0.0.0:8000" None.
Definition demo_strategy (ss : StrategyService MemWorld) (op : string) (req : string * Z)
  : M (list chain_cell * MemWorld) DrawReply := StrategyService_RandomRaffle ss 4 req.2 req.1.
Definition demo_activity (s : ActivityService MemWorld) (op : string) (req : string * Z)
  : M (list chain_cell * MemWorld) DrawReply := ActivityService_Draw s 4 req.1 req.2.
Definition demo_route (ss : StrategyService MemWorld) (s : ActivityService MemWorld) (req : string * Z)
  : M (list chain_cell * MemWorld) DrawReply := ActivityService_Draw s 4 req.1 req.2.
Definition demo_drivers : Drivers (list string) nat broker := mkDrivers [] 0%nat demo_broker.
Definition demo_wired :=
  wireApp (J := Z) (P := MemProm) (T := MemEnv) (V := string) (demo_Recovery (string * Z) DrawReply) demo_no_verbs
    (fun _ => Ret "{}"%string) (fun _ _ => Ret None) (fun _ => ret 0%nat) (fun _ => true) demo_strategy demo_activity demo_route
    (fun _ => ([], [])) 2 "host" "big-market" "v1" (mkConf_Server demo_http_conf demo_http_conf) demo_data demo_rabbit demo_cfg None demo_drivers.

(** The value of a result that is one. *)
Definition is_ret {A} (r : res A) : bool := match r with Ret _ => true | _ => false end.
Definition from_ret {A} (r : res A) : is_ret r = true -> A :=
  match r with
  | Ret a => fun _ => a
  | Fail _ | Panic _ => fun H => False_rect A (diff_false_true H)
  end.
Lemma from_ret_eq {A} (r : res A) H : r = Ret (from_ret r H).
Proof. by destruct r. Qed.

Lemma demo_wired_ret : is_ret demo_wired.1 = true.
Proof. vm_compute. reflexivity. Defined.
Definition demo_app := from_ret demo_wired.1 demo_wired_ret.
Definition demo_drew : res DrawReply * (list chain_cell * MemWorld) :=
  ActivityService_Draw (app_activityService demo_app) 4 "u" 100 (app_cells demo_app, demo_draw_world).
Definition demo_event : drawn := mkDrawn "u" 100 demo_drew.1 demo_draw_world demo_drew.2.2.

Lemma demo_drew_reply : demo_drew.1 = Ret (mkDrawReply 101 "t" 3).
Proof. vm_compute. reflexivity. Defined.

