(* ===== verification/Cdc.v ===== *)
(** * Cdc: mirroring the tables into Elasticsearch

    [internal/cdc]: the handler of binlog events ([handler.go]), the writer that turns a
    row into an HTTP request ([es_writer.go]) and the configuration ([config.go]).  The
    canal library that reads the binlog and the HTTP client are parameters. *)
From Stdlib Require Import ZArith Lia List Ascii String.
From stdpp Require Import base gmap strings list numbers.
From S2P Require Import Prelude GoLib Cache Crypto.
Open Scope Z_scope.

(** ** Pieces of the standard library *)

(** [t.UTC().Format(time.RFC3339)], and with [time.RFC3339Nano] the fraction without its
    trailing zeros. *)
Definition trim_zeros (s : string) : string := TrimRightFunc (Ascii.eqb "0") s.
Definition format_rfc3339 (t : time) : string :=
  let '(y, m, d) := civil_of_days (local_days 0 t) in
  let sec := Unix t mod 86400 in
  (fmt_0d 4 y ++ "-" ++ fmt_0d 2 m ++ "-" ++ fmt_0d 2 d ++ "T" ++
   fmt_0d 2 (sec / 3600) ++ ":" ++ fmt_0d 2 (sec / 60 mod 60) ++ ":" ++ fmt_0d 2 (sec mod 60))%string.
Definition format_rfc3339_nano (t : time) : string :=
  let fraction := trim_zeros (fmt_0d 9 (t mod Second)) in
  (format_rfc3339 t ++ (if String.eqb fraction "" then "" else "." ++ fraction) ++ "Z")%string.

Example rfc3339_nano_ex : format_rfc3339_nano (1709193599 * Second + 120000000) = "2024-02-29T07:59:59.12Z"%string.
Proof. vm_compute. reflexivity. Qed.

(** [url.PathEscape]: letters, digits and some punctuation stand for themselves. *)
Definition path_plain (c : ascii) : bool :=
  let b := byte_val c in
  between 48 57 b || between 65 90 b || between 97 122 b ||
  existsb (Ascii.eqb c) ["-"; "_"; "."; "~"; "$"; "&"; "+"; ":"; "="; "@"]%char.
Definition upper_hex_digit (n : Z) : ascii := ascii_of_N (Z.to_N (if n <? 10 then 48 + n else 55 + n)).
Fixpoint PathEscape (s : string) : string :=
  match s with
  | EmptyString => EmptyString
  | String c s' =>
      if path_plain c then String c (PathEscape s')
      else
        let b := byte_val c in
        String "%" (String (upper_hex_digit (b / 16)) (String (upper_hex_digit (b mod 16)) (PathEscape s')))
  end.

(** [strconv.ParseUint(s, 10, 32)] *)
Definition ParseUint32 (s : string) : res Z :=
  match parse_uint s with
  | None => Fail (ENew ("strconv.ParseUint: parsing " ++ s ++ ": invalid syntax"))
  | Some z => if z <? 2 ^ 32 then Ret z
              else Fail (ENew ("strconv.ParseUint: parsing " ++ s ++ ": value out of range"))
  end.

(** ** Data *)

(** A cell of a row as canal delivers it; [COther] is any other value, by its [%v] text. *)
Inductive cell := CBytes (b : string) | CString (s : string) | CTime (t : time) | COther (text : string).

(** What [normalizeValue] leaves: no bytes and no times. *)
Inductive value := VString (s : string) | VOther (text : string).

(** [schema.Table] of go-mysql. *)
Record Table := mkTable {
  Schema : string;
  Name : string;
  Columns : list string;
  PKColumns : list nat }.

Inductive action := InsertAction | UpdateAction | DeleteAction | OtherAction (name : string).

(** [canal.RowsEvent] *)
Record RowsEvent := mkRowsEvent {
  re_Table : option Table;
  re_Action : action;
  re_Rows : list (list cell) }.

(** [table.GetPKValues] of go-mysql: the values of the key columns, or an error. *)
Class CanalLibrary := { GetPKValues : Table -> list cell -> list cell + gerr }.

(** The world of the synchroniser: [url.Parse] in [http.NewRequestWithContext], the HTTP
    client -- status and body of the answer -- and the clock. *)
Class CdcWorld (S : Type) := {
  http_Parse : string -> M S unit;
  http_Do : string -> string -> string -> M S (Z * string);
  cdc_now : M S time }.

Record Config := mkConfig {
  MySQLAddr : string; MySQLUser : string; MySQLPassword : string;
  MySQLFlavor : string; MySQLCharset : string; MySQLReadTimeout : string;
  MySQLServerID : Z; IncludeTableRegex : list string;
  ESAddr : string; ESIndexPrefix : string }.

(** ** config.go *)
Section Config.
(** [os.Getenv] *)
Variable Getenv : string -> string.

Definition getenvDefault (key defaultValue : string) : string :=
  let value := TrimSpace (Getenv key) in
  if String.eqb value "" then defaultValue else value.

Definition parseUint32Env (key : string) (defaultValue : Z) : res Z :=
  let value := TrimSpace (Getenv key) in
  if String.eqb value "" then Ret defaultValue
  else match ParseUint32 value with
       | Fail err => Fail (EWrap ("parse " ++ key ++ ": ") err)
       | r => r
       end.

Definition splitCSV (value : string) : list string :=
  if String.eqb (TrimSpace value) "" then []
  else List.filter (fun trimmed => negb (String.eqb trimmed "")) (map TrimSpace (Split value ",")).

Definition Validate (c : Config) : res unit :=
  if String.eqb (MySQLAddr c) "" then Fail (ENew "CDC_MYSQL_ADDR is required")
  else if String.eqb (MySQLUser c) "" then Fail (ENew "CDC_MYSQL_USER is required")
  else if String.eqb (ESAddr c) "" then Fail (ENew "CDC_ES_ADDR is required")
  else if (length (IncludeTableRegex c) =? 0)%nat then Fail (ENew "CDC_INCLUDE_TABLE_REGEX must contain at least one regex")
  else if MySQLServerID c =? 0 then Fail (ENew "CDC_MYSQL_SERVER_ID must be greater than 0")
  else Ret tt.

Definition LoadConfigFromEnv : res Config :=
  let? serverID := parseUint32Env "CDC_MYSQL_SERVER_ID" 2001 in
  let cfg :=
    {| MySQLAddr := TrimSpace (Getenv "CDC_MYSQL_ADDR");
       MySQLUser := TrimSpace (Getenv "CDC_MYSQL_USER");
       MySQLPassword := Getenv "CDC_MYSQL_PASSWORD";
       MySQLFlavor := getenvDefault "CDC_MYSQL_FLAVOR" "mysql";
       MySQLCharset := getenvDefault "CDC_MYSQL_CHARSET" "utf8mb4";
       MySQLReadTimeout := getenvDefault "CDC_MYSQL_READ_TIMEOUT" "30s";
       MySQLServerID := serverID;
       IncludeTableRegex := splitCSV (getenvDefault "CDC_INCLUDE_TABLE_REGEX" "big_market_01\..*,big_market_02\..*");
       ESAddr := TrimRightFunc (Ascii.eqb "/") (TrimSpace (Getenv "CDC_ES_ADDR"));
       ESIndexPrefix := ToLower (getenvDefault "CDC_ES_INDEX_PREFIX" "bm") |} in
  let? _ := Validate cfg in
  Ret cfg.
End Config.

(** [shardSuffixPattern]: an underscore and three digits at the end. *)
Definition is_shard_suffix (s : string) : bool :=
  match s with
  | String u (String a (String b (String c EmptyString))) =>
      Ascii.eqb u "_" && is_digit a && is_digit b && is_digit c
  | _ => false
  end.
Definition trimShardSuffix (name : string) : string :=
  let name := ToLower name in
  let cut := (String.length name - 4)%nat in
  if is_shard_suffix (drop_str cut name) then substring 0 cut name else name.

Definition LogicalIndexName (c : Config) (tableName : string) : string :=
  let logicalTableName := trimShardSuffix tableName in
  let prefix := TrimSpace (ESIndexPrefix c) in
  if String.eqb prefix "" then ToLower logicalTableName
  else ToLower (prefix ++ "_" ++ logicalTableName).

Example logical_index_ex : LogicalIndexName (mkConfig "" "" "" "" "" "" 1 [] "" "bm") "user_raffle_order_001"
  = "bm_user_raffle_order"%string.
Proof. vm_compute. reflexivity. Qed.

(** ** handler.go, the values *)
Definition normalizeValue (raw : cell) : value :=
  match raw with
  | CBytes b => VString b
  | CTime t => VString (format_rfc3339_nano t)
  | CString s => VString s
  | COther text => VOther text
  end.
(** [fmt.Sprintf("%v", value)] *)
Definition sprint_value (v : value) : string := match v with VString s => s | VOther text => text end.

Section Handler.
Context {S : Type} `{CdcWorld S} `{CanalLibrary} `{Codec (gmap string value)} `{Codec (list cell)}.
Variable cfg : Config.

Definition rowToDocument (table : Table) (row : list cell) (now : time) : gmap string value :=
  let doc := fold_left (fun doc '(name, c) => <[name := normalizeValue c]> doc) (zip (Columns table) row) ∅ in
  <["_synced_at" := VString (format_rfc3339 now ++ "Z")]>
    (<["_logical_table" := VString (trimShardSuffix (Name table))]>
      (<["_physical_table" := VString (Name table)]>
        (<["_schema" := VString (Schema table)]> doc)))%string.

Definition documentID (table : Table) (row : list cell) : string :=
  match GetPKValues table row with
  | inl ((_ :: _) as pkValues) => Join (map (fun value => sprint_value (normalizeValue value)) pkValues) ":"
  | _ =>
      let payload := match marshal (Some row) with Ret payload => payload | _ => EmptyString end in
      hex_encode (sha1 (bytes_of (Schema table ++ "." ++ Name table ++ ":" ++ payload)))
  end.

(** ** es_writer.go *)
Definition documentURL (index id : string) : string :=
  (ESAddr cfg ++ "/" ++ PathEscape index ++ "/_doc/" ++ PathEscape id)%string.

Definition do (method url body : string) : M S unit :=
  let! resp := http_Do method url body in
  let '(StatusCode, text) := resp in
  if (StatusCode =? 404) && String.eqb method "DELETE" then ret tt
  else if 400 <=? StatusCode then
    fail (ENew ("status=" ++ FormatInt StatusCode ++ " body=" ++ TrimSpace (substring 0 8192 text)))
  else ret tt.

Definition Ping : M S unit :=
  with_err (EWrap "build es ping request: ") (http_Parse (ESAddr cfg)) ;;;
  let! resp := with_err (EWrap "ping elasticsearch: ") (http_Do "GET" (ESAddr cfg) "") in
  let '(StatusCode, text) := resp in
  if 400 <=? StatusCode then
    fail (ENew ("ping elasticsearch status=" ++ FormatInt StatusCode ++ " body=" ++
                TrimSpace (substring 0 4096 text)))
  else ret tt.

Definition Upsert (index id : string) (doc : gmap string value) : M S unit :=
  let! payload := with_err (EWrap "marshal es document: ") (lift_res (marshal (Some doc))) in
  with_err (EWrap "build es upsert request: ") (http_Parse (documentURL index id)) ;;;
  with_err (EWrap "upsert elasticsearch document: ") (do "PUT" (documentURL index id) payload).

Definition Delete (index id : string) : M S unit :=
  with_err (EWrap "build es delete request: ") (http_Parse (documentURL index id)) ;;;
  with_err (EWrap "delete elasticsearch document: ") (do "DELETE" (documentURL index id) "").

(** ** handler.go, the events *)
Definition upsert_row (table : Table) (row : list cell) : M S unit :=
  let! now := cdc_now in
  Upsert (LogicalIndexName cfg (Name table)) (documentID table row) (rowToDocument table row now).
Definition delete_row (table : Table) (row : list cell) : M S unit :=
  Delete (LogicalIndexName cfg (Name table)) (documentID table row).

Definition sync_error (what : string) (table : Table) (err : gerr) : gerr :=
  EWrap (what ++ " " ++ Schema table ++ "." ++ Name table ++ ": ") err.

(** The rows of an update come in pairs, old and new; an odd last row is ignored. *)
Fixpoint update_rows (table : Table) (rows : list (list cell)) : M S unit :=
  match rows with
  | oldRow :: newRow :: rest =>
      (if String.eqb (documentID table oldRow) (documentID table newRow) then ret tt
       else with_err (sync_error "delete stale document" table) (delete_row table oldRow)) ;;;
      with_err (sync_error "update sync" table) (upsert_row table newRow) ;;;
      update_rows table rest
  | _ => ret tt
  end.

Definition OnRow (e : option RowsEvent) : M S unit :=
  match e with
  | None => ret tt
  | Some e =>
      match re_Table e with
      | None => ret tt
      | Some table =>
          match re_Action e with
          | InsertAction => for_each (re_Rows e) (fun row => with_err (sync_error "insert sync" table) (upsert_row table row))
          | DeleteAction => for_each (re_Rows e) (fun row => with_err (sync_error "delete sync" table) (delete_row table row))
          | UpdateAction => update_rows table (re_Rows e)
          | OtherAction _ => ret tt
          end
      end
  end.
End Handler.
