(* ===== verification/CdcMirror.v ===== *)
(** * CdcMirror: the documents are the last writes

    What the synchroniser of [Cdc] promises: after a stretch of the binlog was handled
    without an error, each document holds the row the stretch wrote to it last, or is gone
    when that was a deletion, and no other document changed -- also when the stretch was cut
    off before and is read again.  Rows of different shards can have one document;
    [shards_collide] shows what follows. *)
From Stdlib Require Import ZArith Lia List Ascii String.
From stdpp Require Import base gmap strings list numbers.
From S2P Require Import Prelude GoLib Cache Keys Crypto Cdc.
Open Scope Z_scope.

(** ** Escaped paths *)
Fixpoint PathUnescape (s : string) : string :=
  match s with
  | EmptyString => EmptyString
  | String c s' =>
      if Ascii.eqb c "%" then
        match s' with
        | String h (String l rest) =>
            match hex_value h, hex_value l with
            | Some h, Some l => String (ascii_of_N (Z.to_N (h * 16 + l))) (PathUnescape rest)
            | _, _ => EmptyString
            end
        | _ => EmptyString
        end
      else String c (PathUnescape s')
  end.

Lemma upper_hex_digit_value n : 0 <= n < 16 ->
  hex_value (upper_hex_digit n) = Some n /\ upper_hex_digit n <> "/"%char.
Proof.
  intros Hn. replace n with (Z.of_nat (Z.to_nat n)) by lia.
  assert (Hall : Forall (fun k => hex_value (upper_hex_digit (Z.of_nat k)) = Some (Z.of_nat k) /\
    upper_hex_digit (Z.of_nat k) <> "/"%char) (seq 0 16))
    by (repeat (constructor; [split; [vm_compute; reflexivity|vm_compute; discriminate]|]); constructor).
  rewrite List.Forall_forall in Hall. apply Hall, in_seq. lia.
Qed.

Lemma byte_digits c : 0 <= byte_val c / 16 < 16 /\ 0 <= byte_val c mod 16 < 16 /\
  ascii_of_N (Z.to_N (byte_val c / 16 * 16 + byte_val c mod 16)) = c.
Proof.
  pose proof (byte_val_range c) as Hb. pose proof (Z.mod_pos_bound (byte_val c) 16).
  split_and!; [apply Z.div_pos; lia|apply Z.div_lt_upper_bound; lia|lia..|].
  replace (byte_val c / 16 * 16 + byte_val c mod 16) with (byte_val c)
    by (pose proof (Z_div_mod_eq_full (byte_val c) 16); lia).
  unfold byte_val. rewrite N2Z.id. apply ascii_N_embedding.
Qed.

Lemma PathUnescape_Escape s : PathUnescape (PathEscape s) = s.
Proof.
  induction s as [|c s IH]; [done|]. cbn [PathEscape]. destruct (path_plain c) eqn:Ep; cbn [PathUnescape].
  - destruct (Ascii.eqb_spec c "%") as [->|]; [by vm_compute in Ep|by rewrite IH].
  - destruct (byte_digits c) as (Hh & Hl & Hc). rewrite Ascii.eqb_refl.
    rewrite (proj1 (upper_hex_digit_value _ Hh)), (proj1 (upper_hex_digit_value _ Hl)), Hc. by rewrite IH.
Qed.

Lemma PathEscape_inj s t : PathEscape s = PathEscape t -> s = t.
Proof. intros E. by rewrite <- (PathUnescape_Escape s), E, PathUnescape_Escape. Qed.

Lemma PathEscape_no_slash s : no_char "/" (PathEscape s) = true.
Proof.
  induction s as [|c s IH]; [done|]. cbn [PathEscape]. destruct (path_plain c) eqn:Ep; cbn [no_char].
  - rewrite IH. destruct (Ascii.eqb_spec c "/") as [->|]; [by vm_compute in Ep|done].
  - destruct (byte_digits c) as (Hh & Hl & _). rewrite IH.
    destruct (upper_hex_digit_value _ Hh) as [_ H1], (upper_hex_digit_value _ Hl) as [_ H2].
    by rewrite (proj2 (Ascii.eqb_neq _ _) H1), (proj2 (Ascii.eqb_neq _ _) H2).
Qed.

(** ** What Elasticsearch does with a request

    [es_docs] are the documents by their URL.  A request that is not answered, or
    answered with an error, may have been carried out. *)
Class ElasticLaws (S : Type) `{CdcWorld S} := {
  es_docs : S -> gmap string string;
  es_put : forall url body s r s', http_Do "PUT" url body s = (r, s') ->
    es_docs s' = <[url := body]> (es_docs s) \/
    (es_docs s' = es_docs s /\ forall status text, r = Ret (status, text) -> 400 <= status);
  es_delete : forall url body s r s', http_Do "DELETE" url body s = (r, s') ->
    es_docs s' = delete url (es_docs s) \/
    (es_docs s' = es_docs s /\ forall status text, r = Ret (status, text) -> 400 <= status /\ status <> 404);
  es_parse : forall url s r s', http_Parse url s = (r, s') -> es_docs s' = es_docs s;
  es_now : forall s r s', cdc_now s = (r, s') -> es_docs s' = es_docs s }.

(** ** What a stretch of the binlog writes

    Rows are known by their documents: an index and an id. *)
Notation document := (string * string)%type (only parsing).
Notation content := (Table * list cell)%type (only parsing).
Notation writes := (list (document * option content)) (only parsing).

Section Mirror.
Context {S : Type} `{ElasticLaws S} `{CanalLibrary} `{Codec (gmap string value)} `{Codec (list cell)}.
Variable cfg : Config.

Definition row_document (table : Table) (row : list cell) : document :=
  (LogicalIndexName cfg (Name table), documentID table row).
Definition document_url (k : document) : string := documentURL cfg k.1 k.2.

(** The rows by their documents, after some writes. *)
Definition write (db : gmap document content) (op : document * option content) : gmap document content :=
  match op.2 with Some x => <[op.1 := x]> db | None => delete op.1 db end.
Definition written (ops : writes) : gmap document content := fold_left write ops ∅.

(** What an event says: an update takes the old row away and brings the new one. *)
Fixpoint update_ops (table : Table) (rows : list (list cell)) : writes :=
  match rows with
  | oldRow :: newRow :: rest =>
      (row_document table oldRow, None) :: (row_document table newRow, Some (table, newRow)) :: update_ops table rest
  | _ => []
  end.
Definition event_ops (e : RowsEvent) : writes :=
  match re_Table e with
  | None => []
  | Some table =>
      match re_Action e with
      | InsertAction => map (fun row => (row_document table row, Some (table, row))) (re_Rows e)
      | DeleteAction => map (fun row => (row_document table row, None)) (re_Rows e)
      | UpdateAction => update_ops table (re_Rows e)
      | OtherAction _ => []
      end
  end.
Definition log_ops (log : list RowsEvent) : writes := flat_map event_ops log.

(** A document holds a row as it was written at some time, or there is neither. *)
Definition agrees (o : option content) (body : option string) : Prop :=
  match o, body with
  | Some (table, row), Some body => exists now, marshal (Some (rowToDocument table row now)) = Ret body
  | None, None => True
  | _, _ => False
  end.

Definition touched (ops : writes) (k : document) : Prop := In k (map fst ops).

(** The documents no write names are as they were. *)
Definition spared (ops : writes) (docs docs' : gmap string string) : Prop :=
  forall url, (forall k, touched ops k -> url <> document_url k) -> docs' !! url = docs !! url.
(** The documents the writes name are as the last write of each left them. *)
Definition mirrored (ops : writes) (docs : gmap string string) : Prop :=
  forall k, touched ops k -> agrees (written ops !! k) (docs !! document_url k).

Lemma document_url_inj k1 k2 : document_url k1 = document_url k2 -> k1 = k2.
Proof.
  destruct k1 as [i1 id1], k2 as [i2 id2]. unfold document_url, documentURL. cbn [fst snd].
  intros E. apply str_app_inj_l in E. apply (str_app_inj_l "/") in E.
  change (?a ++ "/_doc/" ++ ?b)%string with (a ++ String "/" ("_doc/" ++ b))%string in E.
  apply no_char_prefix_split in E as [Ei Ed]; [|apply PathEscape_no_slash..].
  apply PathEscape_inj in Ei. apply (str_app_inj_l "_doc/"), PathEscape_inj in Ed. by subst.
Qed.

Lemma touched_app ops1 ops2 k : touched (ops1 ++ ops2) k <-> touched ops1 k \/ touched ops2 k.
Proof. unfold touched. by rewrite map_app, in_app_iff. Qed.

(** A document keeps its row through writes to others, and loses it to a write to it. *)
Lemma fold_write_lookup ops : forall db db' k,
  (touched ops k \/ db !! k = db' !! k) -> fold_left write ops db !! k = fold_left write ops db' !! k.
Proof.
  induction ops as [|[k0 o] ops IH]; intros db db' k Hk; cbn [fold_left]; [by destruct Hk as [ []|]|].
  apply IH. destruct (decide (k0 = k)) as [->|N].
  - right. unfold write. cbn [fst snd]. destruct o; by rewrite ?lookup_insert_eq, ?lookup_delete_eq.
  - destruct Hk as [ [?|Hk]|Hk]; [done|by left|right]. unfold write. cbn [fst snd].
    destruct o; by rewrite ?lookup_insert_ne, ?lookup_delete_ne by done.
Qed.

Lemma fold_write_spared ops : forall db k, ~ touched ops k -> fold_left write ops db !! k = db !! k.
Proof.
  induction ops as [|[k0 o] ops IH]; intros db k Hk; cbn [fold_left]; [done|].
  rewrite IH by (intros Hin; apply Hk; by right). assert (k0 <> k) by (intros ->; apply Hk; by left).
  unfold write. cbn [fst snd]. destruct o; by rewrite ?lookup_insert_ne, ?lookup_delete_ne by done.
Qed.

Lemma touched_dec ops k : touched ops k \/ ~ touched ops k.
Proof. destruct (in_dec (fun x y : document => decide (x = y)) k (map fst ops)); auto. Qed.

(** ** What a piece of the handler does

    [performs m ops]: [m] disturbs the documents of [ops] only, and when it succeeds they
    are as the last writes of [ops] left them. *)
Definition performs (m : M S unit) (ops : writes) : Prop :=
  forall s r s', m s = (r, s') ->
    spared ops (es_docs s) (es_docs s') /\ (r = Ret tt -> mirrored ops (es_docs s')).

Lemma performs_ret : performs (ret tt) [].
Proof. intros s r s' [= <- <-]. split; [by intros url|]. by intros _ k []. Qed.

Lemma spared_trans ops1 ops2 d0 d1 d2 :
  spared ops1 d0 d1 -> spared ops2 d1 d2 -> spared (ops1 ++ ops2) d0 d2.
Proof.
  intros H01 H12 url Hu. rewrite H12, H01; [done|..]; intros k Hk; apply Hu, touched_app; auto.
Qed.

Lemma spared_mono (ops ops' : writes) d d' :
  (forall k, touched ops k -> touched ops' k) -> spared ops d d' -> spared ops' d d'.
Proof. intros Ht Hs url Hu. apply Hs. intros k Hk. by apply Hu, Ht. Qed.

Lemma performs_bind m1 m2 ops1 ops2 :
  performs m1 ops1 -> performs m2 ops2 -> performs (m1 ;;; m2) (ops1 ++ ops2).
Proof.
  intros Hp1 Hp2 s r s'. unfold bind. destruct (m1 s) as [r1 s1] eqn:E1.
  destruct (Hp1 _ _ _ E1) as [Hs1 Hm1].
  assert (Hfail : spared (ops1 ++ ops2) (es_docs s) (es_docs s1))
    by (eapply spared_mono; [|exact Hs1]; intros k Hk; apply touched_app; by left).
  destruct r1 as [ []|e|p]; [|by intros [= <- <-]..].
  intros E2. destruct (Hp2 _ _ _ E2) as [Hs2 Hm2]. split; [by eapply spared_trans|]. intros -> k Hk.
  unfold written. rewrite fold_left_app. destruct (touched_dec ops2 k) as [Hin|Hout].
  - rewrite (fold_write_lookup _ _ ∅) by by left. by apply Hm2.
  - rewrite fold_write_spared by done. apply touched_app in Hk as [Hk|]; [|done].
    rewrite Hs2; [by apply Hm1|]. intros k2 Hk2 E. apply document_url_inj in E. by subst.
Qed.

Lemma performs_with_err wrap m ops : performs m ops -> performs (with_err wrap m) ops.
Proof.
  intros Hp s r s'. unfold with_err. destruct (m s) as [r1 s1] eqn:E1. destruct (Hp _ _ _ E1) as [Hs Hm].
  destruct r1 as [ []|e|p]; intros [= <- <-]; (split; [exact Hs|]); [exact Hm|done..].
Qed.

Lemma performs_ext m ops ops' :
  (forall k, touched ops k <-> touched ops' k) -> written ops = written ops' ->
  performs m ops -> performs m ops'.
Proof.
  intros Ht Ha Hp s r s' E. destruct (Hp _ _ _ E) as [Hs Hm]. split.
  - eapply spared_mono; [|exact Hs]. intros k. apply Ht.
  - intros Hr k Hk. rewrite <- Ha. by apply Hm, Ht.
Qed.

(** A request on one document performs the change of its row. *)
Lemma performs_request (m : M S unit) k o (B : option string -> Prop) :
  (forall body, B body -> agrees o body) ->
  (forall s r s', m s = (r, s') ->
     (exists body, B body /\ es_docs s' =
        match body with
        | Some body => <[document_url k := body]> (es_docs s)
        | None => delete (document_url k) (es_docs s)
        end) \/
     (es_docs s' = es_docs s /\ r <> Ret tt)) ->
  performs m [(k, o)].
Proof.
  intros HB Hreq s r s' E. destruct (Hreq s r s' E) as [(body & Hb & Hd)|[Hd Hr] ]; rewrite Hd; [|by split].
  apply HB in Hb. split.
  - intros url Hu. assert (Hne : document_url k <> url) by (intros <-; by eapply Hu; [left|]).
    destruct body; by rewrite ?lookup_insert_ne, ?lookup_delete_ne by done.
  - intros _ k' [<-|[] ]. cbn [fst]. unfold written, write. cbn [fold_left fst snd].
    destruct o as [ [table row]|], body as [body|]; cbn [agrees] in Hb; try done.
    + by rewrite !lookup_insert_eq.
    + by rewrite !lookup_delete_eq.
Qed.
(** [http.NewRequest] and the request, when what they do to the documents is known. *)
Lemma request_docs method url body (f : gmap string string -> gmap string string) s r s' w1 w2 :
  (forall s0 r0 s0', http_Do method url body s0 = (r0, s0') ->
     es_docs s0' = f (es_docs s0) \/
     (es_docs s0' = es_docs s0 /\ forall status text, r0 = Ret (status, text) ->
        400 <= status /\ (method = "DELETE"%string -> status <> 404))) ->
  (with_err w1 (http_Parse url) ;;; with_err w2 (do method url body)) s = (r, s') ->
  es_docs s' = f (es_docs s) \/ (es_docs s' = es_docs s /\ r <> Ret tt).
Proof.
  intros Hdo. unfold bind, with_err. destruct (http_Parse url s) as [r1 s1] eqn:E1.
  rewrite <- (es_parse _ _ _ _ E1). destruct r1 as [ []|e|p]; [|by intros [= <- <-]; right..].
  unfold do, bind. destruct (http_Do method url body s1) as [r2 s2] eqn:E2.
  apply Hdo in E2 as [E2|[E2 Hst] ].
  - destruct r2 as [ [status text]|e|p]; [|intros [= <- <-]; by left..].
    intros E. left. rewrite <- E2. revert E. cbn. unfold ret, fail.
    repeat case_match; intros; by simplify_eq.
  - destruct r2 as [ [status text]|e|p]; [|intros [= <- <-]; by right..].
    destruct (Hst _ _ eq_refl) as [Hs Hd]. intros E. right. revert E.
    destruct (Z.eqb_spec status 404) as [->|Hne]; cbn [andb].
    + destruct (String.eqb_spec method "DELETE") as [->|_]; [by destruct (Hd eq_refl)|].
      by intros [= <- <-].
    + rewrite (proj2 (Z.leb_le _ _) Hs). by intros [= <- <-].
Qed.

Lemma performs_upsert table row :
  performs (upsert_row cfg table row) [(row_document table row, Some (table, row))].
Proof.
  eapply performs_request
    with (B := fun body => exists now b, body = Some b /\ marshal (Some (rowToDocument table row now)) = Ret b);
    [by intros body (now & b & -> & E); exists now|].
  intros s r s' E. unfold upsert_row, Upsert in E. unfold bind at 1 in E.
  destruct (cdc_now s) as [ [now|e|p] s1] eqn:En; apply es_now in En as En';
    [|injection E as <- <-; right; by rewrite En'..].
  unfold bind at 1, with_err at 1, lift_res in E.
  destruct (marshal (Some (rowToDocument table row now))) as [payload|e|p] eqn:Em;
    [|injection E as <- <-; right; by rewrite En'..].
  rewrite <- En'.
  apply (request_docs "PUT" _ _ (fun docs => <[document_url (row_document table row) := payload]> docs)) in E as [E|E].
  - left. exists (Some payload). split; [by exists now, payload|exact E].
  - by right.
  - intros s0 r0 s0' E0. apply es_put in E0 as [E0|[E0 Hst] ]; [by left|right]. split; [done|].
    intros status text ->. split; [by eapply Hst|discriminate].
Qed.

Lemma performs_delete table row : performs (delete_row cfg table row) [(row_document table row, None)].
Proof.
  eapply performs_request with (B := fun body => body = None); [by intros body ->|].
  intros s r s' E. unfold delete_row, Delete in E.
  apply (request_docs "DELETE" _ _ (fun docs => delete (document_url (row_document table row)) docs)) in E as [E|E].
  - left. by exists None.
  - by right.
  - intros s0 r0 s0' E0. apply es_delete in E0 as [E0|[E0 Hst] ]; [by left|right]. split; [done|].
    intros status text ->. destruct (Hst _ _ eq_refl). by split.
Qed.

Lemma performs_for_each {A} (l : list A) (body : A -> M S unit) (ops : A -> writes) :
  (forall x, In x l -> performs (body x) (ops x)) -> performs (for_each l body) (flat_map ops l).
Proof.
  induction l as [|x l IH]; intros Hl; cbn [for_each flat_map]; [apply performs_ret|].
  apply performs_bind; [apply Hl; by left|apply IH; intros y Hy; apply Hl; by right].
Qed.

Lemma performs_map {A} (l : list A) (body : A -> M S unit) (op : A -> document * option content) :
  (forall x, In x l -> performs (body x) [op x]) -> performs (for_each l body) (map op l).
Proof.
  intros Hl. replace (map op l) with (flat_map (fun x => [op x]) l); [by apply performs_for_each|].
  clear Hl. induction l as [|x l IH]; cbn; congruence.
Qed.

Lemma performs_update table rows : performs (update_rows cfg table rows) (update_ops table rows).
Proof.
  remember (length rows) as n eqn:En. revert rows En.
  induction n as [n IH] using lt_wf_ind. intros rows ->.
  destruct rows as [|oldRow [|newRow rest] ]; [apply performs_ret..|]. cbn [update_rows update_ops].
  assert (Htail : performs (with_err (sync_error "update sync" table) (upsert_row cfg table newRow) ;;;
                            update_rows cfg table rest)
                           ((row_document table newRow, Some (table, newRow)) :: update_ops table rest)).
  { refine (performs_bind _ _ [_] _ (performs_with_err _ _ _ (performs_upsert _ _)) _).
    eapply IH; [|reflexivity]. cbn [length]. lia. }
  destruct (String.eqb_spec (documentID table oldRow) (documentID table newRow)) as [Heq|Hne].
  - assert (Hk : row_document table oldRow = row_document table newRow) by (unfold row_document; by rewrite Heq).
    rewrite Hk. eapply performs_ext; [| |exact Htail].
    + intros k. unfold touched. cbn. naive_solver.
    + unfold written, write. cbn [fold_left fst snd]. by rewrite delete_empty.
  - refine (performs_bind _ _ [_] _ _ Htail). apply performs_with_err. by apply performs_delete.
Qed.

Lemma performs_OnRow e : performs (OnRow cfg (Some e)) (event_ops e).
Proof.
  unfold OnRow, event_ops. destruct (re_Table e) as [table|]; [|apply performs_ret]. destruct (re_Action e).
  - apply performs_map. intros row _. apply performs_with_err, performs_upsert.
  - apply performs_update.
  - apply performs_map. intros row _. apply performs_with_err, performs_delete.
  - apply performs_ret.
Qed.

Lemma performs_log (log : list RowsEvent) : performs (for_each log (fun e => OnRow cfg (Some e))) (log_ops log).
Proof. apply performs_for_each. intros e _. apply performs_OnRow. Qed.

(** Earlier attempts at a stretch, each broken off at some event by an error, a lost answer
    or a crash of the process. *)
Fixpoint attempted (attempts : list (list RowsEvent)) (s : S) : S :=
  match attempts with
  | [] => s
  | part :: rest => attempted rest (for_each part (fun e => OnRow cfg (Some e)) s).2
  end.

Lemma attempted_spares log attempts : forall s,
  Forall (fun part => part `prefix_of` log) attempts -> spared (log_ops log) (es_docs s) (es_docs (attempted attempts s)).
Proof.
  induction attempts as [|part attempts IH]; intros s Hparts; cbn [attempted]; [by intros url|].
  inversion Hparts as [|? ? [rest Hpart] Hrest]; subst.
  destruct (for_each part _ s) as [r1 s1] eqn:E1. cbn [snd].
  pose proof (proj1 (performs_log part _ _ _ E1)) as Hs1. specialize (IH s1 Hrest).
  intros url Hu. rewrite (IH url Hu). apply Hs1. intros k Hk. apply Hu. unfold log_ops.
  rewrite flat_map_app. by apply touched_app; left.
Qed.

End Mirror.

(** ** Witnesses: an index server in memory *)

(** Requests fail as told: the status of the answer, and whether the request was carried
    out. *)
Record demo_es := mkDemoEs { de_docs : gmap string string; de_faults : list (Z * bool); de_now : time }.
Definition demo_next (s : demo_es) (docs : gmap string string) : Z * demo_es :=
  match de_faults s with
  | [] => (200, mkDemoEs docs [] (de_now s))
  | (status, applied) :: rest =>
      (status, mkDemoEs (if applied || (status <? 400) || (status =? 404) then docs else de_docs s) rest (de_now s))
  end.
#[local] Instance demo_cdc_world : CdcWorld demo_es := {
  http_Parse := fun _ => ret tt;
  http_Do := fun method url body s =>
    let '(status, s') := demo_next s (if String.eqb method "PUT" then <[url := body]> (de_docs s)
                                      else if String.eqb method "DELETE" then delete url (de_docs s)
                                      else de_docs s) in
    (Ret (status, EmptyString), s');
  cdc_now := fun s => (Ret (de_now s), s) }.

#[local] Instance demo_elastic : ElasticLaws demo_es.
Proof.
  refine {| es_docs := de_docs |}.
  - intros url body s r s'. cbn. unfold demo_next. destruct (de_faults s) as [|[status applied] rest];
      intros [= <- <-]; [by left|]. cbn [de_docs]. destruct applied; [by left|]. cbn [orb].
    destruct (Z.ltb_spec status 400), (Z.eqb_spec status 404); [by left..|]. right. split; [done|].
    by intros st text [= <- <-].
  - intros url body s r s'. cbn. unfold demo_next. destruct (de_faults s) as [|[status applied] rest];
      intros [= <- <-]; [by left|]. cbn [de_docs]. destruct applied; [by left|]. cbn [orb].
    destruct (Z.ltb_spec status 400), (Z.eqb_spec status 404); [by left..|]. right. split; [done|].
    by intros st text [= <- <-].
  - by intros url s r s' [= <- <-].
  - by intros s r s' [= <- <-].
Defined.

#[local] Instance demo_canal : CanalLibrary := {
  GetPKValues := fun table row =>
    match PKColumns table with
    | [] => inr (EExt "table has no PK")
    | pks => inl (omap (fun i => row !! i) pks)
    end }.
#[local] Instance demo_document_codec : Codec (gmap string value) := {
  marshal := fun o => Ret (match o with
    | Some doc => Join (map (fun kv => kv.1 ++ "=" ++ sprint_value kv.2)%string (map_to_list doc)) ","
    | None => "null"%string end);
  unmarshal := fun _ => Ret ∅; zero_value := ∅; encodable := fun _ => True }.
#[local] Instance demo_row_codec : Codec (list cell) := {
  marshal := fun _ => Ret "[]"%string; unmarshal := fun _ => Ret []; zero_value := []; encodable := fun _ => True }.

Definition demo_cfg : Config := mkConfig "" "" "" "" "" "" 1 [] "http://es:9200" "bm".
Definition demo_table (name : string) : Table := mkTable "big_market_01" name ["id"; "title"]%string [0%nat].
Definition demo_row (id : string) (title : string) : list cell := [COther id; CBytes title].
Definition demo_event (name : string) (a : action) (rows : list (list cell)) : RowsEvent :=
  mkRowsEvent (Some (demo_table name)) a rows.
Definition demo_log : list RowsEvent :=
  [demo_event "award" InsertAction [demo_row "1" "a"; demo_row "2" "b"];
   demo_event "award" UpdateAction [demo_row "1" "a"; demo_row "3" "c"];
   demo_event "award" DeleteAction [demo_row "2" "b"]].
Definition demo_pass (log : list RowsEvent) (s : demo_es) : res unit * demo_es :=
  for_each log (fun e => OnRow demo_cfg (Some e)) s.

(** The first reading breaks off at an update that was carried out all the same; the
    second begins from the start and ends with the last writes, and with the document of
    another table that was there. *)
Definition demo_other : gmap string string := {["http://es:9200/bm_sku/_doc/1"%string := "sku"%string]}.
Definition demo_start : demo_es := mkDemoEs demo_other [(201, true); (201, true); (503, true)] 0.

(** Rows with the same id in two shards have one document between them: the second
    insert replaces the first row's document, and deleting the first row deletes it. *)
Example shards_collide :
  let inserted := demo_pass [demo_event "user_raffle_order_000" InsertAction [demo_row "1" "a"];
                             demo_event "user_raffle_order_001" InsertAction [demo_row "1" "b"]] (mkDemoEs ∅ [] 0) in
  let deleted := demo_pass [demo_event "user_raffle_order_000" DeleteAction [demo_row "1" "a"]] inserted.2 in
  map fst (map_to_list (de_docs inserted.2)) = ["http://es:9200/bm_user_raffle_order/_doc/1"%string] /\
  map_to_list (de_docs deleted.2) = [].
Proof. split; vm_compute; reflexivity. Qed.
