(* ===== verification/CdcRun.v ===== *)
(** * CdcRun: the synchroniser as a process

    [internal/cdc/syncer.go] and [cmd/cdc-sync/main.go], with [time.ParseDuration] for the
    read timeout.  The canal client is [CanalClient]: it hands the row events of the
    binlog to the handler in order, until one fails. *)
From Stdlib Require Import ZArith Lia List Ascii String.
From stdpp Require Import base gmap strings list numbers.
From S2P Require Import Prelude GoLib Model Env Cache Cdc CdcMirror.
Open Scope Z_scope.

(** ** [time.ParseDuration] *)
Definition quote_text (s : string) : string :=
  String (ascii_of_N 34) (s ++ String (ascii_of_N 34) EmptyString).
Definition digit_val (c : ascii) : Z := byte_val c - 48.

(** The digits in front: the number, [None] when it is above [1<<63], and the rest. *)
Fixpoint leadingInt (s : string) (x : Z) : option (Z * string) :=
  match s with
  | String c s' =>
      if is_digit c then
        if 2 ^ 63 / 10 <? x then None
        else let x := x * 10 + digit_val c in
             if 2 ^ 63 <? x then None else leadingInt s' x
      else Some (x, s)
  | EmptyString => Some (x, s)
  end.

(** The digits after the point: digits that do not fit are dropped. *)
Fixpoint leadingFraction (s : string) (x scale : Z) (overflow : bool) : Z * Z * string :=
  match s with
  | String c s' =>
      if is_digit c then
        if overflow then leadingFraction s' x scale overflow
        else if (2 ^ 63 - 1) / 10 <? x then leadingFraction s' x scale true
        else
          let y := x * 10 + digit_val c in
          if 2 ^ 63 <? y then leadingFraction s' x scale true
          else leadingFraction s' y (scale * 10) overflow
      else (x, scale, s)
  | EmptyString => (x, scale, s)
  end.

(** The letters of a unit. *)
Fixpoint take_unit (s : string) : string * string :=
  match s with
  | String c s' =>
      if Ascii.eqb c "." || is_digit c then (EmptyString, s)
      else let '(u, rest) := take_unit s' in (String c u, rest)
  | EmptyString => (EmptyString, EmptyString)
  end.

Definition Microsecond : Z := 1000.
Definition unitMap (u : string) : option Z :=
  if String.eqb u "ns" then Some 1
  else if String.eqb u "us" then Some Microsecond
  else if String.eqb u "µs" then Some Microsecond
  else if String.eqb u "μs" then Some Microsecond
  else if String.eqb u "ms" then Some 1000000
  else if String.eqb u "s" then Some Second
  else if String.eqb u "m" then Some Minute
  else if String.eqb u "h" then Some Hour
  else None.

Definition invalid_duration (orig : string) : gerr := ENew ("time: invalid duration " ++ quote_text orig).

(** The loop; each round consumes at least a unit, so the length of the text is fuel
    enough.  [d] is below [2^64]. *)
Fixpoint duration_parts (fuel : nat) (orig s : string) (d : Z) : res Z :=
  match fuel with
  | O => Fail (invalid_duration orig)
  | S fuel =>
      match s with
      | EmptyString => Ret d
      | String c _ =>
          if negb (Ascii.eqb c "." || is_digit c) then Fail (invalid_duration orig)
          else
            match leadingInt s 0 with
            | None => Fail (invalid_duration orig)
            | Some (v, s1) =>
                let pre := negb (Nat.eqb (String.length s1) (String.length s)) in
                let '(f, scale, s2, post) :=
                  match s1 with
                  | String "." s' =>
                      let '(f, scale, s'') := leadingFraction s' 0 1 false in
                      (f, scale, s'', negb (Nat.eqb (String.length s'') (String.length s')))
                  | _ => (0, 1, s1, false)
                  end in
                if negb pre && negb post then Fail (invalid_duration orig)
                else
                  let '(u, s3) := take_unit s2 in
                  if String.eqb u EmptyString
                  then Fail (ENew ("time: missing unit in duration " ++ quote_text orig))
                  else
                    match unitMap u with
                    | None => Fail (ENew ("time: unknown unit " ++ quote_text u ++ " in duration " ++ quote_text orig))
                    | Some unit =>
                        if 2 ^ 63 / unit <? v then Fail (invalid_duration orig)
                        else
                          let v := v * unit in
                          let v := if 0 <? f
                                   then v + float_to_int (fmul (float_of_Z f) (fdiv (float_of_Z unit) (float_of_Z scale)))
                                   else v in
                          if 2 ^ 63 <? v then Fail (invalid_duration orig)
                          else
                            let d := (d + v) mod 2 ^ 64 in
                            if 2 ^ 63 <? d then Fail (invalid_duration orig)
                            else duration_parts fuel orig s3 d
                    end
            end
      end
  end.

Definition ParseDuration (orig : string) : res Z :=
  let '(neg, s) :=
    match orig with
    | String c s' => if Ascii.eqb c "-" then (true, s') else if Ascii.eqb c "+" then (false, s') else (false, orig)
    | EmptyString => (false, orig)
    end in
  if String.eqb s "0" then Ret 0
  else if String.eqb s EmptyString then Fail (invalid_duration orig)
  else
    let? d := duration_parts (S (String.length s)) orig s 0 in
    if neg then Ret (- d)
    else if 2 ^ 63 - 1 <? d then Fail (invalid_duration orig) else Ret d.

Example duration_30s : ParseDuration "30s" = Ret (30 * Second).
Proof. vm_compute. reflexivity. Qed.
Example duration_mixed : ParseDuration "-1h15m30.918273645s" = Ret (- (4530918273645)).
Proof. vm_compute. reflexivity. Qed.
Example duration_no_unit : ParseDuration "30" = Fail (ENew ("time: missing unit in duration " ++ quote_text "30")).
Proof. vm_compute. reflexivity. Qed.

(** ** The syncer *)

(** [canal.Config], the fields that are set. *)
Record CanalConfig := mkCanalConfig {
  ca_Addr : string;
  ca_User : string;
  ca_Password : string;
  ca_Charset : string;
  ca_Flavor : string;
  ca_ServerID : Z;
  ca_ReadTimeout : Z;
  ca_ParseTime : bool;
  ca_IncludeTableRegex : list string;
  ca_Dump_ExecutionPath : string }.

(** The client: [cn_Run] calls the handler set, [cn_binlog] is what there is to read. *)
Class CanalClient (S : Type) := {
  cn_NewCanal : CanalConfig -> M S nat;
  cn_Run : nat -> (option RowsEvent -> M S unit) -> M S unit;
  cn_Close : nat -> M S unit;
  cn_binlog : S -> list RowsEvent }.

Record Syncer (S : Type) := mkSyncer {
  sy_canal : option nat;
  sy_handler : option RowsEvent -> M S unit }.
Arguments mkSyncer {S}.
Arguments sy_canal {S}.
Arguments sy_handler {S}.

Section Syncer.
Context {S : Type} `{CdcWorld S} `{CanalClient S} `{CanalLibrary} `{Codec (gmap string value)} `{Codec (list cell)}.

Definition canal_config (cfg : Config) (readTimeout : Z) : CanalConfig :=
  mkCanalConfig (MySQLAddr cfg) (MySQLUser cfg) (MySQLPassword cfg) (MySQLCharset cfg) (MySQLFlavor cfg)
    (MySQLServerID cfg) readTimeout true (IncludeTableRegex cfg) EmptyString.

Definition NewSyncer (cfg : Config) (handler : option RowsEvent -> M S unit) : M S (Syncer S) :=
  let! readTimeout := with_err (EWrap "parse CDC_MYSQL_READ_TIMEOUT: ") (lift_res (ParseDuration (MySQLReadTimeout cfg))) in
  let canalCfg := canal_config cfg readTimeout in
  let! instance := with_err (EWrap "new canal: ") (cn_NewCanal canalCfg) in
  ret (mkSyncer (Some instance) handler).

Definition Syncer_Run (s : Syncer S) : M S unit :=
  let! canal := deref (sy_canal s) in cn_Run canal (sy_handler s).

Definition Syncer_Close (s : option (Syncer S)) : M S unit :=
  match s with
  | None => ret tt
  | Some s => match sy_canal s with None => ret tt | Some canal => cn_Close canal end
  end.

(** ** [main]: [log.Fatalf] ends the process without the deferred calls. *)
Definition fatal {A} (prefix : string) (m : M S A) : M S A :=
  let! r := attempt m in
  match r with inl a => ret a | inr err => panic (prefix ++ error_text err) end.

Definition cdc_main (Getenv : string -> string) : M S unit :=
  let! cfg := fatal "load cdc config: " (lift_res (LoadConfigFromEnv Getenv)) in
  fatal "ping elasticsearch: " (Ping cfg) ;;;
  let! syncInstance := fatal "new cdc syncer: " (NewSyncer cfg (OnRow cfg)) in
  fatal "run cdc syncer: sync loop exited: " (Syncer_Run syncInstance) ;;;
  Syncer_Close (Some syncInstance).
End Syncer.

(** ** What the process leaves *)
Class CanalClientLaws (S : Type) `{CanalClient S} `{ElasticLaws S} := {
  (** Events are handed over in order, up to some point. *)
  cn_Run_law : forall i h s r s', cn_Run i h s = (r, s') ->
    exists done rest r1 s1, cn_binlog s = done ++ rest /\
      for_each done (fun e => h (Some e)) s = (r1, s1) /\ es_docs s' = es_docs s1;
  cn_New_law : forall c s r s', cn_NewCanal c s = (r, s') -> es_docs s' = es_docs s /\ cn_binlog s' = cn_binlog s;
  cn_Close_law : forall i s r s', cn_Close i s = (r, s') -> es_docs s' = es_docs s;
  cn_ping : forall url s r s', http_Do "GET" url EmptyString s = (r, s') ->
    es_docs s' = es_docs s /\ cn_binlog s' = cn_binlog s;
  cn_parse : forall url s r s', http_Parse url s = (r, s') -> cn_binlog s' = cn_binlog s }.

Section Process.
Context {S : Type} `{CanalClientLaws S} `{!CanalLibrary} `{Codec (gmap string value)} `{Codec (list cell)}.

Lemma fatal_run {A} prefix (m : M S A) s r s' :
  fatal prefix m s = (r, s') -> exists r1, m s = (r1, s') /\ (forall a, r = Ret a -> r1 = Ret a).
Proof.
  unfold fatal, bind, attempt, ret, panic. destruct (m s) as [ [a|e|p] s1]; intros [= <- <-];
    eexists; (split; [reflexivity|]); intros; congruence.
Qed.

Lemma Ping_keeps cfg s r s' : Ping cfg s = (r, s') -> es_docs s' = es_docs s /\ cn_binlog s' = cn_binlog s.
Proof.
  unfold Ping, bind, with_err. destruct (http_Parse (ESAddr cfg) s) as [ [u|e|p] s1] eqn:E1;
    pose proof (es_parse _ _ _ _ E1) as D1; pose proof (cn_parse _ _ _ _ E1) as B1; cbn [fst snd];
    [|by intros [= _ <-]..].
  destruct (http_Do "GET" (ESAddr cfg) EmptyString s1) as [ [ [st text]|e|p] s2] eqn:E2;
    destruct (cn_ping _ _ _ _ E2) as [D2 B2]; [|intros [= _ <-]; split; congruence..].
  destruct (400 <=? st); intros [= _ <-]; split; congruence.
Qed.

(** However the process ends -- a configuration that is refused, a lost connection, an
    event that fails, a close -- no document changed but those the binlog names, so that
    the next start can read on. *)
Lemma cdc_main_keeps (Getenv : string -> string) (s : S) r s' :
  cdc_main Getenv s = (r, s') ->
  forall cfg, LoadConfigFromEnv Getenv = Ret cfg ->
  spared cfg (log_ops cfg (cn_binlog s)) (es_docs s) (es_docs s').
Proof.
  intros Hrun cfg Hload. assert (Hsame : forall docs, spared cfg (log_ops cfg (cn_binlog s)) docs docs) by by intros docs url.
  revert Hrun. unfold cdc_main. rewrite Hload. unfold bind at 1. unfold fatal at 1.
  unfold bind at 1, attempt at 1, lift_res at 1. unfold ret at 1.
  unfold bind at 1. destruct (fatal _ (Ping cfg) s) as [ [u|e|p] s1] eqn:E1;
    apply fatal_run in E1 as (x1 & E1 & _); apply Ping_keeps in E1 as [D1 B1];
    [|by intros [= _ <-]; rewrite D1..].
  unfold bind at 1. destruct (fatal _ (NewSyncer cfg (OnRow cfg)) s1) as [ [y|e|p] s2] eqn:E2;
    apply fatal_run in E2 as (x2 & E2 & X2).
  2, 3: intros [= _ <-]; revert E2; unfold NewSyncer, bind, with_err, lift_res;
    (destruct (ParseDuration _) as [d|e1|p1]; [|by intros [= _ <-]; rewrite D1..]);
    (match goal with |- context [cn_NewCanal ?c ?st] => destruct (cn_NewCanal c st) as [ [i|e1|p1] s3] eqn:E3 end);
    apply cn_New_law in E3 as [D3 B3]; intros [= _ <-]; by rewrite D3, D1.
  rewrite (X2 y eq_refl) in E2. revert E2. unfold NewSyncer, bind at 1 2, with_err, lift_res.
  destruct (ParseDuration _) as [d|e1|p1]; [|done..].
  match goal with |- context [cn_NewCanal ?c ?st] => destruct (cn_NewCanal c st) as [ [i|e1|p1] s3] eqn:E3 end; [|done..].
  apply cn_New_law in E3 as [D3 B3]. intros [= <- <-].
  unfold bind at 1. destruct (fatal _ (Syncer_Run _) s3) as [ [v|e|p] s4] eqn:E4;
    apply fatal_run in E4 as (x4 & E4 & _); cbn [Syncer_Run sy_canal sy_handler] in E4;
    apply cn_Run_law in E4 as (done_ & rest & r1 & s5 & Hb & Hf & D4).
  all: assert (Hk : spared cfg (log_ops cfg (cn_binlog s)) (es_docs s) (es_docs s4));
    [rewrite D4, <- D1, <- D3; rewrite B3, B1 in Hb;
     eapply spared_mono; [|exact (proj1 (performs_log cfg done_ _ _ _ Hf))];
     intros k Hin; unfold log_ops in *; rewrite Hb, flat_map_app; apply touched_app; by left|].
  - cbn [Syncer_Close sy_canal]. intros Hc. apply cn_Close_law in Hc. by rewrite Hc.
  - by intros [= _ <-].
  - by intros [= _ <-].
Qed.
End Process.
